(* ===== verification/_CoqProject ===== *)
-Q . S2P
Prelude.v
Base.v
Fields.v
Klist.v
Printk.v
PrintkLog.v
PrintkIrq.v
Uart.v
Mem.v
PageAlloc.v
Pgtable.v
Mmu.v
PtWalk.v
MmuMap.v
MmuBoot.v
Dump.v
Sched.v
SchedInv.v
Fork.v
Layout.v
Arm.v
Esr.v
Gic.v
CoreTimer.v
Devices.v
Stacks.v
Live.v
Traps.v
MainTests.v
Entry.v
Boot.v
Lds.v
Irq.v
Ticks.v
Preempt.v
Main.v
Run.v
