(* ===== verification/Prelude.v ===== *)
(** * YiOS: a verified model of a small arm64 kernel

    YiOS is a single-core kernel for the Raspberry Pi 4. [core/start.S] takes the first core from
    reset to EL1 and calls [kernel_main]. [init/main.c] brings up the
    serial port, the page allocator, the scheduler, the interrupt controller and the
    timer, and turns paging on. Interrupts enter through [core/entry.S], which calls
    [do_irq] and may preempt the running task. This library translates the C code and the
    assembly into executable definitions and proves the
    theorems that make each part correct.

    ** The files, in order

    - [Prelude]: integers at their width ([u8] ... [s64]), the outcome of running
      C ([Ret], [Undef] for undefined behaviour, [NoFuel] for a loop that did not end within
      its bound), the state monad [M] over outcomes with its loops and its rule of total
      correctness [wp], C arrays, and the arguments of a [printk] call.
    - [Base]: [types.h], [page.h], [config.h], [mm.h], [asm/base.h].
    - [Fields]: registers as lists of bit fields; fields that tile a register are read back as
      they were written.
    - [Klist]: [list.h]. Nodes are a map from addresses; [ring h head l] says that the
      list at [head] holds the sequence [l].
    - [Printk]: [kernel/printk.c]. An abstract formatter on segments ([seg]) is the
      specification; the class [Console] is what [printk] needs of [putchar].
    - [PrintkLog]: the log buffer with [init_printk_done].
    - [PrintkIrq]: [printk] over its static buffer, interrupted by a handler that prints.
    - [Uart]: [asm/io.h] and [drivers/serial/pl_uart.c]. Device registers are a history
      of accesses, and the device is a parameter; the port is an instance of [Console].
    - [Mem]: byte memory, [lib/string.c], [arch/arm64/lib/memset.S].
    - [PageAlloc]: [mm/page_alloc.c], refined to a set of allocated pages.
    - [Pgtable], [Mmu]: the page-table headers and [core/mmu.c].
    - [PtWalk]: the specification of page tables, the hardware's walk [translate] and the
      invariant that the tables are a tree.
    - [MmuMap]: the builder against the walk, for any allocator of the class [TableAlloc].
    - [MmuBoot]: [early_pgtable_alloc] is an instance of [TableAlloc]; the boot mappings.
    - [Dump]: [kernel/dump_pgtable.c] against the walk.
    - [Sched]: [kernel/sched.c], [kernel/sched_simple.c], [kernel/fork.c],
      [init/init_task.c], and [cpu_switch_to], [ret_from_fork] and the preemption test of
      [core/entry.S], over one record of the kernel's state.
    - [SchedInv]: the invariant of tasks, run queue and saved contexts, kept by each operation.
    - [Fork]: [do_fork] against the invariant, and the system as a step relation
      with its reachable states.
    - [Layout]: the layout of C structures, and [core/asm-offsets.c].
    - [Arm]: the processor as the assembly sees it, registers, stack, system registers and
      memory, with the instructions that the assembly uses.
    - [Esr]: [asm/esr.h].
    - [Gic]: [drivers/irqchips/gic_v2.c], [irq.c] and [mach-rpi4/timer.c]. The
      enabled interrupts are a function of the writes so far, as the GIC architecture
      defines them.
    - [CoreTimer]: [core/timer.c], a copy of the timer driver that is not built.
    - [Devices]: the register maps of [arm-gic.h], [asm/arm_local_reg.h], [asm/irq.h], and that
      the drivers access words of the device window only.
    - [Stacks]: what a switch of tasks changes of the saved contexts and stacks.
    - [Live]: interrupts of a timer that drives the scheduler as a sequence of steps, and that no runnable task starves.
    - [Traps]: [core/traps.c], [kernel/panic.c].
    - [MainTests]: the threads and the test accesses of [init/main.c].
    - [Entry]: [core/entry.S] over the processor of [Arm]: exception entry and exit, against
      the class [Callee] of what a C handler may do, and the context switch, which refines that of [Sched].
    - [Boot]: [core/start.S] and [core/early_uart.S] over the same processor.
    - [Lds]: the linker script [lds/vmyios.lds.S] as a run of the location counter over the sections of any objects. It
      gives what the other files assume of the linker's addresses.
    - [Irq]: the operations of [Sched] as programs of atomic actions ([prog]), [preempt_schedule_irq] among them, and the
      system as a step relation ([cstep]) in which an interrupt can be taken between any two of them.
    - [Ticks]: timer interrupts that drive the scheduler, taken while [schedule] or [preempt_schedule_irq] runs; a rule of
      total correctness ([wpi]) for programs under such interrupts.
    - [Preempt]: any number of tasks that are preempted in the middle of [schedule] and switched to again.
    - [Main]: [kernel_main] of [init/main.c] over the state of all components, and the run from
      reset to its last loop.
    - [Run]: interrupts in that loop, exceptions that are not handled, and the dump of the page tables, over the state of
      all components, with what is sent to the serial port.

    A definition has the name of the C function, type or macro it models; [f_body] is one
    iteration of the loop of [f].

    ** What the theorems show

    - The whole system (C5): from reset of the first core the boot code and every
      initialisation run to the last loop, the serial port has been sent exactly the intended text, and what the other
      theorems need holds there, on every image that the linker script lays out (C27). The boot code
      alone (C26), and what becomes of other cores and levels (C33). From there on, for ever
      (C6): interrupts return to the loop, and the port is sent one message for each of the timer's and nothing
      else; an exception without a handler is reported in full before the machine stops (C24).
    - Paging (C1, C2, C36, C29, C23, C25): the builder maps exactly the range asked for and nothing
      else; the boot tables map text, memory and devices each to itself, nothing both writable and
      executable; the registers are written in a safe order; the dump of the tables
      shows the descriptors at which the walk ends; a store past memory faults (C40).
    - Scheduling (C3, C4, C8, C10, C35,
      C13): the invariant of every reachable
      state; scheduling returns and runs the right task; forking and waiting;
      no runnable task waits for ever as long as interrupts are unmasked and the timer drives the scheduler.
    - Interleaving (C7, C16, C14, C15, C20): the interrupts of the kernel as it is built can fall anywhere and change
      nothing but the log; with a timer that drives the scheduler, ticks inside [schedule] are as good as ticks before or after it and
      tasks that call it can be preempted anywhere, and never twice at once, but preempted forks would share a page; a message that is
      interrupted by another is garbled in a way that is computed exactly.
    - Exceptions and context switches in assembly (C11, C12, C28): an interrupt leaves no trace in the registers of
      the kernel code it interrupts, nor of user code but for its stack pointer, which the frame does not hold; the
      instructions implement the model of the scheduler.
    - Allocation (C9, C31, C34): refinement to an abstract allocator,
      the pages past the end of memory.
    - Lists and memory (C17, C37, C38): refinement to sequences, byte-level
      behaviour of the string routines.
    - Output (C18, C19, C21, C30): the formatter implements its
      specification on the conversions that the kernel uses, the text of a number is given character by character and its
      loops end for all arguments, nothing is sent to a full FIFO.
    - The interrupt controller (C22) and exception reports
      (C39, C32): what is printed is what the syndrome says.

    Theorems without a number are further properties of the same kind: what the code does on an empty
    run queue, on formats it does not define, on ranges the dump does not end on, how the structures shared with the assembly are
    laid out, how a trapped system instruction is encoded, what one interrupt does to the controller, and what the smaller routines compute.

    ** Bounds and fuel

    A loop runs with a bound that its definition computes from the data: the pages, table
    entries or tasks it can visit, plus the test that ends it. The theorems are
    stated with [wp] or as an equation with [Ret], so that a loop that stopped at its bound
    would refute them. Three bounds are arguments: that of [list_for_each], enough when
    it exceeds the length of the list; that of the string routines, likewise; and
    [patience], the polls of the serial port, enough when the device clears the flag within
    it, which is the hypothesis [clears]. Three rounds of the pick loop are enough, as every
    time slice is positive after a refill. [panic], the threads and the last loop of [kernel_main] never return,
    for any bound. The boot code has two more bounds of this kind, for the characters of a text (more than
    its length) and the rounds of the loop in which the other cores stay.

    ** Parameters and hypotheses

    What a device register returns ([dev]), which interrupts are enabled at reset ([e0]),
    the sizes of the objects' sections and the offsets in them ([Lds.fits], [Lds.placed]; the other files ask for their
    addresses, as [image_ok], [layout_ok] and [links], which follow from these), the C handlers that the assembly calls ([Callee]), [sys_reg], and the table
    allocator of the builder ([TableAlloc]) are
    parameters. Each theorem with such a hypothesis has a witness on a concrete one.

    ** What is not modelled

    Caches, TLBs and memory ordering, of which only the
    order of the system instructions is kept; the frames of the C functions on the stack and [print_buf] in the memory
    of [Arm], so that nothing is said of memory after a report of [do_bad_mode]; the Pi 3 configuration; macros
    that cannot be expanded because they name something undefined ([container_of], [LIST_HEAD_INIT],
    [BIT_ULL_MASK]); the prototypes, include guards and symbol macros of the headers. In [Entry] the C handlers are any
    code that follows the calling convention. In the steps of [Fork] and [Live] an interrupt with its preemption is one
    step, and the timer's handler is one that calls [tick_handle_periodic], which the one of [mach-rpi4/timer.c] does not; [Irq],
    [Ticks] and [Preempt] have the interrupts inside [preempt_schedule_irq], and [Irq] and [Run] the handler as it is. In
    [Irq] the section of [__schedule] that has IRQs masked is one action, and so
    is [copy_thread], which writes to memory that no other task has; in [PrintkIrq] an
    interrupt comes between two characters, not within the polling for one. [Lds] has the sections that the script
    names, and not those that the linker would place by itself. Interrupts between [raw_local_irq_enable] and the
    last loop of [kernel_main] are not steps of [Main], and what is said of the enabled interrupts there is of the private
    ones, numbers below 32; [Irq] has them for the operations of the scheduler. *)

From stdpp Require Export base tactics option list numbers gmap strings.

#[global] Open Scope Z_scope.

(** ** Machine integers *)

Module CInt.

Definition u8 (z : Z) : Z := z mod 2 ^ 8.
Definition u16 (z : Z) : Z := z mod 2 ^ 16.
Definition u32 (z : Z) : Z := z mod 2 ^ 32.
Definition u64 (z : Z) : Z := z mod 2 ^ 64.
Definition s8 (z : Z) : Z := (z + 2 ^ 7) mod 2 ^ 8 - 2 ^ 7.
Definition s16 (z : Z) : Z := (z + 2 ^ 15) mod 2 ^ 16 - 2 ^ 15.
Definition s32 (z : Z) : Z := (z + 2 ^ 31) mod 2 ^ 32 - 2 ^ 31.
Definition s64 (z : Z) : Z := (z + 2 ^ 63) mod 2 ^ 64 - 2 ^ 63.

Definition not64 (z : Z) : Z := u64 (Z.lnot z).
Definition not32 (z : Z) : Z := u32 (Z.lnot z).

Lemma u64_small z : 0 <= z < 2 ^ 64 -> u64 z = z.
Proof. intros H. by apply Z.mod_small. Qed.

Lemma u32_small z : 0 <= z < 2 ^ 32 -> u32 z = z.
Proof. intros H. by apply Z.mod_small. Qed.

Lemma u8_small z : 0 <= z < 2 ^ 8 -> u8 z = z.
Proof. intros H. by apply Z.mod_small. Qed.

Lemma s32_small z : - 2 ^ 31 <= z < 2 ^ 31 -> s32 z = z.
Proof. intros H. unfold s32. rewrite Z.mod_small by lia. lia. Qed.

Lemma s64_small z : - 2 ^ 63 <= z < 2 ^ 63 -> s64 z = z.
Proof. intros H. unfold s64. rewrite Z.mod_small by lia. lia. Qed.

Lemma u64_range z : 0 <= u64 z < 2 ^ 64.
Proof. apply Z.mod_pos_bound. lia. Qed.

Lemma u32_range z : 0 <= u32 z < 2 ^ 32.
Proof. apply Z.mod_pos_bound. lia. Qed.

Lemma u8_range z : 0 <= u8 z < 2 ^ 8.
Proof. apply Z.mod_pos_bound. lia. Qed.

Lemma s32_range z : - 2 ^ 31 <= s32 z < 2 ^ 31.
Proof. unfold s32. pose proof (Z.mod_pos_bound (z + 2 ^ 31) (2 ^ 32)). lia. Qed.

Lemma s64_range z : - 2 ^ 63 <= s64 z < 2 ^ 63.
Proof. unfold s64. pose proof (Z.mod_pos_bound (z + 2 ^ 63) (2 ^ 64)). lia. Qed.

(** Masking with the complement of [2^n - 1] rounds down to a multiple of [2^n]. *)
Lemma land_neg_pow2 x n : 0 <= n -> Z.land x (- 2 ^ n) = x / 2 ^ n * 2 ^ n.
Proof.
  intros Hn. replace (- 2 ^ n) with (Z.lnot (Z.ones n)).
  - rewrite <-Z.ldiff_land, Z.ldiff_ones_r by lia.
    rewrite Z.shiftl_mul_pow2, Z.shiftr_div_pow2 by lia. done.
  - rewrite Z.ones_equiv. unfold Z.lnot. lia.
Qed.

Lemma land_not64_pow2 x n :
  0 <= n <= 64 -> 0 <= x < 2 ^ 64 ->
  Z.land x (not64 (2 ^ n - 1)) = x / 2 ^ n * 2 ^ n.
Proof.
  intros Hn Hx. rewrite <-land_neg_pow2 by lia.
  unfold not64, u64. replace (Z.lnot (2 ^ n - 1)) with (- 2 ^ n) by (unfold Z.lnot; lia).
  rewrite <-(Z.land_ones _ 64), (Z.land_comm (- 2 ^ n)), Z.land_assoc by lia.
  rewrite (Z.land_ones x 64), Z.mod_small by lia. done.
Qed.

Lemma land_ones_mod x n : 0 <= n -> Z.land x (2 ^ n - 1) = x mod 2 ^ n.
Proof. intros Hn. rewrite <-Z.land_ones, Z.ones_equiv by lia. f_equal. Qed.

(** A multiple of [2^n] and a number below [2^n] share no bit: or is plus. *)
Lemma land_disjoint n a b :
  0 <= n -> 0 <= b < 2 ^ n -> Z.land (a * 2 ^ n) b = 0.
Proof.
  intros Hn Hb. apply Z.bits_inj'. intros i Hi.
  rewrite Z.land_spec, Z.testbit_0_l.
  destruct (decide (i < n)).
  - rewrite Z.mul_pow2_bits_low by lia. done.
  - rewrite <-(Z.mod_small b (2 ^ n)), Z.mod_pow2_bits_high by lia.
    by rewrite andb_false_r.
Qed.

Lemma lor_disjoint_add n a b :
  0 <= n -> 0 <= b < 2 ^ n -> Z.lor (a * 2 ^ n) b = a * 2 ^ n + b.
Proof.
  intros Hn Hb. pose proof (land_disjoint n a b Hn Hb) as E.
  by rewrite Z.add_nocarry_lxor, Z.lxor_lor.
Qed.

Lemma shiftr_div x n : 0 <= n -> Z.shiftr x n = x / 2 ^ n.
Proof. apply Z.shiftr_div_pow2. Qed.

Lemma lor_range n a b :
  0 <= n -> 0 <= a < 2 ^ n -> 0 <= b < 2 ^ n -> 0 <= Z.lor a b < 2 ^ n.
Proof.
  intros Hn Ha Hb. split; [apply Z.lor_nonneg; lia|].
  rewrite <-(Z.mod_small a (2 ^ n)), <-(Z.mod_small b (2 ^ n)) by lia.
  rewrite <-!Z.land_ones, <-Z.land_lor_distr_l, Z.land_ones by lia.
  apply Z.mod_pos_bound. lia.
Qed.

Lemma land_range n a b : 0 <= n -> 0 <= a < 2 ^ n -> 0 <= Z.land a b < 2 ^ n.
Proof.
  intros Hn Ha. split; [apply Z.land_nonneg; lia|].
  rewrite <-(Z.mod_small a (2 ^ n)) by lia.
  rewrite <-Z.land_ones, <-Z.land_assoc, (Z.land_comm (Z.ones n)), Z.land_assoc by lia.
  rewrite Z.land_ones by lia. apply Z.mod_pos_bound. lia.
Qed.

End CInt.
Export CInt.

Create HintDb cint.
#[export] Hint Resolve u64_range u32_range u8_range s32_range s64_range : cint.

(** ** Outcomes and effects *)

Module Eff.

(** What running a piece of C yields: a value, undefined behaviour (an access
    outside an object, a null or dangling pointer, an uninitialised variable),
    or a loop that did not end within its bound. *)
Inductive outcome (A : Type) : Type :=
  | Ret (a : A)
  | Undef
  | NoFuel.
#[global] Arguments Ret {A} a.
#[global] Arguments Undef {A}.
#[global] Arguments NoFuel {A}.

(** Computations over a state [S]. *)
Definition M (S A : Type) : Type := S -> outcome (A * S).

#[global] Instance M_ret {S} : MRet (M S) := fun A a s => Ret (a, s).
#[global] Instance M_bind {S} : MBind (M S) := fun A B f m s =>
  match m s with
  | Ret (a, s') => f a s'
  | Undef => Undef
  | NoFuel => NoFuel
  end.

Definition get {S} : M S S := fun s => Ret (s, s).
Definition gets {S A} (f : S -> A) : M S A := fun s => Ret (f s, s).
Definition put {S} (s' : S) : M S unit := fun _ => Ret (tt, s').
Definition modify {S} (f : S -> S) : M S unit := fun s => Ret (tt, f s).
Definition undef {S A} : M S A := fun _ => Undef.
Definition of_option {S A} (o : option A) : M S A := fun s =>
  match o with Some a => Ret (a, s) | None => Undef end.

(** A C loop: [body] is one iteration; [inl] goes round again, [inr] leaves. *)
Fixpoint loop {S A B} (fuel : nat) (body : A -> M S (A + B)) (a : A) : M S B :=
  match fuel with
  | O => fun _ => NoFuel
  | Datatypes.S fuel =>
      r ← body a;
      match r with
      | inl a' => loop fuel body a'
      | inr b => mret b
      end
  end.

(** A component's state inside a larger one. *)
Record lens (S T : Type) : Type := Lens {
  lget : S -> T;
  lset : T -> S -> S;
}.
#[global] Arguments Lens {S T}.
#[global] Arguments lget {S T}.
#[global] Arguments lset {S T}.

Definition zoom {S T A} (l : lens S T) (m : M T A) : M S A := fun s =>
  match m (lget l s) with
  | Ret (a, t) => Ret (a, lset l t s)
  | Undef => Undef
  | NoFuel => NoFuel
  end.

(** Total correctness: [m] from [s] returns, and [Q] holds of the result. *)
Definition wp {S A} (m : M S A) (s : S) (Q : A -> S -> Prop) : Prop :=
  match m s with
  | Ret (a, s') => Q a s'
  | _ => False
  end.

Section wp.
Context {S : Type}.

Lemma wp_ret {A} (a : A) (s : S) (Q : A -> S -> Prop) :
  Q a s -> wp (mret a) s Q.
Proof. done. Qed.

Lemma wp_bind {A B} (m : M S A) (f : A -> M S B) s Q :
  wp m s (fun a s' => wp (f a) s' Q) -> wp (m ≫= f) s Q.
Proof.
  unfold wp, mbind, M_bind. destruct (m s) as [[a s']| |]; done.
Qed.

Lemma wp_mono {A} (m : M S A) s (P Q : A -> S -> Prop) :
  wp m s P -> (forall a s', P a s' -> Q a s') -> wp m s Q.
Proof. unfold wp. destruct (m s) as [[a s']| |]; naive_solver. Qed.

Lemma wp_gets {A} (f : S -> A) s (Q : A -> S -> Prop) :
  Q (f s) s -> wp (gets f) s Q.
Proof. done. Qed.

Lemma wp_get s (Q : S -> S -> Prop) : Q s s -> wp get s Q.
Proof. done. Qed.

Lemma wp_put s' s (Q : unit -> S -> Prop) : Q tt s' -> wp (put s') s Q.
Proof. done. Qed.

Lemma wp_modify f s (Q : unit -> S -> Prop) :
  Q tt (f s) -> wp (modify f) s Q.
Proof. done. Qed.

Lemma wp_of_option {A} (o : option A) a s (Q : A -> S -> Prop) :
  o = Some a -> Q a s -> wp (of_option o) s Q.
Proof. by intros ->. Qed.

Lemma wp_zoom {T A} (l : lens S T) (m : M T A) s (Q : A -> S -> Prop) :
  wp m (lget l s) (fun a t => Q a (lset l t s)) -> wp (zoom l m) s Q.
Proof. unfold wp, zoom. destruct (m (lget l s)) as [[a t]| |]; done. Qed.

Lemma wp_elim {A} (m : M S A) s Q :
  wp m s Q -> exists a s', m s = Ret (a, s') /\ Q a s'.
Proof. unfold wp. destruct (m s) as [[a s']| |]; naive_solver. Qed.

Lemma wp_elim_unit (m : M S unit) s Q :
  wp m s (fun _ => Q) -> exists s', m s = Ret (tt, s') /\ Q s'.
Proof. unfold wp. destruct (m s) as [[[] s']| |]; naive_solver. Qed.

Lemma wp_intro {A} (m : M S A) s a s' (Q : A -> S -> Prop) :
  m s = Ret (a, s') -> Q a s' -> wp m s Q.
Proof. unfold wp. by intros ->. Qed.

Lemma wp_run {A} (m m1 : M S A) s s1 Q : m s = m1 s1 -> wp m1 s1 Q -> wp m s Q.
Proof. unfold wp. by intros ->. Qed.

Lemma bind_assoc {A B C} (m : M S A) (f : A -> M S B) (g : B -> M S C) s :
  (m ≫= (fun a => f a ≫= g)) s = ((m ≫= f) ≫= g) s.
Proof. unfold mbind, M_bind. by destruct (m s) as [[a s']| |]. Qed.

(** A loop whose iterations keep [Inv] and decrease [measure] ends within any
    fuel above the measure. *)
Lemma wp_loop {A B} (Inv : A -> S -> Prop) (measure : A -> nat)
    (body : A -> M S (A + B)) (Q : B -> S -> Prop) :
  (forall a s, Inv a s ->
     wp (body a) s (fun r s' =>
       match r with
       | inl a' => Inv a' s' /\ (measure a' < measure a)%nat
       | inr b => Q b s'
       end)) ->
  forall fuel a s, Inv a s -> (measure a < fuel)%nat ->
    wp (loop fuel body a) s Q.
Proof.
  intros Hbody fuel. induction fuel as [|fuel IH]; intros a s Hinv Hlt; [lia|].
  simpl. apply wp_bind. eapply wp_mono; [by apply Hbody|].
  intros [a'|b] s' H; [|done]. destruct H as [Hi Hm]. apply IH; [done|lia].
Qed.

Lemma loop_unfold {A B} fuel (body : A -> M S (A + B)) a :
  loop (Datatypes.S fuel) body a =
  (r ← body a; match r with inl a' => loop fuel body a' | inr b => mret b end).
Proof. done. Qed.

End wp.

End Eff.
Export Eff.

(** Steps through the effects of a computation, one bind at a time. *)
Ltac wp_step :=
  lazymatch goal with
  | |- wp (_ ≫= _) _ _ => apply wp_bind
  | |- wp (mret _) _ _ => apply wp_ret
  | |- wp (gets _) _ _ => apply wp_gets
  | |- wp get _ _ => apply wp_get
  | |- wp (put _) _ _ => apply wp_put
  | |- wp (modify _) _ _ => apply wp_modify
  | |- wp (zoom _ _) _ _ => apply wp_zoom
  | |- wp (of_option _) _ _ => eapply wp_of_option; [eassumption|]
  end.
Ltac wp_steps := repeat (wp_step; cbn beta iota zeta).

(** ** C arrays and the kernel log *)

Module CData.

(** Reading and writing [a[i]]; an index outside the array is undefined. *)
Definition arr_get {A} (l : list A) (i : Z) : option A :=
  if decide (0 <= i) then l !! Z.to_nat i else None.
Definition arr_set {A} (l : list A) (i : Z) (v : A) : option (list A) :=
  if decide (0 <= i < Z.of_nat (length l)) then Some (<[Z.to_nat i := v]> l) else None.

Lemma arr_get_nat {A} (l : list A) (i : nat) : arr_get l (Z.of_nat i) = l !! i.
Proof. unfold arr_get. rewrite decide_True by lia. by rewrite Nat2Z.id. Qed.

Lemma arr_set_nat {A} (l : list A) (i : nat) v :
  (i < length l)%nat -> arr_set l (Z.of_nat i) v = Some (<[i := v]> l).
Proof. intros H. unfold arr_set. rewrite decide_True by lia. by rewrite Nat2Z.id. Qed.

(** An argument of the variadic [printk]: an integer slot, or a pointer to a
    null-terminated string. *)
Inductive varg : Type :=
  | VNum (z : Z)
  | VStr (s : string).

(** One [printk] call, and the calls made so far, oldest first. *)
Definition call : Type := string * list varg.

Definition nl : string := String (Ascii.ascii_of_nat 10) EmptyString.

End CData.
Export CData.
