(* ===== verification/Base.v ===== *)
(** * Integer helpers and memory constants

    [include/yios/types.h], [include/yios/page.h], [include/yios/config.h],
    [include/yios/mm.h], [include/asm/base.h]: the alignment macros on
    [unsigned long] operands and the constants that fix the shape of physical memory
    and where the devices are. *)

From S2P Require Import Prelude.

Module Base.

(** ** types.h *)

Definition BIT (nr : Z) : Z := u64 (Z.shiftl 1 nr).

(** The [x] operand of these macros is an [unsigned long]. *)
Definition round_mask (x y : Z) : Z := u64 (y - 1).
Definition round_up (x y : Z) : Z := u64 (Z.lor (u64 (x - 1)) (round_mask x y) + 1).
Definition round_down (x y : Z) : Z := Z.land x (not64 (round_mask x y)).
Definition ALIGN (x y : Z) : Z := Z.land x (not64 (round_mask x y)).
Definition BALIGN (x y : Z) : Z :=
  Z.land (u64 (u64 (x + y) - 1)) (not64 (round_mask x y)).
Definition IN_RANGE_UNSIGNED (value base size : Z) : bool :=
  (base <=? value) && (value <? u64 (base + size)).
Definition BITS_PER_BYTE : Z := 8.
Definition BITS_PER_LONG : Z := 64.
Definition GENMASK (h l : Z) : Z :=
  Z.land (u64 (Z.shiftl (not64 0) l)) (Z.shiftr (not64 0) (BITS_PER_LONG - 1 - h)).
Definition GENMASK_ULL (h l : Z) : Z :=
  Z.land (u64 (Z.shiftl (not64 0) l)) (Z.shiftr (not64 0) (BITS_PER_LONG - 1 - h)).

(** The comparison macros, on operands that are values. *)
Definition MAX (a b : Z) : Z := if b <? a then a else b.
Definition MIN (a b : Z) : Z := if a <? b then a else b.

(** Bytes are promoted to [int] before the shift, and a top byte of 128 or more wraps. *)
Definition u8_to_u16 (low high : Z) : Z := Z.lor (Z.shiftl high 8) low.
Definition u8_to_u32 (u1 u2 u3 u4 : Z) : Z :=
  Z.lor (Z.lor (Z.lor (s32 (Z.shiftl u4 24)) (Z.shiftl u3 16)) (Z.shiftl u2 8)) u1.
Definition u16_to_u32 (low high : Z) : Z := Z.lor (s32 (Z.shiftl high 16)) low.

Definition SIZE_1G : Z := 0x40000000.
Definition SIZE_4K : Z := 0x1000.
Definition SIZE_1M : Z := 0x100000.
Definition SIZE_1K : Z := 0x400.
Definition SIZE_16K : Z := 16 * SIZE_1K.
Definition SIZE_32M : Z := 32 * SIZE_1M.
Definition SIZE_64K : Z := 64 * SIZE_1K.
Definition SIZE_512M : Z := 512 * SIZE_1M.
Definition SIZE_2M : Z := 2 * 1024 * 1024.
Definition SIZE_8M : Z := 8 * 1024 * 1024.
Definition INVALID_ADDRESS : Z := 0xffffffffffffffff.

(** The bitmap macros, on [unsigned long] operands; [sizeof(long)] is 8. *)
Definition DIV_ROUND_UP (n d : Z) : Z := u64 (u64 (n + d) - 1) / d.
Definition BITS_TO_LONGS (nr : Z) : Z := DIV_ROUND_UP nr (BITS_PER_BYTE * 8).
Definition BIT_ULL (nr : Z) : Z := u64 (Z.shiftl 1 nr).
Definition BIT_MASK (nr : Z) : Z := u64 (Z.shiftl 1 (nr mod BITS_PER_LONG)).
Definition BIT_WORD (nr : Z) : Z := nr / BITS_PER_LONG.

Definition INT_MAX : Z := 2147483647.
Definition INT_MIN : Z := -2147483648.

(** ** page.h, config.h, mm.h *)

Definition PAGE_SHIFT : Z := 12.
Definition PAGE_SIZE : Z := Z.shiftl 1 PAGE_SHIFT.
(** An [int]; it is sign-extended when it meets an [unsigned long]. *)
Definition PAGE_MASK : Z := Z.lnot (PAGE_SIZE - 1).
Definition PAGE_ALIGN (x : Z) : Z := ALIGN x PAGE_SIZE.
Definition PAGE_BALIGN (x : Z) : Z := BALIGN x PAGE_SIZE.
Definition IS_PAGE_ALIGN (x : Z) : bool := Z.land x (PAGE_SIZE - 1) =? 0.

Definition CONFIG_ARM64_VA_BITS : Z := 48.
Definition VA_BITS : Z := CONFIG_ARM64_VA_BITS.
Definition TOTAL_MEMORY : Z := 0x100000 * 512.
Definition NR_PAGES : Z := TOTAL_MEMORY / 4096.
Definition LOW_MEMORY : Z := 0x400000.

(** ** asm/base.h, the BCM2711 branch *)

Definition PBASE : Z := 0xFE000000.
Definition ARM_LOCAL_BASE : Z := 0xff800000.
Definition DEVICE_SIZE : Z := 0x2000000.
Definition GIC_V2_DISTRIBUTOR_BASE : Z := ARM_LOCAL_BASE + 0x00041000.
Definition GIC_V2_CPU_INTERFACE_BASE : Z := ARM_LOCAL_BASE + 0x00042000.

(** ** Shared facts *)

Lemma PAGE_SIZE_val : PAGE_SIZE = 4096.
Proof. done. Qed.

Lemma NR_PAGES_val : NR_PAGES = 131072.
Proof. done. Qed.

Lemma BALIGN_pow2 x n :
  0 <= n < 64 -> 0 <= x < 2 ^ 64 ->
  BALIGN x (2 ^ n) = u64 (x + 2 ^ n - 1) / 2 ^ n * 2 ^ n.
Proof.
  intros Hn Hx. unfold BALIGN, round_mask.
  assert (0 < 2 ^ n < 2 ^ 64) by (split; [lia|apply Z.pow_lt_mono_r; lia]).
  rewrite (u64_small (2 ^ n - 1)) by lia.
  rewrite land_not64_pow2 by (try apply u64_range; lia).
  unfold u64. rewrite Zminus_mod_idemp_l. done.
Qed.

Lemma BALIGN_small x n :
  0 <= n < 64 -> 0 <= x -> x + 2 ^ n - 1 < 2 ^ 64 ->
  BALIGN x (2 ^ n) = (x + 2 ^ n - 1) / 2 ^ n * 2 ^ n.
Proof.
  intros Hn Hx Hs. assert (0 < 2 ^ n) by lia.
  rewrite BALIGN_pow2, u64_small by lia. done.
Qed.

Lemma PAGE_BALIGN_small x :
  0 <= x -> x + 4095 < 2 ^ 64 -> PAGE_BALIGN x = (x + 4095) / 4096 * 4096.
Proof.
  intros Hx Hs. unfold PAGE_BALIGN. change PAGE_SIZE with (2 ^ 12).
  rewrite BALIGN_small by lia. change (2 ^ 12) with 4096.
  replace (x + 4096 - 1) with (x + 4095) by lia. done.
Qed.

Lemma land_PAGE_MASK x : Z.land x PAGE_MASK = x / 4096 * 4096.
Proof. change PAGE_MASK with (- 2 ^ 12). by rewrite land_neg_pow2. Qed.

Lemma lor_low_ones n y :
  0 <= n -> 0 <= y -> Z.lor y (2 ^ n - 1) = y / 2 ^ n * 2 ^ n + (2 ^ n - 1).
Proof.
  intros Hn Hy. assert (0 < 2 ^ n) by lia.
  rewrite (Z.div_mod y (2 ^ n)) at 1 by lia.
  pose proof (Z.mod_pos_bound y (2 ^ n)).
  rewrite (Z.mul_comm (2 ^ n)), <-lor_disjoint_add, <-Z.lor_assoc by lia.
  replace (Z.lor (y mod 2 ^ n) (2 ^ n - 1)) with (2 ^ n - 1).
  - apply lor_disjoint_add; lia.
  - rewrite Z.sub_1_r, <-Z.ones_equiv.
    apply Z.bits_inj'. intros i Hi. rewrite Z.lor_spec.
    destruct (decide (i < n)).
    + rewrite Z.ones_spec_low by lia. by rewrite orb_true_r.
    + rewrite Z.ones_spec_high, Z.mod_pow2_bits_high by lia. done.
Qed.

(** ** Masks, bitmaps and bytes *)

(** [GENMASK(h, l)] has exactly the bits [l] to [h]. *)
Lemma GENMASK_bits h l i :
  0 <= l <= h -> h < 64 -> 0 <= i -> Z.testbit (GENMASK h l) i = (l <=? i) && (i <=? h).
Proof.
  intros Hl Hh Hi. unfold GENMASK, BITS_PER_LONG. change (not64 0) with (Z.ones 64). rewrite Z.land_spec, Z.shiftr_spec by done.
  unfold u64. destruct (decide (i < 64)).
  - rewrite Z.mod_pow2_bits_low by lia. rewrite Z.shiftl_spec by done.
    destruct (Z.leb_spec l i); destruct (Z.leb_spec i h); cbn [andb].
    + by rewrite !Z.ones_spec_low by lia.
    + by rewrite (Z.ones_spec_high 64 (i + _)), andb_false_r by lia.
    + by rewrite Z.testbit_neg_r by lia.
    + lia.
  - rewrite Z.mod_pow2_bits_high by lia. destruct (Z.leb_spec i h); [lia|]. by rewrite andb_false_r.
Qed.

(** [DIV_ROUND_UP] is the least number of pieces of [d] that hold [n]. *)
Lemma DIV_ROUND_UP_least n d k :
  0 <= n -> 0 < d -> n + d < 2 ^ 64 -> n <= k * d <-> DIV_ROUND_UP n d <= k.
Proof.
  intros Hn Hd Hs. unfold DIV_ROUND_UP. rewrite (u64_small (n + d)), u64_small by lia.
  pose proof (Z.div_mod (n + d - 1) d). pose proof (Z.mod_pos_bound (n + d - 1) d). split; intros H'; nia.
Qed.

(** A bitmap of [bits] bits: bit [nr] is bit [nr mod 64] of a word of the array that [DECLARE_BITMAP] declares. *)
Lemma bitmap_bit nr bits :
  0 <= nr < bits -> bits + 64 < 2 ^ 64 ->
  0 <= BIT_WORD nr < BITS_TO_LONGS bits /\ BIT_MASK nr = 2 ^ (nr mod 64) /\ nr = 64 * BIT_WORD nr + nr mod 64.
Proof.
  intros Hn Hb. unfold BIT_WORD, BIT_MASK, BITS_TO_LONGS, BITS_PER_LONG, BITS_PER_BYTE. change (8 * 8) with 64.
  pose proof (Z.div_mod nr 64). pose proof (Z.mod_pos_bound nr 64). pose proof (Z.div_pos nr 64).
  split; [split; [lia|]|split; [|lia]].
  - apply Z.lt_nge. intros Hge. apply DIV_ROUND_UP_least in Hge; lia.
  - rewrite Z.shiftl_1_l. apply u64_small. split; [lia|]. apply Z.pow_lt_mono_r; lia.
Qed.

(** The four bytes of a word, low byte first. *)
Lemma u8_to_u32_bytes b1 b2 b3 b4 :
  0 <= b1 < 256 -> 0 <= b2 < 256 -> 0 <= b3 < 256 -> 0 <= b4 < 256 ->
  u32 (u8_to_u32 b1 b2 b3 b4) = b1 + 2 ^ 8 * b2 + 2 ^ 16 * b3 + 2 ^ 24 * b4.
Proof.
  intros H1 H2 H3 H4. unfold u8_to_u32.
  assert (exists k, s32 (Z.shiftl b4 24) = k * 2 ^ 24 /\ (k = b4 \/ k = b4 - 256)) as (k & -> & Hk).
  { rewrite Z.shiftl_mul_pow2 by lia. unfold s32. destruct (decide (b4 < 128)).
    - exists b4. split; [|by left]. rewrite Z.mod_small; lia.
    - exists (b4 - 256). split; [|by right]. rewrite <-(Z.mod_unique (b4 * 2 ^ 24 + 2 ^ 31) (2 ^ 32) 1 (b4 * 2 ^ 24 - 2 ^ 31)); lia. }
  rewrite !Z.shiftl_mul_pow2 by lia.
  rewrite (lor_disjoint_add 24) by lia. replace (k * 2 ^ 24 + b3 * 2 ^ 16) with ((k * 2 ^ 8 + b3) * 2 ^ 16) by lia.
  rewrite (lor_disjoint_add 16) by lia. replace ((k * 2 ^ 8 + b3) * 2 ^ 16 + b2 * 2 ^ 8) with ((k * 2 ^ 16 + b3 * 2 ^ 8 + b2) * 2 ^ 8) by lia.
  rewrite (lor_disjoint_add 8) by lia. unfold u32. destruct Hk as [-> | ->].
  - rewrite Z.mod_small; lia.
  - symmetry. apply Z.mod_unique with (-1); lia.
Qed.

Lemma s32_int z : INT_MIN <= s32 z <= INT_MAX.
Proof. unfold s32, INT_MIN, INT_MAX. pose proof (Z.mod_pos_bound (z + 2 ^ 31) (2 ^ 32)). lia. Qed.

(** The sizes the memory map is made of. *)
Lemma sizes : [SIZE_4K; SIZE_2M; SIZE_1G; SIZE_512M] = [PAGE_SIZE; 2 ^ 21; 2 ^ 30; TOTAL_MEMORY].
Proof. reflexivity. Qed.

(** ** Properties *)

(** BALIGN rounds an [unsigned long] up to the least multiple of a
    power of two that is not below it, as long as the sum does not wrap. *)
Theorem BALIGN_least x n :
  0 <= n < 64 -> 0 <= x -> x + 2 ^ n - 1 < 2 ^ 64 ->
  x <= BALIGN x (2 ^ n) /\ (2 ^ n | BALIGN x (2 ^ n)) /\
  (forall k, x <= k * 2 ^ n -> BALIGN x (2 ^ n) <= k * 2 ^ n).
Proof.
  intros Hn Hx Hs. rewrite BALIGN_small by done.
  assert (0 < 2 ^ n) by lia.
  pose proof (Z.div_mod (x + 2 ^ n - 1) (2 ^ n)).
  pose proof (Z.mod_pos_bound (x + 2 ^ n - 1) (2 ^ n)).
  repeat split; [lia|by apply Z.divide_factor_r|].
  intros k Hk. apply Z.mul_le_mono_nonneg_r; [lia|].
  apply Z.lt_succ_r, Z.div_lt_upper_bound; lia.
Qed.

(** round_up computes the same value as BALIGN for every operand and
    every power of two, the operands that wrap past 2^64 to zero included. *)
Theorem round_up_BALIGN x n :
  0 <= n < 64 -> 0 <= x < 2 ^ 64 -> round_up x (2 ^ n) = BALIGN x (2 ^ n).
Proof.
  intros Hn Hx. assert (0 < 2 ^ n < 2 ^ 64) by (split; [lia|apply Z.pow_lt_mono_r; lia]).
  rewrite BALIGN_pow2 by done. unfold round_up, round_mask.
  rewrite (u64_small (2 ^ n - 1)) by lia.
  pose proof (u64_range (x - 1)) as Hy.
  replace (u64 (x + 2 ^ n - 1)) with (u64 (u64 (x - 1) + 2 ^ n)).
  2: { unfold u64. rewrite Zplus_mod_idemp_l. f_equal. lia. }
  set (y := u64 (x - 1)) in *. rewrite lor_low_ones by lia.
  assert (2 ^ 64 = 2 ^ (64 - n) * 2 ^ n) as E by (rewrite <-Z.pow_add_r by lia; f_equal; lia).
  pose proof (Z.div_mod y (2 ^ n)). pose proof (Z.mod_pos_bound y (2 ^ n)).
  replace (y / 2 ^ n * 2 ^ n + (2 ^ n - 1) + 1) with ((y / 2 ^ n + 1) * 2 ^ n) by lia.
  assert (y / 2 ^ n < 2 ^ (64 - n)) by (apply Z.div_lt_upper_bound; lia).
  destruct (decide (y + 2 ^ n < 2 ^ 64)) as [Hs|Hs].
  - rewrite (u64_small (y + _)) by lia.
    rewrite <-(Z.mul_1_l (2 ^ n)) at 3. rewrite Z.div_add by lia.
    apply u64_small. nia.
  - assert (y / 2 ^ n + 1 = 2 ^ (64 - n)) as -> by nia.
    rewrite <-E. replace (u64 (y + 2 ^ n)) with (y + 2 ^ n - 2 ^ 64).
    + rewrite (Z.div_small (y + _ - _)) by nia. done.
    + unfold u64. rewrite <-(Z.mod_small (y + 2 ^ n - 2 ^ 64) (2 ^ 64)) by lia.
      rewrite <-(Z_mod_plus_full (y + 2 ^ n - 2 ^ 64) 1 (2 ^ 64)). f_equal. lia.
Qed.

(** An operand in the middle of a page, and one that wraps. *)
Lemma BALIGN_least_witness :
  BALIGN 4097 (2 ^ 12) = 8192 /\ 4097 <= BALIGN 4097 (2 ^ 12).
Proof. split; [reflexivity|]. apply (BALIGN_least 4097 12); lia. Defined.

Lemma round_up_BALIGN_witness :
  round_up (2 ^ 64 - 1) (2 ^ 12) = BALIGN (2 ^ 64 - 1) (2 ^ 12) /\ BALIGN (2 ^ 64 - 1) (2 ^ 12) = 0.
Proof. split; [apply (round_up_BALIGN (2 ^ 64 - 1) 12); lia | reflexivity]. Defined.

End Base.
Export Base.
