(* ===== verification/Fields.v ===== *)
(** * Bit fields of registers

    A register's layout as a list of fields from bit 0 up, each with the mask and shift that
    the C headers give it. When the fields tile the register, writing a value to every field and
    reading a field are inverse to each other, whatever the masks are called. *)

From S2P Require Import Prelude.

Module Fields.

Record field : Type := Fld { mask : Z; shift : Z; width : Z }.

(** [(e & mask) >> shift] *)
Definition get (f : field) (e : Z) : Z := Z.shiftr (Z.land e (mask f)) (shift f).
(** The values of the fields, shifted and combined with [|]. *)
Definition pack (fs : list field) (vs : list Z) : Z :=
  foldr Z.lor 0 (zip_with (fun f v => Z.shiftl v (shift f)) fs vs).

(** The fields cover the bits from [pos] to [n], each bit once. *)
Fixpoint tiles (pos : Z) (fs : list field) (n : Z) : bool :=
  match fs with
  | [] => pos =? n
  | f :: fs => (shift f =? pos) && (0 <? width f) && (mask f =? Z.shiftl (2 ^ width f - 1) pos) &&
               tiles (pos + width f) fs n
  end.

Definition fits (f : field) (v : Z) : Prop := 0 <= v < 2 ^ width f.

Lemma tiles_cons pos f fs n :
  tiles pos (f :: fs) n = true ->
  shift f = pos /\ 0 < width f /\ mask f = Z.shiftl (2 ^ width f - 1) pos /\ tiles (pos + width f) fs n = true.
Proof. cbn. intros [[[? ?]%andb_prop ?]%andb_prop ?]%andb_prop. repeat split; try done; by apply Z.eqb_eq || lia. Qed.

Lemma tiles_le fs : forall pos n, tiles pos fs n = true -> pos <= n.
Proof.
  induction fs as [|f fs IH]; intros pos n H; [cbn in H; lia|].
  apply tiles_cons in H as (_ & Hw & _ & H). apply IH in H. lia.
Qed.

Lemma get_eq f pos e :
  0 <= pos -> 0 < width f -> shift f = pos -> mask f = Z.shiftl (2 ^ width f - 1) pos ->
  get f e = (e / 2 ^ pos) mod 2 ^ width f.
Proof.
  intros Hp Hw Hs Hm. unfold get. rewrite Hs, Hm. rewrite Z.shiftr_land, Z.shiftr_shiftl_l, Z.sub_diag, Z.shiftl_0_r by lia.
  rewrite land_ones_mod by lia. by rewrite Z.shiftr_div_pow2 by lia.
Qed.

(** A field reads only the bits at and above its shift. *)
Lemma get_above fs : forall pos n f e e',
  0 <= pos -> tiles pos fs n = true -> f ∈ fs -> e / 2 ^ pos = e' / 2 ^ pos -> get f e = get f e'.
Proof.
  induction fs as [|g fs IH]; intros pos n f e e' Hp Ht Hf He; [by apply elem_of_nil in Hf|].
  apply tiles_cons in Ht as (Hs & Hw & Hm & Ht). apply elem_of_cons in Hf as [->|Hf].
  - rewrite !(get_eq g pos) by done. by rewrite He.
  - apply (IH (pos + width g) n); try done; [lia|].
    rewrite !Z.pow_add_r, <-!Z.div_div by lia. by rewrite He.
Qed.

Lemma pack_above fs : forall pos n vs,
  0 <= pos -> tiles pos fs n = true -> Forall2 fits fs vs ->
  exists k, pack fs vs = k * 2 ^ pos /\ 0 <= k < 2 ^ (n - pos).
Proof.
  induction fs as [|f fs IH]; intros pos n vs Hp Ht Hv; inversion Hv as [|? v ? vs' H1 H2]; subst.
  - exists 0. cbn. split; [done|]. pose proof (tiles_le _ _ _ Ht). lia.
  - apply tiles_cons in Ht as (Hs & Hw & _ & Ht). pose proof (tiles_le _ _ _ Ht).
    destruct (IH (pos + width f) n vs') as (k & E & Hk); [lia|done|done|].
    exists (v + k * 2 ^ width f). cbn [pack zip_with foldr]. fold (pack fs vs'). rewrite E, Hs, Z.shiftl_mul_pow2 by lia.
    unfold fits in H1. assert (0 < 2 ^ width f) by lia. split.
    + rewrite Z.pow_add_r, Z.lor_comm by lia. rewrite Z.mul_comm, (Z.mul_comm k), Z.mul_comm.
      replace (k * (2 ^ pos * 2 ^ width f)) with (k * 2 ^ (pos + width f)) by (rewrite Z.pow_add_r by lia; ring).
      rewrite lor_disjoint_add; [rewrite Z.pow_add_r by lia; ring|lia|].
      rewrite Z.pow_add_r by lia. assert (0 < 2 ^ pos) by lia. nia.
    + replace (n - pos) with (width f + (n - (pos + width f))) by lia. rewrite Z.pow_add_r by lia. nia.
Qed.

(** Reading a field of a packed register gives its value. *)
Lemma get_pack fs : forall pos n vs i f v,
  0 <= pos -> tiles pos fs n = true -> Forall2 fits fs vs ->
  fs !! i = Some f -> vs !! i = Some v -> get f (pack fs vs) = v.
Proof.
  induction fs as [|g fs IH]; intros pos n vs i f v Hp Ht Hv Hf E; [done|].
  inversion Hv as [|? v0 ? vs' H1 H2]; subst. pose proof Ht as Ht'. apply tiles_cons in Ht' as (Hs & Hw & Hm & Ht').
  destruct (pack_above fs (pos + width g) n vs') as (k & Ek & _); [lia|done|done|].
  assert (pack (g :: fs) (v0 :: vs') = v0 * 2 ^ pos + k * 2 ^ (pos + width g)) as Ep.
  { cbn [pack zip_with foldr]. fold (pack fs vs'). rewrite Ek, Hs, Z.shiftl_mul_pow2 by lia.
    rewrite Z.lor_comm, lor_disjoint_add; [lia|lia|]. unfold fits in H1. rewrite Z.pow_add_r by lia. nia. }
  unfold fits in H1. destruct i as [|i]; cbn in Hf, E.
  - injection Hf as <-. injection E as <-. rewrite (get_eq g pos), Ep by done.
    rewrite Z.pow_add_r by lia. replace (v0 * 2 ^ pos + _) with ((v0 + k * 2 ^ width g) * 2 ^ pos) by ring.
    rewrite Z.div_mul by lia. rewrite Z.mod_add, Z.mod_small by lia. done.
  - rewrite (get_above fs (pos + width g) n f _ (pack fs vs')); [by eapply (IH (pos + width g)); [lia|..]|lia|done| |].
    + by eapply list_elem_of_lookup_2.
    + rewrite Ep, Ek, Z.div_add, Z.div_mul by lia. rewrite Z.div_small; [lia|]. rewrite Z.pow_add_r by lia. nia.
Qed.

Lemma get_fits fs : forall pos n e, 0 <= pos -> tiles pos fs n = true -> Forall2 fits fs ((fun f => get f e) <$> fs).
Proof.
  induction fs as [|f fs IH]; intros pos n e Hp Ht; [constructor|]. apply tiles_cons in Ht as (Hs & Hw & Hm & Ht).
  constructor; [|apply (IH (pos + width f) n); [lia|done]]. unfold fits. rewrite (get_eq f pos) by done.
  apply Z.mod_pos_bound. lia.
Qed.

(** Packing the fields read gives the bits they cover. *)
Lemma pack_get fs : forall pos n e,
  0 <= pos -> tiles pos fs n = true ->
  pack fs ((fun f => get f e) <$> fs) = (e / 2 ^ pos) mod 2 ^ (n - pos) * 2 ^ pos.
Proof.
  induction fs as [|f fs IH]; intros pos n e Hp Ht.
  - cbn in Ht. replace (n - pos) with 0 by lia. cbn. by rewrite Z.mod_1_r.
  - pose proof (get_fits _ _ _ e Hp Ht) as Hv. apply tiles_cons in Ht as (Hs & Hw & Hm & Ht).
    cbn [fmap list_fmap pack zip_with foldr]. fold (pack fs ((fun f => get f e) <$> fs)). fold (list_fmap _ _ (fun f => get f e)).
    rewrite (IH (pos + width f) n) by (done || lia). pose proof (tiles_le _ _ _ Ht). inversion Hv as [|? ? ? ? H1 _]; subst.
    rewrite Z.shiftl_mul_pow2, Z.lor_comm, lor_disjoint_add by first [lia|unfold fits in H1; rewrite Z.pow_add_r by lia; nia].
    rewrite (get_eq f (shift f)) by done.
    replace (n - shift f) with (width f + (n - (shift f + width f))) by lia. rewrite !Z.pow_add_r by lia.
    rewrite <-Z.div_div by lia. set (a := e / 2 ^ shift f). rewrite (Z.rem_mul_r a) by lia. lia.
Qed.

(** The fields of a layout determine the bits it covers. *)
Lemma get_inj fs n e e' : tiles 0 fs n = true ->
  (forall f, f ∈ fs -> get f e = get f e') -> e mod 2 ^ n = e' mod 2 ^ n.
Proof.
  intros Ht H. pose proof (pack_get fs 0 n e ltac:(lia) Ht) as E. pose proof (pack_get fs 0 n e' ltac:(lia) Ht) as E'.
  rewrite Z.pow_0_r, Z.div_1_r, Z.mul_1_r, Z.sub_0_r in E, E'. rewrite <-E, <-E'. f_equal.
  apply list_fmap_ext. intros i f Hf. by apply H, (list_elem_of_lookup_2 _ i).
Qed.

(** Testing the mask of a one-bit field is testing its value. *)
Lemma test_bit e s v :
  0 <= s -> Z.shiftr (Z.land e (Z.shiftl 1 s)) s = v -> 0 <= v < 2 -> negb (Z.land e (Z.shiftl 1 s) =? 0) = (v =? 1).
Proof.
  intros Hs E Hv. assert (Z.land e (Z.shiftl 1 s) = v * 2 ^ s) as ->.
  { rewrite <-E, <-Z.shiftl_mul_pow2 by done. apply Z.bits_inj'. intros i Hi.
    rewrite Z.shiftl_spec by done. destruct (decide (s <= i)).
    - rewrite Z.shiftr_spec by lia. by replace (i - s + s) with i by lia.
    - rewrite (Z.testbit_neg_r _ (i - s)) by lia. rewrite Z.land_spec, Z.shiftl_spec_low by lia. by rewrite andb_false_r. }
  assert (0 < 2 ^ s) by lia. destruct (Z.eqb_spec v 1) as [->|Hn].
  - by rewrite (proj2 (Z.eqb_neq _ _)) by lia.
  - by replace v with 0 by lia.
Qed.

Lemma get_land f e m :
  get f (Z.land e m) = Z.shiftr (Z.land e (Z.land m (mask f))) (shift f).
Proof. unfold get. by rewrite Z.land_assoc. Qed.

(** A template matches when every field of what the mask keeps has the template's value. *)
Lemma match_fields fs n e m v :
  tiles 0 fs n = true -> 0 <= e < 2 ^ n -> 0 <= v < 2 ^ n ->
  Z.land e m = v <-> Forall (fun f => Z.shiftr (Z.land e (Z.land m (mask f))) (shift f) = get f v) fs.
Proof.
  intros Ht He Hv. split.
  - intros <-. apply Forall_forall. intros f _. by rewrite get_land.
  - intros H. assert (0 <= Z.land e m < 2 ^ n) as Hr.
    { apply land_range; [|done]. by apply (tiles_le fs). }
    rewrite <-(Z.mod_small (Z.land e m) (2 ^ n)), <-(Z.mod_small v (2 ^ n)) by done.
    apply (get_inj fs); [done|]. intros f Hf. rewrite get_land. by apply (proj1 (Forall_forall _ _) H).
Qed.

Lemma pack_range fs n vs : tiles 0 fs n = true -> Forall2 fits fs vs -> 0 <= pack fs vs < 2 ^ n.
Proof.
  intros Ht Hv. destruct (pack_above fs 0 n vs) as (k & -> & Hk); [lia|done|done|].
  rewrite Z.pow_0_r, Z.mul_1_r. by rewrite Z.sub_0_r in Hk.
Qed.

(** The fields of a packed register, all at once. *)
Lemma gets_pack fs n vs :
  tiles 0 fs n = true -> Forall2 fits fs vs -> (fun f => get f (pack fs vs)) <$> fs = vs.
Proof.
  intros Ht Hv. apply list_eq. intros i. rewrite list_lookup_fmap.
  destruct (fs !! i) as [f|] eqn:Ef; cbn [fmap option_fmap option_map].
  - destruct (Forall2_lookup_l _ _ _ _ _ Hv Ef) as (v & Ev & _). rewrite Ev. f_equal.
    by apply (get_pack fs 0 n vs i).
  - symmetry. apply lookup_ge_None. apply lookup_ge_None in Ef. by rewrite <-(Forall2_length _ _ _ Hv).
Qed.

End Fields.
