(* ===== verification/Klist.v ===== *)
(** * Circular lists

    [include/yios/list.h]: intrusive doubly linked lists. A [struct list_head] is
    identified by its address; the nodes of the system are one finite map, and a
    node never written reads as zeros. The predicate [ring] says which sequence
    of nodes hangs off a list head. *)

From S2P Require Import Prelude.

Module Klist.

(** ** The code *)

Record list_head : Type := ListHead { next : Z; prev : Z }.
Abbreviation nodes := (gmap Z list_head).

Definition LIST_POISON1 : Z := u64 (0x00100100 + 0xdead000000000000).
Definition LIST_POISON2 : Z := u64 (0x00200200 + 0xdead000000000000).

(** Reading and writing the two fields of a node. *)
Definition node (h : nodes) (a : Z) : list_head := default (ListHead 0 0) (h !! a).
Definition nxt (h : nodes) (a : Z) : Z := next (node h a).
Definition prv (h : nodes) (a : Z) : Z := prev (node h a).
Definition put_next (h : nodes) (a v : Z) : nodes := <[a := ListHead v (prv h a)]> h.
Definition put_prev (h : nodes) (a v : Z) : nodes := <[a := ListHead (nxt h a) v]> h.
Definition set_next (a v : Z) : M nodes unit := modify (fun h => put_next h a v).
Definition set_prev (a v : Z) : M nodes unit := modify (fun h => put_prev h a v).

Definition INIT_LIST_HEAD (list : Z) : M nodes unit :=
  set_next list list;;
  set_prev list list.

Definition __list_add (new prev next : Z) : M nodes unit :=
  set_prev next new;;
  set_next new next;;
  set_prev new prev;;
  set_next prev new.

Definition list_add (new head : Z) : M nodes unit :=
  n ← gets (fun h => nxt h head);
  __list_add new head n.

Definition list_add_tail (new head : Z) : M nodes unit :=
  p ← gets (fun h => prv h head);
  __list_add new p head.

Definition __list_del (prev next : Z) : M nodes unit :=
  set_prev next prev;;
  set_next prev next.

Definition list_del (entry : Z) : M nodes unit :=
  p ← gets (fun h => prv h entry);
  n ← gets (fun h => nxt h entry);
  __list_del p n;;
  set_next entry LIST_POISON1;;
  set_prev entry LIST_POISON2.

Definition list_empty (head : Z) : M nodes bool :=
  gets (fun h => nxt h head =? head).

(** [list_entry (ptr, type, member)], by the offset of the member. *)
Definition list_entry (ptr member : Z) : Z := ptr - member.

(** [list_for_each (pos, head) { body }]: [acc] is what the body updates. The node
    map is read through [l], as the body may run over a larger state. *)
Section ForEach.
Context {S A : Type} (l : lens S nodes) (head : Z) (body : Z -> A -> M S A).

Definition list_for_each_body (st : Z * A) : M S ((Z * A) + A) :=
  let '(pos, acc) := st in
  if pos =? head then mret (inr acc)
  else
    acc ← body pos acc;
    pos ← gets (fun s => nxt (lget l s) pos);
    mret (inl (pos, acc)).

Definition list_for_each (fuel : nat) (acc : A) : M S A :=
  pos ← gets (fun s => nxt (lget l s) head);
  loop fuel list_for_each_body (pos, acc).
End ForEach.

(** ** The abstract list *)

(** Neighbours in [l] point at each other. *)
Fixpoint links (h : nodes) (l : list Z) : Prop :=
  match l with
  | a :: (b :: _) as t => nxt h a = b /\ prv h b = a /\ links h t
  | _ => True
  end.

(** The list at [head] holds exactly [l], in order. *)
Definition ring (h : nodes) (head : Z) (l : list Z) : Prop :=
  NoDup (head :: l) /\ links h (head :: l ++ [head]).

(** ** Fields *)

Lemma nxt_put_next h a v b : nxt (put_next h a v) b = if decide (a = b) then v else nxt h b.
Proof.
  unfold nxt, node, put_next. case_decide as E.
  - subst b. by rewrite lookup_insert_eq.
  - by rewrite lookup_insert_ne.
Qed.

Lemma prv_put_prev h a v b : prv (put_prev h a v) b = if decide (a = b) then v else prv h b.
Proof.
  unfold prv, node, put_prev. case_decide as E.
  - subst b. by rewrite lookup_insert_eq.
  - by rewrite lookup_insert_ne.
Qed.

Lemma nxt_put_prev h a v b : nxt (put_prev h a v) b = nxt h b.
Proof.
  unfold nxt at 1, node, put_prev. destruct (decide (a = b)) as [->|E].
  - by rewrite lookup_insert_eq.
  - by rewrite lookup_insert_ne.
Qed.

Lemma prv_put_next h a v b : prv (put_next h a v) b = prv h b.
Proof.
  unfold prv at 1, node, put_next. destruct (decide (a = b)) as [->|E].
  - by rewrite lookup_insert_eq.
  - by rewrite lookup_insert_ne.
Qed.

Create Rewrite HintDb klist.
#[export] Hint Rewrite nxt_put_next prv_put_prev nxt_put_prev prv_put_next : klist.

Ltac fields := autorewrite with klist.

(** ** Links *)

Lemma links_cons h a b l :
  links h (a :: b :: l) <-> nxt h a = b /\ prv h b = a /\ links h (b :: l).
Proof. done. Qed.

Lemma links_app h l1 a l2 :
  links h (l1 ++ a :: l2) <-> links h (l1 ++ [a]) /\ links h (a :: l2).
Proof.
  induction l1 as [|b l1 IH]; [simpl; tauto|].
  destruct l1 as [|c l1]; simpl in *; tauto.
Qed.

Lemma links_ext h h' l :
  (forall a, a ∈ removelast l -> nxt h' a = nxt h a) ->
  (forall a, a ∈ tail l -> prv h' a = prv h a) ->
  links h l -> links h' l.
Proof.
  induction l as [|a [|b l] IH]; intros Hn Hp Hl; [done|done|].
  apply links_cons in Hl as (H1 & H2 & H3). apply links_cons.
  split; [rewrite Hn; [done|by left]|]. split; [rewrite Hp; [done|by left]|].
  apply IH; [| |done].
  - intros x Hx. apply Hn. by right.
  - intros x Hx. apply Hp. by right.
Qed.

Lemma removelast_snoc (l : list Z) a : removelast (l ++ [a]) = l.
Proof. apply removelast_last. Qed.

(** ** Insertion between neighbours *)

(** Inserting between [p] and [n], given the two arcs [A ++ [p]] and [n :: B]. *)
Lemma list_add_links h A p n B new :
  links h (A ++ [p]) -> links h (n :: B) ->
  p ∉ A -> new ∉ A -> n ∉ tail (A ++ [p]) -> new ∉ tail (A ++ [p]) ->
  p ∉ removelast (n :: B) -> new ∉ removelast (n :: B) -> n ∉ B -> new ∉ B -> new <> p -> new <> n ->
  wp (__list_add new p n) h (fun _ h' =>
    links h' (A ++ p :: new :: n :: B) /\
    forall a, a <> new -> (a <> p -> nxt h' a = nxt h a) /\ (a <> n -> prv h' a = prv h a)).
Proof.
  intros HA HB Hp1 Hn1 Hp2 Hn2 Hp3 Hn3 Hp4 Hn4 Hnp Hnn.
  unfold __list_add, set_next, set_prev. wp_steps. set (h' := put_next _ p new).
  assert (forall a, a <> new -> (a <> p -> nxt h' a = nxt h a) /\ (a <> n -> prv h' a = prv h a)) as Hf.
  { intros a Ha. unfold h'. fields. split; intros Hx; repeat case_decide; congruence. }
  split; [|done]. apply links_app. split; [|apply links_cons; split; [|split; [|apply links_cons; split; [|split]]]].
  - eapply links_ext; [| |exact HA]; intros a Ha; apply Hf; try congruence.
    + rewrite removelast_snoc in Ha. congruence.
    + rewrite removelast_snoc in Ha. congruence.
  - unfold h'. fields. by rewrite decide_True.
  - unfold h'. fields. rewrite decide_True; done.
  - unfold h'. fields. rewrite decide_False by congruence. by rewrite decide_True.
  - unfold h'. fields. rewrite decide_False by congruence. by rewrite decide_True.
  - eapply links_ext; [| |exact HB]; intros a Ha; apply Hf; try congruence.
    + simpl in Ha. congruence.
    + simpl in Ha. congruence.
Qed.

(** Joining the two arcs around a removed node. *)
Lemma list_del_links h A p n B :
  links h (A ++ [p]) -> links h (n :: B) ->
  p ∉ A -> n ∉ tail (A ++ [p]) -> p ∉ removelast (n :: B) -> n ∉ B ->
  wp (__list_del p n) h (fun _ h' =>
    links h' (A ++ p :: n :: B) /\
    forall a, (a <> p -> nxt h' a = nxt h a) /\ (a <> n -> prv h' a = prv h a)).
Proof.
  intros HA HB Hp1 Hp2 Hp3 Hp4. unfold __list_del, set_next, set_prev. wp_steps.
  set (h' := put_next _ p n).
  assert (forall a, (a <> p -> nxt h' a = nxt h a) /\ (a <> n -> prv h' a = prv h a)) as Hf.
  { intros a. unfold h'. fields. split; intros Hx; repeat case_decide; congruence. }
  split; [|done]. apply links_app. split; [|apply links_cons; split; [|split]].
  - eapply links_ext; [| |exact HA]; intros a Ha; apply Hf; [|congruence].
    rewrite removelast_snoc in Ha. congruence.
  - unfold h'. fields. by rewrite decide_True.
  - unfold h'. fields. by rewrite decide_True.
  - eapply links_ext; [| |exact HB]; intros a Ha; apply Hf; [congruence|]. simpl in Ha. congruence.
Qed.

(** ** Rings *)

Lemma NoDup_snoc (l : list Z) a : NoDup (a :: l) <-> NoDup (l ++ [a]).
Proof. by rewrite (Permutation_app_comm l [a]). Qed.

(** A ring only depends on the fields of its own nodes. *)
Lemma ring_ext h h' head l :
  (forall a, a ∈ head :: l -> node h' a = node h a) -> ring h head l -> ring h' head l.
Proof.
  intros Ha [Hd Hl]. split; [done|]. eapply links_ext; [| |exact Hl].
  - intros a Hin. rewrite app_comm_cons, removelast_snoc in Hin. unfold nxt. by rewrite Ha.
  - intros a Hin. unfold prv. rewrite Ha; [done|]. simpl in Hin.
    apply elem_of_app in Hin as [Hin|Hin%list_elem_of_singleton]; [by right|subst; left].
Qed.

Lemma node_eq h h' a : nxt h' a = nxt h a -> prv h' a = prv h a -> node h' a = node h a.
Proof. unfold nxt, prv. destruct (node h' a), (node h a). simpl. congruence. Qed.

Lemma list_add_ring h head l new :
  ring h head l -> new ∉ head :: l ->
  wp (list_add new head) h (fun _ h' =>
    ring h' head (new :: l) /\ forall a, a ∉ new :: head :: l -> node h' a = node h a).
Proof.
  intros [Hd Hl] Hn. pose proof Hd as [Hd1 Hd2]%NoDup_cons. unfold list_add. wp_step. wp_step.
  pose proof (proj1 (NoDup_snoc _ _) Hd) as HdB. pose proof Hn as [Hn1 Hn2]%not_elem_of_cons.
  assert (new ∉ l ++ [head]) as Hn3.
  { rewrite elem_of_app, list_elem_of_singleton. intros [?|?]; congruence. }
  destruct (l ++ [head]) as [|n B] eqn:E; [by destruct l|].
  pose proof (proj1 (links_cons _ _ _ _) Hl) as (H1 & H2 & H3). rewrite H1.
  apply NoDup_cons in HdB as [Hb1 Hb2]. apply not_elem_of_cons in Hn3 as [Hn3 Hn4].
  eapply wp_mono; [apply (list_add_links h [] head n B new);
    rewrite <-?E, ?removelast_snoc; rewrite ?E; (done || apply not_elem_of_nil)|].
  intros [] h' [Hl' Hf]. split.
  - split; [|rewrite <-app_comm_cons, E; exact Hl'].
    rewrite !NoDup_cons, not_elem_of_cons. split_and!; congruence.
  - intros a Ha. assert (a <> n) as Han.
    { intros ->. apply Ha. right. assert (n ∈ l ++ [head]) as Hx by (rewrite E; left).
      apply elem_of_app in Hx as [Hx|Hx%list_elem_of_singleton]; [by right|rewrite Hx; left]. }
    apply not_elem_of_cons in Ha as [Ha1 [Ha2 _]%not_elem_of_cons].
    destruct (Hf a Ha1). apply node_eq; auto.
Qed.

Lemma list_add_tail_ring h head l new :
  ring h head l -> new ∉ head :: l ->
  wp (list_add_tail new head) h (fun _ h' =>
    ring h' head (l ++ [new]) /\ forall a, a ∉ new :: head :: l -> node h' a = node h a).
Proof.
  intros [Hd Hl] Hn. pose proof Hd as [Hd1 Hd2]%NoDup_cons. unfold list_add_tail. wp_step. wp_step.
  pose proof Hn as [Hn1 Hn2]%not_elem_of_cons.
  destruct (exists_last (l := head :: l)) as (A & p & E); [done|].
  rewrite app_comm_cons, E, <-app_assoc in Hl. simpl in Hl.
  apply links_app in Hl as [HA HB]. pose proof (proj1 (links_cons _ _ _ _) HB) as (_ & H2 & _).
  rewrite H2. assert (NoDup (A ++ [p])) as HdA by (by rewrite <-E).
  apply NoDup_snoc, NoDup_cons in HdA as [Hp1 Hp2].
  assert ((new ∉ A) /\ new <> p) as [Hn3 Hn4].
  { rewrite E, elem_of_app, list_elem_of_singleton in Hn. tauto. }
  assert (tail (A ++ [p]) = l) as Et by (by rewrite <-E).
  eapply wp_mono; [apply (list_add_links h A p head [] new); rewrite ?Et;
    (done || apply not_elem_of_nil)|].
  intros [] h' [Hl' Hf]. split.
  - split.
    + apply NoDup_cons. rewrite <-NoDup_snoc, NoDup_cons, elem_of_app, list_elem_of_singleton.
      split_and!; [|done|done]. intros [?|?]; congruence.
    + rewrite !app_comm_cons, E, <-!app_assoc. exact Hl'.
  - intros a Ha. assert (a <> p) as Hap.
    { intros ->. apply Ha. right. rewrite E, elem_of_app. right. left. }
    apply not_elem_of_cons in Ha as [Ha1 [Ha2 _]%not_elem_of_cons].
    destruct (Hf a Ha1). apply node_eq; auto.
Qed.

Lemma node_put_ne h x u v a : a <> x -> node (put_prev (put_next h x u) x v) a = node h a.
Proof. intros H. apply node_eq; fields; by rewrite ?decide_False. Qed.

(** A ring seen from a node of it: the arc up to its predecessor and the arc from
    its successor, which have only the head in common. *)
Lemma ring_split h head l1 x l2 :
  ring h head (l1 ++ x :: l2) ->
  exists A p n B, head :: l1 = A ++ [p] /\ l2 ++ [head] = n :: B /\
    links h (A ++ [p]) /\ links h (n :: B) /\ prv h x = p /\ nxt h x = n /\
    (p ∉ A) /\ (n ∉ l1) /\ (p ∉ l2) /\ (n ∉ B).
Proof.
  intros [Hd Hl].
  destruct (exists_last (l := head :: l1)) as (A & p & E); [done|].
  assert (exists n B, l2 ++ [head] = n :: B) as (n & B & E2) by (destruct l2; simpl; eauto).
  exists A, p, n, B.
  rewrite <-app_assoc, <-app_comm_cons, app_comm_cons, E, E2, <-app_assoc in Hl. simpl in Hl.
  apply links_app in Hl as [HA HB]. apply links_cons in HB as (Hp & Hxp & HB).
  apply links_cons in HB as (Hxn & Hnx & HB).
  rewrite app_comm_cons in Hd. apply NoDup_app in Hd as (Hd1 & Hd2 & Hd3).
  pose proof Hd1 as [Hh _]%NoDup_cons. rewrite E in Hd1, Hd2.
  apply NoDup_snoc, NoDup_cons in Hd1 as [Hp1 _]. apply NoDup_cons in Hd3 as [Hx Hd3].
  assert (forall a, a ∈ head :: l1 -> a ∉ l2) as Hdis.
  { intros a Ha Hin. apply (Hd2 a); [by rewrite <-E|by right]. }
  assert (n = head \/ n ∈ l2) as Hn.
  { assert (n ∈ l2 ++ [head]) as Hin by (rewrite E2; left).
    apply elem_of_app in Hin as [?|?%list_elem_of_singleton]; auto. }
  split_and!; try done.
  - intros Hin. destruct Hn as [->|Hn]; [done|]. apply (Hdis n); [by right|done].
  - apply Hdis. rewrite E, elem_of_app. right. left.
  - assert (NoDup (n :: B)) as [? _]%NoDup_cons; [|done].
    rewrite <-E2. apply NoDup_snoc, NoDup_cons. split; [|done]. apply Hdis. left.
Qed.

Lemma list_del_ring h head l1 x l2 :
  ring h head (l1 ++ x :: l2) ->
  wp (list_del x) h (fun _ h' =>
    ring h' head (l1 ++ l2) /\ node h' x = ListHead LIST_POISON1 LIST_POISON2 /\
    forall a, a ∉ head :: l1 ++ x :: l2 -> node h' a = node h a).
Proof.
  intros Hr. destruct (ring_split _ _ _ _ _ Hr) as (A & p & n & B & E & E2 & HA & HB & Hxp & Hxn & C).
  destruct C as (C1 & C2 & C3 & C4). destruct Hr as [Hd _].
  unfold list_del. wp_step. wp_step. wp_step. wp_step. rewrite Hxp, Hxn.
  assert (tail (A ++ [p]) = l1) as Et by (by rewrite <-E).
  wp_step. eapply wp_mono; [apply (list_del_links h A p n B);
    rewrite ?Et; rewrite <-?E2, ?removelast_snoc; rewrite ?E2; done|].
  intros [] h1 [Hl1 Hf]. unfold set_next, set_prev. wp_steps.
  assert (Permutation (head :: l1 ++ x :: l2) (x :: head :: l1 ++ l2)) as Hperm by solve_Permutation.
  rewrite Hperm in Hd. apply NoDup_cons in Hd as [Hx Hd].
  split; [|split].
  - apply (ring_ext h1).
    + intros a Ha. apply node_put_ne. congruence.
    + split; [done|]. by rewrite <-app_assoc, E2, app_comm_cons, E, <-app_assoc.
  - unfold node, put_prev, nxt, node, put_next. by rewrite !lookup_insert_eq.
  - intros a Ha. rewrite Hperm, not_elem_of_cons in Ha. destruct Ha as [Hax Ha].
    rewrite node_put_ne by done. destruct (Hf a) as [F1 F2].
    apply node_eq; [apply F1|apply F2]; intros ->; apply Ha.
    + rewrite app_comm_cons, elem_of_app. left. rewrite E, elem_of_app. right. left.
    + assert (n ∈ l2 ++ [head]) as Hin by (rewrite E2; left).
      apply elem_of_app in Hin as [?|Hin%list_elem_of_singleton]; [|rewrite Hin; left].
      right. rewrite elem_of_app. by right.
Qed.

Lemma ring_init h head :
  wp (INIT_LIST_HEAD head) h (fun _ h' =>
    ring h' head [] /\ forall a, a <> head -> node h' a = node h a).
Proof.
  unfold INIT_LIST_HEAD, set_next, set_prev. wp_steps. split.
  - split; [apply NoDup_singleton|]. simpl. fields. by rewrite !decide_True.
  - intros a Ha. by apply node_put_ne.
Qed.

Lemma ring_next h head l1 x l2 :
  ring h head (l1 ++ x :: l2) -> nxt h x = hd head l2.
Proof.
  intros [_ Hl]. rewrite <-app_assoc, app_comm_cons in Hl. simpl in Hl.
  apply (links_app h (head :: l1) x) in Hl as [_ Hl]. destruct l2; simpl in *; tauto.
Qed.

Lemma ring_first h head l : ring h head l -> nxt h head = hd head l.
Proof. intros [_ Hl]. destruct l; simpl in *; tauto. Qed.

(** The loop of [list_for_each]: [I] holds before the node after [seen]. *)
Lemma list_for_each_wp {S A} (L : lens S nodes) head xs (body : Z -> A -> M S A)
    (I : list Z -> A -> S -> Prop) :
  (forall seen acc s, I seen acc s -> ring (lget L s) head xs) ->
  (forall seen x rest acc s, xs = seen ++ x :: rest -> I seen acc s ->
     wp (body x acc) s (fun acc' s' => I (seen ++ [x]) acc' s')) ->
  forall fuel acc s, I [] acc s -> (length xs < fuel)%nat ->
  wp (list_for_each L head body fuel acc) s (fun acc' s' => I xs acc' s').
Proof.
  intros Hring Hbody fuel acc s HI Hf. unfold list_for_each. wp_step. wp_step.
  rewrite (ring_first _ _ _ (Hring _ _ _ HI)).
  assert (forall rest seen fuel acc s, xs = seen ++ rest -> I seen acc s ->
    (length rest < fuel)%nat ->
    wp (loop fuel (list_for_each_body L head body) (hd head rest, acc)) s
       (fun acc' s' => I xs acc' s')) as Hloop.
  { clear fuel acc s HI Hf. induction rest as [|x rest IH]; intros seen [|fuel] acc s E HI Hf;
      try (simpl in Hf; lia); rewrite loop_unfold; wp_step; unfold list_for_each_body; simpl.
    - rewrite Z.eqb_refl. wp_steps. by rewrite E, app_nil_r.
    - pose proof (Hring _ _ _ HI) as [Hd _]. rewrite (proj2 (Z.eqb_neq x head)).
      2: { intros ->. apply NoDup_cons in Hd as [Hd _]. apply Hd. rewrite E, elem_of_app. right. left. }
      wp_step. eapply wp_mono; [by apply (Hbody seen x rest)|]. intros acc' s' HI'.
      pose proof (Hring _ _ _ HI') as Hr. rewrite E in Hr. wp_steps.
      rewrite (ring_next _ _ _ _ _ Hr). apply (IH (seen ++ [x])); [|done|simpl in Hf; lia].
      by rewrite E, <-app_assoc. }
  by apply (Hloop xs []).
Qed.

(** ** Properties *)

(** C17: The list operations refine operations on sequences: on a head that holds [l],
    [list_add] puts a new node first, [list_add_tail] last, [list_del] removes the
    node it is given and poisons it, [list_empty] tests for the empty sequence, and
    no operation touches a node outside the list and its argument. *)
Theorem list_refines h head l new :
  ring h head l -> new ∉ head :: l ->
  wp (list_add new head) h (fun _ h' => ring h' head (new :: l) /\
    forall a, a ∉ new :: head :: l -> node h' a = node h a) /\
  wp (list_add_tail new head) h (fun _ h' => ring h' head (l ++ [new]) /\
    forall a, a ∉ new :: head :: l -> node h' a = node h a) /\
  (forall l1 x l2, l = l1 ++ x :: l2 ->
     wp (list_del x) h (fun _ h' => ring h' head (l1 ++ l2) /\
       node h' x = ListHead LIST_POISON1 LIST_POISON2 /\
       forall a, a ∉ head :: l -> node h' a = node h a)) /\
  list_empty head h = Ret (bool_decide (l = []), h).
Proof.
  intros Hr Hn. split; [by apply list_add_ring|]. split; [by apply list_add_tail_ring|]. split.
  - intros l1 x l2 ->. by apply list_del_ring.
  - unfold list_empty, gets. rewrite (ring_first _ _ _ Hr). do 2 f_equal.
    destruct l as [|x l]; cbn [hd]; [by rewrite Z.eqb_refl|].
    rewrite bool_decide_false by done. apply Z.eqb_neq. intros ->.
    destruct Hr as [[Hh _]%NoDup_cons _]. apply Hh. left.
Qed.

(** Iterating visits every node of the list once, in order, and ends: with a body
    that leaves the list alone, [list_for_each] is the left fold of the body over
    the sequence the list holds. *)
Theorem list_for_each_fold h head l {A} (f : A -> Z -> A) acc fuel :
  ring h head l -> (length l < fuel)%nat ->
  list_for_each (Lens (fun s => s) (fun t _ => t)) head (fun x a => mret (f a x)) fuel acc h =
  Ret (fold_left f l acc, h).
Proof.
  intros Hr Hf.
  enough (wp (list_for_each (Lens (fun s => s) (fun t _ => t)) head (fun x a => mret (f a x)) fuel acc) h
            (fun a h' => a = fold_left f l acc /\ h' = h)) as H.
  { apply wp_elim in H as (a & h' & -> & -> & ->). done. }
  apply (list_for_each_wp (Lens (fun s : nodes => s) (fun t _ => t)) head l _
           (fun seen a h' => a = fold_left f seen acc /\ h' = h)); [| |done|done].
  - intros seen a h' [_ ->]. done.
  - intros seen x rest a h' _ [-> ->]. wp_steps. by rewrite fold_left_app.
Qed.

Definition three : nodes :=
  {[16 := ListHead 32 48; 32 := ListHead 48 16; 48 := ListHead 16 32]}.

Lemma ring_three : ring three 16 [32; 48].
Proof. split; [apply (bool_decide_unpack _); by vm_compute|by vm_compute]. Qed.

Lemma list_refines_witness :
  wp (list_add 64 16) three (fun _ h' => ring h' 16 [64; 32; 48]) /\
  wp (list_del 32) three (fun _ h' => ring h' 16 [48]) /\
  list_empty 16 three = Ret (false, three).
Proof.
  destruct (list_refines three 16 [32; 48] 64 ring_three) as (H1 & _ & H3 & H4).
  { apply (bool_decide_unpack _); by vm_compute. }
  split; [eapply wp_mono; [exact H1|]; intros [] h' [Hr _]; exact Hr|].
  split; [|exact H4].
  eapply wp_mono; [exact (H3 [] 32 [48] eq_refl)|]. intros [] h' [Hr _]. exact Hr.
Defined.

Lemma list_for_each_fold_witness :
  list_for_each (Lens (fun s => s) (fun t _ => t)) 16 (fun x a => mret (a ++ [x])) 5 [] three =
  Ret (fold_left (fun a x => a ++ [x]) [32; 48] [], three).
Proof. apply (list_for_each_fold three 16 [32; 48] (fun a x => a ++ [x])); [apply ring_three|simpl; lia]. Defined.

End Klist.
