(* ===== verification/Printk.v ===== *)
(** * Formatted output

    [kernel/printk.c]: [scan_number], [number], [myprintf] and [printk].

    The characters [myprintf] writes through [pos] are the list [out]; the argument
    list is [args]. The code gives [myprintf] no bound, so that the bound of
    [print_buf] is checked in [printk]: output that does not fit is undefined. The
    loops of the code are loops here, with a bound on their rounds that the lemmas show
    to be enough. [base] keeps its value from one conversion to the next, as
    the variable of the code does, and has none at first. *)

From S2P Require Import Prelude Base.

Module Printk.

(** ** Characters *)

Definition bytes (s : string) : list Z := (fun c => Z.of_nat (Ascii.nat_of_ascii c)) <$> String.list_ascii_of_string s.
Definition chr (s : string) : Z := hd 0 (bytes s).

Definition ZEROPAD : Z := 1.
Definition SIGN : Z := 2.
Definition PLUS : Z := 4.
Definition SPACE : Z := 8.
Definition LEFT : Z := 16.
Definition SPECIAL : Z := 32.
Definition SMALL : Z := 64.
Definition has (type flag : Z) : bool := negb (Z.land type flag =? 0).

Definition is_digit (c : Z) : bool := (chr "0" <=? c) && (c <=? chr "9").

(** [*fmt]; the format ends with a null character. *)
Definition peek (fmt : list Z) : Z := hd 0 fmt.

(** ** The state *)

(** [stored] are the bytes [%n] writes through its argument. *)
Record pst : Type := Pst {
  out : list Z;
  args : list varg;
  base : option Z;
  stored : list (Z * Z);
}.

Definition emits (l : list Z) : M pst unit :=
  modify (fun s => Pst (out s ++ l) (args s) (base s) (stored s)).

(** ** Numbers *)

Fixpoint scan_number_from (fmt : list Z) (tmp : Z) : Z * list Z :=
  match fmt with
  | c :: fmt' => if is_digit c then scan_number_from fmt' (s32 (s32 (tmp * 10) + (c - chr "0"))) else (tmp, fmt)
  | [] => (tmp, [])
  end.
Definition scan_number (fmt : list Z) : Z * list Z := scan_number_from fmt 0.

Definition digits_small : list Z := bytes "0123456789abcdefghijklmnopqrstuvwxyz".
Definition digits_big : list Z := bytes "0123456789ABCDEFGHIJKLMNOPQRSTUVWXYZ".
Definition digit (digits : list Z) (d : Z) : Z := nth (Z.to_nat d) digits 0.

(** The remainder, and what is left in [n]. *)
Definition do_div (n base : Z) : Z * Z := (n mod base, n / base).

(** [while (num != 0) tmp[i++] = digits[do_div (num, base)]], on [num], [tmp] and [i]; 64
    rounds use up 64 bits. *)
Definition digits_body (digits : list Z) (base : Z) (st : Z * list Z * Z) : M pst (Z * list Z * Z + list Z * Z) :=
  let '(num, tmp, i) := st in
  if num =? 0 then mret (inr (tmp, i))
  else
    let '(rem, num) := do_div num base in
    tmp ← of_option (arr_set tmp i (digit digits rem));
    mret (inl (num, tmp, i + 1)).

(** [while (lim < n--) *str++ = c], and the value it leaves in [n]. *)
Definition fill_to_body (c lim n : Z) : M pst (Z + Z) :=
  if lim <? n then emits [c];; mret (inl (s32 (n - 1))) else mret (inr (s32 (n - 1))).
Definition fill_to (c lim n : Z) : M pst Z := loop (S (Z.to_nat (n - lim))) (fill_to_body c lim) n.

(** [while (i-- > 0) *str++ = tmp[i]]. *)
Definition copy_back_body (tmp : list Z) (i : Z) : M pst (Z + unit) :=
  if 0 <? i then
    c ← of_option (arr_get tmp (i - 1));
    emits [c];;
    mret (inl (i - 1))
  else mret (inr tt).

(** [false] when it returns a null pointer. What is in [tmp] at first is not read. *)
Definition number (num base size precision type : Z) : M pst bool :=
  let digits := if has type SMALL then digits_small else digits_big in
  let type := if has type LEFT then Z.land type (Z.lnot ZEROPAD) else type in
  if (base <? 2) || (36 <? base) then mret false
  else
    let c := if has type ZEROPAD then chr "0" else chr " " in
    let '(sign, num, size) :=
      if has type SIGN then
        if s64 num <? 0 then (chr "-", u64 (- s64 num), size)
        else if has type PLUS then (chr "+", num, s32 (size - 1))
        else if has type SPACE then (chr " ", num, s32 (size - 1))
        else (0, num, size)
      else (0, num, size) in
    let size :=
      if has type SPECIAL then
        if base =? 16 then s32 (size - 2) else if base =? 8 then s32 (size - 1) else size
      else size in
    let tmp := replicate 128 0 in
    ti ← (if num =? 0 then tmp ← of_option (arr_set tmp 0 (chr "0")); mret (tmp, 1)
          else loop 65 (digits_body digits base) (num, tmp, 0));
    let '(tmp, i) := ti in
    let precision := if precision <? i then i else precision in
    let size := s32 (size - precision) in
    size ← (if negb (has type (ZEROPAD + LEFT)) then fill_to (chr " ") 0 size else mret size);
    (if negb (sign =? 0) then emits [sign] else mret tt);;
    (if has type SPECIAL then
       if base =? 8 then emits [chr "0"]
       else if base =? 16 then emits [chr "0"];; emits [digit digits 33] else mret tt
     else mret tt);;
    size ← (if negb (has type LEFT) then fill_to c 0 size else mret size);
    fill_to (chr "0") i precision;;
    loop (S (Z.to_nat i)) (copy_back_body tmp) i;;
    fill_to (chr " ") 0 size;;
    mret true.

(** ** myprintf *)

Definition set_base (b : Z) : M pst unit :=
  modify (fun s => Pst (out s) (args s) (Some b) (stored s)).

(** [va_arg]; taking more arguments than were passed is undefined. *)
Definition next_arg : M pst varg := fun s =>
  match args s with
  | a :: args' => Ret (a, Pst (out s) args' (base s) (stored s))
  | [] => Undef
  end.
Definition next_num : M pst Z :=
  a ← next_arg; match a with VNum z => mret z | VStr _ => undef end.
(** A string argument; a null pointer prints as [<NULL>]. *)
Definition next_str : M pst (list Z) :=
  a ← next_arg;
  match a with
  | VStr s => mret (bytes s)
  | VNum z => if z =? 0 then mret (bytes "<NULL>") else undef
  end.

Fixpoint scan_flags (fmt : list Z) (flags : Z) : Z * list Z :=
  match fmt with
  | c :: fmt' =>
      if c =? chr "-" then scan_flags fmt' (Z.lor flags LEFT)
      else if c =? chr "+" then scan_flags fmt' (Z.lor flags PLUS)
      else if c =? chr " " then scan_flags fmt' (Z.lor flags SPACE)
      else if c =? chr "#" then scan_flags fmt' (Z.lor flags SPECIAL)
      else if c =? chr "0" then scan_flags fmt' (Z.lor flags ZEROPAD)
      else (flags, fmt)
  | [] => (flags, [])
  end.

(** Field width: [(width, flags, fmt)]. The [*] is not skipped. *)
Definition scan_width (flags : Z) (fmt : list Z) : M pst (Z * Z * list Z) :=
  if is_digit (peek fmt) then
    let '(w, fmt) := scan_number fmt in mret (w, flags, fmt)
  else if peek fmt =? chr "*" then
    n ← next_num;
    let w := s32 n in
    mret (if w <? 0 then (s32 (- w), Z.lor flags LEFT, fmt) else (w, flags, fmt))
  else mret (-1, flags, fmt).

Definition scan_precision (fmt : list Z) : M pst (Z * list Z) :=
  if peek fmt =? chr "." then
    let fmt := tail fmt in
    pf ← (if is_digit (peek fmt) then mret (scan_number fmt)
          else if peek fmt =? chr "*" then n ← next_num; mret (s32 n, fmt)
          else mret (-1, fmt));
    mret (if pf.1 <? 0 then (0, pf.2) else pf)
  else mret (-1, fmt).

Definition scan_qualifier (fmt : list Z) : Z * list Z :=
  if (peek fmt =? chr "h") || (peek fmt =? chr "l") || (peek fmt =? chr "L") then
    let q := peek fmt in
    let fmt := tail fmt in
    if (q =? chr "l") && (peek fmt =? chr "l") then (chr "L", tail fmt) else (q, fmt)
  else (-1, fmt).

(** The integer argument by the qualifier and sign, as an [unsigned long]. *)
Definition num_arg (qualifier flags : Z) : M pst Z :=
  n ← next_num;
  mret (if qualifier =? chr "L" then u64 n
        else if qualifier =? chr "h" then if has flags SIGN then u64 (s16 n) else u16 n
        else if qualifier =? chr "l" then u64 n
        else if has flags SIGN then u64 (s32 n) else u32 n).

(** The call of [number]; a null result makes [pos] null, which is then written to. *)
Definition put_number (num base size precision flags : Z) : M pst unit :=
  ok ← number num base size precision flags;
  if (ok : bool) then mret tt else undef.

(** [while (--n > 0) *pos++ = ' ']. *)
Definition spaces_body (n : Z) : M pst (Z + Z) :=
  let n := s32 (n - 1) in
  if 0 <? n then emits [chr " "];; mret (inl n) else mret (inr n).
Definition spaces (n : Z) : M pst Z := loop (S (Z.to_nat n)) spaces_body n.

Definition put_char (flags field_width : Z) : M pst unit :=
  w ← (if negb (has flags LEFT) then spaces field_width else mret field_width);
  n ← next_num;
  emits [u8 n];;
  spaces w;;
  mret tt.

(** [for (i = 0; i < len; i++) *pos++ = *s++]. *)
Definition copy_body (s : list Z) (len i : Z) : M pst (Z + unit) :=
  if i <? len then
    c ← of_option (arr_get s i);
    emits [c];;
    mret (inl (i + 1))
  else mret (inr tt).

Definition put_str (flags field_width precision : Z) : M pst unit :=
  s ← next_str;
  let len := Z.of_nat (length s) in
  let len := if precision <? 0 then len else if precision <? len then precision else len in
  w ← (if negb (has flags LEFT) then fill_to (chr " ") len field_width else mret field_width);
  loop (S (Z.to_nat len)) (copy_body s len) 0;;
  fill_to (chr " ") len w;;
  mret tt.

(** One conversion, from the character after [%]; the result is the format after it. *)
Definition conversion (fmt : list Z) : M pst (list Z) :=
  let '(flags, fmt) := scan_flags fmt 0 in
  wf ← scan_width flags fmt;
  let '(field_width, flags, fmt) := wf in
  pf ← scan_precision fmt;
  let '(precision, fmt) := pf in
  let '(qualifier, fmt) := scan_qualifier fmt in
  let c := peek fmt in
  let to_number (flags : Z) : M pst (list Z) :=
    b ← gets base;
    n ← num_arg qualifier flags;
    b ← of_option b;
    put_number n b field_width precision flags;;
    mret (tail fmt) in
  if c =? chr "c" then put_char flags field_width;; mret (tail fmt)
  else if c =? chr "s" then put_str flags field_width precision;; mret (tail fmt)
  else if c =? chr "n" then
    p ← next_num;
    modify (fun s => Pst (out s) (args s) (base s)
                         (stored s ++ [(p, u8 (Z.of_nat (length (out s))))]));;
    mret (tail fmt)
  else if c =? chr "p" then
    let '(w, flags) := if field_width =? -1 then (16, Z.lor flags ZEROPAD) else (field_width, flags) in
    n ← next_num;
    put_number (u64 n) 16 w precision flags;;
    mret (tail fmt)
  else if c =? chr "o" then set_base 8;; to_number flags
  else if c =? chr "x" then set_base 16;; to_number (Z.lor flags SMALL)
  else if c =? chr "X" then set_base 16;; to_number flags
  else if (c =? chr "d") || (c =? chr "i") then set_base 10;; to_number (Z.lor flags SIGN)
  else if c =? chr "u" then set_base 10;; to_number flags
  else
    (if c =? chr "%" then mret tt else emits [chr "%"]);;
    (if c =? 0 then mret tt else emits [c]);;
    to_number flags.

Definition myprintf_body (fmt : list Z) : M pst (list Z + unit) :=
  match fmt with
  | [] => mret (inr tt)
  | c :: fmt =>
      if c =? chr "%" then fmt ← conversion fmt; mret (inl fmt)
      else emits [c];; mret (inl fmt)
  end.

(** Every round consumes a character of the format. *)
Definition myprintf (fmt : list Z) : M pst unit := loop (S (length fmt)) myprintf_body fmt.

(** The text of a call of [printk], when it is defined. *)
Definition format (fmt : string) (a : list varg) : option (list Z) :=
  match myprintf (bytes fmt) (Pst [] a None []) with
  | Ret (_, s) => Some (out s)
  | _ => None
  end.

Definition CONSOLE_PRINT_BUFFER_SIZE : Z := 1024.

(** ** printk *)

Section Printk.
Context {S : Type} (putchar : Z -> M S unit).

Definition printk_body (buf : list Z) (i : Z) : M S (Z + unit) :=
  if i <? Z.of_nat (length buf) then
    c ← of_option (arr_get buf i);
    putchar c;;
    if CONSOLE_PRINT_BUFFER_SIZE <? i then mret (inr tt) else mret (inl (i + 1))
  else mret (inr tt).

(** The text and its null character must fit [print_buf]. *)
Definition printk (fmt : string) (a : list varg) : M S Z :=
  buf ← of_option (format fmt a);
  if Z.of_nat (length buf) <? CONSOLE_PRINT_BUFFER_SIZE then
    loop (Datatypes.S (length buf)) (printk_body buf) 0;;
    mret (Z.of_nat (length buf))
  else undef.
End Printk.

(** ** The abstract formatter *)

(** Reading a printed number back. *)
Definition unchar (c : Z) : Z :=
  if c <=? chr "9" then c - chr "0" else if c <=? chr "Z" then c - chr "A" + 10 else c - chr "a" + 10.
Definition read_base (b : Z) (l : list Z) : Z := fold_left (fun acc c => acc * b + unchar c) l 0.

(** The digits of a number, least significant first; 64 are enough for 64 bits. *)
Fixpoint do_digits (fuel : nat) (digits : list Z) (num base : Z) : list Z :=
  match fuel with
  | O => []
  | S fuel => if num =? 0 then [] else digit digits (num mod base) :: do_digits fuel digits (num / base) base
  end.

(** The digits of a number, most significant first. *)
Definition numeral (digits : list Z) (n b : Z) : list Z :=
  if n =? 0 then [chr "0"] else rev (do_digits 64 digits n b).

Lemma unchar_digit digits d :
  digits = digits_small \/ digits = digits_big -> 0 <= d < 36 -> unchar (digit digits d) = d.
Proof.
  intros Hd H. assert (exists k, d = Z.of_nat k /\ (k < 36)%nat) as (k & -> & Hk).
  { exists (Z.to_nat d). lia. }
  clear H. destruct Hd as [-> | ->]; do 36 (destruct k as [|k]; [reflexivity|]); lia.
Qed.

Lemma read_base_snoc b l c : read_base b (l ++ [c]) = read_base b l * b + unchar c.
Proof. unfold read_base. by rewrite fold_left_app. Qed.

Lemma read_do_digits digits b fuel : forall n,
  digits = digits_small \/ digits = digits_big -> 2 <= b <= 36 -> 0 <= n < 2 ^ Z.of_nat fuel ->
  read_base b (rev (do_digits fuel digits n b)) = n.
Proof.
  induction fuel as [|fuel IH]; intros n Hd Hb Hn; [change (2 ^ Z.of_nat 0) with 1 in Hn; assert (n = 0) as -> by lia; done|].
  cbn [do_digits]. destruct (Z.eqb_spec n 0) as [->|Hne]; [done|]. cbn [rev].
  rewrite read_base_snoc. pose proof (Z.div_mod n b). pose proof (Z.mod_pos_bound n b).
  rewrite unchar_digit by (done || lia). rewrite IH; [lia|done|done|].
  split; [apply Z.div_pos; lia|]. rewrite Nat2Z.inj_succ, Z.pow_succ_r in Hn by lia.
  apply Z.div_lt_upper_bound; nia.
Qed.

Lemma read_numeral digits n b :
  digits = digits_small \/ digits = digits_big -> 2 <= b <= 36 -> 0 <= n < 2 ^ 64 ->
  read_base b (numeral digits n b) = n.
Proof.
  intros Hd Hb Hn. unfold numeral. destruct (Z.eqb_spec n 0) as [->|]; [done|].
  by apply read_do_digits.
Qed.

Lemma length_do_digits fuel digits n b : (length (do_digits fuel digits n b) <= fuel)%nat.
Proof.
  revert n. induction fuel as [|fuel IH]; intros n; simpl; [lia|].
  destruct (n =? 0); simpl; [lia|]. specialize (IH (n / b)). lia.
Qed.

Lemma numeral_length digits n b : (1 <= length (numeral digits n b) <= 64)%nat.
Proof.
  unfold numeral. destruct (Z.eqb_spec n 0); [simpl; lia|]. rewrite length_rev.
  pose proof (length_do_digits 64 digits n b).
  assert (length (do_digits 64 digits n b) <> 0%nat); [|lia].
  change (do_digits 64 digits n b) with
    (if n =? 0 then [] else digit digits (n mod b) :: do_digits 63 digits (n / b) b).
  rewrite (proj2 (Z.eqb_neq _ _)) by done. done.
Qed.

(** ** number *)

(** The parts of a printed number: sign, prefix and magnitude. *)
Definition sign_of (num type : Z) : list Z :=
  if has type SIGN then
    if s64 num <? 0 then [chr "-"]
    else if has type PLUS then [chr "+"] else if has type SPACE then [chr " "] else []
  else [].
Definition magnitude (num type : Z) : Z :=
  if has type SIGN && (s64 num <? 0) then - s64 num else num.
Definition prefix_of (b type : Z) : list Z :=
  if has type SPECIAL then
    if b =? 8 then [chr "0"]
    else if b =? 16 then [chr "0"; if has type SMALL then chr "x" else chr "X"] else []
  else [].

(** The part of the width [number] reserves for the sign: none for a minus. *)
Definition sign_room (num type : Z) : Z :=
  if has type SIGN && (s64 num <? 0) then 0 else Z.of_nat (length (sign_of num type)).

(** What [fill_to] to the limit 0 emits and leaves. *)
Definition pad (c size : Z) : list Z * Z :=
  (replicate (Z.to_nat size) c, if 0 <? size then -1 else s32 (size - 1)).

(** ** The loops *)

Definition more (s : pst) (l : list Z) : pst := Pst (out s ++ l) (args s) (base s) (stored s).

Lemma more_nil s : more s [] = s.
Proof. destruct s. unfold more. cbn [out args base stored]. by rewrite app_nil_r. Qed.
Lemma more_app s l l' : more (more s l) l' = more s (l ++ l').
Proof. unfold more. cbn [out args base stored]. by rewrite app_assoc. Qed.
Lemma emits_eq l s : emits l s = Ret (tt, more s l).
Proof. done. Qed.

Lemma fill_eq c lim n s :
  0 <= lim -> -2 ^ 31 <= n < 2 ^ 31 ->
  fill_to c lim n s = Ret (if lim <? n then lim - 1 else s32 (n - 1), more s (replicate (Z.to_nat (n - lim)) c)).
Proof.
  intros Hl Hn. unfold fill_to. remember (Z.to_nat (n - lim)) as k eqn:Ek. revert n s Hn Ek.
  induction k as [|k IH]; intros n s Hn Ek; rewrite loop_unfold; unfold mbind at 1, M_bind at 1; unfold fill_to_body at 1.
  - rewrite (proj2 (Z.ltb_ge lim n)) by lia. cbn [replicate]. by rewrite more_nil.
  - rewrite (proj2 (Z.ltb_lt lim n)) by lia. unfold mbind at 1, M_bind at 1. rewrite emits_eq. unfold mret, M_ret.
    rewrite (s32_small (n - 1)), IH, more_app by lia. cbn [replicate app]. do 2 f_equal.
    destruct (Z.ltb_spec lim (n - 1)); [done|]. rewrite s32_small by lia. lia.
Qed.

Lemma fill_pad c n s : -2 ^ 31 <= n < 2 ^ 31 -> fill_to c 0 n s = Ret ((pad c n).2, more s (pad c n).1).
Proof. intros H. rewrite fill_eq by lia. unfold pad. by rewrite Z.sub_0_r. Qed.

Lemma copy_back_eq tmp k : forall s,
  (k <= length tmp)%nat ->
  loop (S k) (copy_back_body tmp) (Z.of_nat k) s = Ret (tt, more s (rev (take k tmp))).
Proof.
  induction k as [|k IH]; intros s Hk; rewrite loop_unfold; unfold mbind at 1, M_bind at 1; unfold copy_back_body at 1.
  - cbn. by rewrite more_nil.
  - rewrite (proj2 (Z.ltb_lt _ _)) by lia. destruct (lookup_lt_is_Some_2 tmp k) as [c Hc]; [lia|].
    replace (Z.of_nat (S k) - 1) with (Z.of_nat k) by lia. rewrite arr_get_nat, Hc.
    unfold mbind at 1, M_bind at 1, of_option. unfold mbind at 1, M_bind at 1. rewrite emits_eq. unfold mret, M_ret.
    rewrite IH, more_app, (take_S_r tmp k c) by (done || lia). by rewrite rev_app_distr.
Qed.

Lemma copy_eq l len k : forall i s,
  (len <= length l)%nat -> (i + k = len)%nat ->
  loop (S k) (copy_body l (Z.of_nat len)) (Z.of_nat i) s = Ret (tt, more s (drop i (take len l))).
Proof.
  induction k as [|k IH]; intros i s Hl Hi; rewrite loop_unfold; unfold mbind at 1, M_bind at 1; unfold copy_body at 1.
  - rewrite (proj2 (Z.ltb_ge _ _)), drop_ge by (rewrite ?length_take; lia). by rewrite more_nil.
  - rewrite (proj2 (Z.ltb_lt _ _)) by lia. destruct (lookup_lt_is_Some_2 l i) as [c Hc]; [lia|].
    rewrite arr_get_nat, Hc. unfold mbind at 1, M_bind at 1, of_option. unfold mbind at 1, M_bind at 1. rewrite emits_eq.
    unfold mret, M_ret. replace (Z.of_nat i + 1) with (Z.of_nat (S i)) by lia. rewrite IH, more_app by lia.
    rewrite (drop_S (take len l) c i) by (rewrite lookup_take_lt by lia; done). done.
Qed.

(** The digits loop stays inside [tmp] and fills it from [i] on. *)
Lemma digits_eq digits b fuel : forall n tmp i s,
  2 <= b -> 0 <= n < 2 ^ Z.of_nat fuel -> (i + fuel <= length tmp)%nat ->
  let ds := do_digits fuel digits n b in
  exists tmp', loop (S fuel) (digits_body digits b) (n, tmp, Z.of_nat i) s = Ret ((tmp', Z.of_nat (i + length ds)), s) /\
    length tmp' = length tmp /\ take (i + length ds) tmp' = take i tmp ++ ds.
Proof.
  induction fuel as [|fuel IH]; intros n tmp i s Hb Hn Hi ds; rewrite loop_unfold; unfold mbind at 1, M_bind at 1;
    unfold digits_body at 1.
  - change (2 ^ Z.of_nat 0) with 1 in Hn. assert (n = 0) as -> by lia. exists tmp. subst ds. cbn [do_digits length].
    by rewrite Nat.add_0_r, app_nil_r.
  - unfold ds. cbn [do_digits]. destruct (Z.eqb_spec n 0) as [->|Hne].
    + exists tmp. cbn [length]. by rewrite Nat.add_0_r, app_nil_r.
    + unfold do_div. rewrite arr_set_nat by lia. unfold mbind at 1, M_bind at 1, of_option, mret, M_ret.
      replace (Z.of_nat i + 1) with (Z.of_nat (S i)) by lia. set (d := digit digits (n mod b)).
      destruct (IH (n / b) (<[i := d]> tmp) (S i) s) as (tmp' & E & Hl & Ht);
        [done| |rewrite length_insert; lia|].
      { rewrite Nat2Z.inj_succ, Z.pow_succ_r in Hn by lia. split; [apply Z.div_pos; lia|apply Z.div_lt_upper_bound; nia]. }
      exists tmp'. cbn [length]. rewrite Nat.add_succ_r, E. split; [done|]. split; [by rewrite Hl, length_insert|].
      change (S (i + ?n)) with (S i + n)%nat. rewrite Ht, (take_S_r _ i d), take_insert_ge, <-app_assoc by
        (lia || (apply list_lookup_insert_eq; lia)). done.
Qed.

Lemma pad_nonpos c n : n <= 0 -> (pad c n).1 = [].
Proof. intros H. unfold pad. simpl. by rewrite Z2Nat.nonpos. Qed.

Lemma has_clear_zeropad type f : f <> ZEROPAD -> In f [SIGN; PLUS; SPACE; LEFT; SPECIAL; SMALL] ->
  has (Z.land type (Z.lnot ZEROPAD)) f = has type f.
Proof.
  intros _ Hf. unfold has. rewrite <-Z.land_assoc. do 3 f_equal.
  repeat destruct Hf as [<-|Hf]; done.
Qed.

Lemma has_lor type f g : has type (Z.lor f g) = has type f || has type g.
Proof.
  unfold has. rewrite Z.land_lor_distr_r, <-negb_andb. f_equal.
  destruct (Z.eqb_spec (Z.lor (Z.land type f) (Z.land type g)) 0) as [E|E];
    rewrite Z.lor_eq_0_iff in E; destruct (Z.eqb_spec (Z.land type f) 0), (Z.eqb_spec (Z.land type g) 0); tauto.
Qed.

Lemma magnitude_range num type : 0 <= num < 2 ^ 64 -> 0 <= magnitude num type < 2 ^ 64.
Proof.
  intros H. unfold magnitude. pose proof (s64_range num).
  destruct (has type SIGN); simpl; [|lia]. destruct (Z.ltb_spec (s64 num) 0); lia.
Qed.

Lemma rev_do_digits digits num b :
  rev (if num =? 0 then [chr "0"] else do_digits 64 digits num b) = numeral digits num b.
Proof. unfold numeral. by destruct (num =? 0). Qed.

(** The layout of a printed number. *)
Definition number_body (num b precision type : Z) : list Z :=
  let n := numeral (if has type SMALL then digits_small else digits_big) (magnitude num type) b in
  replicate (Z.to_nat (precision - Z.of_nat (length n))) (chr "0") ++ n.
Definition number_text (num b size precision type : Z) : list Z :=
  let body := number_body num b precision type in
  let head := sign_of num type ++ prefix_of b type in
  let room := Z.to_nat (size - sign_room num type - Z.of_nat (length (prefix_of b type)) - Z.of_nat (length body)) in
  if has type LEFT then head ++ body ++ replicate room (chr " ")
  else if has type ZEROPAD then head ++ replicate room (chr "0") ++ body
  else replicate room (chr " ") ++ head ++ body.

Lemma pad_left c w : -2 ^ 30 <= w -> -2 ^ 30 - 1 <= (pad c w).2 < 0.
Proof.
  intros H. unfold pad. simpl. destruct (Z.ltb_spec 0 w); [lia|]. rewrite s32_small by lia. lia.
Qed.

Lemma pad_neg c w : -2 ^ 30 - 10 <= w < 0 -> pad c w = ([], w - 1).
Proof.
  intros H. unfold pad. rewrite Z2Nat.nonpos, (proj2 (Z.ltb_ge _ _)), s32_small by lia. done.
Qed.

(** The three stages that place the padding. *)
Lemma number_fill (z l : bool) (w : Z) (h1 h2 b1 b2 : list Z) c :
  -2 ^ 30 <= w ->
  c = (if z && negb l then chr "0" else chr " ") ->
  (let '(o1, w) := if (z && negb l) || l then ([], w) else pad (chr " ") w in
   let '(o2, w) := if l then ([], w) else pad c w in
   let '(o3, _) := pad (chr " ") w in
   Some (o1 ++ h1 ++ h2 ++ o2 ++ b1 ++ b2 ++ o3)) =
  Some (if l then (h1 ++ h2) ++ (b1 ++ b2) ++ replicate (Z.to_nat w) (chr " ")
        else if z then (h1 ++ h2) ++ replicate (Z.to_nat w) (chr "0") ++ b1 ++ b2
        else replicate (Z.to_nat w) (chr " ") ++ (h1 ++ h2) ++ b1 ++ b2).
Proof.
  intros Hw ->. pose proof (pad_left (chr " ") w Hw). pose proof (pad_left (chr "0") w Hw).
  destruct l, z; cbn [andb orb negb]; [by rewrite <-!app_assoc|by rewrite <-!app_assoc| |].
  - destruct (pad (chr "0") w) as [o2 w2] eqn:E. cbn [snd] in *. rewrite pad_neg by lia.
    unfold pad in E. injection E as <- _. by rewrite <-!app_assoc, !app_nil_r.
  - destruct (pad (chr " ") w) as [o2 w2] eqn:E. cbn [snd] in *. rewrite !pad_neg by lia.
    unfold pad in E. injection E as <- _. by rewrite <-!app_assoc, !app_nil_r.
Qed.

(** The type after [LEFT] has cleared [ZEROPAD]. *)
Definition left_type (type : Z) : Z := if has type LEFT then Z.land type (Z.lnot ZEROPAD) else type.

Lemma left_type_has type :
  (forall f, In f [SIGN; PLUS; SPACE; LEFT; SPECIAL; SMALL] -> has (left_type type) f = has type f) /\
  has (left_type type) ZEROPAD = has type ZEROPAD && negb (has type LEFT).
Proof.
  unfold left_type. split.
  - intros f Hf. destruct (has type LEFT); [|done]. apply has_clear_zeropad; [|done].
    repeat destruct Hf as [<-|Hf]; done.
  - destruct (has type LEFT); rewrite ?andb_false_r, ?andb_true_r; [|done].
    unfold has. rewrite <-Z.land_assoc. change (Z.land (Z.lnot ZEROPAD) ZEROPAD) with 0.
    by rewrite Z.land_0_r.
Qed.

Lemma number_sign num type size :
  0 <= num < 2 ^ 64 -> -2 ^ 20 <= size <= 2 ^ 20 ->
  (if has type SIGN
   then if s64 num <? 0 then ([chr "-"], u64 (- s64 num), size)
        else if has type PLUS then ([chr "+"], num, s32 (size - 1))
        else if has type SPACE then ([chr " "], num, s32 (size - 1)) else ([], num, size)
   else ([], num, size)) = (sign_of num type, magnitude num type, size - sign_room num type).
Proof.
  intros Hn Hs.
  unfold magnitude, sign_room, sign_of. pose proof (s64_range num).
  destruct (has type SIGN); simpl; [|do 2 f_equal; lia].
  destruct (Z.ltb_spec (s64 num) 0); [rewrite u64_small by lia; do 2 f_equal; lia|].
  destruct (has type PLUS), (has type SPACE); simpl; rewrite ?s32_small by lia; do 2 f_equal; lia.
Qed.

Lemma sign_room_range num type : 0 <= sign_room num type <= 1.
Proof.
  unfold sign_room, sign_of.
  destruct (has type SIGN), (s64 num <? 0), (has type PLUS), (has type SPACE); simpl; lia.
Qed.

Lemma prefix_length b type : 0 <= Z.of_nat (length (prefix_of b type)) <= 2.
Proof. unfold prefix_of. destruct (has type SPECIAL), (b =? 8), (b =? 16); simpl; lia. Qed.

Lemma number_prefix b type size :
  -2 ^ 30 <= size <= 2 ^ 30 ->
  (if has type SPECIAL then if b =? 16 then s32 (size - 2) else if b =? 8 then s32 (size - 1) else size
   else size) = size - Z.of_nat (length (prefix_of b type)).
Proof.
  intros Hs. unfold prefix_of. destruct (has type SPECIAL); simpl; [|lia].
  destruct (Z.eqb_spec b 16), (Z.eqb_spec b 8); simpl; rewrite ?s32_small by lia; lia.
Qed.

(** What the loops of [number] amount to. *)
Definition number_chars (num base size precision type : Z) : option (list Z) :=
  let digits := if has type SMALL then digits_small else digits_big in
  let type := if has type LEFT then Z.land type (Z.lnot ZEROPAD) else type in
  if (base <? 2) || (36 <? base) then None
  else
    let c := if has type ZEROPAD then chr "0" else chr " " in
    let '(sign, num, size) :=
      if has type SIGN then
        if s64 num <? 0 then ([chr "-"], u64 (- s64 num), size)
        else if has type PLUS then ([chr "+"], num, s32 (size - 1))
        else if has type SPACE then ([chr " "], num, s32 (size - 1))
        else ([], num, size)
      else ([], num, size) in
    let size :=
      if has type SPECIAL then
        if base =? 16 then s32 (size - 2) else if base =? 8 then s32 (size - 1) else size
      else size in
    let tmp := if num =? 0 then [chr "0"] else do_digits 64 digits num base in
    let i := Z.of_nat (length tmp) in
    let precision := if precision <? i then i else precision in
    let size := s32 (size - precision) in
    let '(o1, size) := if has type (ZEROPAD + LEFT) then ([], size) else pad (chr " ") size in
    let special :=
      if has type SPECIAL then
        if base =? 8 then [chr "0"] else if base =? 16 then [chr "0"; digit digits 33] else []
      else [] in
    let '(o2, size) := if has type LEFT then ([], size) else pad c size in
    let zeros := replicate (Z.to_nat (precision - i)) (chr "0") in
    let '(o3, _) := pad (chr " ") size in
    Some (o1 ++ sign ++ special ++ o2 ++ zeros ++ rev tmp ++ o3).

(** A step of [number] that emits, or not. *)
Lemma emits_bind {A} (f : M pst A) l s : (emits l;; f) s = f (more s l).
Proof. done. Qed.

Lemma fill_if {A} (b : bool) c n s (f : Z -> M pst A) :
  -2 ^ 31 <= n < 2 ^ 31 ->
  (w ← (if negb b then fill_to c 0 n else mret n); f w) s =
  f (if b then ([], n) else pad c n).2 (more s (if b then ([], n) else pad c n).1).
Proof.
  intros Hn. unfold mbind, M_bind. destruct b; cbn [negb fst snd]; [by rewrite more_nil|by rewrite fill_pad].
Qed.

Lemma pad_range c n : -2 ^ 31 <= n < 2 ^ 31 -> -2 ^ 31 <= (pad c n).2 < 2 ^ 31.
Proof. intros H. unfold pad. cbn [snd]. destruct (0 <? n); [lia|apply s32_range]. Qed.

(** The digits of the code. *)
Lemma tmp_run digits num b s :
  2 <= b -> 0 <= num < 2 ^ 64 ->
  let ds := if num =? 0 then [chr "0"] else do_digits 64 digits num b in
  exists tmp, (if num =? 0 then tmp ← of_option (arr_set (replicate 128 0) 0 (chr "0")); mret (tmp, 1)
               else loop 65 (digits_body digits b) (num, replicate 128 0, 0)) s = Ret ((tmp, Z.of_nat (length ds)), s) /\
    (length ds <= length tmp)%nat /\ take (length ds) tmp = ds.
Proof.
  intros Hb Hn ds. unfold ds. destruct (num =? 0); [eexists; split; [reflexivity|]; split; [simpl; lia|done]|].
  destruct (digits_eq digits b 64 num (replicate 128 0) 0 s Hb Hn) as (tmp & E & Hl & Ht).
  { rewrite length_replicate. lia. }
  exists tmp. split; [exact E|]. split; [|exact Ht]. rewrite Hl, length_replicate.
  pose proof (length_do_digits 64 digits num b). lia.
Qed.

(** [number] returns, for all values of its arguments, without leaving [tmp], and writes just these characters. *)
Lemma number_run num b size precision type s :
  0 <= num < 2 ^ 64 -> precision < 2 ^ 31 ->
  number num b size precision type s =
  match number_chars num b size precision type with
  | Some text => Ret (true, more s text)
  | None => Ret (false, s)
  end.
Proof.
  intros Hn Hp. unfold number, number_chars.
  destruct (Z.ltb_spec b 2) as [|Hb]; [done|]. destruct (36 <? b); [done|]. cbn [orb].
  set (digits := if has type SMALL then _ else _). fold (left_type type). generalize (left_type type) as t. intros t.
  set (c := if has t ZEROPAD then _ else _).
  assert (exists sign n w, 0 <= n < 2 ^ 64 /\
    (if has t SIGN then if s64 num <? 0 then (chr "-", u64 (- s64 num), size)
       else if has t PLUS then (chr "+", num, s32 (size - 1)) else if has t SPACE then (chr " ", num, s32 (size - 1))
       else (0, num, size) else (0, num, size)) = (sign, n, w) /\
    (if has t SIGN then if s64 num <? 0 then ([chr "-"], u64 (- s64 num), size)
       else if has t PLUS then ([chr "+"], num, s32 (size - 1)) else if has t SPACE then ([chr " "], num, s32 (size - 1))
       else ([], num, size) else ([], num, size)) = (if sign =? 0 then [] else [sign], n, w)) as (sign & n & w & Hn' & -> & ->).
  { destruct (has t SIGN); [|by exists 0, num, size].
    destruct (s64 num <? 0); [do 3 eexists; split; [apply u64_range|done]|].
    destruct (has t PLUS); [by do 3 eexists|]. destruct (has t SPACE); by do 3 eexists. }
  cbv beta iota zeta. set (w' := if has t SPECIAL then _ else w).
  destruct (tmp_run digits n b s Hb Hn') as (tmp & E & Hl & Ht). unfold mbind at 1, M_bind at 1. rewrite E. cbv beta iota.
  clear E. set (ds := if n =? 0 then [chr "0"] else do_digits 64 digits n b) in *. set (i := Z.of_nat (length ds)) in *.
  assert (1 <= i <= 64) as Hi.
  { unfold i, ds. rewrite <-length_rev, rev_do_digits. pose proof (numeral_length digits n b). lia. }
  set (pr := if precision <? i then i else precision).
  assert (i <= pr < 2 ^ 31) as Hpr by (unfold pr; destruct (Z.ltb_spec precision i); lia).
  set (w1 := s32 (w' - pr)). pose proof (s32_range (w' - pr) : -2 ^ 31 <= w1 < 2 ^ 31) as Hw1.
  rewrite fill_if by done. set (p1 := if has t (ZEROPAD + LEFT) then _ else pad _ w1).
  assert (-2 ^ 31 <= p1.2 < 2 ^ 31) as Hw2 by (unfold p1; destruct (has t (ZEROPAD + LEFT)); [exact Hw1|exact (pad_range _ _ Hw1)]).
  destruct p1 as [o1 w2]. cbn [fst snd] in *.
  assert (forall (f : M pst bool) s, ((if negb (sign =? 0) then emits [sign] else mret tt);; f) s =
    f (more s (if sign =? 0 then [] else [sign]))) as ->.
  { intros f s1. destruct (sign =? 0); cbn [negb]; [by rewrite more_nil|done]. }
  assert (forall (f : M pst bool) s, ((if has t SPECIAL then if b =? 8 then emits [chr "0"]
      else if b =? 16 then emits [chr "0"];; emits [digit digits 33] else mret tt else mret tt);; f) s =
    f (more s (if has t SPECIAL then if b =? 8 then [chr "0"] else if b =? 16 then [chr "0"; digit digits 33] else [] else []))) as ->.
  { intros f s1. destruct (has t SPECIAL), (b =? 8), (b =? 16); rewrite ?more_nil; try done.
    unfold mbind, M_bind. rewrite !emits_eq. by rewrite more_app. }
  rewrite fill_if by done. set (p2 := if has t LEFT then _ else pad c w2).
  assert (-2 ^ 31 <= p2.2 < 2 ^ 31) as Hw3 by (unfold p2; destruct (has t LEFT); [exact Hw2|exact (pad_range _ _ Hw2)]).
  destruct p2 as [o2 w3]. cbn [fst snd] in *.
  unfold mbind at 1, M_bind at 1. rewrite fill_eq by lia. unfold mbind at 1, M_bind at 1.
  assert (loop (S (Z.to_nat i)) (copy_back_body tmp) i = loop (S (length ds)) (copy_back_body tmp) (Z.of_nat (length ds))) as ->
    by (unfold i; by rewrite Nat2Z.id).
  rewrite copy_back_eq by done. unfold mbind at 1, M_bind at 1. rewrite fill_pad, Ht by done.
  destruct (pad (chr " ") w3) as [o3 w4]. cbn [fst snd]. unfold mret, M_ret. rewrite !more_app.
  done.
Qed.

Lemma number_eq num b size precision type :
  2 <= b <= 36 -> 0 <= num < 2 ^ 64 -> -2 ^ 20 <= size <= 2 ^ 20 -> -1 <= precision <= 2 ^ 20 ->
  number_chars num b size precision type = Some (number_text num b size precision type).
Proof.
  intros Hb Hn Hs Hp. unfold number_chars.
  rewrite (proj2 (Z.ltb_ge b 2)), (proj2 (Z.ltb_ge 36 b)) by lia. cbn [orb].
  set (digits := if has type SMALL then _ else _). fold (left_type type).
  destruct (left_type_has type) as [Ht Hz].
  change (ZEROPAD + LEFT) with (Z.lor ZEROPAD LEFT). rewrite has_lor.
  rewrite !(Ht SIGN), !(Ht PLUS), !(Ht SPACE), !(Ht LEFT), !(Ht SPECIAL), !Hz by (simpl; tauto).
  rewrite number_sign by done. cbv iota beta zeta.
  pose proof (sign_room_range num type). pose proof (prefix_length b type).
  rewrite number_prefix by lia. set (n := numeral digits (magnitude num type) b).
  rewrite <-(length_rev (if magnitude num type =? 0 then _ else _)), rev_do_digits. fold n.
  pose proof (numeral_length digits (magnitude num type) b) as Hlen. fold n in Hlen.
  assert ((if has type SPECIAL
    then if b =? 8 then [chr "0"] else if b =? 16 then [chr "0"; digit digits 33] else []
    else []) = prefix_of b type) as ->.
  { unfold prefix_of, digits. by destruct (has type SMALL). }
  rewrite s32_small by (destruct (precision <? _); lia).
  rewrite number_fill; [|destruct (precision <? _); lia|done].
  unfold number_text, number_body. fold digits n. f_equal.
  rewrite length_app, length_replicate.
  destruct (Z.ltb_spec precision (Z.of_nat (length n))).
  - rewrite Z.sub_diag, (Z2Nat.nonpos (precision - _)) by lia. reflexivity.
  - replace (Z.of_nat (Z.to_nat (precision - Z.of_nat (length n)) + length n)) with precision by lia. done.
Qed.

(** ** Plain formats *)

(** The conversions the kernel's messages use: text, numbers with an optional zero flag,
    a width up to 16 and a length, strings, a null string pointer, and characters. *)
Inductive kind : Type := Kd | Ku | Kx.
Inductive qual : Type := Qint | Ql | Qll.
Inductive seg : Type :=
  | Text (t : list Z)
  | Num (zp : bool) (w : nat) (q : qual) (k : kind) (z : Z)
  | Str (s : string)
  | Null
  | Char (z : Z).

Definition seg_fmt (g : seg) : list Z :=
  match g with
  | Text t => t
  | Num zp w q k _ =>
      chr "%" :: (if zp then [chr "0"] else []) ++ (if decide (w = 0%nat) then [] else if decide (w < 10)%nat then [chr "0" + Z.of_nat w]
          else [chr "1"; chr "0" + Z.of_nat (w - 10)])
      ++ (match q with Qint => [] | Ql => [chr "l"] | Qll => [chr "l"; chr "l"] end)
      ++ [match k with Kd => chr "d" | Ku => chr "u" | Kx => chr "x" end]
  | Str _ | Null => [chr "%"; chr "s"]
  | Char _ => [chr "%"; chr "c"]
  end.
Definition seg_args (g : seg) : list varg :=
  match g with Text _ => [] | Num _ _ _ _ z => [VNum z] | Str s => [VStr s] | Null => [VNum 0] | Char z => [VNum z] end.
Definition seg_flags (zp : bool) (k : kind) : Z :=
  Z.lor (if zp then ZEROPAD else 0) (match k with Kd => SIGN | Ku => 0 | Kx => SMALL end).
Definition seg_base (k : kind) : Z := match k with Kx => 16 | _ => 10 end.
Definition seg_value (q : qual) (k : kind) (z : Z) : Z :=
  match q, k with
  | Qint, Kd => u64 (s32 z)
  | Qint, _ => u32 z
  | _, _ => u64 z
  end.
Definition seg_text (g : seg) : list Z :=
  match g with
  | Text t => t
  | Num zp w q k z =>
      number_text (seg_value q k z) (seg_base k) (if decide (w = 0%nat) then -1 else Z.of_nat w) (-1)
        (seg_flags zp k)
  | Str s => bytes s
  | Null => bytes "<NULL>"
  | Char z => [u8 z]
  end.
Definition seg_ok (g : seg) : Prop :=
  match g with
  | Text t => chr "%" ∉ t
  | Num _ w _ _ _ => (w <= 16)%nat
  | Str _ | Null | Char _ => True
  end.

Lemma seg_value_range q k z : 0 <= seg_value q k z < 2 ^ 64.
Proof. destruct q, k; simpl; first [apply u64_range | pose proof (u32_range z); lia]. Qed.

Lemma put_number_eq n b size flags s :
  2 <= b <= 36 -> 0 <= n < 2 ^ 64 -> -2 ^ 20 <= size <= 2 ^ 20 ->
  put_number n b size (-1) flags s =
  Ret (tt, Pst (out s ++ number_text n b size (-1) flags) (args s) (base s) (stored s)).
Proof.
  intros Hb Hn Hs. unfold put_number, mbind, M_bind. rewrite number_run, number_eq by lia. done.
Qed.

Lemma conversion_num zp w q k z rest o as_ b st :
  (w <= 16)%nat ->
  conversion (tail (seg_fmt (Num zp w q k z)) ++ rest) (Pst o (VNum z :: as_) b st) =
  Ret (rest, Pst (o ++ seg_text (Num zp w q k z)) as_ (Some (seg_base k)) st).
Proof.
  intros Hw.
  assert (forall s, put_number (seg_value q k z) (seg_base k)
    (if decide (w = 0%nat) then -1 else Z.of_nat w) (-1) (seg_flags zp k) s =
    Ret (tt, Pst (out s ++ seg_text (Num zp w q k z)) (args s) (base s) (stored s))) as Hput.
  { intros s. apply put_number_eq; [destruct k; simpl; lia|apply seg_value_range|].
    destruct (decide (w = 0%nat)); lia. }
  revert Hput. generalize (seg_text (Num zp w q k z)). intros text Hput.
  destruct zp, q, k; do 17 (destruct w as [|w];
    [
     lazy -[put_number u64 u32 s32] in Hput |- *; rewrite Hput; reflexivity|]); lia.
Qed.

Lemma conversion_str a s rest o as_ b st :
  next_str (Pst o (a :: as_) b st) = Ret (s, Pst o as_ b st) ->
  conversion (chr "s" :: rest) (Pst o (a :: as_) b st) = Ret (rest, Pst (o ++ s) as_ b st).
Proof.
  intros Hn.
  assert (put_str 0 (-1) (-1) (Pst o (a :: as_) b st) = Ret (tt, Pst (o ++ s) as_ b st)) as Hp.
  { unfold put_str. unfold mbind at 1, M_bind at 1. rewrite Hn. change (-1 <? 0) with true. change (has 0 LEFT) with false.
    cbn [negb]. unfold mbind at 1, M_bind at 1. rewrite fill_eq, (proj2 (Z.ltb_ge _ _)), (Z2Nat.nonpos (-1 - _)) by lia.
    cbn [replicate]. rewrite more_nil. unfold mbind at 1, M_bind at 1.
    pose proof (copy_eq s (length s) (length s) 0 (Pst o as_ b st) ltac:(lia) ltac:(lia)) as Hc.
    rewrite Nat2Z.id. change (Z.of_nat 0) with 0 in Hc. rewrite Hc, drop_0, firstn_all. unfold mbind at 1, M_bind at 1.
    change (s32 (-1 - 1)) with (-2). rewrite fill_eq, (Z2Nat.nonpos (-2 - _)) by lia. cbn [replicate].
    by rewrite more_nil. }
  transitivity ((put_str 0 (-1) (-1);; mret rest) (Pst o (a :: as_) b st)); [reflexivity|].
  unfold mbind, M_bind. by rewrite Hp.
Qed.

Lemma conversion_char z rest o as_ b st :
  conversion (chr "c" :: rest) (Pst o (VNum z :: as_) b st) = Ret (rest, Pst (o ++ [u8 z]) as_ b st).
Proof.
  transitivity ((put_char 0 (-1);; mret rest) (Pst o (VNum z :: as_) b st)); [reflexivity|].
  reflexivity.
Qed.

Lemma text_run t rest fuel o as_ b st :
  chr "%" ∉ t ->
  loop (length t + fuel) myprintf_body (t ++ rest) (Pst o as_ b st) =
  loop fuel myprintf_body rest (Pst (o ++ t) as_ b st).
Proof.
  revert o. induction t as [|c t IH]; intros o Ht; [by rewrite app_nil_r|].
  apply not_elem_of_cons in Ht as [Hc Ht]. cbn [length Nat.add app]. rewrite loop_unfold.
  unfold mbind at 1, M_bind at 1, myprintf_body at 1. rewrite (proj2 (Z.eqb_neq c _)) by congruence.
  unfold emits, modify, mbind, M_bind, mret, M_ret. cbn [out args base stored].
  rewrite IH by done. by rewrite <-app_assoc.
Qed.

Lemma conversion_run f rest fuel s s' :
  conversion (f ++ rest) s = Ret (rest, s') ->
  loop (S fuel) myprintf_body (chr "%" :: f ++ rest) s = loop fuel myprintf_body rest s'.
Proof.
  intros E. rewrite loop_unfold. unfold mbind at 1, M_bind at 1, myprintf_body at 1.
  rewrite Z.eqb_refl. unfold mbind, M_bind. by rewrite E.
Qed.

Lemma myprintf_segs gs : forall fuel o as_ b st,
  Forall seg_ok gs -> (length (concat (seg_fmt <$> gs)) < fuel)%nat ->
  exists b', loop fuel myprintf_body (concat (seg_fmt <$> gs)) (Pst o (concat (seg_args <$> gs) ++ as_) b st) =
    Ret (tt, Pst (o ++ concat (seg_text <$> gs)) as_ b' st).
Proof.
  induction gs as [|g gs IH]; intros fuel o as_ b st Hok Hf.
  { destruct fuel; [simpl in Hf; lia|]. exists b. simpl. by rewrite app_nil_r. }
  apply Forall_cons in Hok as [Hg Hok]. rewrite !fmap_cons in *. cbn [concat] in *.
  rewrite length_app in Hf. rewrite !app_assoc, <-(app_assoc (seg_args g)).
  destruct g as [t|zp w q k z|s| |z].
  - replace fuel with (length t + (fuel - length t))%nat by (simpl in Hf; lia).
    rewrite text_run by done. apply IH; [done|simpl in Hf; lia].
  - destruct fuel as [|fuel]; [lia|].
    change (seg_fmt (Num zp w q k z)) with (chr "%" :: tail (seg_fmt (Num zp w q k z))).
    rewrite <-app_comm_cons. erewrite conversion_run; [|by apply conversion_num].
    apply IH; [done|]. simpl in Hf. lia.
  - destruct fuel as [|fuel]; [lia|]. cbn [seg_fmt seg_args seg_text app].
    change (chr "%" :: chr "s" :: ?r) with (chr "%" :: [chr "s"] ++ r).
    erewrite conversion_run; [|by apply conversion_str].
    apply IH; [done|]. simpl in Hf. lia.
  - destruct fuel as [|fuel]; [lia|]. cbn [seg_fmt seg_args seg_text app].
    change (chr "%" :: chr "s" :: ?r) with (chr "%" :: [chr "s"] ++ r).
    erewrite conversion_run; [|by apply conversion_str].
    apply IH; [done|]. simpl in Hf. lia.
  - destruct fuel as [|fuel]; [lia|]. cbn [seg_fmt seg_args seg_text app].
    change (chr "%" :: chr "c" :: ?r) with (chr "%" :: [chr "c"] ++ r).
    erewrite conversion_run; [|by apply conversion_char].
    apply IH; [done|]. simpl in Hf. lia.
Qed.

Lemma read_zeros b k l : read_base b (replicate k (chr "0") ++ l) = read_base b l.
Proof. unfold read_base. induction k as [|k IH]; [done|]. exact IH. Qed.

Lemma do_digits_chars digits b fuel : forall n, 2 <= b ->
  Forall (fun c => exists d, 0 <= d < b /\ c = digit digits d) (do_digits fuel digits n b).
Proof.
  induction fuel as [|fuel IH]; intros n Hb; cbn [do_digits]; [done|]. destruct (n =? 0); [done|].
  apply Forall_cons. split; [|by apply IH]. exists (n mod b). split; [apply Z.mod_pos_bound; lia|done].
Qed.

Lemma numeral_digits digits n b : 2 <= b <= 36 -> digits = digits_small \/ digits = digits_big ->
  Forall (fun c => exists d, 0 <= d < b /\ c = digit digits d) (numeral digits n b).
Proof.
  intros Hb Hd. unfold numeral. destruct (n =? 0).
  - apply Forall_singleton. exists 0. split; [lia|]. by destruct Hd as [-> | ->].
  - apply Forall_rev, do_digits_chars. lia.
Qed.

Lemma do_digits_head digits b fuel : forall n, 2 <= b -> 0 < n < 2 ^ Z.of_nat fuel ->
  exists d l, rev (do_digits fuel digits n b) = digit digits d :: l /\ 0 < d < b.
Proof.
  induction fuel as [|fuel IH]; intros n Hb Hn; [change (2 ^ Z.of_nat 0) with 1 in Hn; lia|].
  cbn [do_digits]. rewrite (proj2 (Z.eqb_neq n 0)) by lia. cbn [rev]. pose proof (Z.mod_pos_bound n b).
  destruct (decide (n / b = 0)) as [E|E].
  - exists (n mod b), []. rewrite E. split; [by destruct fuel|]. pose proof (Z.div_mod n b). lia.
  - destruct (IH (n / b) Hb) as (d & l & -> & Hd); [|by exists d, (l ++ [digit digits (n mod b)])].
    rewrite Nat2Z.inj_succ, Z.pow_succ_r in Hn by lia. pose proof (Z.div_pos n b).
    split; [lia|apply Z.div_lt_upper_bound; nia].
Qed.

Lemma numeral_head digits n b : 2 <= b -> 0 < n < 2 ^ 64 ->
  exists d l, numeral digits n b = digit digits d :: l /\ 0 < d < b.
Proof.
  intros Hb Hn. unfold numeral. rewrite (proj2 (Z.eqb_neq n 0)) by lia. by apply do_digits_head.
Qed.

(** ** Properties *)



Lemma format_eq fmt gs extra :
  bytes fmt = concat (seg_fmt <$> gs) -> Forall seg_ok gs ->
  format fmt (concat (seg_args <$> gs) ++ extra) = Some (concat (seg_text <$> gs)).
Proof.
  intros E Hok. unfold format, myprintf. rewrite E.
  destruct (myprintf_segs gs (S (length (concat (seg_fmt <$> gs)))) [] extra None [] Hok) as [b' ->]; [lia|done].
Qed.

(** C19: [myprintf] implements the abstract formatter: for every format made of text and the
    conversions [%d], [%u], [%x], [%s], [%c], the numbers with an optional zero flag, a
    width up to 16 and [l] or [ll], and the arguments they ask for, the output is the
    texts of the parts in order. *)
Theorem format_segs fmt gs extra :
  bytes fmt = concat (seg_fmt <$> gs) -> Forall seg_ok gs ->
  format fmt (concat (seg_args <$> gs) ++ extra) = Some (concat (seg_text <$> gs)).
Proof. apply format_eq. Qed.

Lemma bytes_app s t : bytes (s +:+ t) = bytes s ++ bytes t.
Proof.
  unfold bytes. induction s as [|c s IH]; [done|].
  change (String c s +:+ t) with (String c (s +:+ t)). cbn. f_equal. exact IH.
Qed.

(** A percent sign written as [%%] is not supported: after the sign the code goes on to
    print a number, in a base that was never set when no number was printed before. *)
Theorem format_percent t a : chr "%" ∉ bytes t -> format (t +:+ "%%") a = None.
Proof.
  intros Ht. unfold format, myprintf. rewrite bytes_app.
  replace (S (length (bytes t ++ bytes "%%"))) with (length (bytes t) + 3)%nat
    by (rewrite length_app; simpl; lia).
  rewrite text_run by done. cbn [app]. destruct a as [|[z|s] a]; reflexivity.
Qed.

(** ** The console *)

(** What [printk] relies on: a character reaches the console, a newline after a
    carriage return, and the console stays usable. *)
Class Console {S} (putchar : Z -> M S unit) : Type := {
  shown : S -> list Z;
  live : S -> Prop;
  putchar_ok : forall c s, live s ->
    wp (putchar c) s (fun _ s' => live s' /\
      shown s' = shown s ++ (if u8 c =? 10 then [13; 10] else [u8 c]));
}.

Definition crlf (text : list Z) : list Z := concat ((fun c => if u8 c =? 10 then [13; 10] else [u8 c]) <$> text).

Section Out.
Context {S : Type} (putchar : Z -> M S unit) {C : Console putchar}.

Lemma printk_loop text : forall k fuel s,
  (k <= length text)%nat -> (length text - k < fuel)%nat -> Z.of_nat (length text) < CONSOLE_PRINT_BUFFER_SIZE ->
  live s ->
  wp (loop fuel (printk_body putchar text) (Z.of_nat k)) s (fun _ s' =>
    live s' /\ shown s' = shown s ++ crlf (drop k text)).
Proof.
  intros k fuel. revert k. induction fuel as [|fuel IH]; intros k s Hk Hf Hl Hs; [lia|].
  rewrite loop_unfold. wp_step. unfold printk_body at 1.
  destruct (Z.ltb_spec (Z.of_nat k) (Z.of_nat (length text))) as [Hlt|Hge].
  - destruct (lookup_lt_is_Some_2 text k) as [c Hc]; [lia|].
    wp_step. eapply wp_of_option; [rewrite arr_get_nat; exact Hc|]. wp_step.
    eapply wp_mono; [by apply putchar_ok|]. intros [] s1 [Hs1 Hsh].
    rewrite (proj2 (Z.ltb_ge _ _)) by lia. wp_steps.
    replace (Z.of_nat k + 1) with (Z.of_nat (Datatypes.S k)) by lia.
    eapply wp_mono; [apply IH; (done || lia)|]. intros [] s2 [Hs2 Hsh2]. split; [done|].
    rewrite Hsh2, Hsh, <-app_assoc. rewrite (drop_S text c k Hc). done.
  - wp_steps. split; [done|]. rewrite drop_ge by lia. by rewrite app_nil_r.
Qed.

Lemma printk_fits fmt a text s :
  format fmt a = Some text -> Z.of_nat (length text) < CONSOLE_PRINT_BUFFER_SIZE -> live s ->
  wp (printk putchar fmt a) s (fun r s' =>
    r = Z.of_nat (length text) /\ live s' /\ shown s' = shown s ++ crlf text).
Proof.
  intros E Hl Hs. unfold printk. wp_step. eapply wp_of_option; [exact E|].
  rewrite (proj2 (Z.ltb_lt _ _)) by done. wp_step.
  eapply wp_mono; [apply (printk_loop text 0); (done || lia)|]. intros [] s' [H1 H2]. wp_steps. done.
Qed.

(** [printk] sends the formatted text to the console, a carriage return before every
    newline, and returns its length, as long as the text and its null character fit
    the 1024 bytes of [print_buf]; a longer text is written past the buffer. *)
Theorem printk_spec fmt a text s :
  format fmt a = Some text -> live s ->
  if Z.of_nat (length text) <? CONSOLE_PRINT_BUFFER_SIZE
  then wp (printk putchar fmt a) s (fun r s' =>
         r = Z.of_nat (length text) /\ live s' /\ shown s' = shown s ++ crlf text)
  else printk putchar fmt a s = Undef.
Proof.
  intros E Hs. destruct (Z.ltb_spec (Z.of_nat (length text)) CONSOLE_PRINT_BUFFER_SIZE) as [Hl|Hl];
    [by apply printk_fits|].
  unfold printk, mbind at 1, M_bind at 1. rewrite E. simpl. by rewrite (proj2 (Z.ltb_ge _ _)) by done.
Qed.
End Out.

(** ** Witnesses *)



Lemma format_segs_witness :
  format "pid %d need_resched" [VNum 3] = Some (bytes "pid " ++ [51] ++ bytes " need_resched").
Proof.
  apply (format_segs "pid %d need_resched"
    [Text (bytes "pid "); Num false 0 Qint Kd 3; Text (bytes " need_resched")] []); [reflexivity|].
  apply Forall_cons; split; [apply (bool_decide_unpack _); by vm_compute|].
  apply Forall_cons; split; [simpl; lia|].
  apply Forall_singleton. apply (bool_decide_unpack _). by vm_compute.
Defined.

Lemma format_percent_witness : format ("100" +:+ "%%") [] = None.
Proof. apply (format_percent "100" []). apply (bool_decide_unpack _). by vm_compute. Defined.

(** A console that keeps what it is sent. *)
#[global] Instance list_console : Console (fun c => modify (fun l => l ++ (if u8 c =? 10 then [13; 10] else [u8 c]))).
Proof. by refine {| shown := fun l => l; live := fun _ => True |}. Defined.

Lemma printk_spec_witness :
  wp (printk (fun c => modify (fun l => l ++ (if u8 c =? 10 then [13; 10] else [u8 c]))) ("x=%d" +:+ nl) [VNum 7]) []
     (fun r s' => r = 4 /\ True /\ s' = [] ++ crlf [120; 61; 55; 10]).
Proof.
  exact (printk_spec (fun c => modify (fun l => l ++ (if u8 c =? 10 then [13; 10] else [u8 c])))
    ("x=%d" +:+ nl) [VNum 7] [120; 61; 55; 10] [] eq_refl I).
Defined.

(** ** Messages *)

(** A call whose text is defined and fits the buffer of [printk]. *)
Definition printable (c : call) : Prop :=
  exists text, format c.1 c.2 = Some text /\ Z.of_nat (length text) < CONSOLE_PRINT_BUFFER_SIZE.

Definition seg_bound (g : seg) : nat :=
  match g with Text t => length t | Num _ _ _ _ _ => 90 | Str s => length (bytes s) | Null => 6 | Char _ => 1 end.

Lemma seg_bound_ok g : seg_ok g -> (length (seg_text g) <= seg_bound g)%nat.
Proof.
  destruct g as [t|zp w q k z|s| |z]; intros Hok; simpl in Hok; cbn [seg_text seg_bound]; [lia| |lia|done|done].
  unfold number_text, number_body. set (n := numeral _ _ _).
  assert (length n <= 64)%nat by apply numeral_length.
  set (size := if decide (w = 0%nat) then -1 else Z.of_nat w).
  assert (size <= 16) by (unfold size; destruct (decide (w = 0%nat)); lia).
  rewrite (Z2Nat.nonpos (-1 - _)) by lia. cbn [replicate app].
  set (num := seg_value q k z). set (type := seg_flags zp k).
  pose proof (sign_room_range num type). pose proof (prefix_length (seg_base k) type).
  assert (length (sign_of num type) <= 1)%nat.
  { unfold sign_of. destruct (has type SIGN), (s64 num <? 0), (has type PLUS), (has type SPACE); simpl; lia. }
  destruct (has type LEFT); [|destruct (has type ZEROPAD)]; rewrite !length_app, length_replicate; lia.
Qed.

Lemma printable_segs fmt gs extra :
  bytes fmt = concat (seg_fmt <$> gs) -> Forall seg_ok gs ->
  (sum_list_with seg_bound gs < 1024)%nat -> printable (fmt, concat (seg_args <$> gs) ++ extra).
Proof.
  intros E Hok Hb. eexists. split; [by apply format_eq|]. unfold CONSOLE_PRINT_BUFFER_SIZE.
  assert (length (concat (seg_text <$> gs)) <= sum_list_with seg_bound gs)%nat; [|lia].
  clear E Hb. induction Hok as [|g gs Hg _ IH]; [done|]. rewrite fmap_cons. cbn [concat sum_list_with].
  rewrite length_app. pose proof (seg_bound_ok g Hg). lia.
Qed.

(** Text without a percent sign, decided by evaluation. *)
Definition seg_okb (g : seg) : bool :=
  match g with
  | Text t => forallb (fun c => negb (c =? chr "%")) t
  | Num _ w _ _ _ => (w <=? 16)%nat
  | Str _ | Null | Char _ => true
  end.

Lemma seg_okb_ok gs : forallb seg_okb gs = true -> Forall seg_ok gs.
Proof.
  intros H. apply Forall_forall. intros g Hg. rewrite forallb_forall in H.
  specialize (H g (proj1 (list_elem_of_In _ _) Hg)). destruct g as [t|zp w q k z|s| |z]; simpl in *; [|by apply Nat.leb_le|done|done|done].
  intros Ht. rewrite forallb_forall in H. specialize (H _ (proj1 (list_elem_of_In _ _) Ht)).
  by rewrite Z.eqb_refl in H.
Qed.

End Printk.
