(* ===== verification/PrintkLog.v ===== *)
(** * The log buffer

    The part of [kernel/printk.c] that keeps early messages: [log_buf] and [init_printk_done], which prints what was recorded
    once the console is there. The code that would record is left out by the preprocessor. *)

From S2P Require Import Prelude Base Printk.
Import Printk.

Module PrintkLog.

Definition CONFIG_LOG_BUF_SHIFT : Z := 17.
Definition LOG_BUF_LEN : Z := Z.shiftl 1 CONFIG_LOG_BUF_SHIFT.
Definition PRINTK_STATUS_DOWN : Z := 0.
Definition PRINTK_STATUS_READY : Z := 1.

(** [g_record] is an offset into [log_buf]. *)
Record log : Type := Log {
  g_printk_status : Z;
  log_buf : list Z;
  g_record : Z;
  g_record_len : Z;
}.

Section Log.
Context {S : Type} (putchar : Z -> M S unit).

Definition console : lens (S * log) S := Lens fst (fun c s => (c, snd s)).

Definition init_printk_done_body (i : Z) : M (S * log) (Z + unit) :=
  n ← gets (fun s => g_record_len s.2);
  if i <? n then
    b ← gets (fun s => log_buf s.2);
    c ← of_option (arr_get b i);
    zoom console (putchar c);;
    mret (inl (u64 (i + 1)))
  else mret (inr tt).

Definition init_printk_done : M (S * log) unit :=
  modify (fun s => (s.1, Log PRINTK_STATUS_READY (log_buf s.2) (g_record s.2) (g_record_len s.2)));;
  n ← gets (fun s => g_record_len s.2);
  loop (Datatypes.S (Z.to_nat n)) init_printk_done_body 0;;
  modify (fun s => (s.1, Log (g_printk_status s.2) (log_buf s.2) 0 0)).

Context `{C : Console S putchar}.

Lemma init_printk_done_loop b st g n : forall k i s,
  (n <= length b)%nat -> Z.of_nat n < 2 ^ 64 -> i + Z.of_nat k = Z.of_nat n -> 0 <= i -> live s ->
  wp (loop (Datatypes.S k) init_printk_done_body i) (s, Log st b g (Z.of_nat n)) (fun _ s' =>
    live s'.1 /\ s'.2 = Log st b g (Z.of_nat n) /\
    shown s'.1 = shown s ++ crlf (take k (drop (Z.to_nat i) b))).
Proof.
  induction k as [|k IH]; intros i s Hb Hn Hi H0 Hl; rewrite loop_unfold; wp_step; unfold init_printk_done_body at 1;
    do 2 wp_step; cbn [snd g_record_len].
  - rewrite (proj2 (Z.ltb_ge _ _)) by lia. do 2 wp_step. split; [done|]. split; [done|]. by rewrite app_nil_r.
  - rewrite (proj2 (Z.ltb_lt _ _)) by lia. do 2 wp_step. cbn [snd log_buf].
    destruct (lookup_lt_is_Some_2 b (Z.to_nat i)) as [c Ec]; [lia|].
    wp_step. eapply wp_of_option; [unfold arr_get; rewrite decide_True by lia; exact Ec|].
    do 2 wp_step. eapply wp_mono; [by apply (putchar_ok (Console := C) c)|]. intros [] s1 [Hl1 Hs1]. wp_steps.
    rewrite u64_small by lia. cbn [console lset snd].
    eapply wp_mono; [apply IH; (done || lia)|]. intros [] s2 (Hl2 & E2 & Hs2). split; [done|]. split; [done|].
    rewrite Hs2, Hs1, <-app_assoc. f_equal. rewrite (drop_S b c (Z.to_nat i) Ec). cbn [take].
    replace (Z.to_nat (i + 1)) with (Datatypes.S (Z.to_nat i)) by lia. done.
Qed.

(** [init_printk_done] prints the recorded bytes, empties the record and marks the console
    ready; at boot nothing is recorded, as the code that would is left out, and nothing is printed. *)
Lemma init_printk_done_spec l s :
  live s -> 0 <= g_record_len l <= LOG_BUF_LEN -> length (log_buf l) = Z.to_nat LOG_BUF_LEN ->
  wp init_printk_done (s, l) (fun _ s' => live s'.1 /\ s'.2 = Log PRINTK_STATUS_READY (log_buf l) 0 0 /\
    shown s'.1 = shown s ++ crlf (take (Z.to_nat (g_record_len l)) (log_buf l))).
Proof.
  intros Hl Hn Hb. destruct l as [st b g n]. cbn [g_record_len log_buf] in *.
  assert (LOG_BUF_LEN = 2 ^ 17) as E17 by done. unfold init_printk_done. do 4 wp_step. cbn [fst snd log_buf g_record g_record_len].
  wp_step. replace (Log PRINTK_STATUS_READY b g n) with (Log PRINTK_STATUS_READY b g (Z.of_nat (Z.to_nat n)))
    by (by rewrite Z2Nat.id by lia).
  eapply wp_mono; [apply (init_printk_done_loop b PRINTK_STATUS_READY g (Z.to_nat n)); (done || lia)|].
  intros [] [s1 l1] (H1 & H2 & H3). cbn [fst snd] in *. wp_step. cbn [fst snd]. split; [done|]. by rewrite H2.
Qed.
End Log.

End PrintkLog.
