(* ===== verification/PrintkIrq.v ===== *)
(** * Printing from interrupts

    [printk] of [kernel/printk.c] with its static buffer [print_buf] as shared state, and what an interrupt
    that prints does to a message that is being sent. *)

From S2P Require Import Prelude Base Printk.
Import Printk.

Module PrintkIrq.

Section Shared.
Context {S : Type} (putchar : Z -> M S unit).

(** The console, and the bytes of [print_buf]. *)
Definition out : lens (S * list Z) S := Lens fst (fun c s => (c, snd s)).

(** What [myprintf] leaves in the buffer: the text, its null character, and what was there before. *)
Definition store (text buf : list Z) : list Z := text ++ 0 :: drop (Datatypes.S (length text)) buf.

(** Interrupts may be taken before each character: [irq i] is what runs before the one at [i]. *)
Definition send_body (irq : Z -> M (S * list Z) unit) (len i : Z) : M (S * list Z) (Z + unit) :=
  if i <? len then
    irq i;;
    buf ← gets snd;
    c ← of_option (arr_get buf i);
    zoom out (putchar c);;
    if CONSOLE_PRINT_BUFFER_SIZE <? i then mret (inr tt) else mret (inl (i + 1))
  else mret (inr tt).

Definition printk_irq (irq : Z -> M (S * list Z) unit) (fmt : string) (a : list varg) : M (S * list Z) Z :=
  text ← of_option (format fmt a);
  if Z.of_nat (length text) <? CONSOLE_PRINT_BUFFER_SIZE then
    modify (fun s => (s.1, store text s.2));;
    loop (Datatypes.S (length text)) (send_body irq (Z.of_nat (length text))) 0;;
    mret (Z.of_nat (length text))
  else undef.

Definition no_irq (i : Z) : M (S * list Z) unit := mret tt.

(** One interrupt, before the character at [k], in which the handler prints. *)
Definition prints_at (k : Z) (fmt : string) (a : list varg) (i : Z) : M (S * list Z) unit :=
  if i =? k then printk_irq no_irq fmt a;; mret tt else mret tt.

Context `{C : Console S putchar}.

Lemma crlf_app l1 l2 : crlf (l1 ++ l2) = crlf l1 ++ crlf l2.
Proof. unfold crlf. by rewrite fmap_app, concat_app. Qed.

Lemma length_store text buf : (length text < length buf)%nat -> length (store text buf) = length buf.
Proof. intros H. unfold store. rewrite length_app. cbn [length]. rewrite length_drop. lia. Qed.

Lemma take_store text buf : take (length text) (store text buf) = text.
Proof. unfold store. by rewrite take_app_length. Qed.

(** One character, after the interrupts taken before it. *)
Lemma send_step irq len i s Q :
  (i < len)%nat -> (i < 1024)%nat ->
  wp (irq (Z.of_nat i)) s (fun _ s1 => exists c, s1.2 !! i = Some c /\ live s1.1 /\
    forall s2, live s2 -> shown s2 = shown s1.1 ++ crlf [c] ->
      wp (loop (Datatypes.S (len - Datatypes.S i)) (send_body irq (Z.of_nat len)) (Z.of_nat (Datatypes.S i))) (s2, s1.2) Q) ->
  wp (loop (Datatypes.S (len - i)) (send_body irq (Z.of_nat len)) (Z.of_nat i)) s Q.
Proof.
  intros Hi Hb H. rewrite loop_unfold. wp_step. unfold send_body at 1. rewrite (proj2 (Z.ltb_lt _ _)) by lia.
  wp_step. eapply wp_mono; [exact H|]. clear H. intros [] [s1 buf] (c & Ec & Hl & HQ). cbn [fst snd] in *. do 3 wp_step.
  cbn [snd]. eapply wp_of_option; [rewrite arr_get_nat; exact Ec|]. do 2 wp_step.
  eapply wp_mono; [by apply (putchar_ok (Console := C) c)|]. intros [] s2 [Hl2 Hs2]. cbn [out lset snd].
  rewrite (proj2 (Z.ltb_ge _ _)) by (unfold CONSOLE_PRINT_BUFFER_SIZE; lia). wp_step.
  replace (Z.of_nat i + 1) with (Z.of_nat (Datatypes.S i)) by lia.
  replace (len - i)%nat with (Datatypes.S (len - Datatypes.S i)) by lia. apply HQ; [done|].
  rewrite Hs2. unfold crlf. cbn. by rewrite app_nil_r.
Qed.

(** Characters sent without interrupts. *)
Lemma send_quiet irq len n : forall k i s buf Q,
  (i + n = k)%nat -> (k <= len)%nat -> (k <= length buf)%nat -> (length buf <= 1024)%nat -> live s ->
  (forall j, (i <= j < k)%nat -> irq (Z.of_nat j) = no_irq (Z.of_nat j)) ->
  (forall s', live s' -> shown s' = shown s ++ crlf (take n (drop i buf)) ->
     wp (loop (Datatypes.S (len - k)) (send_body irq (Z.of_nat len)) (Z.of_nat k)) (s', buf) Q) ->
  wp (loop (Datatypes.S (len - i)) (send_body irq (Z.of_nat len)) (Z.of_nat i)) (s, buf) Q.
Proof.
  induction n as [|n IH]; intros k i s buf Q Hk Hl Hb Hb2 Hs Hirq HQ.
  { replace i with k by lia. apply HQ; [done|]. by rewrite app_nil_r. }
  apply send_step; [lia|lia|]. rewrite Hirq by lia. unfold no_irq. wp_step. cbn [fst snd].
  destruct (lookup_lt_is_Some_2 buf i) as [c Ec]; [lia|]. exists c. split; [done|]. split; [done|].
  intros s1 Hl1 Hs1. apply (IH k (Datatypes.S i) s1 buf Q); try lia; [done| |].
  - intros j Hj. apply Hirq. lia.
  - intros s' Hl' Hs'. apply HQ; [done|]. rewrite Hs', Hs1, <-app_assoc. f_equal.
    rewrite (drop_S buf c i Ec). cbn [take]. symmetry. apply (crlf_app [c]).
Qed.

Lemma send_end irq len s Q : Q tt s -> wp (loop 1 (send_body irq (Z.of_nat len)) (Z.of_nat len)) s Q.
Proof. intros H. rewrite loop_unfold. wp_step. unfold send_body. rewrite Z.ltb_irrefl. by do 2 wp_step. Qed.

Lemma printk_irq_plain fmt a text s buf :
  format fmt a = Some text -> Z.of_nat (length text) < CONSOLE_PRINT_BUFFER_SIZE -> length buf = 1024%nat -> live s ->
  wp (printk_irq no_irq fmt a) (s, buf) (fun r s' => r = Z.of_nat (length text) /\ live s'.1 /\
    s'.2 = store text buf /\ shown s'.1 = shown s ++ crlf text).
Proof.
  intros E Hl Hb Hs. unfold CONSOLE_PRINT_BUFFER_SIZE in *. unfold printk_irq. wp_step. eapply wp_of_option; [exact E|].
  rewrite (proj2 (Z.ltb_lt _ _)) by done. do 3 wp_step. cbn [fst snd].
  assert (length (store text buf) = 1024%nat) as Hb2 by (rewrite length_store; lia).
  pose proof (send_quiet no_irq (length text) (length text) (length text) 0 s (store text buf)) as H.
  rewrite Nat.sub_0_r in H. apply H; try lia; [done|done|].
  intros s' Hl' Hs'. rewrite Nat.sub_diag. apply send_end. wp_step. split; [done|]. split; [done|]. split; [done|].
  cbn [fst]. by rewrite Hs', drop_0, take_store.
Qed.

(** What follows in the buffer of a message, when another was printed over it. *)
Lemma take_drop_store k (ta tb buf : list Z) :
  (k <= length ta)%nat ->
  take (length ta - k) (drop k (store tb (store ta buf))) = take (length ta - k) (drop k (store tb ta)).
Proof.
  intros Hk. rewrite !take_drop_commute. replace (k + (length ta - k))%nat with (length ta) by lia. f_equal.
  unfold store. destruct (decide (length tb < length ta)%nat) as [H|H].
  - rewrite (drop_app_le ta) by lia. rewrite app_comm_cons, app_assoc, take_app_le; [done|].
    rewrite length_app. cbn [length]. rewrite length_drop. lia.
  - rewrite !take_app_le by lia. done.
Qed.

Lemma drop_store k (ta tb : list Z) : (length tb < k)%nat -> drop k (store tb ta) = drop k ta.
Proof.
  intros H. unfold store. rewrite drop_app_ge by lia. replace (k - length tb)%nat with (Datatypes.S (k - Datatypes.S (length tb))) by lia.
  cbn [drop]. rewrite drop_drop. f_equal. lia.
Qed.

(** ** Properties *)

(** C20: [printk] is not reentrant: all messages are sent from one buffer. When an interrupt prints [tb] after the first [k] characters
    of [ta] were sent, these are followed by [tb]; then, if [tb] is shorter than [k], the rest of [ta] follows unharmed, and
    otherwise what is sent in its place are the characters from [k] on of [tb], its null character
    and what of [ta] lies beyond them. The value returned is the length of [ta] in all cases. *)
Theorem printk_interrupted fa a ta fb b tb k s buf :
  format fa a = Some ta -> Z.of_nat (length ta) < CONSOLE_PRINT_BUFFER_SIZE ->
  format fb b = Some tb -> Z.of_nat (length tb) < CONSOLE_PRINT_BUFFER_SIZE ->
  length buf = 1024%nat -> live s -> (k < length ta)%nat ->
  wp (printk_irq (prints_at (Z.of_nat k) fb b) fa a) (s, buf) (fun r s' => r = Z.of_nat (length ta) /\ live s'.1 /\
    shown s'.1 = shown s ++ crlf (take k ta ++ tb ++
      if decide (length tb < k)%nat then drop k ta
      else take (length ta - k) (drop k tb ++ 0 :: drop (Datatypes.S (length tb)) ta))).
Proof.
  intros Ea Hla Eb Hlb Hb Hs Hk. unfold CONSOLE_PRINT_BUFFER_SIZE in *. unfold printk_irq at 1. wp_step.
  eapply wp_of_option; [exact Ea|]. rewrite (proj2 (Z.ltb_lt _ _)) by done. do 3 wp_step. cbn [fst snd].
  set (buf1 := store ta buf). assert (length buf1 = 1024%nat) as Hb1 by (unfold buf1; rewrite length_store; lia).
  pose proof (send_quiet (prints_at (Z.of_nat k) fb b) (length ta) k k 0 s buf1) as H. rewrite Nat.sub_0_r in H.
  apply H; clear H; try lia; [done|intros j Hj; unfold prints_at; by rewrite (proj2 (Z.eqb_neq _ _)) by lia|].
  intros s1 Hl1 Hs1. rewrite drop_0 in Hs1.
  assert (take k buf1 = take k ta) as Et by (unfold buf1, store; by rewrite take_app_le by lia). rewrite Et in Hs1. clear Et.
  apply send_step; [lia|lia|]. unfold prints_at at 1. rewrite Z.eqb_refl. wp_step.
  eapply wp_mono; [apply (printk_irq_plain fb b tb s1 buf1 Eb); done|]. intros r [s2 buf2] (_ & Hl2 & Hb2 & Hs2).
  cbn [fst snd] in *. wp_step. cbn [fst snd].
  assert (length buf2 = 1024%nat) as Hb3 by (rewrite Hb2, length_store; lia).
  destruct (lookup_lt_is_Some_2 buf2 k) as [c Ec]; [lia|]. exists c. split; [done|]. split; [done|]. intros s3 Hl3 Hs3.
  apply (send_quiet _ (length ta) (length ta - Datatypes.S k) (length ta)); try lia;
    [done|intros j Hj; unfold prints_at; by rewrite (proj2 (Z.eqb_neq _ _)) by lia|].
  intros s4 Hl4 Hs4. rewrite Nat.sub_diag. apply send_end. wp_step. split; [done|]. split; [done|]. cbn [fst].
  rewrite Hs4, Hs3, Hs2, Hs1, !crlf_app, <-!app_assoc. do 3 f_equal. rewrite <-crlf_app. f_equal.
  transitivity (take (length ta - k) (drop k buf2)).
  { rewrite (drop_S buf2 c k Ec). by replace (length ta - k)%nat with (Datatypes.S (length ta - Datatypes.S k)) by lia. }
  rewrite Hb2. unfold buf1. rewrite take_drop_store by lia. case_decide as Hd.
  - rewrite drop_store by done. apply take_ge. rewrite length_drop. lia.
  - unfold store. by rewrite drop_app_le by lia.
Qed.

End Shared.
(** ** Witness *)

Definition keep (c : Z) : M (list Z) unit := modify (fun l => l ++ (if u8 c =? 10 then [13; 10] else [u8 c])).

(** The last message of the boot, interrupted by the timer after three characters. *)
Lemma printk_interrupted_witness :
  wp (printk_irq keep (prints_at keep 3 ("Core0 timer interrupt, freq=%u" +:+ nl) [VNum 54000000]) ("enable mmu done" +:+ nl) [])
    ([], replicate 1024 0) (fun r s' => r = 16 /\
      s'.1 = crlf (bytes ("enaCore0 timer interrupt, freq=54000000" +:+ nl +:+ "e0 timer inte"))).
Proof.
  eapply wp_mono; [apply (printk_interrupted keep (C := list_console) ("enable mmu done" +:+ nl) [] (bytes ("enable mmu done" +:+ nl))
    ("Core0 timer interrupt, freq=%u" +:+ nl) [VNum 54000000] (bytes ("Core0 timer interrupt, freq=54000000" +:+ nl)) 3 []
    (replicate 1024 0)); [reflexivity|reflexivity|reflexivity|reflexivity|reflexivity|exact I|apply Nat.ltb_lt; reflexivity]|].
  intros r s' (Hr & _ & Hs). split; [exact Hr|]. exact Hs.
Defined.

End PrintkIrq.
