(* ===== verification/Uart.v ===== *)
(** * Device registers and the serial port

    [include/asm/io.h], [include/asm/base.h], [include/asm/gpio.h],
    [include/asm/pl_uart.h] and [drivers/serial/pl_uart.c].

    The devices are outside the program: what a register read returns is a parameter
    [dev] of the model, a function of every access made before. The state is the history of
    accesses, oldest first, so that a property of the driver is a property of the
    sequence of reads and writes it makes. *)

From S2P Require Import Prelude Base Printk.

Module Io.

Inductive access : Type :=
  | Rd (addr v : Z)
  | Wr (addr v : Z).

Section Io.
Context (dev : list access -> Z -> Z).

Definition readl (c : Z) : M (list access) Z := fun h =>
  let v := u32 (dev h c) in Ret (v, h ++ [Rd c v]).
Definition writel (v c : Z) : M (list access) unit := modify (fun h => h ++ [Wr c (u32 v)]).
End Io.

End Io.
Export Io.

Module Uart.

Definition GPFSEL1 : Z := PBASE + 0x00200004.
Definition GPIO_PUP_PDN_CNTRL_REG0 : Z := PBASE + 0x002000E4.
Definition U_BASE : Z := PBASE + 0x00201000.
Definition U_DATA_REG : Z := U_BASE.
Definition U_FR_REG : Z := U_BASE + 0x18.
Definition U_IBRD_REG : Z := U_BASE + 0x24.
Definition U_FBRD_REG : Z := U_BASE + 0x28.
Definition U_LCRH_REG : Z := U_BASE + 0x2C.
Definition U_CR_REG : Z := U_BASE + 0x30.
Definition U_IMSC_REG : Z := U_BASE + 0x38.

Section Uart.
Context (dev : list access -> Z -> Z).
(** The rounds a polling loop may take. *)
Context (patience : nat).

Definition flag_set (v n : Z) : bool := negb (Z.land v (Z.shiftl 1 n) =? 0).

Definition poll_body (n : Z) (_ : unit) : M (list access) (unit + unit) :=
  v ← readl dev U_FR_REG;
  mret (if flag_set v n then inl tt else inr tt).
Definition poll (n : Z) : M (list access) unit := loop patience (poll_body n) tt.

Definition uart_send (c : Z) : M (list access) unit :=
  poll 5;;
  writel (u8 c) U_DATA_REG.

Definition uart_recv : M (list access) Z :=
  poll 4;;
  v ← readl dev U_DATA_REG;
  mret (Z.land v 0xFF).

(** [str] is the text before the null character. *)
Fixpoint uart_send_string (str : list Z) : M (list access) unit :=
  match str with
  | [] => mret tt
  | c :: str => uart_send c;; uart_send_string str
  end.

Definition uart_init : M (list access) unit :=
  selector ← readl dev GPFSEL1;
  let selector := Z.land selector (not32 (Z.shiftl 7 12)) in
  let selector := Z.lor selector (Z.shiftl 4 12) in
  let selector := Z.land selector (not32 (Z.shiftl 7 15)) in
  let selector := Z.lor selector (Z.shiftl 4 15) in
  writel selector GPFSEL1;;
  selector ← readl dev GPIO_PUP_PDN_CNTRL_REG0;
  let selector := Z.lor selector (u32 (Z.lor (s32 (Z.shiftl 2 30)) (Z.shiftl 2 28))) in
  writel selector GPIO_PUP_PDN_CNTRL_REG0;;
  writel 0 U_CR_REG;;
  writel 26 U_IBRD_REG;;
  writel 3 U_FBRD_REG;;
  writel (Z.lor (Z.shiftl 1 4) (Z.shiftl 3 5)) U_LCRH_REG;;
  writel 0 U_IMSC_REG;;
  writel (Z.lor (Z.lor 1 (Z.shiftl 1 8)) (Z.shiftl 1 9)) U_CR_REG.

Definition putchar (c : Z) : M (list access) unit :=
  (if u8 c =? 10 then uart_send 13 else mret tt);;
  uart_send c.

(** ** Specification *)

(** The history after [k] more polls. *)
Fixpoint polls (h : list access) (k : nat) : list access :=
  match k with
  | O => h
  | S k => polls (h ++ [Rd U_FR_REG (u32 (dev h U_FR_REG))]) k
  end.

(** The device makes progress: flag [n] is seen clear within [patience] polls. *)
Definition clears (n : Z) : Prop :=
  forall h, exists k, (k < patience)%nat /\ flag_set (u32 (dev (polls h k) U_FR_REG)) n = false.

(** What was sent: the characters written to the data register. *)
Definition sent (h : list access) : list Z :=
  omap (fun a => match a with Wr r v => if r =? U_DATA_REG then Some v else None | Rd _ _ => None end) h.

(** Nothing is sent to a full FIFO: just before every write of the data register, the
    flag register was read with the full flag clear. *)
Definition sends_ok (h : list access) : Prop :=
  forall h1 v h2, h = h1 ++ Wr U_DATA_REG v :: h2 ->
  exists h0 f, h1 = h0 ++ [Rd U_FR_REG f] /\ flag_set f 5 = false.

Lemma poll_eq n h :
  clears n -> exists l f, poll n h = Ret (tt, h ++ l ++ [Rd U_FR_REG f]) /\
    flag_set f n = false /\ Forall (fun a => exists v, a = Rd U_FR_REG v) l.
Proof.
  intros Hc. destruct (Hc h) as (k & Hk & E). unfold poll. clear Hc.
  revert h k Hk E. generalize patience. intros fuel. induction fuel as [|fuel IH]; intros h k Hk E; [lia|].
  rewrite loop_unfold. unfold mbind at 1, M_bind at 1.
  unfold poll_body at 1, mbind at 1, M_bind at 1, readl at 1. unfold mret at 1, M_ret at 1.
  destruct (flag_set (u32 (dev h U_FR_REG)) n) eqn:Ef.
  - destruct k as [|k]; [simpl in E; congruence|].
    destruct (IH (h ++ [Rd U_FR_REG (u32 (dev h U_FR_REG))]) k) as (l & f & -> & Hf & Hl); [lia|exact E|].
    exists (Rd U_FR_REG (u32 (dev h U_FR_REG)) :: l), f. rewrite <-app_assoc. split; [done|].
    split; [done|]. apply Forall_cons. eauto.
  - exists [], (u32 (dev h U_FR_REG)). auto.
Qed.

Lemma land_u32_byte z : Z.land (u32 z) 0xFF = u8 z.
Proof.
  unfold u32. rewrite <-(land_ones_mod z 32), <-Z.land_assoc by lia.
  change (Z.land (2 ^ 32 - 1) 0xFF) with (2 ^ 8 - 1). by rewrite land_ones_mod by lia.
Qed.

Lemma sent_app h l : sent (h ++ l) = sent h ++ sent l.
Proof. apply omap_app. Qed.

Lemma sent_reads l : Forall (fun a => exists v, a = Rd U_FR_REG v) l -> sent l = [].
Proof. induction 1 as [|a l [v ->] _ IH]; [done|exact IH]. Qed.

Lemma sends_ok_app h l :
  sends_ok h -> Forall (fun a => exists v, a = Rd U_FR_REG v) l -> sends_ok (h ++ l).
Proof.
  intros Hh Hl h1 v h2 E. destruct (app_eq_app h l h1 (Wr U_DATA_REG v :: h2) E) as (k & H).
  destruct H as [[E1 E2]|[E1 E2]].
  - destruct k as [|x k].
    + cbn in E2. rewrite <-E2 in Hl. apply Forall_cons in Hl as [[w Hw] _]. discriminate.
    + injection E2 as <- _. by apply (Hh h1 v k).
  - subst l. apply Forall_app in Hl as [_ Hl]. apply Forall_cons in Hl as [[w Hw] _]. discriminate.
Qed.

Lemma sends_ok_snoc h f c :
  sends_ok h -> flag_set f 5 = false -> sends_ok ((h ++ [Rd U_FR_REG f]) ++ [Wr U_DATA_REG c]).
Proof.
  intros Hh Hf h1 v h2 E. destruct h2 as [|x h2 _] using rev_ind.
  - apply app_inj_tail in E as [<- _]. eauto.
  - rewrite app_comm_cons, app_assoc in E. apply app_inj_tail in E as [E <-].
    eapply (sends_ok_app h [_] Hh); [|exact E]. apply Forall_singleton. eauto.
Qed.

(** An access that does not send. *)
Lemma sends_ok_other h a :
  match a with Rd r _ | Wr r _ => r end <> U_DATA_REG -> sends_ok h -> sends_ok (h ++ [a]).
Proof.
  intros Ha Hh h1 v h2 E. destruct h2 as [|x h2 _] using rev_ind.
  - apply app_inj_tail in E as [_ ->]. done.
  - rewrite app_comm_cons, app_assoc in E. apply app_inj_tail in E as [E _]. by apply (Hh h1 v h2).
Qed.

Lemma sent_other a : match a with Rd r _ | Wr r _ => r end <> U_DATA_REG -> sent [a] = [].
Proof. destruct a as [r v|r v]; [done|]. intros Ha. unfold sent. cbn. by rewrite (proj2 (Z.eqb_neq _ _) Ha). Qed.

Lemma uart_send_eq c h :
  clears 5 ->
  wp (uart_send c) h (fun _ h' => (sends_ok h -> sends_ok h') /\ sent h' = sent h ++ [u8 c]).
Proof.
  intros Hc. destruct (poll_eq 5 h Hc) as (l & f & E & Hf & Hl).
  unfold uart_send. wp_step. eapply wp_intro; [exact E|]. unfold writel. wp_step.
  rewrite app_assoc. split; [intros Hh; by apply sends_ok_snoc; [apply sends_ok_app|]|].
  rewrite !sent_app, (sent_reads l), app_nil_r by done. simpl.
  pose proof (u8_range c). rewrite u32_small by lia. by rewrite app_nil_r.
Qed.

Lemma putchar_eq c h :
  clears 5 ->
  wp (putchar c) h (fun _ h' => (sends_ok h -> sends_ok h') /\
    sent h' = sent h ++ (if u8 c =? 10 then [13; 10] else [u8 c])).
Proof.
  intros Hc. unfold putchar. destruct (Z.eqb_spec (u8 c) 10) as [E|E]; wp_step.
  - eapply wp_mono; [by apply uart_send_eq|]. intros [] h1 [H1 S1].
    eapply wp_mono; [by apply uart_send_eq|]. intros [] h2 [H2 S2]. split; [auto|].
    by rewrite S2, S1, E, <-app_assoc.
  - wp_step. by apply uart_send_eq.
Qed.

#[global] Instance uart_console (Hc : clears 5) : Printk.Console putchar.
Proof.
  refine {| Printk.shown := sent; Printk.live := sends_ok |}. intros c h Hh.
  eapply wp_mono; [by apply putchar_eq|]. intros [] h' [H1 H2]. auto.
Defined.

(** The port as a console whatever was done to it before. *)
Definition any_console (Hc : clears 5) : Printk.Console putchar.
Proof.
  refine {| Printk.shown := sent; Printk.live := fun _ => True |}. intros c h _.
  eapply wp_mono; [by apply putchar_eq|]. intros [] h' [_ H]. auto.
Defined.

(** ** Properties *)

(** C18: Printing on the serial port: as long as the transmit FIFO drains, [printk] of a
    defined text that fits its buffer returns, the characters sent are the text with
    a carriage return before every newline, after all that was sent before, and no
    character is ever written to a full FIFO. *)
Theorem printk_uart fmt a text h :
  clears 5 -> sends_ok h -> Printk.format fmt a = Some text ->
  Z.of_nat (length text) < Printk.CONSOLE_PRINT_BUFFER_SIZE ->
  wp (Printk.printk putchar fmt a) h (fun r h' =>
    r = Z.of_nat (length text) /\ sends_ok h' /\ sent h' = sent h ++ Printk.crlf text).
Proof. intros Hc Hh E Hl. by apply (Printk.printk_fits putchar (C := uart_console Hc)). Qed.

(** [uart_send_string] sends the characters in order, each after a poll that saw room. *)
Theorem uart_send_string_spec str h :
  clears 5 -> sends_ok h ->
  wp (uart_send_string str) h (fun _ h' => sends_ok h' /\ sent h' = sent h ++ (u8 <$> str)).
Proof.
  intros Hc. revert h. induction str as [|c str IH]; intros h Hh; cbn [uart_send_string]; wp_step.
  - split; [done|]. by rewrite app_nil_r.
  - eapply wp_mono; [by apply uart_send_eq|]. intros [] h1 [H1 S1].
    eapply wp_mono; [by apply IH, H1|]. intros [] h2 [H2 S2]. split; [done|].
    by rewrite S2, S1, <-app_assoc.
Qed.

(** [uart_recv] waits until the receive FIFO has data, reads the data register once,
    right after the poll that saw it non-empty, and returns the low byte. *)
Theorem uart_recv_spec h :
  clears 4 ->
  exists l f, Forall (fun a => exists v, a = Rd U_FR_REG v) l /\ flag_set f 4 = false /\
    let h1 := h ++ l ++ [Rd U_FR_REG f] in
    uart_recv h = Ret (u8 (dev h1 U_DATA_REG), h1 ++ [Rd U_DATA_REG (u32 (dev h1 U_DATA_REG))]).
Proof.
  intros Hc. destruct (poll_eq 4 h Hc) as (l & f & E & Hf & Hl). exists l, f. split; [done|].
  split; [done|]. cbv zeta. unfold uart_recv, mbind, M_bind, readl. rewrite E.
  unfold mret, M_ret. by rewrite land_u32_byte.
Qed.

(** The selector fields [uart_init] writes: GPIO 14 and 15 (three bits each, from bit 12)
    become 4, the first alternative function. *)
Lemma selector_bits v i :
  0 <= i < 32 ->
  Z.testbit (Z.lor (Z.land (Z.lor (Z.land v (not32 (Z.shiftl 7 12))) (Z.shiftl 4 12))
                           (not32 (Z.shiftl 7 15))) (Z.shiftl 4 15)) i =
  if decide (12 <= i < 18) then (i =? 14) || (i =? 17) else Z.testbit v i.
Proof.
  intros Hi. rewrite !Z.lor_spec, !Z.land_spec, Z.lor_spec, Z.land_spec.
  assert (exists k, i = Z.of_nat k /\ (k < 32)%nat) as (k & -> & Hk) by (exists (Z.to_nat i); lia).
  do 32 (destruct k as [|k]; [destruct (Z.testbit v _); reflexivity|]). lia.
Qed.

Lemma pull_bits v i :
  0 <= i < 32 ->
  Z.testbit (Z.lor v (u32 (Z.lor (s32 (Z.shiftl 2 30)) (Z.shiftl 2 28)))) i =
  (i =? 29) || (i =? 31) || Z.testbit v i.
Proof.
  intros Hi. rewrite Z.lor_spec.
  assert (exists k, i = Z.of_nat k /\ (k < 32)%nat) as (k & -> & Hk) by (exists (Z.to_nat i); lia).
  do 32 (destruct k as [|k]; [destruct (Z.testbit v _); reflexivity|]). lia.
Qed.

(** The set-up of the port: the two pins are switched to the first alternative function
    and no other pin's function changes, the pull-down bits are set without clearing the
    field first, and the port is off while its rate and format are set and on last. *)
Theorem uart_init_spec h :
  exists v1 w1 v2 w2,
    uart_init h = Ret (tt, h ++ [Rd GPFSEL1 v1; Wr GPFSEL1 w1;
      Rd GPIO_PUP_PDN_CNTRL_REG0 v2; Wr GPIO_PUP_PDN_CNTRL_REG0 w2;
      Wr U_CR_REG 0; Wr U_IBRD_REG 26; Wr U_FBRD_REG 3; Wr U_LCRH_REG 0x70; Wr U_IMSC_REG 0;
      Wr U_CR_REG 0x301]) /\
    (forall i, 0 <= i < 32 ->
       Z.testbit w1 i = if decide (12 <= i < 18) then (i =? 14) || (i =? 17) else Z.testbit v1 i) /\
    (forall i, 0 <= i < 32 -> Z.testbit w2 i = (i =? 29) || (i =? 31) || Z.testbit v2 i).
Proof.
  do 4 eexists. split; [|split].
  - unfold uart_init, mbind, M_bind, readl, writel, modify. rewrite <-!app_assoc. reflexivity.
  - intros i Hi. unfold u32 at 1. rewrite Z.mod_pow2_bits_low by lia. by apply selector_bits.
  - intros i Hi. unfold u32 at 1. rewrite Z.mod_pow2_bits_low by lia. by apply pull_bits.
Qed.

End Uart.

(** ** Witnesses *)

(** A port whose FIFO is full at every other poll, with one character to receive. *)
Definition test_port (h : list access) (r : Z) : Z :=
  if r =? U_FR_REG then if Nat.even (length h) then 0x30 else 0
  else if r =? U_DATA_REG then 0x141 else 0.

Lemma test_port_clears n : n = 4 \/ n = 5 -> clears test_port 2 n.
Proof.
  intros Hn h. assert (flag_set (u32 0) n = false) as H0 by (by destruct Hn as [-> | ->]).
  destruct (Nat.even (length h)) eqn:E.
  - exists 1%nat. split; [lia|]. cbn [polls]. unfold test_port at 1. rewrite Z.eqb_refl, length_app.
    rewrite Nat.even_add, E. exact H0.
  - exists 0%nat. split; [lia|]. cbn [polls]. unfold test_port at 1. rewrite Z.eqb_refl, E. exact H0.
Qed.

Lemma sends_ok_nil : sends_ok [].
Proof. intros h1 v h2 E. by destruct h1. Qed.

Lemma printk_uart_witness :
  wp (Printk.printk (putchar test_port 2) ("n=%d" +:+ nl) [VNum 7]) [] (fun r h' =>
    r = 4 /\ sends_ok h' /\ sent h' = [110; 61; 55; 13; 10]).
Proof.
  apply (printk_uart test_port 2 ("n=%d" +:+ nl) [VNum 7] [110; 61; 55; 10] []);
    [apply test_port_clears; by right|exact sends_ok_nil|reflexivity|reflexivity].
Defined.

Lemma uart_send_string_spec_witness :
  wp (uart_send_string test_port 2 [79; 75]) [] (fun _ h' => sends_ok h' /\ sent h' = [79; 75]).
Proof.
  apply (uart_send_string_spec test_port 2 [79; 75] []);
    [apply test_port_clears; by right|exact sends_ok_nil].
Defined.

Lemma uart_recv_spec_witness :
  exists h', uart_recv test_port 2 [] = Ret (0x41, h').
Proof.
  destruct (uart_recv_spec test_port 2 []) as (l & f & _ & _ & E);
    [apply test_port_clears; by left|].
  eexists. rewrite E. reflexivity.
Defined.

End Uart.
