(* ===== verification/Mem.v ===== *)
(** * Byte memory and the string library

    RAM as bytes, little-endian loads and stores of every width, and the three
    memory routines of the kernel: [strlen] and [memcpy] of [lib/string.c] and
    [memset] of [arch/arm64/lib/memset.S], the latter translated instruction by
    instruction. *)

From S2P Require Import Prelude Base.

(** ** RAM *)

Module Mem.

(** A cell that was never written reads as 0; every theorem holds for an
    arbitrary memory, so nothing rests on that value. *)
Abbreviation mem := (gmap Z Z).

Definition load8 (m : mem) (a : Z) : Z := u8 (default 0 (m !! a)).
Definition store8 (m : mem) (a v : Z) : mem := <[a := u8 v]> m.

Fixpoint le_combine (bs : list Z) : Z :=
  match bs with
  | [] => 0
  | b :: bs => b + 2 ^ 8 * le_combine bs
  end.

Fixpoint le_split (n : nat) (v : Z) : list Z :=
  match n with
  | O => []
  | S n => u8 v :: le_split n (v / 2 ^ 8)
  end.

Fixpoint load_bytes (m : mem) (a : Z) (n : nat) : list Z :=
  match n with
  | O => []
  | S n => load8 m a :: load_bytes m (a + 1) n
  end.

Fixpoint store_bytes (m : mem) (a : Z) (bs : list Z) : mem :=
  match bs with
  | [] => m
  | b :: bs => store_bytes (store8 m a b) (a + 1) bs
  end.

Definition load64 (m : mem) (a : Z) : Z := le_combine (load_bytes m a 8).
Definition store64 (m : mem) (a v : Z) : mem := store_bytes m a (le_split 8 v).
Definition store32 (m : mem) (a v : Z) : mem := store_bytes m a (le_split 4 v).
Definition store16 (m : mem) (a v : Z) : mem := store_bytes m a (le_split 2 v).

(** The reference filler: [n] bytes of value [c] from [a]. *)
Definition fill (m : mem) (a c : Z) (n : nat) : mem := store_bytes m a (replicate n (u8 c)).

Lemma load8_store8_eq m a v : load8 (store8 m a v) a = u8 v.
Proof.
  unfold load8, store8. rewrite lookup_insert_eq. simpl. apply u8_small, u8_range.
Qed.

Lemma load8_store8_ne m a b v : a <> b -> load8 (store8 m a v) b = load8 m b.
Proof. intros H. unfold load8, store8. by rewrite lookup_insert_ne. Qed.

Lemma load8_range m a : 0 <= load8 m a < 2 ^ 8.
Proof. apply u8_range. Qed.

Lemma length_le_split n v : length (le_split n v) = n.
Proof. revert v. induction n; simpl; auto. Qed.

Lemma length_load_bytes m a n : length (load_bytes m a n) = n.
Proof. revert a. induction n; simpl; auto. Qed.

Lemma le_combine_split n v : le_combine (le_split n v) = v mod 2 ^ (8 * Z.of_nat n).
Proof.
  revert v. induction n as [|n IH]; intros v; simpl; [by rewrite Z.mod_1_r|].
  rewrite IH. unfold u8.
  replace (8 * Z.of_nat (S n)) with (8 + 8 * Z.of_nat n) by lia.
  rewrite Z.pow_add_r, Z.rem_mul_r by lia. done.
Qed.

Lemma le_combine_range bs :
  Forall (fun b => 0 <= b < 2 ^ 8) bs -> 0 <= le_combine bs < 2 ^ (8 * Z.of_nat (length bs)).
Proof.
  induction 1 as [|b bs Hb _ IH]; simpl; [lia|].
  replace (8 * Z.of_nat (S (length bs))) with (8 + 8 * Z.of_nat (length bs)) by lia.
  rewrite Z.pow_add_r by lia. nia.
Qed.

Lemma load_bytes_range m a n : Forall (fun b => 0 <= b < 2 ^ 8) (load_bytes m a n).
Proof. revert a. induction n; intros a; simpl; constructor; auto using load8_range. Qed.

Lemma load64_range m a : 0 <= load64 m a < 2 ^ 64.
Proof.
  pose proof (le_combine_range _ (load_bytes_range m a 8)) as H.
  rewrite length_load_bytes in H. apply H.
Qed.

(** Where a byte of a block of stores comes from. *)
Lemma load8_store_bytes m a bs b :
  load8 (store_bytes m a bs) b =
  if decide (a <= b < a + Z.of_nat (length bs))
  then u8 (nth (Z.to_nat (b - a)) bs 0) else load8 m b.
Proof.
  revert m a. induction bs as [|v bs IH]; intros m a; simpl.
  { rewrite decide_False by lia. done. }
  rewrite IH. destruct (decide (a = b)) as [->|Hne].
  - rewrite decide_False, decide_True by lia.
    rewrite load8_store8_eq. by replace (Z.to_nat (b - b)) with O by lia.
  - rewrite load8_store8_ne by done. repeat case_decide; try lia.
    replace (Z.to_nat (b - a)) with (S (Z.to_nat (b - (a + 1)))) by lia. done.
Qed.

Lemma load_bytes_ext m m' a n :
  (forall b, a <= b < a + Z.of_nat n -> load8 m' b = load8 m b) ->
  load_bytes m' a n = load_bytes m a n.
Proof.
  revert a. induction n as [|n IH]; intros a H; simpl; [done|].
  rewrite H by lia. f_equal. apply IH. intros b Hb. apply H. lia.
Qed.

Lemma load_bytes_store_bytes m a bs :
  load_bytes (store_bytes m a bs) a (length bs) = u8 <$> bs.
Proof.
  revert m a. induction bs as [|v bs IH]; intros m a; simpl; [done|].
  rewrite IH, load8_store_bytes, decide_False, load8_store8_eq by lia. done.
Qed.

Lemma load64_store64_eq m a v : load64 (store64 m a v) a = u64 v.
Proof.
  unfold load64, store64.
  pose proof (load_bytes_store_bytes m a (le_split 8 v)) as E.
  rewrite length_le_split in E. rewrite E.
  replace (u8 <$> le_split 8 v) with (le_split 8 v); [apply le_combine_split|].
  simpl. by rewrite !(u8_small (u8 _)) by apply u8_range.
Qed.

Lemma load64_ext m m' a :
  (forall b, a <= b < a + 8 -> load8 m' b = load8 m b) -> load64 m' a = load64 m a.
Proof. intros H. unfold load64. f_equal. apply load_bytes_ext. intros; apply H; lia. Qed.

Lemma load8_store64_ne m a v b :
  ~ a <= b < a + 8 -> load8 (store64 m a v) b = load8 m b.
Proof.
  intros H. unfold store64. rewrite load8_store_bytes, length_le_split.
  by rewrite decide_False by lia.
Qed.

Lemma load64_store64_ne m a b v :
  a + 8 <= b \/ b + 8 <= a -> load64 (store64 m a v) b = load64 m b.
Proof. intros H. apply load64_ext. intros c Hc. apply load8_store64_ne. lia. Qed.

Lemma load8_fill m a c n b :
  load8 (fill m a c n) b =
  if decide (a <= b < a + Z.of_nat n) then u8 c else load8 m b.
Proof.
  unfold fill. rewrite load8_store_bytes, length_replicate.
  case_decide; [|done].
  replace (nth (Z.to_nat (b - a)) (replicate n (u8 c)) 0) with (u8 c).
  - apply u8_small, u8_range.
  - symmetry. apply nth_lookup_Some, lookup_replicate_2. lia.
Qed.

Lemma store_bytes_app m a bs1 bs2 :
  store_bytes m a (bs1 ++ bs2) =
  store_bytes (store_bytes m a bs1) (a + Z.of_nat (length bs1)) bs2.
Proof.
  revert m a. induction bs1 as [|b bs1 IH]; intros m a; simpl.
  - f_equal. lia.
  - rewrite IH. f_equal. lia.
Qed.

Lemma fill_add m a c n1 n2 :
  fill m a c (n1 + n2) = fill (fill m a c n1) (a + Z.of_nat n1) c n2.
Proof.
  unfold fill. rewrite replicate_add, store_bytes_app, length_replicate. done.
Qed.

Lemma load64_fill_zero m a n b :
  a <= b -> b + 8 <= a + Z.of_nat n -> load64 (fill m a 0 n) b = 0.
Proof.
  intros Ha Hb. unfold load64. simpl.
  rewrite !load8_fill, !decide_True by lia. done.
Qed.

Lemma load64_fill_ne m a c n b :
  a + Z.of_nat n <= b \/ b + 8 <= a -> load64 (fill m a c n) b = load64 m b.
Proof.
  intros H. apply load64_ext. intros x Hx. rewrite load8_fill.
  by rewrite decide_False by lia.
Qed.

End Mem.
Export Mem.

(** ** lib/string.c *)

Module Str.

(** [for (sc = s; *sc != '\0'; ++sc);  return sc - s;] *)
Definition strlen_body (sc : Z) : M mem (Z + Z) :=
  c ← gets (fun m => load8 m sc);
  if c =? 0 then mret (inr sc) else mret (inl (u64 (sc + 1))).
Definition strlen (fuel : nat) (s : Z) : M mem Z :=
  sc ← loop fuel strlen_body s;
  mret (u64 (sc - s)).

(** [while (count--) *tmp++ = *s++;  return dest;] *)
Definition memcpy_body (st : Z * Z * Z) : M mem (Z * Z * Z + unit) :=
  let '(tmp, s, count) := st in
  if count =? 0 then mret (inr tt)
  else
    c ← gets (fun m => load8 m s);
    modify (fun m => store8 m tmp c);;
    mret (inl (u64 (tmp + 1), u64 (s + 1), u64 (count - 1))).
Definition memcpy (fuel : nat) (dest src count : Z) : M mem Z :=
  loop fuel memcpy_body (dest, src, count);;
  mret dest.

(** A null-terminated string [str] stored at [s]. *)
Definition cstring_at (m : mem) (s : Z) (str : list Z) : Prop :=
  load_bytes m s (S (length str)) = str ++ [0] /\ Forall (fun c => c <> 0) str.

Lemma cstring_at_cons m s c str :
  cstring_at m s (c :: str) -> load8 m s = c /\ c <> 0 /\ cstring_at m (s + 1) str.
Proof.
  intros [E F]. change (load_bytes m s (S (length (c :: str))))
    with (load8 m s :: load_bytes m (s + 1) (S (length str))) in E.
  apply Forall_cons in F as [Hc F]. simpl in E. injection E as E1 E2.
  split; [done|]. split; [done|]. split; [|done]. simpl. congruence.
Qed.

Lemma strlen_loop str : forall fuel m sc,
  cstring_at m sc str -> 0 <= sc -> sc + Z.of_nat (length str) < 2 ^ 64 ->
  (length str < fuel)%nat ->
  wp (loop fuel strlen_body sc) m
     (fun e m' => e = sc + Z.of_nat (length str) /\ m' = m).
Proof.
  induction str as [|c str IH]; intros [|fuel] m sc Hs Hsc Hb Hf; simpl in Hf, Hb; try lia;
    rewrite loop_unfold; wp_step; unfold strlen_body; wp_steps.
  - destruct Hs as [E _]. simpl in E. injection E as E'. rewrite E'. wp_steps. split; [simpl; lia|done].
  - apply cstring_at_cons in Hs as (E & Hc & Hs). rewrite E.
    rewrite (proj2 (Z.eqb_neq c 0)) by done. wp_steps.
    rewrite u64_small by lia. eapply wp_mono; [apply IH; (done || lia)|].
    intros e m' [-> ->]. split; [simpl; lia|done].
Qed.

(** strlen on a pointer to a null-terminated string returns its length and
    leaves memory alone, for any loop bound above the length. *)
Theorem strlen_spec fuel m s str :
  cstring_at m s str -> 0 <= s -> s + Z.of_nat (length str) < 2 ^ 64 ->
  (length str < fuel)%nat ->
  wp (strlen fuel s) m (fun n m' => n = Z.of_nat (length str) /\ m' = m).
Proof.
  intros Hs H0 Hb Hf. unfold strlen. wp_step.
  eapply wp_mono; [by apply (strlen_loop str)|].
  intros e m' [-> ->]. wp_steps. rewrite u64_small by lia. split; [lia|done].
Qed.

Lemma strlen_spec_witness :
  wp (strlen 10 100) (store_bytes ∅ 100 [104; 105; 0])
     (fun n m' => n = 2 /\ m' = store_bytes ∅ 100 [104; 105; 0]).
Proof.
  apply (strlen_spec 10 _ 100 [104; 105]); [|lia|simpl; lia|simpl; lia].
  split; [reflexivity|]. repeat constructor; lia.
Defined.

Lemma memcpy_step m d s n b :
  d <= s \/ s + Z.of_nat (S n) <= d ->
  (if decide (d + 1 <= b < d + 1 + Z.of_nat n)
   then load8 (store8 m d (load8 m s)) (s + 1 + (b - (d + 1)))
   else load8 (store8 m d (load8 m s)) b) =
  if decide (d <= b < d + Z.of_nat (S n)) then load8 m (s + (b - d)) else load8 m b.
Proof.
  intros Hov. destruct (decide (d = b)) as [->|Hne].
  - rewrite decide_False, decide_True, load8_store8_eq by lia.
    rewrite Z.sub_diag, Z.add_0_r. apply u8_small, load8_range.
  - repeat case_decide; try lia; rewrite load8_store8_ne by lia; [|done].
    f_equal. lia.
Qed.

(** The end pointers may reach 2^64, where the C pointers wrap to 0 unread. *)
Lemma memcpy_loop n : forall fuel m d s,
  0 <= d -> d + Z.of_nat n <= 2 ^ 64 -> 0 <= s -> s + Z.of_nat n <= 2 ^ 64 ->
  d <= s \/ s + Z.of_nat n <= d -> (n < fuel)%nat ->
  wp (loop fuel memcpy_body (u64 d, u64 s, Z.of_nat n)) m
   (fun _ m' => forall b, load8 m' b =
      if decide (d <= b < d + Z.of_nat n) then load8 m (s + (b - d)) else load8 m b).
Proof.
  induction n as [|n IH]; intros [|fuel] m d s Hd Hdn Hs Hsn Hov Hf; try lia;
    rewrite loop_unfold; wp_step; unfold memcpy_body.
  - wp_steps. intros b. by rewrite decide_False by lia.
  - rewrite (proj2 (Z.eqb_neq (Z.of_nat (S n)) 0)) by lia. wp_steps.
    rewrite (u64_small (Z.of_nat (S n) - 1)), (u64_small d), (u64_small s) by lia.
    replace (Z.of_nat (S n) - 1) with (Z.of_nat n) by lia.
    eapply wp_mono; [apply IH; lia|].
    intros [] m' H b. rewrite H. by apply memcpy_step.
Qed.

(** C38: memcpy copies byte by byte upwards: it terminates, returns [dest], leaves
    every byte outside the destination alone, and the destination holds the
    source as it was, unless the destination starts inside the source. *)
Theorem memcpy_spec fuel m dest src count :
  0 <= dest < 2 ^ 64 -> dest + count <= 2 ^ 64 ->
  0 <= src < 2 ^ 64 -> src + count <= 2 ^ 64 -> 0 <= count ->
  dest <= src \/ src + count <= dest -> (Z.to_nat count < fuel)%nat ->
  wp (memcpy fuel dest src count) m (fun r m' => r = dest /\ forall b,
    load8 m' b = if decide (dest <= b < dest + count)
                 then load8 m (src + (b - dest)) else load8 m b).
Proof.
  intros. unfold memcpy. wp_step. rewrite <-(Z2Nat.id count) by done.
  rewrite <-(u64_small dest), <-(u64_small src) at 1 by done.
  eapply wp_mono; [apply memcpy_loop; rewrite ?Z2Nat.id; lia|].
  intros [] m' Hb. wp_steps. done.
Qed.

Lemma memcpy_spec_witness :
  wp (memcpy 10 100 102 3) (store_bytes ∅ 102 [7; 8; 9]) (fun r m' => r = 100 /\ forall b,
    load8 m' b = if decide (100 <= b < 100 + 3)
                 then load8 (store_bytes ∅ 102 [7; 8; 9]) (102 + (b - 100))
                 else load8 (store_bytes ∅ 102 [7; 8; 9]) b).
Proof. apply memcpy_spec; lia. Defined.

End Str.
Export Str.

(** ** arch/arm64/lib/memset.S *)

Module Memset.

(** The N flag that [b.mi] and [b.pl] test after [subs]/[adds] on x registers. *)
Definition mi (x : Z) : bool := Z.testbit x 63.

(** [and w1, w1, #0xff] and the three [orr]s: the byte in all eight lanes. *)
Definition memset_pattern (x1 : Z) : Z :=
  let w1 := Z.land (u32 x1) 0xff in
  let w1 := Z.lor w1 (u32 (Z.shiftl w1 8)) in
  let w1 := Z.lor w1 (u32 (Z.shiftl w1 16)) in
  Z.lor w1 (u64 (Z.shiftl w1 32)).

(** [1: str x1, [x4], #8; subs x2, x2, #8; b.pl 1b] *)
Definition memset_body (x1 : Z) (st : Z * Z) : M mem (Z * Z + Z * Z) :=
  let '(x4, x2) := st in
  modify (fun m => store64 m x4 x1);;
  let x4 := u64 (x4 + 8) in
  let x2 := u64 (x2 - 8) in
  mret (if mi x2 then inr (x4, x2) else inl (x4, x2)).

(** [adds x2, x2, #k; b.mi next; sub x2, x2, #k; str.. [x4], #k] *)
Definition memset_tail (k : Z) (st : mem -> Z -> mem) (x4 x2 : Z) : M mem (Z * Z) :=
  let x2 := u64 (x2 + k) in
  if mi x2 then mret (x4, x2)
  else
    let x2 := u64 (x2 - k) in
    modify (fun m => st m x4);;
    mret (u64 (x4 + k), x2).

Definition memset (x0 x1 x2 : Z) : M mem Z :=
  let n := x2 in
  let x4 := x0 in
  let x1 := memset_pattern x1 in
  let x2 := u64 (x2 - 8) in
  p ← (if mi x2 then mret (x4, x2)
       else loop (S (Z.to_nat (n / 8))) (memset_body x1) (x4, x2));
  p ← memset_tail 4 (fun m a => store32 m a x1) p.1 p.2;
  p ← memset_tail 2 (fun m a => store16 m a x1) p.1 p.2;
  let x4 := p.1 in
  let x2 := u64 (p.2 + 1) in
  (if mi x2 then mret tt else modify (fun m => store8 m x4 x1));;
  mret x0.

Lemma pattern_lanes_all :
  forallb (fun c => bool_decide (
    le_split 8 (memset_pattern c) = replicate 8 c /\
    le_split 4 (memset_pattern c) = replicate 4 c /\
    le_split 2 (memset_pattern c) = replicate 2 c /\
    u8 (memset_pattern c) = c)) (seqZ 0 256) = true.
Proof. vm_compute. reflexivity. Qed.

Lemma memset_pattern_u8 x1 : memset_pattern x1 = memset_pattern (u8 x1).
Proof.
  unfold memset_pattern.
  replace (Z.land (u32 (u8 x1)) 255) with (Z.land (u32 x1) 255); [done|].
  change 255 with (2 ^ 8 - 1). rewrite !land_ones_mod by lia. unfold u32, u8.
  rewrite (Z.mod_small (x1 mod 2 ^ 8) (2 ^ 32)) by (pose proof (u8_range x1); unfold u8 in *; lia).
  rewrite Z.mod_mod by lia. change (2 ^ 32) with (2 ^ 8 * 2 ^ 24).
  rewrite Z.rem_mul_r, Z.mul_comm, Z_mod_plus_full by lia. apply Z.mod_mod. lia.
Qed.

Lemma pattern_lanes c :
  le_split 8 (memset_pattern c) = replicate 8 (u8 c) /\
  le_split 4 (memset_pattern c) = replicate 4 (u8 c) /\
  le_split 2 (memset_pattern c) = replicate 2 (u8 c) /\
  u8 (memset_pattern c) = u8 c.
Proof.
  rewrite memset_pattern_u8.
  pose proof (proj1 (forallb_forall _ _) pattern_lanes_all (u8 c)) as H.
  apply bool_decide_eq_true in H; [done|].
  apply list_elem_of_In, elem_of_seqZ. pose proof (u8_range c). lia.
Qed.

Lemma store64_pattern m a c : store64 m a (memset_pattern c) = fill m a c 8.
Proof. unfold store64, fill. by rewrite (proj1 (pattern_lanes c)). Qed.
Lemma store32_pattern m a c : store32 m a (memset_pattern c) = fill m a c 4.
Proof. unfold store32, fill. by rewrite (proj1 (proj2 (pattern_lanes c))). Qed.
Lemma store16_pattern m a c : store16 m a (memset_pattern c) = fill m a c 2.
Proof. unfold store16, fill. by rewrite (proj1 (proj2 (proj2 (pattern_lanes c)))). Qed.
Lemma store8_pattern m a c : store8 m a (memset_pattern c) = fill m a c 1.
Proof.
  unfold store8, fill. simpl. unfold store8.
  rewrite (proj2 (proj2 (proj2 (pattern_lanes c)))).
  by rewrite (u8_small (u8 c)) by apply u8_range.
Qed.

Lemma mi_neg x : - 2 ^ 63 <= x < 0 -> mi (u64 x) = true.
Proof.
  intros H. unfold mi, u64. rewrite Z.mod_pow2_bits_low by lia.
  apply Z.testbit_true; [lia|]. replace (x / 2 ^ 63) with (-1); [done|].
  apply Z.div_unique with (x + 2 ^ 63); lia.
Qed.

Lemma mi_pos x : 0 <= x < 2 ^ 63 -> mi (u64 x) = false.
Proof.
  intros H. unfold mi, u64. rewrite Z.mod_small by lia.
  apply Z.testbit_false; [lia|]. by rewrite Z.div_small by lia.
Qed.

Lemma u64_u64_add x y : u64 (u64 x + y) = u64 (x + y).
Proof. apply Zplus_mod_idemp_l. Qed.
Lemma u64_u64_sub x y : u64 (u64 x - y) = u64 (x - y).
Proof. apply Zminus_mod_idemp_l. Qed.

(** The eight-byte loop, entered with [8 * (q + 1) + r] bytes to go. *)
Lemma memset_loop c r q : forall fuel m a,
  0 <= r < 8 -> 8 * Z.of_nat q + 8 + r < 2 ^ 63 ->
  0 <= a -> a + 8 * Z.of_nat q + 8 + r < 2 ^ 64 -> (q < fuel)%nat ->
  wp (loop fuel (memset_body (memset_pattern c)) (a, u64 (8 * Z.of_nat q + r))) m
     (fun p m' => p = (a + 8 * Z.of_nat q + 8, u64 (r - 8)) /\
                  m' = fill m a c (8 * S q)).
Proof.
  induction q as [|q IH]; intros [|fuel] m a Hr Hq Ha Hb Hf; try lia;
    rewrite loop_unfold; wp_step; unfold memset_body; wp_steps;
    rewrite store64_pattern, u64_u64_sub, (u64_small (a + 8)) by lia.
  - rewrite mi_neg by lia. wp_steps. split; [|done].
    replace (8 * Z.of_nat 0 + r - 8) with (r - 8) by lia. f_equal; lia.
  - rewrite mi_pos by lia. cbn beta iota.
    replace (8 * Z.of_nat (S q) + r - 8) with (8 * Z.of_nat q + r) by lia.
    eapply wp_mono; [apply IH; lia|]. intros p m' [-> ->].
    split; [f_equal; lia|]. replace (8 * S (S q))%nat with (8 + 8 * S q)%nat by lia.
    rewrite fill_add. done.
Qed.

(** The last [r < 8] bytes: the word, half-word and byte stores. *)
Lemma memset_rest c r m a (x0 : Z) :
  0 <= r < 8 -> 0 <= a -> a + 8 < 2 ^ 64 ->
  wp (p ← memset_tail 4 (fun m a => store32 m a (memset_pattern c)) a (u64 (r - 8));
      p ← memset_tail 2 (fun m a => store16 m a (memset_pattern c)) p.1 p.2;
      let x4 := p.1 in
      let x2 := u64 (p.2 + 1) in
      (if mi x2 then mret tt else modify (fun m => store8 m x4 (memset_pattern c)));;
      mret x0) m
     (fun x m' => x = x0 /\ m' = fill m a c (Z.to_nat r)).
Proof.
  intros Hr Ha Hb. rewrite <-(u64_small a) by lia.
  assert (r = 0 \/ r = 1 \/ r = 2 \/ r = 3 \/ r = 4 \/ r = 5 \/ r = 6 \/ r = 7) as H by lia.
  destruct_or! H; subst r; unfold memset_tail;
    repeat match goal with
    | |- context [if mi ?x then _ else _] =>
        let b := eval vm_compute in (mi x) in replace (mi x) with b by reflexivity; cbn iota
    | _ => wp_step; cbn [fst snd]
    end; split; try done;
    rewrite ?store32_pattern, ?store16_pattern, ?store8_pattern, ?u64_u64_add;
    rewrite ?u64_small by lia; rewrite <-?Z.add_assoc; unfold fill; simpl;
    rewrite <-?Z.add_assoc; try done.
Qed.

Lemma memset_eq m buf c n :
  0 <= n < 2 ^ 63 -> 0 <= buf -> buf + n + 8 < 2 ^ 64 ->
  memset buf c n m = Ret (buf, fill m buf c (Z.to_nat n)).
Proof.
  intros Hn Hbuf Hend.
  enough (wp (memset buf c n) m
            (fun x m' => x = buf /\ m' = fill m buf c (Z.to_nat n))) as H.
  { apply wp_elim in H as (x & m' & -> & -> & ->). done. }
  pose proof (Z.div_mod n 8). pose proof (Z.mod_pos_bound n 8).
  unfold memset. wp_step. destruct (decide (n < 8)) as [Hlt|Hge].
  - rewrite mi_neg by lia. wp_step. cbn [fst snd]. apply memset_rest; lia.
  - rewrite mi_pos by lia.
    set (q := Z.to_nat (n / 8 - 1)).
    replace (u64 (n - 8)) with (u64 (8 * Z.of_nat q + n mod 8)) by (f_equal; lia).
    eapply wp_mono; [apply (memset_loop c (n mod 8) q); lia|].
    intros p m' [-> ->]. cbn [fst snd].
    eapply wp_mono; [apply memset_rest; lia|]. intros x m' [-> ->].
    split; [done|].
    replace (Z.to_nat n) with (8 * S q + Z.to_nat (n mod 8))%nat by lia.
    rewrite fill_add. f_equal. lia.
Qed.

(** C37: memset.S sets exactly the [n] bytes from [buf] to the low byte of [c], changes
    no other byte and returns [buf], for every length below 2^63, the remainders of
    the eight-byte loop included. *)
Theorem memset_spec m buf c n :
  0 <= n < 2 ^ 63 -> 0 <= buf -> buf + n + 8 < 2 ^ 64 ->
  exists m', memset buf c n m = Ret (buf, m') /\
    forall b, load8 m' b = if decide (buf <= b < buf + n) then u8 c else load8 m b.
Proof.
  intros Hn Hb He. eexists. split; [by apply memset_eq|]. intros b.
  rewrite load8_fill. rewrite Z2Nat.id by lia. done.
Qed.

Lemma memset_spec_witness :
  exists m', memset 0x1000 0x1ab 13 ∅ = Ret (0x1000, m') /\
    forall b, load8 m' b = if decide (0x1000 <= b < 0x1000 + 13) then u8 0x1ab else load8 ∅ b.
Proof. apply (memset_spec ∅ 0x1000 0x1ab 13); lia. Defined.

End Memset.
Export Memset.
