(* ===== verification/PageAlloc.v ===== *)
(** * The page allocator

    [mm/page_alloc.c]: one [unsigned short] per page frame, counted from
    [LOW_MEMORY]; allocation takes the first free frame. *)

From S2P Require Import Prelude Base.

Module PageAlloc.

(** ** The code *)

(** [static unsigned short mem_map[NR_PAGES]] at boot; the state of the
    component is the array. *)
Definition mem_map_init : list Z := replicate (Z.to_nat NR_PAGES) 0.

Definition get_free_page_body (i : Z) : M (list Z) (Z + Z) :=
  if i <? NR_PAGES then
    mem_map ← get;
    v ← of_option (arr_get mem_map i);
    if v =? 0 then
      mem_map' ← of_option (arr_set mem_map i 1);
      put mem_map';;
      mret (inr (u64 (LOW_MEMORY + i * PAGE_SIZE)))
    else mret (inl (i + 1))
  else mret (inr 0).

Definition get_free_page : M (list Z) Z :=
  loop (S (Z.to_nat NR_PAGES)) get_free_page_body 0.

Definition free_page (p : Z) : M (list Z) unit :=
  mem_map ← get;
  mem_map' ← of_option (arr_set mem_map (u64 (p - LOW_MEMORY) / PAGE_SIZE) 0);
  put mem_map'.

(** The report of the boot-time scan: free bytes and the loop's page count, then
    the [printk] call made with them. *)
Definition mem_init_body (end_ : Z) (st : Z * Z) : M (list call) (Z * Z + Z) :=
  let '(start, nr_free_pages) := st in
  mret (if start <? end_ then inl (u64 (start + PAGE_SIZE), u64 (nr_free_pages + 1))
        else inr nr_free_pages).

Definition mem_init (start end_ : Z) : M (list call) unit :=
  let start := PAGE_BALIGN start in
  let end_ := Z.land end_ PAGE_MASK in
  let free := u64 (end_ - start) in
  nr_free_pages ← loop (Z.to_nat (end_ / PAGE_SIZE) + 2) (mem_init_body end_) (start, 0);
  modify (fun log => log ++ [("Memory: %uKB available, %u free pages" +:+ nl,
                              [VNum (free / 1024); VNum nr_free_pages])]).

(** ** The abstract allocator *)

(** The first free frame, and what an allocation does in terms of it. *)
Definition first_free (l : list Z) : option nat := fst <$> list_find (fun v => v = 0) l.
Definition page_of (i : nat) : Z := LOW_MEMORY + Z.of_nat i * 4096.
Definition wf (l : list Z) : Prop := length l = Z.to_nat NR_PAGES.
Definition free_frames (l : list Z) : nat := length (filter (fun v => v = 0) l).

(** The set of pages handed out. *)
Definition allocated (l : list Z) (p : Z) : Prop :=
  exists i v, p = page_of i /\ l !! i = Some v /\ v <> 0.

#[local] Opaque Z.to_nat.

Lemma page_of_inj i j : page_of i = page_of j -> i = j.
Proof. unfold page_of. lia. Qed.

Lemma page_of_u64 i : (i < Z.to_nat NR_PAGES)%nat ->
  u64 (LOW_MEMORY + Z.of_nat i * PAGE_SIZE) = page_of i.
Proof.
  intros H. unfold page_of. change PAGE_SIZE with 4096.
  apply u64_small. rewrite NR_PAGES_val in H. unfold LOW_MEMORY. lia.
Qed.

Lemma first_free_Some l i :
  first_free l = Some i <-> l !! i = Some 0 /\ forall j, (j < i)%nat -> l !! j <> Some 0.
Proof.
  unfold first_free. split.
  - intros ((i' & v) & Hf & ->)%fmap_Some. simpl.
    apply list_find_Some in Hf as (H1 & -> & H2).
    split; [done|]. intros j Hj E. by apply (H2 j 0).
  - intros [H1 H2]. apply fmap_Some. exists (i, 0). split; [|done].
    apply list_find_Some. split; [done|]. split; [done|].
    intros j y Hj Hlt ->. by apply (H2 j).
Qed.

Lemma first_free_None l : first_free l = None <-> forall j, l !! j <> Some 0.
Proof.
  unfold first_free. rewrite fmap_None, list_find_None, Forall_lookup. naive_solver.
Qed.

Lemma get_free_page_scan l k : forall i fuel,
  wf l -> (i + k = Z.to_nat NR_PAGES)%nat -> (k < fuel)%nat ->
  (forall j, (j < i)%nat -> l !! j <> Some 0) ->
  loop fuel get_free_page_body (Z.of_nat i) l =
  match first_free l with
  | Some i => Ret (page_of i, <[i := 1]> l)
  | None => Ret (0, l)
  end.
Proof.
  induction k as [|k IH]; intros i [|fuel] Hwf Hik Hf Hpre; try lia;
    rewrite loop_unfold; unfold mbind, M_bind, get_free_page_body.
  - rewrite (proj2 (Z.ltb_ge _ _)) by lia. unfold mret, M_ret.
    replace (first_free l) with (@None nat); [done|].
    symmetry. apply first_free_None. intros j E. apply (Hpre j); [|done].
    apply lookup_lt_Some in E. unfold wf in *. lia.
  - rewrite (proj2 (Z.ltb_lt _ _)) by lia. unfold mbind, M_bind, get, mret, M_ret.
    rewrite arr_get_nat. destruct (lookup_lt_is_Some_2 l i) as [v Hv]; [unfold wf in *; lia|].
    rewrite Hv. unfold of_option at 1. case (Z.eqb_spec v 0) as [->|Hne].
    + unfold of_option, put. rewrite arr_set_nat by (apply lookup_lt_Some in Hv; done).
      replace (first_free l) with (Some i); [|symmetry; by apply first_free_Some].
      rewrite page_of_u64 by lia. done.
    + replace (Z.of_nat i + 1) with (Z.of_nat (S i)) by lia.
      apply IH; [done|lia|lia|]. intros j Hj.
      destruct (decide (j = i)) as [->|]; [congruence|]. apply Hpre. lia.
Qed.

Lemma get_free_page_eq l : wf l ->
  get_free_page l =
  match first_free l with
  | Some i => Ret (page_of i, <[i := 1]> l)
  | None => Ret (0, l)
  end.
Proof.
  intros Hwf. apply (get_free_page_scan l (Z.to_nat NR_PAGES) 0); [done|lia|lia|lia].
Qed.

Lemma first_free_lt l i : wf l -> first_free l = Some i -> (i < Z.to_nat NR_PAGES)%nat.
Proof. intros Hwf [Hi _]%first_free_Some. apply lookup_lt_Some in Hi. by rewrite <-Hwf. Qed.

Lemma wf_insert l i v : wf l -> wf (<[i := v]> l).
Proof. unfold wf. by rewrite length_insert. Qed.

Lemma page_of_range i : (i < Z.to_nat NR_PAGES)%nat ->
  LOW_MEMORY <= page_of i < LOW_MEMORY + TOTAL_MEMORY.
Proof.
  rewrite NR_PAGES_val. intros H. unfold page_of, TOTAL_MEMORY. lia.
Qed.

Lemma page_of_aligned i : page_of i mod 4096 = 0.
Proof. unfold page_of, LOW_MEMORY. change 0x400000 with (1024 * 4096). by rewrite <-Z.mul_add_distr_r, Z.mod_mul. Qed.

Lemma allocated_insert l i v q :
  (i < length l)%nat ->
  allocated (<[i := v]> l) q <-> (q = page_of i /\ v <> 0) \/ (q <> page_of i /\ allocated l q).
Proof.
  intros Hi. unfold allocated. split.
  - intros (j & w & -> & Hl & Hw). destruct (decide (i = j)) as [->|Hne].
    + rewrite list_lookup_insert_eq in Hl by done. naive_solver.
    + rewrite list_lookup_insert_ne in Hl by done. right. split; [|naive_solver].
      intros E%page_of_inj. congruence.
  - intros [[-> Hv]|[Hne (j & w & -> & Hl & Hw)]].
    + exists i, v. by rewrite list_lookup_insert_eq.
    + exists j, w. rewrite list_lookup_insert_ne; [done|]. intros ->. done.
Qed.

Lemma free_frames_insert l i :
  l !! i = Some 0 -> free_frames l = S (free_frames (<[i := 1]> l)).
Proof.
  intros Hi. unfold free_frames. rewrite insert_take_drop by (by apply lookup_lt_Some in Hi).
  rewrite <-(take_drop_middle l i 0 Hi) at 1.
  rewrite !filter_app, !length_app, !filter_cons. simpl. lia.
Qed.

Lemma first_free_is_Some l : (0 < free_frames l)%nat -> is_Some (first_free l).
Proof.
  intros H. destruct (first_free l) as [i|] eqn:E; [done|]. exfalso.
  unfold free_frames in H. destruct (filter _ l) as [|x k] eqn:F; [simpl in H; lia|].
  assert (x ∈ filter (fun v => v = 0) l) as Hx by (rewrite F; left).
  apply list_elem_of_filter in Hx as [-> [j Hj]%list_elem_of_lookup].
  by apply (proj1 (first_free_None l) E j).
Qed.

(** ** Properties *)

(** C9: get_free_page terminates from every map of the right size and implements
    the abstract allocator: it hands out the lowest page that was not allocated,
    page aligned and inside the managed window, and marks that page and no other;
    when every page is allocated it returns 0 and changes nothing. *)
Theorem get_free_page_refines l :
  wf l ->
  wp get_free_page l (fun p l' =>
    wf l' /\
    ((p <> 0 /\ p mod 4096 = 0 /\ LOW_MEMORY <= p < LOW_MEMORY + TOTAL_MEMORY /\
      ~ allocated l p /\ (forall q, allocated l' q <-> q = p \/ allocated l q) /\
      (forall i, page_of i < p -> allocated l (page_of i)))
     \/ (p = 0 /\ l' = l /\ forall i, (i < Z.to_nat NR_PAGES)%nat -> allocated l (page_of i)))).
Proof.
  intros Hwf. unfold wp. rewrite get_free_page_eq by done.
  destruct (first_free l) as [i|] eqn:E.
  - pose proof (first_free_lt _ _ Hwf E) as Hlt. apply first_free_Some in E as [Hi Hpre].
    assert (i < length l)%nat by (by rewrite Hwf).
    pose proof (page_of_range i Hlt). split; [by apply wf_insert|left].
    split; [unfold LOW_MEMORY in *; lia|]. split; [apply page_of_aligned|]. split; [done|].
    assert (~ allocated l (page_of i)) as Hn.
    { intros (j & v & <-%page_of_inj & Hl & Hv). congruence. }
    split; [done|]. split.
    + intros q. rewrite allocated_insert by done. destruct (decide (q = page_of i)) as [->|]; [|tauto].
      split; [by left|]. intros _. left. split; [done|lia].
    + intros j Hj. assert (j < i)%nat by (unfold page_of in Hj; lia).
      destruct (lookup_lt_is_Some_2 l j) as [v Hv]; [lia|].
      exists j, v. split; [done|]. split; [done|]. intros ->. by apply (Hpre j).
  - split; [done|right]. split; [done|]. split; [done|]. intros i Hi.
    destruct (lookup_lt_is_Some_2 l i) as [v Hv]; [by rewrite Hwf|].
    exists i, v. split; [done|]. split; [done|]. intros ->.
    by apply (proj1 (first_free_None l) E i).
Qed.

Lemma free_page_eq l p :
  wf l -> 0 <= p < 2 ^ 64 ->
  free_page p l =
  if decide (LOW_MEMORY <= p < LOW_MEMORY + TOTAL_MEMORY)
  then Ret (tt, <[Z.to_nat ((p - LOW_MEMORY) / 4096) := 0]> l) else Undef.
Proof.
  intros Hwf Hp. unfold free_page, mbind, M_bind, get, arr_set. rewrite Hwf.
  change PAGE_SIZE with 4096. rewrite NR_PAGES_val.
  unfold LOW_MEMORY, TOTAL_MEMORY in *.
  destruct (decide (0x400000 <= p < 0x400000 + 0x100000 * 512)) as [Hd|Hd].
  - rewrite u64_small by lia. rewrite decide_True; [done|].
    split; [apply Z.div_pos; lia|apply Z.div_lt_upper_bound; lia].
  - rewrite decide_False; [done|]. intros [_ Hlt].
    enough (131072 <= u64 (p - 4194304) / 4096) by lia.
    apply Z.div_le_lower_bound; [lia|]. destruct (decide (p < 4194304)).
    + unfold u64. rewrite <-(Z_mod_plus_full _ 1), Z.mod_small by lia. lia.
    + rewrite u64_small by lia. lia.
Qed.

(** C31: free_page on an address of the managed window releases the page that holds
    the address and no other; on any other address it writes outside [mem_map]
    (undefined), addresses below [LOW_MEMORY] included, where the subtraction
    wraps. *)
Theorem free_page_spec l p :
  wf l -> 0 <= p < 2 ^ 64 ->
  (LOW_MEMORY <= p < LOW_MEMORY + TOTAL_MEMORY ->
   exists l', free_page p l = Ret (tt, l') /\ wf l' /\
     forall q, allocated l' q <-> allocated l q /\ q <> p / 4096 * 4096) /\
  (~ LOW_MEMORY <= p < LOW_MEMORY + TOTAL_MEMORY -> free_page p l = Undef).
Proof.
  intros Hwf Hp. rewrite free_page_eq by done. split; intros Hd; case_decide; try done.
  eexists. split; [done|]. split; [by apply wf_insert|]. intros q.
  set (i := Z.to_nat ((p - LOW_MEMORY) / 4096)).
  assert (page_of i = p / 4096 * 4096 /\ (i < Z.to_nat NR_PAGES)%nat) as [Hi Hlt].
  { rewrite NR_PAGES_val. unfold page_of, i, LOW_MEMORY, TOTAL_MEMORY in *.
    replace (p - 4194304) with (p + (-1024) * 4096) by lia. rewrite Z.div_add by lia.
    assert (1024 <= p / 4096) by (apply Z.div_le_lower_bound; lia).
    assert (p / 4096 < 1024 + 131072) by (apply Z.div_lt_upper_bound; lia). lia. }
  rewrite allocated_insert, Hi by (by rewrite Hwf). tauto.
Qed.

(** Allocating and freeing is a round trip: freeing the page just handed out
    restores the map, so the next allocation hands out the same page. *)
Theorem get_free_page_free l :
  wf l -> (0 < free_frames l)%nat ->
  wp (p ← get_free_page; free_page p;; q ← get_free_page; mret (p, q)) l
     (fun pq l' => pq.1 = pq.2 /\ free_frames l = S (free_frames l')).
Proof.
  intros Hwf [i E]%first_free_is_Some. pose proof (first_free_lt _ _ Hwf E) as Hlt.
  pose proof (proj1 (first_free_Some _ _) E) as [Hi _].
  pose proof (page_of_range i Hlt). assert (i < length l)%nat by (by rewrite Hwf).
  wp_step. unfold wp at 1. rewrite get_free_page_eq, E by done.
  wp_step. unfold wp at 1. unfold LOW_MEMORY, TOTAL_MEMORY in *.
  rewrite free_page_eq by (auto using wf_insert; lia).
  unfold LOW_MEMORY, TOTAL_MEMORY in *. rewrite decide_True by lia.
  replace (Z.to_nat ((page_of i - 4194304) / 4096)) with i.
  2: { unfold page_of, LOW_MEMORY. replace (_ - _) with (Z.of_nat i * 4096) by lia.
       rewrite Z.div_mul by lia. lia. }
  rewrite list_insert_insert_eq, list_insert_id by done.
  wp_step. unfold wp at 1. rewrite get_free_page_eq, E by done. wp_steps.
  split; [done|]. by apply free_frames_insert.
Qed.

(** [n] allocations in a row. *)
Fixpoint get_free_pages (n : nat) : M (list Z) (list Z) :=
  match n with
  | O => mret []
  | S n => p ← get_free_page; ps ← get_free_pages n; mret (p :: ps)
  end.

Definition taken (k : nat) : list Z :=
  replicate k 1 ++ replicate (Z.to_nat NR_PAGES - k) 0.

Lemma wf_taken k : (k <= Z.to_nat NR_PAGES)%nat -> wf (taken k).
Proof. intros H. unfold wf, taken. rewrite length_app, !length_replicate. lia. Qed.

Lemma first_free_taken k : (k < Z.to_nat NR_PAGES)%nat -> first_free (taken k) = Some k.
Proof.
  intros H. apply first_free_Some. unfold taken. split.
  - rewrite lookup_app_r, length_replicate, Nat.sub_diag by (rewrite length_replicate; lia).
    apply lookup_replicate_2. lia.
  - intros j Hj. rewrite lookup_app_l by (rewrite length_replicate; lia).
    rewrite lookup_replicate_2 by lia. congruence.
Qed.

Lemma insert_taken k : (k < Z.to_nat NR_PAGES)%nat -> <[k := 1]> (taken k) = taken (S k).
Proof.
  intros H. unfold taken. rewrite insert_app_r_alt by (rewrite length_replicate; lia).
  rewrite length_replicate, Nat.sub_diag, replicate_S_end, <-app_assoc.
  replace (Z.to_nat NR_PAGES - k)%nat with (S (Z.to_nat NR_PAGES - S k)) by lia. done.
Qed.

Lemma get_free_pages_taken n : forall k, (k + n <= Z.to_nat NR_PAGES)%nat ->
  wp (get_free_pages n) (taken k) (fun ps l' => ps = page_of <$> seq k n /\ l' = taken (k + n)).
Proof.
  induction n as [|n IH]; intros k Hk; cbn [get_free_pages].
  - wp_steps. by rewrite Nat.add_0_r.
  - wp_step. unfold wp at 1.
    rewrite get_free_page_eq, first_free_taken, insert_taken by (try apply wf_taken; lia).
    wp_step. eapply wp_mono; [apply IH; lia|]. intros ps l' [-> ->]. wp_steps.
    split; [done|]. f_equal. lia.
Qed.

(** C34: From boot the allocator hands out consecutive pages from LOW_MEMORY up, all
    distinct. The frames are numbered from LOW_MEMORY but counted as if from 0,
    so the pages from number 130048 on lie at or above TOTAL_MEMORY, outside the
    installed memory. *)
Theorem boot_pages n :
  (n <= Z.to_nat NR_PAGES)%nat ->
  wp (get_free_pages n) mem_map_init (fun ps l' =>
    ps = page_of <$> seq 0 n /\ NoDup ps /\
    forall i p, ps !! i = Some p -> (TOTAL_MEMORY <= p <-> 130048 <= Z.of_nat i)).
Proof.
  intros Hn. replace mem_map_init with (taken 0).
  2: { unfold taken, mem_map_init. by rewrite Nat.sub_0_r. }
  eapply wp_mono; [apply get_free_pages_taken; lia|].
  intros ps l' [-> _]. split; [done|]. split.
  - apply NoDup_fmap_2; [intros i j; apply page_of_inj|apply NoDup_seq].
  - intros i p (j & -> & [-> Hj]%lookup_seq)%list_lookup_fmap_Some.
    unfold page_of, TOTAL_MEMORY, LOW_MEMORY. lia.
Qed.

Lemma boot_pages_witness :
  wp (get_free_pages 2) mem_map_init (fun ps l' =>
    ps = page_of <$> seq 0 2 /\ NoDup ps /\
    forall i p, ps !! i = Some p -> (TOTAL_MEMORY <= p <-> 130048 <= Z.of_nat i)).
Proof. apply boot_pages. rewrite NR_PAGES_val. lia. Defined.

Lemma wf_init : wf mem_map_init.
Proof. unfold wf, mem_map_init. apply length_replicate. Qed.

Lemma free_frames_init : free_frames mem_map_init = Z.to_nat NR_PAGES.
Proof.
  unfold free_frames, mem_map_init.
  induction (Z.to_nat NR_PAGES) as [|n IH]; [done|].
  rewrite replicate_S, filter_cons_True by done. simpl. by rewrite IH.
Qed.

Lemma get_free_page_refines_witness :
  wp get_free_page mem_map_init (fun p l' =>
    wf l' /\
    ((p <> 0 /\ p mod 4096 = 0 /\ LOW_MEMORY <= p < LOW_MEMORY + TOTAL_MEMORY /\
      ~ allocated mem_map_init p /\
      (forall q, allocated l' q <-> q = p \/ allocated mem_map_init q) /\
      (forall i, page_of i < p -> allocated mem_map_init (page_of i)))
     \/ (p = 0 /\ l' = mem_map_init /\
         forall i, (i < Z.to_nat NR_PAGES)%nat -> allocated mem_map_init (page_of i)))).
Proof. apply get_free_page_refines, wf_init. Defined.

Lemma free_page_spec_witness :
  (exists l', free_page 0x401234 mem_map_init = Ret (tt, l') /\ wf l' /\
     forall q, allocated l' q <-> allocated mem_map_init q /\ q <> 0x401234 / 4096 * 4096) /\
  free_page 0x3ff000 mem_map_init = Undef.
Proof.
  split.
  - apply (free_page_spec mem_map_init 0x401234 wf_init); [lia|].
    unfold LOW_MEMORY, TOTAL_MEMORY. lia.
  - apply (free_page_spec mem_map_init 0x3ff000 wf_init); [lia|].
    unfold LOW_MEMORY. lia.
Defined.

Lemma get_free_page_free_witness :
  wp (p ← get_free_page; free_page p;; q ← get_free_page; mret (p, q)) mem_map_init
     (fun pq l' => pq.1 = pq.2 /\ free_frames mem_map_init = S (free_frames l')).
Proof.
  apply get_free_page_free; [apply wf_init|]. rewrite free_frames_init, NR_PAGES_val. lia.
Defined.

Lemma mem_init_loop k : forall fuel start end_ nr log,
  0 <= start -> end_ < 2 ^ 64 - 4096 -> end_ = start + 4096 * Z.of_nat k ->
  0 <= nr -> nr + Z.of_nat k < 2 ^ 64 -> (k < fuel)%nat ->
  loop fuel (mem_init_body end_) (start, nr) log = Ret (nr + Z.of_nat k, log).
Proof.
  induction k as [|k IH]; intros [|fuel] start end_ nr log Hs He Hk Hnr Hb Hf; try lia;
    rewrite loop_unfold; unfold mbind, M_bind, mem_init_body at 1, mret, M_ret.
  - rewrite (proj2 (Z.ltb_ge _ _)) by lia. do 2 f_equal. lia.
  - rewrite (proj2 (Z.ltb_lt _ _)) by lia. change PAGE_SIZE with 4096.
    rewrite !u64_small by lia. rewrite IH by lia. do 2 f_equal. lia.
Qed.

Lemma mem_init_eq start end_ log :
  0 <= start <= end_ -> end_ < 2 ^ 64 - 8192 -> PAGE_BALIGN start <= end_ ->
  let n := (end_ / 4096 * 4096 - PAGE_BALIGN start) / 4096 in
  0 <= n /\
  mem_init start end_ log =
  Ret (tt, log ++ [("Memory: %uKB available, %u free pages" +:+ nl,
                    [VNum (4 * n); VNum n])]).
Proof.
  intros Hs He Hb. unfold mem_init. rewrite land_PAGE_MASK.
  rewrite PAGE_BALIGN_small in * by lia. change PAGE_SIZE with 4096.
  set (a := (start + 4095) / 4096) in *. set (b := end_ / 4096).
  assert (a <= b) by (apply Z.div_le_lower_bound; lia).
  assert (b * 4096 <= end_) by (rewrite Z.mul_comm; apply Z.mul_div_le; lia).
  assert (0 <= a) by (apply Z.div_pos; lia).
  replace (b * 4096 - a * 4096) with ((b - a) * 4096) by lia.
  rewrite Z.div_mul, (u64_small ((b - a) * 4096)) by lia. split; [lia|].
  unfold mbind, M_bind. rewrite (mem_init_loop (Z.to_nat (b - a))).
  2-6: try lia. 2: { rewrite Z.div_mul by lia. lia. }
  unfold modify. repeat f_equal; [|lia].
  change 4096 with (4 * 1024). rewrite Z.mul_assoc, Z.div_mul; lia.
Qed.

(** mem_init terminates and reports exactly the whole pages between the two
    addresses: the count of its loop and the number of free kilobytes agree. *)
Theorem mem_init_spec start end_ log :
  0 <= start <= end_ -> end_ < 2 ^ 64 - 8192 -> PAGE_BALIGN start <= end_ ->
  let n := (end_ / 4096 * 4096 - PAGE_BALIGN start) / 4096 in
  0 <= n /\
  mem_init start end_ log =
  Ret (tt, log ++ [("Memory: %uKB available, %u free pages" +:+ nl,
                    [VNum (4 * n); VNum n])]).
Proof. apply mem_init_eq. Qed.

Lemma mem_init_spec_witness :
  0 <= (TOTAL_MEMORY / 4096 * 4096 - PAGE_BALIGN 0x90010) / 4096 /\
  mem_init 0x90010 TOTAL_MEMORY [] =
  Ret (tt, [("Memory: %uKB available, %u free pages" +:+ nl,
            [VNum (4 * ((TOTAL_MEMORY / 4096 * 4096 - PAGE_BALIGN 0x90010) / 4096));
             VNum ((TOTAL_MEMORY / 4096 * 4096 - PAGE_BALIGN 0x90010) / 4096)])]).
Proof.
  apply (mem_init_spec 0x90010 TOTAL_MEMORY []); unfold TOTAL_MEMORY; try lia.
  vm_compute. congruence.
Defined.

End PageAlloc.
