(* ===== verification/Pgtable.v ===== *)
(** * Page-table formats

    [asm/pgtable_hwdef.h], [asm/pgtable_types.h], [asm/pgtable_prot.h],
    [asm/pgtable.h] and [asm/memory.h]: the four table levels, the descriptor
    bits and the macros that index and build tables. A [pgd_t], [pud_t], [pmd_t]
    or [pte_t] is a struct around one [u64]; it is modelled by that value, so
    that [pgd_val] and [__pgd] are the identity. *)

From S2P Require Import Prelude Base Fields Mem.

Module Pgtable.

(** ** pgtable_hwdef.h *)

Definition PGDIR_SHIFT : Z := 39.
Definition PGDIR_SIZE : Z := BIT PGDIR_SHIFT.
Definition PGDIR_MASK : Z := not64 (PGDIR_SIZE - 1).
Definition PTRS_PER_PGD : Z := Z.shiftl 1 (VA_BITS - PGDIR_SHIFT).

Definition PUD_SHIFT : Z := 30.
Definition PUD_SIZE : Z := BIT PUD_SHIFT.
Definition PUD_MASK : Z := not64 (PUD_SIZE - 1).
Definition PTRS_PER_PUD : Z := Z.shiftl 1 (PGDIR_SHIFT - PUD_SHIFT).

Definition PMD_SHIFT : Z := 21.
Definition PMD_SIZE : Z := BIT PMD_SHIFT.
Definition PMD_MASK : Z := not64 (PMD_SIZE - 1).
Definition PTRS_PER_PMD : Z := Z.shiftl 1 (PUD_SHIFT - PMD_SHIFT).

Definition PTE_SHIFT : Z := 12.
Definition PTE_SIZE : Z := BIT PTE_SHIFT.
Definition PTE_MASK : Z := not64 (PTE_SIZE - 1).
Definition PTRS_PER_PTE : Z := Z.shiftl 1 (PMD_SHIFT - PTE_SHIFT).

Definition SECTION_SHIFT : Z := PMD_SHIFT.
Definition SECTION_SIZE : Z := BIT SECTION_SHIFT.
Definition SECTION_MASK : Z := not64 (SECTION_SIZE - 1).

Definition PUD_TYPE_TABLE : Z := Z.shiftl 3 0.
Definition PUD_TABLE_BIT : Z := Z.shiftl 1 1.
Definition PUD_TYPE_MASK : Z := Z.shiftl 3 0.
Definition PUD_TYPE_SECT : Z := Z.shiftl 1 0.

Definition PMD_TYPE_MASK : Z := Z.shiftl 3 0.
Definition PMD_TYPE_FAULT : Z := Z.shiftl 0 0.
Definition PMD_TYPE_TABLE : Z := Z.shiftl 3 0.
Definition PMD_TYPE_SECT : Z := Z.shiftl 1 0.
Definition PMD_TABLE_BIT : Z := Z.shiftl 1 1.
Definition PMD_SECT_VALID : Z := Z.shiftl 1 0.
Definition PMD_SECT_USER : Z := Z.shiftl 1 6.
Definition PMD_SECT_RDONLY : Z := Z.shiftl 1 7.
Definition PMD_SECT_S : Z := Z.shiftl 3 8.
Definition PMD_SECT_AF : Z := Z.shiftl 1 10.
Definition PMD_SECT_NG : Z := Z.shiftl 1 11.
Definition PMD_SECT_CONT : Z := Z.shiftl 1 52.
Definition PMD_SECT_PXN : Z := Z.shiftl 1 53.
Definition PMD_SECT_UXN : Z := Z.shiftl 1 54.
Definition PMD_ATTRINDX (t : Z) : Z := Z.shiftl t 2.
Definition PMD_ATTRINDX_MASK : Z := Z.shiftl 7 2.

Definition PTE_TYPE_MASK : Z := Z.shiftl 3 0.
Definition PTE_TYPE_FAULT : Z := Z.shiftl 0 0.
Definition PTE_TYPE_PAGE : Z := Z.shiftl 3 0.
Definition PTE_TABLE_BIT : Z := Z.shiftl 1 1.
Definition PTE_USER : Z := Z.shiftl 1 6.
Definition PTE_RDONLY : Z := Z.shiftl 1 7.
Definition PTE_SHARED : Z := Z.shiftl 3 8.
Definition PTE_AF : Z := Z.shiftl 1 10.
Definition PTE_NG : Z := Z.shiftl 1 11.
Definition PTE_DBM : Z := Z.shiftl 1 51.
Definition PTE_CONT : Z := Z.shiftl 1 52.
Definition PTE_PXN : Z := Z.shiftl 1 53.
Definition PTE_UXN : Z := Z.shiftl 1 54.
Definition PTE_HYP_XN : Z := Z.shiftl 1 54.

Definition PTE_ADDR_LOW : Z := Z.shiftl (Z.shiftl 1 (48 - PAGE_SHIFT) - 1) PAGE_SHIFT.
Definition PTE_ADDR_MASK : Z := PTE_ADDR_LOW.
Definition PTE_ATTRINDX (t : Z) : Z := Z.shiftl t 2.
Definition PTE_ATTRINDX_MASK : Z := Z.shiftl 7 2.

(** The fields of [TCR_EL1]. *)
Definition TCR_T0SZ_OFFSET : Z := 0.
Definition TCR_T1SZ_OFFSET : Z := 16.
Definition TCR_T0SZ (x : Z) : Z := Z.shiftl (64 - x) TCR_T0SZ_OFFSET.
Definition TCR_T1SZ (x : Z) : Z := Z.shiftl (64 - x) TCR_T1SZ_OFFSET.
Definition TCR_TxSZ (x : Z) : Z := Z.lor (TCR_T0SZ x) (TCR_T1SZ x).
Definition TCR_TxSZ_WIDTH : Z := 6.
Definition TCR_T0SZ_MASK : Z := Z.shiftl (Z.shiftl 1 TCR_TxSZ_WIDTH - 1) TCR_T0SZ_OFFSET.
Definition TCR_EPD0_SHIFT : Z := 7.
Definition TCR_EPD0_MASK : Z := Z.shiftl 1 TCR_EPD0_SHIFT.
Definition TCR_IRGN0_SHIFT : Z := 8.
Definition TCR_IRGN0_MASK : Z := Z.shiftl 3 TCR_IRGN0_SHIFT.
Definition TCR_IRGN0_NC : Z := Z.shiftl 0 TCR_IRGN0_SHIFT.
Definition TCR_IRGN0_WBWA : Z := Z.shiftl 1 TCR_IRGN0_SHIFT.
Definition TCR_IRGN0_WT : Z := Z.shiftl 2 TCR_IRGN0_SHIFT.
Definition TCR_IRGN0_WBnWA : Z := Z.shiftl 3 TCR_IRGN0_SHIFT.
Definition TCR_EPD1_SHIFT : Z := 23.
Definition TCR_EPD1_MASK : Z := Z.shiftl 1 TCR_EPD1_SHIFT.
Definition TCR_IRGN1_SHIFT : Z := 24.
Definition TCR_IRGN1_MASK : Z := Z.shiftl 3 TCR_IRGN1_SHIFT.
Definition TCR_IRGN1_NC : Z := Z.shiftl 0 TCR_IRGN1_SHIFT.
Definition TCR_IRGN1_WBWA : Z := Z.shiftl 1 TCR_IRGN1_SHIFT.
Definition TCR_IRGN1_WT : Z := Z.shiftl 2 TCR_IRGN1_SHIFT.
Definition TCR_IRGN1_WBnWA : Z := Z.shiftl 3 TCR_IRGN1_SHIFT.
Definition TCR_IRGN_NC : Z := Z.lor TCR_IRGN0_NC TCR_IRGN1_NC.
Definition TCR_IRGN_WBWA : Z := Z.lor TCR_IRGN0_WBWA TCR_IRGN1_WBWA.
Definition TCR_IRGN_WT : Z := Z.lor TCR_IRGN0_WT TCR_IRGN1_WT.
Definition TCR_IRGN_WBnWA : Z := Z.lor TCR_IRGN0_WBnWA TCR_IRGN1_WBnWA.
Definition TCR_IRGN_MASK : Z := Z.lor TCR_IRGN0_MASK TCR_IRGN1_MASK.
Definition TCR_ORGN0_SHIFT : Z := 10.
Definition TCR_ORGN0_MASK : Z := Z.shiftl 3 TCR_ORGN0_SHIFT.
Definition TCR_ORGN0_NC : Z := Z.shiftl 0 TCR_ORGN0_SHIFT.
Definition TCR_ORGN0_WBWA : Z := Z.shiftl 1 TCR_ORGN0_SHIFT.
Definition TCR_ORGN0_WT : Z := Z.shiftl 2 TCR_ORGN0_SHIFT.
Definition TCR_ORGN0_WBnWA : Z := Z.shiftl 3 TCR_ORGN0_SHIFT.
Definition TCR_ORGN1_SHIFT : Z := 26.
Definition TCR_ORGN1_MASK : Z := Z.shiftl 3 TCR_ORGN1_SHIFT.
Definition TCR_ORGN1_NC : Z := Z.shiftl 0 TCR_ORGN1_SHIFT.
Definition TCR_ORGN1_WBWA : Z := Z.shiftl 1 TCR_ORGN1_SHIFT.
Definition TCR_ORGN1_WT : Z := Z.shiftl 2 TCR_ORGN1_SHIFT.
Definition TCR_ORGN1_WBnWA : Z := Z.shiftl 3 TCR_ORGN1_SHIFT.
Definition TCR_ORGN_NC : Z := Z.lor TCR_ORGN0_NC TCR_ORGN1_NC.
Definition TCR_ORGN_WBWA : Z := Z.lor TCR_ORGN0_WBWA TCR_ORGN1_WBWA.
Definition TCR_ORGN_WT : Z := Z.lor TCR_ORGN0_WT TCR_ORGN1_WT.
Definition TCR_ORGN_WBnWA : Z := Z.lor TCR_ORGN0_WBnWA TCR_ORGN1_WBnWA.
Definition TCR_ORGN_MASK : Z := Z.lor TCR_ORGN0_MASK TCR_ORGN1_MASK.
Definition TCR_SH0_SHIFT : Z := 12.
Definition TCR_SH0_MASK : Z := Z.shiftl 3 TCR_SH0_SHIFT.
Definition TCR_SH0_INNER : Z := Z.shiftl 3 TCR_SH0_SHIFT.
Definition TCR_SH1_SHIFT : Z := 28.
Definition TCR_SH1_MASK : Z := Z.shiftl 3 TCR_SH1_SHIFT.
Definition TCR_SH1_INNER : Z := Z.shiftl 3 TCR_SH1_SHIFT.
Definition TCR_SHARED : Z := Z.lor TCR_SH0_INNER TCR_SH1_INNER.
Definition TCR_TG0_SHIFT : Z := 14.
Definition TCR_TG0_MASK : Z := Z.shiftl 3 TCR_TG0_SHIFT.
Definition TCR_TG0_4K : Z := Z.shiftl 0 TCR_TG0_SHIFT.
Definition TCR_TG0_64K : Z := Z.shiftl 1 TCR_TG0_SHIFT.
Definition TCR_TG0_16K : Z := Z.shiftl 2 TCR_TG0_SHIFT.
Definition TCR_TG1_SHIFT : Z := 30.
Definition TCR_TG1_MASK : Z := Z.shiftl 3 TCR_TG1_SHIFT.
Definition TCR_TG1_16K : Z := Z.shiftl 1 TCR_TG1_SHIFT.
Definition TCR_TG1_4K : Z := Z.shiftl 2 TCR_TG1_SHIFT.
Definition TCR_TG1_64K : Z := Z.shiftl 3 TCR_TG1_SHIFT.
Definition TCR_IPS_SHIFT : Z := 32.
Definition TCR_IPS_MASK : Z := Z.shiftl 7 TCR_IPS_SHIFT.
Definition TCR_A1 : Z := Z.shiftl 1 22.
Definition TCR_ASID16 : Z := Z.shiftl 1 36.
Definition TCR_TBI0 : Z := Z.shiftl 1 37.
Definition TCR_TBI1 : Z := Z.shiftl 1 38.
Definition TCR_HA : Z := Z.shiftl 1 39.
Definition TCR_HD : Z := Z.shiftl 1 40.
Definition TCR_NFD1 : Z := Z.shiftl 1 54.
Definition TCR_TG_FLAGS : Z := Z.lor TCR_TG0_4K TCR_TG1_4K.
Definition TCR_KASLR_FLAGS : Z := 0.
Definition TCR_KASAN_FLAGS : Z := 0.
Definition TCR_SMP_FLAGS : Z := TCR_SHARED.
Definition TCR_CACHE_FLAGS : Z := Z.lor TCR_IRGN_WBWA TCR_ORGN_WBWA.

(** The fields of [ID_AA64MMFR0_EL1]. *)
Definition ID_AA64MMFR0_TGRAN4_SHIFT : Z := 28.
Definition ID_AA64MMFR0_TGRAN64_SHIFT : Z := 24.
Definition ID_AA64MMFR0_TGRAN16_SHIFT : Z := 20.
Definition ID_AA64MMFR0_BIGENDEL0_SHIFT : Z := 16.
Definition ID_AA64MMFR0_SNSMEM_SHIFT : Z := 12.
Definition ID_AA64MMFR0_BIGENDEL_SHIFT : Z := 8.
Definition ID_AA64MMFR0_ASID_SHIFT : Z := 4.
Definition ID_AA64MMFR0_PARANGE_SHIFT : Z := 0.
Definition ID_AA64MMFR0_TGRAN4_NI : Z := 0xf.
Definition ID_AA64MMFR0_TGRAN4_SUPPORTED : Z := 0x0.
Definition ID_AA64MMFR0_TGRAN64_NI : Z := 0xf.
Definition ID_AA64MMFR0_TGRAN64_SUPPORTED : Z := 0x0.
Definition ID_AA64MMFR0_TGRAN16_NI : Z := 0x0.
Definition ID_AA64MMFR0_TGRAN16_SUPPORTED : Z := 0x1.
Definition ID_AA64MMFR0_PARANGE_48 : Z := 0x5.
Definition ID_AA64MMFR0_PARANGE_52 : Z := 0x6.

(** ** memory.h *)

Definition MT_DEVICE_nGnRnE : Z := 0.
Definition MT_DEVICE_nGnRE : Z := 1.
Definition MT_DEVICE_GRE : Z := 2.
Definition MT_NORMAL_NC : Z := 3.
Definition MT_NORMAL : Z := 4.
Definition MT_NORMAL_WT : Z := 5.
Definition MAIR (attr mt : Z) : Z := u64 (Z.shiftl attr (mt * 8)).

(** ** pgtable_prot.h *)

Definition PTE_VALID : Z := Z.shiftl 1 0.
Definition PTE_WRITE : Z := PTE_DBM.
Definition PTE_DIRTY : Z := Z.shiftl 1 55.
Definition PROT_DEFAULT : Z := Z.lor (Z.lor PTE_TYPE_PAGE PTE_AF) PTE_SHARED.
Definition prot_with (mt : Z) : Z :=
  Z.lor (Z.lor (Z.lor (Z.lor (Z.lor PROT_DEFAULT PTE_PXN) PTE_UXN) PTE_DIRTY) PTE_WRITE)
        (PTE_ATTRINDX mt).
Definition PROT_DEVICE_nGnRnE : Z := prot_with MT_DEVICE_nGnRnE.
Definition PROT_DEVICE_nGnRE : Z := prot_with MT_DEVICE_nGnRE.
Definition PROT_NORMAL_NC : Z := prot_with MT_NORMAL_NC.
Definition PROT_NORMAL_WT : Z := prot_with MT_NORMAL_WT.
Definition PROT_NORMAL : Z := prot_with MT_NORMAL.
Definition PAGE_KERNEL : Z := PROT_NORMAL.
Definition PAGE_KERNEL_RO : Z := Z.lor (Z.land PROT_NORMAL (not64 PTE_WRITE)) PTE_RDONLY.
Definition PAGE_KERNNEL_ROX : Z :=
  Z.lor (Z.land PROT_NORMAL (not64 (Z.lor PTE_WRITE PTE_PXN))) PTE_RDONLY.
Definition PAGE_KERNEL_EXEC : Z := Z.land PROT_NORMAL (not64 PTE_PXN).

(** ** pgtable.h *)

Definition pgd_index (addr : Z) : Z := Z.land (Z.shiftr addr PGDIR_SHIFT) (PTRS_PER_PGD - 1).
Definition pgd_offset_raw (pgd addr : Z) : Z := u64 (pgd + pgd_index addr * 8).

(** The three [*_addr_end] macros differ in the size and mask only. *)
Definition addr_end (SIZE MASK addr end_ : Z) : Z :=
  let __boundary := Z.land (u64 (addr + SIZE)) MASK in
  if u64 (__boundary - 1) <? u64 (end_ - 1) then __boundary else end_.
Definition pgd_addr_end (addr end_ : Z) : Z := addr_end PGDIR_SIZE PGDIR_MASK addr end_.
Definition pud_addr_end (addr end_ : Z) : Z := addr_end PUD_SIZE PUD_MASK addr end_.
Definition pmd_addr_end (addr end_ : Z) : Z := addr_end PMD_SIZE PMD_MASK addr end_.

Definition pgd_none (pgd : Z) : bool := pgd =? 0.
Definition pud_none (pud : Z) : bool := pud =? 0.
Definition pmd_none (pmd : Z) : bool := pmd =? 0.
Definition pmd_sect (pmd : Z) : bool := Z.land pmd PMD_TYPE_MASK =? PMD_TYPE_SECT.
Definition pud_sect (pud : Z) : bool := Z.land pud PUD_TYPE_MASK =? PUD_TYPE_SECT.

Definition pgd_page_paddr (pgd : Z) : Z := Z.land pgd PTE_ADDR_MASK.
Definition pud_index (addr : Z) : Z := Z.land (Z.shiftr addr PUD_SHIFT) (PTRS_PER_PUD - 1).
Definition pud_offset_phys (pgd addr : Z) : Z := u64 (pgd_page_paddr pgd + pud_index addr * 8).

Definition pud_page_paddr (pud : Z) : Z := Z.land pud PTE_ADDR_MASK.
Definition pmd_index (addr : Z) : Z := Z.land (Z.shiftr addr PMD_SHIFT) (PTRS_PER_PMD - 1).
Definition pmd_offset_phys (pud addr : Z) : Z := u64 (pud_page_paddr pud + pmd_index addr * 8).
Definition pfn_pmd (pfn prot : Z) : Z := Z.lor (u64 (Z.shiftl pfn PMD_SHIFT)) prot.

Definition pmd_page_paddr (pmd : Z) : Z := Z.land pmd PTE_ADDR_MASK.
Definition pte_index (addr : Z) : Z := Z.land (Z.shiftr addr PAGE_SHIFT) (PTRS_PER_PTE - 1).
Definition pte_offset_phys (pmd addr : Z) : Z := u64 (pmd_page_paddr pmd + pte_index addr * 8).
Definition pfn_pte (pfn prot : Z) : Z := Z.lor (u64 (Z.shiftl pfn PAGE_SHIFT)) prot.

Definition mk_sect_prot (prot : Z) : Z := Z.land prot (not64 PTE_TABLE_BIT).

(** ** Layouts of descriptors and registers *)

(** A page descriptor: type, memory attribute index, the unused NS bit, access permissions, shareability,
    access flag, nG, address, three reserved bits, then the upper attributes; bit 55 is left to software. *)
Definition pte_fields : list Fields.field :=
  [Fields.Fld PTE_TYPE_MASK 0 2; Fields.Fld PTE_ATTRINDX_MASK 2 3; Fields.Fld (Z.shiftl 1 5) 5 1; Fields.Fld PTE_USER 6 1;
   Fields.Fld PTE_RDONLY 7 1; Fields.Fld PTE_SHARED 8 2; Fields.Fld PTE_AF 10 1; Fields.Fld PTE_NG 11 1;
   Fields.Fld PTE_ADDR_MASK PAGE_SHIFT 36; Fields.Fld (Z.shiftl 7 48) 48 3; Fields.Fld PTE_DBM 51 1; Fields.Fld PTE_CONT 52 1;
   Fields.Fld PTE_PXN 53 1; Fields.Fld PTE_UXN 54 1; Fields.Fld PTE_DIRTY 55 1; Fields.Fld (Z.shiftl 0xff 56) 56 8].

Lemma pte_tiles : Fields.tiles 0 pte_fields 64 = true.
Proof. reflexivity. Qed.

(** The attributes of a section are where those of a page are, so that one protection serves both. *)
Lemma section_attributes :
  [PMD_SECT_USER; PMD_SECT_RDONLY; PMD_SECT_S; PMD_SECT_AF; PMD_SECT_NG; PMD_SECT_CONT; PMD_SECT_PXN; PMD_SECT_UXN;
   PMD_ATTRINDX_MASK; PMD_TYPE_MASK; PMD_TABLE_BIT] =
  [PTE_USER; PTE_RDONLY; PTE_SHARED; PTE_AF; PTE_NG; PTE_CONT; PTE_PXN; PTE_UXN;
   PTE_ATTRINDX_MASK; PTE_TYPE_MASK; PTE_TABLE_BIT] /\
  (forall t, PMD_ATTRINDX t = PTE_ATTRINDX t) /\
  Z.land PTE_TYPE_PAGE (not64 PTE_TABLE_BIT) = Z.lor PMD_TYPE_SECT PMD_SECT_VALID.
Proof. done. Qed.

(** [TCR_EL1] up to HD. Bits 6 and 35 are reserved. *)
Definition tcr_fields : list Fields.field :=
  [Fields.Fld TCR_T0SZ_MASK TCR_T0SZ_OFFSET TCR_TxSZ_WIDTH; Fields.Fld (Z.shiftl 1 6) 6 1;
   Fields.Fld TCR_EPD0_MASK TCR_EPD0_SHIFT 1; Fields.Fld TCR_IRGN0_MASK TCR_IRGN0_SHIFT 2;
   Fields.Fld TCR_ORGN0_MASK TCR_ORGN0_SHIFT 2; Fields.Fld TCR_SH0_MASK TCR_SH0_SHIFT 2;
   Fields.Fld TCR_TG0_MASK TCR_TG0_SHIFT 2; Fields.Fld (Z.shiftl TCR_T0SZ_MASK TCR_T1SZ_OFFSET) TCR_T1SZ_OFFSET TCR_TxSZ_WIDTH;
   Fields.Fld TCR_A1 22 1; Fields.Fld TCR_EPD1_MASK TCR_EPD1_SHIFT 1; Fields.Fld TCR_IRGN1_MASK TCR_IRGN1_SHIFT 2;
   Fields.Fld TCR_ORGN1_MASK TCR_ORGN1_SHIFT 2; Fields.Fld TCR_SH1_MASK TCR_SH1_SHIFT 2;
   Fields.Fld TCR_TG1_MASK TCR_TG1_SHIFT 2; Fields.Fld TCR_IPS_MASK TCR_IPS_SHIFT 3; Fields.Fld (Z.shiftl 1 35) 35 1;
   Fields.Fld TCR_ASID16 36 1; Fields.Fld TCR_TBI0 37 1; Fields.Fld TCR_TBI1 38 1; Fields.Fld TCR_HA 39 1;
   Fields.Fld TCR_HD 40 1].

Lemma tcr_tiles : Fields.tiles 0 tcr_fields 41 = true.
Proof. reflexivity. Qed.

(** Each choice for a field stays within it, for the table walks of both halves. *)
Lemma tcr_choices :
  Forall (fun v => Z.land v TCR_IRGN_MASK = v) [TCR_IRGN_NC; TCR_IRGN_WBWA; TCR_IRGN_WT; TCR_IRGN_WBnWA] /\
  Forall (fun v => Z.land v TCR_ORGN_MASK = v) [TCR_ORGN_NC; TCR_ORGN_WBWA; TCR_ORGN_WT; TCR_ORGN_WBnWA] /\
  Forall (fun v => Z.land v TCR_TG0_MASK = v) [TCR_TG0_4K; TCR_TG0_16K; TCR_TG0_64K] /\
  Forall (fun v => Z.land v TCR_TG1_MASK = v) [TCR_TG1_4K; TCR_TG1_16K; TCR_TG1_64K] /\
  Z.land TCR_SMP_FLAGS (Z.lor TCR_SH0_MASK TCR_SH1_MASK) = TCR_SMP_FLAGS /\
  Z.land TCR_CACHE_FLAGS (Z.lor TCR_IRGN_MASK TCR_ORGN_MASK) = TCR_CACHE_FLAGS.
Proof. repeat split; repeat constructor. Qed.

(** The low half of [ID_AA64MMFR0_EL1]: eight fields of four bits. *)
Definition mmfr0_fields : list Fields.field :=
  (fun s => Fields.Fld (Z.shiftl 0xf s) s 4) <$>
  [ID_AA64MMFR0_PARANGE_SHIFT; ID_AA64MMFR0_ASID_SHIFT; ID_AA64MMFR0_BIGENDEL_SHIFT; ID_AA64MMFR0_SNSMEM_SHIFT;
   ID_AA64MMFR0_BIGENDEL0_SHIFT; ID_AA64MMFR0_TGRAN16_SHIFT; ID_AA64MMFR0_TGRAN64_SHIFT; ID_AA64MMFR0_TGRAN4_SHIFT].

Lemma mmfr0_tiles : Fields.tiles 0 mmfr0_fields 32 = true.
Proof. reflexivity. Qed.

End Pgtable.
Export Pgtable.
