(* ===== verification/Mmu.v ===== *)
(** * Building the page tables and turning the MMU on

    [arch/arm64/core/mmu.c]: the table builder, the boot mappings and the system
    register writes. The tables live in RAM; their pages come from a callback,
    [early_pgtable_alloc] on the page allocator. *)

From S2P Require Import Prelude Base Mem PageAlloc Pgtable.

Module Mmu.

(** ** State *)

(** A system instruction or register write, as the [asm] statements make them. *)
Inductive sysev : Type :=
  | MSR (reg : string) (v : Z)
  | SYS (insn : string).

(** [trace] is newest first; [mmfr0] is what [mrs .., ID_AA64MMFR0_EL1] reads. *)
Record mach : Type := Mach {
  ram : mem;
  frames : list Z;
  trace : list sysev;
  mmfr0 : Z;
  klog : list call;
}.

Definition with_ram (s : mach) (m : mem) : mach :=
  Mach m (frames s) (trace s) (mmfr0 s) (klog s).
Definition emit (e : sysev) : M mach unit :=
  modify (fun s => Mach (ram s) (frames s) (e :: trace s) (mmfr0 s) (klog s)).
Definition ram_lens : lens mach mem := Lens ram (fun m s => with_ram s m).
Definition frames_lens : lens mach (list Z) :=
  Lens frames (fun l s => Mach (ram s) l (trace s) (mmfr0 s) (klog s)).
Definition printk (fmt : string) (args : list varg) : M mach unit :=
  modify (fun s => Mach (ram s) (frames s) (trace s) (mmfr0 s) (klog s ++ [(fmt, args)])).

Definition read (a : Z) : M mach Z := gets (fun s => load64 (ram s) a).
Definition write (a v : Z) : M mach unit := modify (fun s => with_ram s (store64 (ram s) a v)).

(** [set_pgd], [set_pud], [set_pmd] and [set_pte]: the store and its barrier. *)
Definition set_entry (p v : Z) : M mach unit := write p v;; emit (SYS "dsb ishst").

(** ** The table builder *)

Definition NO_BLOCK_MAPPINGS : Z := BIT 0.
Definition NO_CONT_MAPPINGS : Z := BIT 1.

Definition early_pgtable_alloc : M mach Z :=
  phys ← zoom frames_lens PageAlloc.get_free_page;
  zoom ram_lens (memset phys 0 PAGE_SIZE);;
  mret phys.

Definition pmd_set_section (pmdp phys prot : Z) : M mach unit :=
  let sect_prot := Z.lor PMD_TYPE_SECT (mk_sect_prot prot) in
  let new_pmd := pfn_pmd (Z.shiftr phys PMD_SHIFT) sect_prot in
  set_entry pmdp new_pmd.

Section Builder.
(** The callback [u64 ( *alloc_pgtable)(void)]. *)
Variable alloc_pgtable : M mach Z.

Definition alloc_init_pte_body (end_ prot : Z) (st : Z * Z * Z) : M mach (Z * Z * Z + unit) :=
  let '(addr, phys, ptep) := st in
  set_entry ptep (pfn_pte (Z.shiftr phys PAGE_SHIFT) prot);;
  let phys := u64 (phys + PAGE_SIZE) in
  let ptep := u64 (ptep + 8) in
  let addr := u64 (addr + PAGE_SIZE) in
  mret (if addr =? end_ then inr tt else inl (addr, phys, ptep)).

Definition alloc_init_pte (pmdp addr end_ phys prot flags : Z) : M mach unit :=
  pmd ← read pmdp;
  (if pmd_none pmd then
     pte_phys ← alloc_pgtable;
     set_entry pmdp (Z.lor pte_phys PMD_TYPE_TABLE)
   else mret tt);;
  pmd ← read pmdp;
  let ptep := pte_offset_phys pmd addr in
  loop (S (Z.to_nat (u64 (end_ - addr) / PAGE_SIZE)))
       (alloc_init_pte_body end_ prot) (addr, phys, ptep).

Definition alloc_init_pmd_body (end_ prot flags : Z) (st : Z * Z * Z) : M mach (Z * Z * Z + unit) :=
  let '(addr, phys, pmdp) := st in
  let next := pmd_addr_end addr end_ in
  (if (Z.land (Z.lor (Z.lor addr next) phys) (not64 SECTION_MASK) =? 0)
      && (Z.land flags NO_BLOCK_MAPPINGS =? 0)
   then pmd_set_section pmdp phys prot
   else alloc_init_pte pmdp addr next phys prot flags);;
  let phys := u64 (phys + u64 (next - addr)) in
  let pmdp := u64 (pmdp + 8) in
  let addr := next in
  mret (if addr =? end_ then inr tt else inl (addr, phys, pmdp)).

Definition alloc_init_pmd (pudp addr end_ phys prot flags : Z) : M mach unit :=
  pud ← read pudp;
  (if pud_none pud then
     pmd_phys ← alloc_pgtable;
     set_entry pudp (Z.lor pmd_phys PUD_TYPE_TABLE)
   else mret tt);;
  pud ← read pudp;
  let pmdp := pmd_offset_phys pud addr in
  loop (S (S (Z.to_nat (u64 (end_ - addr) / PMD_SIZE))))
       (alloc_init_pmd_body end_ prot flags) (addr, phys, pmdp).

Definition alloc_init_pud_body (end_ prot flags : Z) (st : Z * Z * Z) : M mach (Z * Z * Z + unit) :=
  let '(addr, phys, pudp) := st in
  let next := pud_addr_end addr end_ in
  alloc_init_pmd pudp addr next phys prot flags;;
  let phys := u64 (phys + u64 (next - addr)) in
  let pudp := u64 (pudp + 8) in
  let addr := next in
  mret (if addr =? end_ then inr tt else inl (addr, phys, pudp)).

Definition alloc_init_pud (pgdp addr end_ phys prot flags : Z) : M mach unit :=
  pgd ← read pgdp;
  (if pgd_none pgd then
     pud_phys ← alloc_pgtable;
     set_entry pgdp (Z.lor pud_phys PUD_TYPE_TABLE)
   else mret tt);;
  pgd ← read pgdp;
  let pudp := pud_offset_phys pgd addr in
  loop (S (S (Z.to_nat (u64 (end_ - addr) / PUD_SIZE))))
       (alloc_init_pud_body end_ prot flags) (addr, phys, pudp).

Definition create_pgd_mapping_body (end_ prot flags : Z) (st : Z * Z * Z) : M mach (Z * Z * Z + unit) :=
  let '(addr, phys, pgdp) := st in
  let next := pgd_addr_end addr end_ in
  alloc_init_pud pgdp addr next phys prot flags;;
  let phys := u64 (phys + u64 (next - addr)) in
  let pgdp := u64 (pgdp + 8) in
  let addr := next in
  mret (if addr =? end_ then inr tt else inl (addr, phys, pgdp)).

Definition __create_pgd_mapping (pgdir phys virt size prot flags : Z) : M mach unit :=
  let pgdp := pgd_offset_raw pgdir virt in
  let phys := Z.land phys PAGE_MASK in
  let addr := Z.land virt PAGE_MASK in
  let end_ := PAGE_BALIGN (u64 (virt + size)) in
  loop (S (S (Z.to_nat (u64 (end_ - addr) / PGDIR_SIZE))))
       (create_pgd_mapping_body end_ prot flags) (addr, phys, pgdp).

End Builder.

(** ** The boot mappings *)

(** Addresses the linker script [vmyios.lds.S] defines. *)
Record image : Type := Image {
  idmap_pg_dir : Z;
  _text_boot : Z;
  _etext : Z;
}.

Definition create_identical_mapping (im : image) : M mach unit :=
  let start := _text_boot im in
  let end_ := _etext im in
  __create_pgd_mapping early_pgtable_alloc (idmap_pg_dir im) start start
    (u64 (end_ - start)) PAGE_KERNNEL_ROX 0;;
  let start := PAGE_BALIGN (_etext im) in
  let end_ := TOTAL_MEMORY in
  __create_pgd_mapping early_pgtable_alloc (idmap_pg_dir im) start start
    (u64 (end_ - start)) PAGE_KERNEL 0.

Definition create_mmio_mapping (im : image) : M mach unit :=
  __create_pgd_mapping early_pgtable_alloc (idmap_pg_dir im) PBASE PBASE
    DEVICE_SIZE PROT_DEVICE_nGnRnE 0.

(** ** System registers *)

Definition write_sysreg (val : Z) (reg : string) : M mach unit := emit (MSR reg val).

Definition SCTLR_ELx_M : Z := Z.shiftl 1 0.

Definition cpu_init : M mach unit :=
  emit (SYS "tlbi vmalle1");;
  emit (SYS "dsb nsh");;
  write_sysreg (Z.shiftl 3 20) "cpacr_el1";;
  write_sysreg (Z.shiftl 1 12) "mdscr_el1";;
  let mair := Z.lor (Z.lor (Z.lor (Z.lor (Z.lor
    (MAIR 0x00 MT_DEVICE_nGnRnE) (MAIR 0x04 MT_DEVICE_nGnRE))
    (MAIR 0x0c MT_DEVICE_GRE)) (MAIR 0x44 MT_NORMAL_NC))
    (MAIR 0xff MT_NORMAL)) (MAIR 0xbb MT_NORMAL_WT) in
  write_sysreg mair "mair_el1";;
  let tcr := Z.lor (TCR_TxSZ VA_BITS) TCR_TG_FLAGS in
  tmp ← gets mmfr0;
  let parang := Z.land tmp 0xf in
  let parang := if ID_AA64MMFR0_PARANGE_48 <? parang then ID_AA64MMFR0_PARANGE_48 else parang in
  let tcr := Z.lor tcr (u64 (Z.shiftl parang TCR_IPS_SHIFT)) in
  write_sysreg tcr "tcr_el1".

Definition enable_mmu (im : image) : M mach Z :=
  tmp ← gets mmfr0;
  let tgran4 := Z.land (Z.shiftr tmp ID_AA64MMFR0_TGRAN4_SHIFT) 0xf in
  if negb (tgran4 =? ID_AA64MMFR0_TGRAN4_SUPPORTED) then mret (-1)
  else
    write_sysreg (idmap_pg_dir im) "ttbr0_el1";;
    emit (SYS "isb");;
    write_sysreg SCTLR_ELx_M "sctlr_el1";;
    emit (SYS "isb");;
    emit (SYS "ic iallu");;
    emit (SYS "dsb nsh");;
    emit (SYS "isb");;
    mret 0.

Definition paging_init (im : image) : M mach unit :=
  zoom ram_lens (memset (idmap_pg_dir im) 0 PAGE_SIZE);;
  create_identical_mapping im;;
  create_mmio_mapping im;;
  cpu_init;;
  _ ← enable_mmu im;
  printk ("enable mmu done" +:+ nl) [].

End Mmu.
