(* ===== verification/PtWalk.v ===== *)
(** * What a page table means

    The stage-1 walk of the VMSAv8-64 translation regime with a 4 KiB granule and
    48-bit addresses, the configuration [cpu_init] programs, reading descriptors
    with the bit layout of [pgtable_hwdef.h]; and the shape invariant under which
    a set of pages in RAM is a tree of tables. *)

From S2P Require Import Prelude Base Mem Pgtable.

Module Walk.

(** ** The walk *)

(** Levels are counted from the leaves: 3 is the PGD, 0 the PTE level. *)
Definition shift (n : nat) : Z := 12 + 9 * Z.of_nat n.
Definition idx (n : nat) (va : Z) : Z := (va / 2 ^ shift n) mod 512.

Definition attrs (e : Z) : Z := Z.land e (not64 (Z.lor PTE_ADDR_MASK 3)).
Definition out_addr (n : nat) (e va : Z) : Z :=
  Z.land e PTE_ADDR_MASK / 2 ^ shift n * 2 ^ shift n + va mod 2 ^ shift n.

(** The result of meeting descriptor [e] at level [n]: the level of the leaf, the
    output address and the attribute bits, or a fault. Type 3 is a table (a page
    at level 0), type 1 a block, which levels 1 and 2 allow. *)
Fixpoint walk_entry (m : mem) (n : nat) (e va : Z) : option (nat * (Z * Z)) :=
  match n with
  | O => if e mod 4 =? 3 then Some (O, (out_addr 0 e va, attrs e)) else None
  | S n' =>
      if e mod 4 =? 3 then
        walk_entry m n' (load64 m (Z.land e PTE_ADDR_MASK + 8 * idx n' va)) va
      else if (e mod 4 =? 1) && bool_decide (n' < 2)%nat
      then Some (n, (out_addr n e va, attrs e))
      else None
  end.

Definition walk (m : mem) (root va : Z) : option (nat * (Z * Z)) :=
  walk_entry m 3 (load64 m (root + 8 * idx 3 va)) va.

(** The output address of [va] and its attributes, or a fault. *)
Definition translate (m : mem) (root va : Z) : option (Z * Z) := snd <$> walk m root va.

(** [va] is inside a section (a level-1 block). *)
Definition sect (m : mem) (root va : Z) : Prop := exists x, walk m root va = Some (1%nat, x).

(** The table at level [k] on the path of [va], from the level-[n] table [t]. *)
Fixpoint table_from (m : mem) (n : nat) (t va : Z) (k : nat) : option Z :=
  if decide (n = k) then Some t
  else match n with
       | O => None
       | S n' =>
           let e := load64 m (t + 8 * idx n va) in
           if e mod 4 =? 3 then table_from m n' (Z.land e PTE_ADDR_MASK) va k else None
       end.

Definition table (m : mem) (root : Z) (k : nat) (va : Z) : option Z :=
  table_from m 3 root va k.

(** ** The shape of a table tree *)

(** Every table page with its level and the block of addresses it serves. As a
    page has one entry here, no table is linked from two places. *)
Abbreviation owners := (gmap Z (nat * Z)).

Definition entry_ok (own : owners) (n : nat) (pre i e : Z) : Prop :=
  match n with
  | O => True
  | S n' => e = 0
            \/ (exists q, e = q + 3 /\ own !! q = Some (n', pre * 512 + i))
            \/ (n' = O /\ e mod 4 = 1)
  end.

Record pt_ok (own : owners) (m : mem) (root : Z) : Prop := PtOk {
  pt_root : own !! root = Some (3%nat, 0);
  pt_page : forall p n pre, own !! p = Some (n, pre) -> p mod 4096 = 0 /\ 0 <= p /\ p + 4096 <= 2 ^ 48;
  pt_entry : forall p n pre i, own !! p = Some (n, pre) -> 0 <= i < 512 ->
    entry_ok own n pre i (load64 m (p + 8 * i));
}.

(** ** Arithmetic of indices and masks *)

Lemma shift_S n : shift (S n) = shift n + 9.
Proof. unfold shift. lia. Qed.

Lemma shift_pos n : 0 <= shift n.
Proof. unfold shift. lia. Qed.

Lemma idx_range n va : 0 <= idx n va < 512.
Proof. apply Z.mod_pos_bound. lia. Qed.

Lemma pow_shift_S n : 2 ^ shift (S n) = 2 ^ shift n * 512.
Proof. rewrite shift_S, Z.pow_add_r by (unfold shift; lia). done. Qed.

Lemma div_shift_S n va : va / 2 ^ shift (S n) = va / 2 ^ shift n / 512.
Proof. rewrite pow_shift_S, Z.div_div by (unfold shift; lia). done. Qed.

(** The block number splits into the table's block and the index in it. *)
Lemma block_split n va : va / 2 ^ shift n = va / 2 ^ shift (S n) * 512 + idx n va.
Proof.
  unfold idx. rewrite div_shift_S. pose proof (Z.div_mod (va / 2 ^ shift n) 512). lia.
Qed.

Lemma land_addr_mask e : Z.land e PTE_ADDR_MASK = (e / 2 ^ 12) mod 2 ^ 36 * 2 ^ 12.
Proof.
  rewrite <-Z.land_ones, <-Z.shiftl_mul_pow2, <-Z.shiftr_div_pow2 by lia.
  change PTE_ADDR_MASK with (Z.shiftl (Z.ones 36) 12).
  apply Z.bits_inj'. intros i Hi. rewrite Z.land_spec.
  destruct (decide (i < 12)).
  - rewrite !Z.shiftl_spec_low by lia. apply andb_false_r.
  - rewrite !Z.shiftl_spec, Z.land_spec, Z.shiftr_spec by lia.
    do 2 f_equal. lia.
Qed.

Lemma land_addr_mask_table q :
  q mod 4096 = 0 -> 0 <= q -> q + 4096 <= 2 ^ 48 -> Z.land (q + 3) PTE_ADDR_MASK = q.
Proof.
  intros Hm H0 Hq. rewrite land_addr_mask. change (2 ^ 12) with 4096.
  pose proof (Z.div_mod q 4096). assert (q = q / 4096 * 4096) as E by lia.
  replace ((q + 3) / 4096) with (q / 4096).
  - rewrite Z.mod_small; [lia|]. split; [apply Z.div_pos; lia|].
    apply Z.div_lt_upper_bound; lia.
  - rewrite E at 2. rewrite Z.div_add_l by lia. change (3 / 4096) with 0. lia.
Qed.

Lemma table_desc_type q : q mod 4096 = 0 -> (q + 3) mod 4 = 3.
Proof.
  intros H. pose proof (Z.div_mod q 4096).
  replace (q + 3) with (3 + (q / 4096 * 1024) * 4) by lia. by rewrite Z_mod_plus_full.
Qed.

Lemma slot_inj p p' i i' :
  p mod 4096 = 0 -> p' mod 4096 = 0 -> 0 <= i < 512 -> 0 <= i' < 512 ->
  p + 8 * i = p' + 8 * i' -> p = p' /\ i = i'.
Proof.
  intros Hp Hp' Hi Hi' E.
  pose proof (Z.div_mod p 4096). pose proof (Z.div_mod p' 4096). lia.
Qed.

(** Two distinct slots do not overlap. *)
Lemma slot_disjoint p p' i i' :
  p mod 4096 = 0 -> p' mod 4096 = 0 -> p + 8 * i <> p' + 8 * i' ->
  p + 8 * i + 8 <= p' + 8 * i' \/ p' + 8 * i' + 8 <= p + 8 * i.
Proof.
  intros Hp Hp' Hne. pose proof (Z.div_mod p 4096). pose proof (Z.div_mod p' 4096). lia.
Qed.

Lemma table_from_below m n t va k : (n < k)%nat -> table_from m n t va k = None.
Proof.
  revert t. induction n as [|n IH]; intros t Hn; cbn [table_from];
    rewrite decide_False by lia; [done|]. case_match; [apply IH; lia|done].
Qed.

Lemma table_same_block m n t va va' k :
  va / 2 ^ shift (S k) = va' / 2 ^ shift (S k) ->
  table_from m n t va k = table_from m n t va' k.
Proof.
  intros E. revert t. induction n as [|n IH]; intros t; simpl.
  - done.
  - case_decide as Hd; [done|].
    destruct (decide (k < S n)%nat) as [Hk|Hk].
    + assert (idx (S n) va = idx (S n) va') as ->; [|case_match; [apply IH|done]].
      unfold idx. f_equal.
      replace (shift (S n)) with (shift (S k) + (shift (S n) - shift (S k))) by lia.
      rewrite Z.pow_add_r by (unfold shift; lia).
      rewrite <-!Z.div_div by (unfold shift; lia). by rewrite E.
    + repeat case_match; by rewrite ?table_from_below by lia.
Qed.

(** ** Facts about well-shaped trees *)

Lemma walk_table m k e va :
  e mod 4 = 3 ->
  walk_entry m (S k) e va =
  walk_entry m k (load64 m (Z.land e PTE_ADDR_MASK + 8 * idx k va)) va.
Proof. intros E. simpl. by rewrite E. Qed.

Lemma walk_zero m n va : walk_entry m n 0 va = None.
Proof. destruct n; done. Qed.

(** The walk of [va] is decided by the descriptor at any table on its path. *)
Lemma walk_from_table m n t va k t' :
  table_from m n t va k = Some t' ->
  walk_entry m n (load64 m (t + 8 * idx n va)) va =
  walk_entry m k (load64 m (t' + 8 * idx k va)) va.
Proof.
  revert t. induction n as [|n IH]; intros t H; cbn [table_from] in H.
  - case_decide; [|done]. by simplify_eq.
  - case_decide; [by simplify_eq|]. case_match eqn:E; [|done].
    apply Z.eqb_eq in E. rewrite walk_table by done. by apply IH.
Qed.

Lemma walk_at_table m root va k t :
  table m root k va = Some t ->
  walk m root va = walk_entry m k (load64 m (t + 8 * idx k va)) va.
Proof. apply walk_from_table. Qed.

Lemma table_from_step m n t va k t' :
  table_from m n t va (S k) = Some t' ->
  load64 m (t' + 8 * idx (S k) va) mod 4 = 3 ->
  table_from m n t va k = Some (Z.land (load64 m (t' + 8 * idx (S k) va)) PTE_ADDR_MASK).
Proof.
  revert t. induction n as [|n IH]; intros t Ht He; cbn [table_from] in *.
  - case_decide; [lia|done].
  - destruct (decide (S n = S k)) as [Ek|Ek].
    + simplify_eq. rewrite decide_False, He by lia. simpl.
      destruct k; cbn [table_from]; by rewrite decide_True.
    + case_match eqn:E; [|done]. destruct (decide (S n = k)) as [<-|Ek']; [|by apply IH].
      by rewrite table_from_below in Ht by lia.
Qed.

Section Shape.
Context {own : owners} {m : mem} {root : Z} (Hpt : pt_ok own m root).

(** What the level-[S n] descriptor on the path of [va] can be. *)
Lemma pt_step p n va :
  own !! p = Some (S n, va / 2 ^ shift (S (S n))) ->
  let e := load64 m (p + 8 * idx (S n) va) in
  e = 0
  \/ (exists q, e = q + 3 /\ own !! q = Some (n, va / 2 ^ shift (S n)) /\
        Z.land e PTE_ADDR_MASK = q /\ e mod 4 = 3)
  \/ (n = O /\ e mod 4 = 1).
Proof.
  intros Hp e. pose proof (pt_entry _ _ _ Hpt _ _ _ (idx (S n) va) Hp (idx_range _ _)) as H.
  cbn [entry_ok] in H. rewrite <-block_split in H.
  destruct H as [H|[(q & Hq & Ho)|H]]; [by left| |by right; right].
  right; left. exists q. destruct (pt_page _ _ _ Hpt _ _ _ Ho) as (Ha & H0 & H1).
  unfold e. rewrite Hq. split; [done|]. split; [done|].
  split; [by apply land_addr_mask_table|by apply table_desc_type].
Qed.

Lemma own_table_from n p va k t :
  own !! p = Some (n, va / 2 ^ shift (S n)) ->
  table_from m n p va k = Some t -> own !! t = Some (k, va / 2 ^ shift (S k)).
Proof.
  revert p. induction n as [|n IH]; intros p Hp Ht; cbn [table_from] in Ht.
  - case_decide; by simplify_eq.
  - case_decide; [by simplify_eq|]. case_match eqn:E; [|done].
    apply Z.eqb_eq in E.
    destruct (pt_step p n va Hp) as [E0|[(q & Hq & Ho & Hl & _)|[_ E0]]].
    + by rewrite E0 in E.
    + rewrite Hl in Ht. by apply (IH q).
    + by rewrite E0 in E.
Qed.

Lemma own_table va k t : 0 <= va < 2 ^ 48 ->
  table m root k va = Some t -> own !! t = Some (k, va / 2 ^ shift (S k)).
Proof.
  intros Hva. apply own_table_from. rewrite (pt_root _ _ _ Hpt).
  change (shift 4) with 48. by rewrite Z.div_small.
Qed.

Lemma own_aligned p n pre : own !! p = Some (n, pre) -> p mod 4096 = 0.
Proof. intros H. by apply (pt_page _ _ _ Hpt) in H as [? _]. Qed.

(** A slot is on the path of two addresses only at the same level and block. *)
Lemma slot_unique p p' n n' va va' :
  own !! p = Some (n, va / 2 ^ shift (S n)) ->
  own !! p' = Some (n', va' / 2 ^ shift (S n')) ->
  p + 8 * idx n va = p' + 8 * idx n' va' ->
  n = n' /\ va / 2 ^ shift n = va' / 2 ^ shift n.
Proof.
  intros Hp Hp' E.
  destruct (slot_inj p p' (idx n va) (idx n' va')) as [-> Hi];
    eauto using own_aligned, idx_range.
  rewrite Hp in Hp'. injection Hp' as -> Hpre. split; [done|].
  rewrite (block_split n' va), (block_split n' va'). congruence.
Qed.

(** ** One store into a table *)

Context {t0 va0 v : Z} {k : nat}.
Context (Ht0 : own !! t0 = Some (k, va0 / 2 ^ shift (S k))).

Abbreviation m' := (store64 m (t0 + 8 * idx k va0) v).

Lemma load_other p n va :
  own !! p = Some (n, va / 2 ^ shift (S n)) ->
  ~ (n = k /\ va / 2 ^ shift n = va0 / 2 ^ shift n) ->
  load64 m' (p + 8 * idx n va) = load64 m (p + 8 * idx n va).
Proof.
  intros Hp Hne. apply load64_store64_ne, slot_disjoint; eauto using own_aligned.
  intros E. apply Hne. symmetry in E. by apply (slot_unique p t0).
Qed.

Lemma walk_store_other n p va :
  own !! p = Some (n, va / 2 ^ shift (S n)) ->
  va / 2 ^ shift k <> va0 / 2 ^ shift k ->
  walk_entry m' n (load64 m' (p + 8 * idx n va)) va =
  walk_entry m n (load64 m (p + 8 * idx n va)) va.
Proof.
  revert p. induction n as [|n IH]; intros p Hp Hne.
  - rewrite load_other by (done || (intros [Ek Ev]; congruence)). done.
  - rewrite load_other by (done || (intros [Ek Ev]; congruence)).
    destruct (pt_step p n va Hp) as [E|[(q & Hq & Ho & Hl & Hm)|[_ E]]].
    + rewrite E. done.
    + rewrite !walk_table, Hl by done. by apply IH.
    + cbn [walk_entry]. by rewrite E.
Qed.

Lemma table_store n p va k' :
  own !! p = Some (n, va / 2 ^ shift (S n)) -> (k <= k')%nat ->
  table_from m' n p va k' = table_from m n p va k'.
Proof.
  revert p. induction n as [|n IH]; intros p Hp Hk; cbn [table_from]; [done|].
  case_decide; [done|]. destruct (decide (k = S n)) as [->|Hne].
  - repeat case_match; by rewrite ?table_from_below by lia.
  - rewrite load_other by (done || (intros [Ek Ev]; congruence)).
    destruct (pt_step p n va Hp) as [E|[(q & Hq & Ho & Hl & Hm)|[_ E]]].
    + by rewrite E.
    + rewrite Hm, Hl. simpl. by apply IH.
    + by rewrite E.
Qed.

Lemma pt_ok_store : 0 <= v < 2 ^ 64 ->
  entry_ok own k (va0 / 2 ^ shift (S k)) (idx k va0) v -> pt_ok own m' root.
Proof.
  intros Hv He. split; [apply Hpt|apply Hpt|]. intros p n pre i Hp Hi.
  destruct (decide (p + 8 * i = t0 + 8 * idx k va0)) as [E|E].
  - rewrite E, load64_store64_eq, u64_small by done.
    destruct (slot_inj p t0 i (idx k va0)) as [-> ->]; eauto using own_aligned, idx_range.
    rewrite Ht0 in Hp. by injection Hp as <- <-.
  - rewrite load64_store64_ne; [by apply Hpt|].
    apply slot_disjoint; eauto using own_aligned.
Qed.

End Shape.

(** A fresh zeroed page becomes a table that nothing links to yet. *)
Lemma pt_ok_extend own m m' root q n pre :
  pt_ok own m root -> own !! q = None ->
  q mod 4096 = 0 -> 0 <= q -> q + 4096 <= 2 ^ 48 ->
  (forall b, q <= b -> b + 8 <= q + 4096 -> load64 m' b = 0) ->
  (forall b, b + 8 <= q \/ q + 4096 <= b -> load64 m' b = load64 m b) ->
  pt_ok (<[q := (n, pre)]> own) m' root.
Proof.
  intros Hpt Hq Ha H0 H1 Hz Hf.
  assert (forall p x, own !! p = Some x -> p <> q) as Hne by naive_solver.
  split.
  - rewrite lookup_insert_ne; [apply Hpt|]. intros ->.
    by rewrite (pt_root _ _ _ Hpt) in Hq.
  - intros p n' pre' [[<- [= <- <-]]|[_ Hp]]%lookup_insert_Some; [done|].
    by apply (pt_page _ _ _ Hpt) in Hp.
  - intros p n' pre' i [[<- [= <- <-]]|[Hpq Hp]]%lookup_insert_Some Hi.
    + rewrite Hz by lia. destruct n; [done|by left].
    + pose proof (pt_page _ _ _ Hpt _ _ _ Hp) as (Hpa & _).
      rewrite Hf.
      2: { pose proof (Z.div_mod p 4096). pose proof (Z.div_mod q 4096). lia. }
      pose proof (pt_entry _ _ _ Hpt _ _ _ i Hp Hi) as He.
      destruct n' as [|n']; [done|]. destruct He as [He|[(r & Er & Hr)|He]]; [by left| |].
      * right; left. exists r. split; [done|]. rewrite lookup_insert_ne; [done|].
        intros ->. by apply (Hne r (n', pre' * 512 + i)).
      * by right; right.
Qed.

(** Walks do not see a page that is not a table. *)
Lemma walk_frame own m m' root n p va :
  pt_ok own m root -> own !! p = Some (n, va / 2 ^ shift (S n)) ->
  (forall p' x i, own !! p' = Some x -> 0 <= i < 512 ->
     load64 m' (p' + 8 * i) = load64 m (p' + 8 * i)) ->
  walk_entry m' n (load64 m' (p + 8 * idx n va)) va =
  walk_entry m n (load64 m (p + 8 * idx n va)) va /\
  forall k, table_from m' n p va k = table_from m n p va k.
Proof.
  intros Hpt Hp Hf. revert p Hp. induction n as [|n IH]; intros p Hp;
    [by rewrite (Hf _ _ (idx 0 va) Hp (idx_range _ va))|].
  pose proof (Hf _ _ (idx (S n) va) Hp (idx_range _ va)) as E; rewrite E.
  destruct (pt_step Hpt p n va Hp) as [E0|[(q & Hq & Ho & Hl & Hm)|[_ E0]]].
  - rewrite E0. split; [done|]. intros k. cbn [table_from]. by rewrite E, E0.
  - destruct (IH q Ho) as [IH1 IH2]. rewrite !walk_table, Hl by done. split; [done|].
    intros k. cbn [table_from]. case_decide; [done|]. by rewrite E, Hm, Hl, IH2.
  - split; [cbn [walk_entry]; by rewrite E0|].
    intros k. cbn [table_from]. by rewrite E, E0.
Qed.

End Walk.
