(* ===== verification/MmuMap.v ===== *)
(** * The table builder maps what it is asked to map

    The builder of [mmu.c] against the walk of [PtWalk], for any page-table
    allocator that keeps the promises of [TableAlloc]. *)

From S2P Require Import Prelude Base Mem PageAlloc Pgtable Mmu PtWalk.
Import Mmu Walk.

Module MmuMap.

(** ** What the builder relies on *)

(** Besides memory and frames, table building only issues store barriers. *)
Definition quiet (s s' : mach) : Prop :=
  mmfr0 s' = mmfr0 s /\ klog s' = klog s /\
  exists n, trace s' = replicate n (SYS "dsb ishst") ++ trace s.

#[global] Instance quiet_refl : Reflexive quiet.
Proof. intros s. split; [done|]. split; [done|]. by exists O. Qed.
#[global] Instance quiet_trans : Transitive quiet.
Proof.
  intros s1 s2 s3 (A1 & B1 & n1 & C1) (A2 & B2 & n2 & C2).
  split; [congruence|]. split; [congruence|]. exists (n2 + n1)%nat.
  by rewrite C2, C1, app_assoc, <-replicate_add.
Qed.

Lemma quiet_barrier s s' :
  mmfr0 s' = mmfr0 s -> klog s' = klog s -> trace s' = SYS "dsb ishst" :: trace s -> quiet s s'.
Proof. intros A B C. split; [done|]. split; [done|]. by exists 1%nat. Qed.

(** The promises of the [alloc_pgtable] callback, over the allocator state: while
    pages are available it returns one that was free, aligned and zeroed, and
    changes no other memory. *)
Class TableAlloc (alloc : M mach Z) : Type := {
  ta_inv : list Z -> Prop;
  ta_avail : list Z -> nat;
  ta_free : list Z -> Z -> Prop;
  ta_alloc : forall s n,
    ta_inv (frames s) -> ta_avail (frames s) = S n ->
    wp alloc s (fun p s' =>
      ta_inv (frames s') /\ ta_avail (frames s') = n /\
      ta_free (frames s) p /\
      (forall q, ta_free (frames s') q -> ta_free (frames s) q /\ q <> p) /\
      p mod 4096 = 0 /\ 0 <= p /\ p + 4096 <= 2 ^ 48 /\
      (forall b, p <= b -> b + 8 <= p + 4096 -> load64 (ram s') b = 0) /\
      (forall b, b + 8 <= p \/ p + 4096 <= b -> load64 (ram s') b = load64 (ram s) b) /\
      quiet s s');
}.

(** Protection bits the builder can be given: a page descriptor without address. *)
Definition prot_ok (prot : Z) : Prop :=
  0 <= prot < 2 ^ 64 /\ Z.land prot PTE_ADDR_MASK = 0 /\ prot mod 4 = 3.

(** ** Descriptors *)

Lemma mod4_land e : e mod 4 = Z.land e 3.
Proof. symmetry. change 3 with (2 ^ 2 - 1). by rewrite land_ones_mod. Qed.

Lemma addr_mask_id phys :
  0 <= phys < 2 ^ 48 -> phys mod 4096 = 0 -> Z.land phys PTE_ADDR_MASK = phys.
Proof.
  intros Hp Hm. rewrite land_addr_mask. change (2 ^ 12) with 4096.
  pose proof (Z.div_mod phys 4096). rewrite Z.mod_small; [lia|].
  split; [apply Z.div_pos; lia|apply Z.div_lt_upper_bound; lia].
Qed.

Lemma desc_or phys bits :
  0 <= phys < 2 ^ 48 -> phys mod 4096 = 0 -> Z.land bits PTE_ADDR_MASK = 0 ->
  Z.land (Z.lor phys bits) PTE_ADDR_MASK = phys /\
  Z.lor phys bits mod 4 = bits mod 4 /\ attrs (Z.lor phys bits) = attrs bits.
Proof.
  intros Hp Hm Hb. pose proof (addr_mask_id phys Hp Hm) as Ha.
  rewrite !mod4_land. unfold attrs. rewrite !Z.land_lor_distr_l, Ha, Hb, Z.lor_0_r.
  assert (forall x, Z.land PTE_ADDR_MASK x = 0 -> Z.land phys x = 0) as H0.
  { intros x Hx. by rewrite <-Ha, <-Z.land_assoc, Hx, Z.land_0_r. }
  rewrite !H0 by done. done.
Qed.

Lemma desc_range phys bits :
  0 <= phys < 2 ^ 48 -> 0 <= bits < 2 ^ 64 -> 0 <= Z.lor phys bits < 2 ^ 64.
Proof. intros. apply lor_range; lia. Qed.

(** ** State and effect *)

Section Map.
Context (alloc : M mach Z) {TA : TableAlloc alloc} (root : Z).

Definition avail (s : mach) : Z := Z.of_nat (ta_avail (frames s)).

(** The tables in RAM form a tree under [root] and none of their pages is free. *)
Definition ok (s : mach) : Prop :=
  ta_inv (frames s) /\
  exists own, pt_ok own (ram s) root /\ forall p x, own !! p = Some x -> ~ ta_free (frames s) p.

(** What an operation on the tables does: addresses of [lo, hi) now translate
    linearly from [phys] with the attributes of [prot], every other address is
    translated as before, no new section appears outside, tables of level [k] and
    above stay in place, at most [cost] pages were taken, and nothing else happens
    than barriers. *)
Record effect (k : nat) (s s' : mach) (lo hi phys prot cost : Z) : Prop := Effect {
  eff_ok : ok s';
  eff_map : forall va, 0 <= va < 2 ^ 48 ->
    translate (ram s') root va =
    if decide (lo <= va < hi) then Some (phys + (va - lo), attrs prot)
    else translate (ram s) root va;
  eff_table : forall k' va, 0 <= va < 2 ^ 48 -> (k <= k')%nat ->
    table (ram s') root k' va = table (ram s) root k' va;
  eff_sect : forall va, 0 <= va < 2 ^ 48 -> ~ lo <= va < hi ->
    sect (ram s') root va -> sect (ram s) root va;
  eff_cost : avail s <= avail s' + cost;
  eff_quiet : quiet s s';
}.

Lemma effect_trans k s s1 s2 lo mid hi phys prot c1 c2 :
  lo <= mid <= hi ->
  effect k s s1 lo mid phys prot c1 ->
  effect k s1 s2 mid hi (phys + (mid - lo)) prot c2 ->
  effect k s s2 lo hi phys prot (c1 + c2).
Proof.
  intros Hm [O1 M1 T1 S1 C1 Q1] [O2 M2 T2 S2 C2 Q2]. split; [done| | | |lia|by etransitivity].
  - intros va Hva. rewrite M2 by done. destruct (decide (mid <= va < hi)).
    + rewrite decide_True by lia. do 2 f_equal. lia.
    + rewrite M1 by done. repeat case_decide; (done || lia).
  - intros k' va Hva Hk. rewrite T2, T1 by done. done.
  - intros va Hva Hn Hs. apply S1; [done|lia|]. apply S2; [done|lia|done].
Qed.

Lemma effect_weaken k k' s s' lo hi phys prot c c' :
  (k <= k')%nat -> c <= c' ->
  effect k s s' lo hi phys prot c -> effect k' s s' lo hi phys prot c'.
Proof.
  intros Hk Hc [O1 M1 T1 S1 C1 Q1]. split; [done|done| |done|lia|done].
  intros k'' va Hva Hk'. apply T1; [done|lia].
Qed.

(** An operation after which every walk has the same result. *)
Lemma effect_walk_same k s s' lo phys prot c :
  ok s' ->
  (forall va, 0 <= va < 2 ^ 48 -> walk (ram s') root va = walk (ram s) root va) ->
  (forall k' va, 0 <= va < 2 ^ 48 -> (k <= k')%nat ->
     table (ram s') root k' va = table (ram s) root k' va) ->
  avail s <= avail s' + c -> quiet s s' ->
  effect k s s' lo lo phys prot c.
Proof.
  intros Ho Hw Ht Hc Hq. split; [done| |done| |done|done].
  - intros va Hva. rewrite decide_False by lia. unfold translate. by rewrite Hw.
  - intros va Hva _ [x Hx]. exists x. by rewrite <-Hw.
Qed.

(** ** The [*_none] branches: linking a fresh table *)

Definition populate (a : Z) : M mach Z :=
  e ← read a;
  (if e =? 0 then p ← alloc; set_entry a (Z.lor p 3) else mret tt);;
  read a.

Lemma root_own own m va : pt_ok own m root -> 0 <= va < 2 ^ 48 ->
  own !! root = Some (3%nat, va / 2 ^ shift 4).
Proof.
  intros Hpt Hva. rewrite (pt_root _ _ _ Hpt). change (shift 4) with 48.
  by rewrite Z.div_small.
Qed.

Lemma link_table k t p va0 own m :
  pt_ok own m root -> 0 <= va0 < 2 ^ 48 ->
  own !! t = Some (S k, va0 / 2 ^ shift (S (S k))) ->
  own !! p = Some (k, va0 / 2 ^ shift (S k)) ->
  table m root (S k) va0 = Some t ->
  load64 m (t + 8 * idx (S k) va0) = 0 ->
  (forall i, 0 <= i < 512 -> load64 m (p + 8 * i) = 0) ->
  let m' := store64 m (t + 8 * idx (S k) va0) (p + 3) in
  pt_ok own m' root /\
  (forall va, 0 <= va < 2 ^ 48 -> walk m' root va = walk m root va) /\
  (forall k' va, 0 <= va < 2 ^ 48 -> (S k <= k')%nat ->
     table m' root k' va = table m root k' va) /\
  table m' root k va0 = Some p.
Proof.
  intros Hpt Hva0 Ht Hp Htab Hz Hpz m'.
  destruct (pt_page _ _ _ Hpt _ _ _ Hp) as (Hpa & Hp0 & Hp1).
  assert (pt_ok own m' root) as Hok.
  { apply (pt_ok_store Hpt Ht); [lia|]. right; left. exists p.
    split; [done|]. by rewrite <-block_split. }
  assert (forall k' va, 0 <= va < 2 ^ 48 -> (S k <= k')%nat ->
     table m' root k' va = table m root k' va) as Htabs.
  { intros k' va Hva Hk. apply (table_store Hpt Ht); [|done]. by eapply root_own. }
  assert (load64 m' (t + 8 * idx (S k) va0) = p + 3) as Hl.
  { unfold m'. rewrite load64_store64_eq, u64_small by lia. done. }
  pose proof (table_desc_type p Hpa) as Hty.
  split; [done|]. split; [|split; [done|]].
  - intros va Hva. destruct (decide (va / 2 ^ shift (S k) = va0 / 2 ^ shift (S k))) as [E|E].
    + assert (idx (S k) va = idx (S k) va0) as Ei by (unfold idx; by rewrite E).
      assert (table m root (S k) va = Some t) as Hta.
      { rewrite <-Htab. apply table_same_block. rewrite !(div_shift_S (S k)), E. done. }
      rewrite (walk_at_table m root va (S k) t Hta), Ei, Hz, walk_zero.
      rewrite <-Htabs in Hta by (done || lia).
      rewrite (walk_at_table m' root va (S k) t Hta), Ei, Hl, walk_table by done.
      rewrite land_addr_mask_table by done.
      pose proof (load_other Hpt (v := p + 3) Ht p k va) as Hlo.
      rewrite E in Hlo. unfold m'. rewrite Hlo; [|done|lia].
      rewrite Hpz by apply idx_range. apply walk_zero.
    + unfold walk. apply (walk_store_other Hpt Ht); [by eapply root_own|done].
  - rewrite <-(land_addr_mask_table p), <-Hl by done.
    apply table_from_step; [|by rewrite Hl]. fold (table m' root (S k) va0).
    by rewrite Htabs by (done || lia).
Qed.

(** A page taken from the allocator joins the tree without disturbing it. *)
Lemma fresh_table k own s s1 p va0 :
  pt_ok own (ram s) root -> own !! p = None ->
  p mod 4096 = 0 -> 0 <= p -> p + 4096 <= 2 ^ 48 ->
  (forall b, p <= b -> b + 8 <= p + 4096 -> load64 (ram s1) b = 0) ->
  (forall b, b + 8 <= p \/ p + 4096 <= b -> load64 (ram s1) b = load64 (ram s) b) ->
  pt_ok (<[p := (k, va0 / 2 ^ shift (S k))]> own) (ram s1) root /\
  (forall p' x i, own !! p' = Some x -> 0 <= i < 512 ->
     load64 (ram s1) (p' + 8 * i) = load64 (ram s) (p' + 8 * i)) /\
  (forall va, 0 <= va < 2 ^ 48 -> walk (ram s1) root va = walk (ram s) root va /\
     forall k', table (ram s1) root k' va = table (ram s) root k' va).
Proof.
  intros Hpt Hpn Hpa Hp0 Hp1 Hz Hf.
  assert (forall p' x i, own !! p' = Some x -> 0 <= i < 512 ->
      load64 (ram s1) (p' + 8 * i) = load64 (ram s) (p' + 8 * i)) as Hsame.
  { intros p' [n' pre'] i Hp' Hi. apply Hf.
    destruct (pt_page _ _ _ Hpt _ _ _ Hp') as (Ha' & _).
    assert (p' <> p) by (intros ->; congruence).
    pose proof (Z.div_mod p 4096). pose proof (Z.div_mod p' 4096). lia. }
  split; [eapply pt_ok_extend; eauto|]. split; [done|].
  intros va Hva'. eapply walk_frame; [done| |done]. by eapply root_own.
Qed.

(** After the branch the slot holds a table, whether it was there or not. *)
Lemma populate_spec k s t va0 lo phys prot :
  ok s -> 0 <= va0 < 2 ^ 48 -> table (ram s) root (S k) va0 = Some t ->
  ~ sect (ram s) root va0 -> 1 <= avail s ->
  wp (populate (t + 8 * idx (S k) va0)) s (fun e s' =>
    effect (S k) s s' lo lo phys prot 1 /\
    table (ram s') root k va0 = Some (Z.land e PTE_ADDR_MASK) /\
    0 <= Z.land e PTE_ADDR_MASK /\ Z.land e PTE_ADDR_MASK + 4096 <= 2 ^ 48).
Proof.
  intros [Hinv (own & Hpt & Hown)] Hva Htab Hns Hav.
  pose proof (own_table Hpt va0 _ _ Hva Htab) as Ht.
  unfold populate, read. wp_step. wp_step.
  destruct (pt_step Hpt t k va0 Ht) as [E|[(q & Hq & Ho & Hl & Hty)|[-> E]]].
  - (* the slot was empty *)
    rewrite E. simpl. wp_step. wp_step.
    destruct (ta_avail (frames s)) as [|n] eqn:En; [unfold avail in Hav; rewrite En in Hav; lia|].
    eapply wp_mono; [by apply ta_alloc|].
    intros p s1 (Hinv1 & Hav1 & Hfree & Hfr & Hpa & Hp0 & Hp1 & Hz & Hf & Hq1).
    assert (own !! p = None) as Hpn.
    { destruct (own !! p) eqn:Ep; [|done]. by apply Hown in Ep. }
    destruct (fresh_table k own s s1 p va0) as (Hpt1 & Hsame & Hw1); try done.
    set (own1 := <[p := (k, va0 / 2 ^ shift (S k))]> own) in *.
    assert (t <> p) as Htp by (intros ->; congruence).
    destruct (link_table k t p va0 own1 (ram s1)) as (Hpt2 & Hw2 & Ht2 & Hp2); try done.
    { unfold own1. by rewrite lookup_insert_ne. }
    { unfold own1. by rewrite lookup_insert_eq. }
    { by rewrite (proj2 (Hw1 va0 Hva)). }
    { by rewrite (Hsame t _ _ Ht (idx_range _ _)). }
    { intros i Hi. apply Hz; lia. }
    assert (Z.lor p 3 = p + 3) as ->.
    { pose proof (Z.div_mod p 4096). replace p with (p / 4096 * 2 ^ 12) by lia.
      by apply lor_disjoint_add. }
    unfold set_entry, write, emit. wp_steps. cbn [ram frames with_ram].
    rewrite load64_store64_eq, u64_small, land_addr_mask_table by lia.
    split; [|done]. apply effect_walk_same.
    + split; [done|]. exists own1. split; [done|].
      intros p' x [[<- _]|[_ Hx]]%lookup_insert_Some [Hfp Hne]%Hfr; [done|].
      by apply Hown in Hx.
    + intros va Hva'. cbn [ram]. rewrite Hw2 by done. by apply Hw1.
    + intros k' va Hva' Hk'. cbn [ram]. rewrite Ht2 by done. by apply Hw1.
    + unfold avail. cbn [frames]. rewrite En, Hav1. lia.
    + etransitivity; [exact Hq1|]. by apply quiet_barrier.
  - (* there was a table *)
    destruct (pt_page _ _ _ Hpt _ _ _ Ho) as (_ & H0 & H1).
    rewrite (proj2 (Z.eqb_neq _ 0)) by (rewrite Hq; lia). wp_steps. rewrite Hl.
    split; [|split; [rewrite <-Hl; by apply table_from_step|done]].
    apply effect_walk_same; [by split; eauto|done|done|lia|done].
  - (* a section is excluded *)
    exfalso. apply Hns. unfold sect. rewrite (walk_at_table _ _ _ _ _ Htab).
    cbn [walk_entry]. rewrite E. simpl. eauto.
Qed.

(** ** Leaf stores *)

Lemma set_leaf_spec k s t va0 v phys prot :
  ok s -> (k < 2)%nat -> 0 <= va0 < 2 ^ 48 -> table (ram s) root k va0 = Some t ->
  0 <= v < 2 ^ 64 -> (k = 1%nat -> v mod 4 = 1) ->
  (forall m va, va / 2 ^ shift k = va0 / 2 ^ shift k ->
     walk_entry m k v va = Some (k, (phys + va mod 2 ^ shift k, attrs prot))) ->
  let lo := va0 / 2 ^ shift k * 2 ^ shift k in
  wp (set_entry (t + 8 * idx k va0) v) s (fun _ s' =>
    effect k s s' lo (lo + 2 ^ shift k) phys prot 0).
Proof.
  intros [Hinv (own & Hpt & Hown)] Hk Hva Htab Hv Hv1 Hleaf lo.
  pose proof (own_table Hpt va0 _ _ Hva Htab) as Ht.
  unfold set_entry, write, emit. wp_steps.
  assert (0 < 2 ^ shift k) by (pose proof (shift_pos k); lia).
  assert (forall va, va / 2 ^ shift k = va0 / 2 ^ shift k <-> lo <= va < lo + 2 ^ shift k) as Hblk.
  { intros va. pose proof (Z.div_mod va (2 ^ shift k)).
    pose proof (Z.mod_pos_bound va (2 ^ shift k)). unfold lo. split; [lia|].
    intros Hr. symmetry. apply Z.div_unique with (va - lo); unfold lo in *; lia. }
  set (m' := store64 _ _ _).
  assert (forall va, 0 <= va < 2 ^ 48 -> va / 2 ^ shift k <> va0 / 2 ^ shift k ->
            walk m' root va = walk (ram s) root va) as Hother.
  { intros va Hva' Hne. apply (walk_store_other Hpt Ht); [by eapply root_own|done]. }
  assert (forall k' va, 0 <= va < 2 ^ 48 -> (k <= k')%nat ->
            table m' root k' va = table (ram s) root k' va) as Htabs.
  { intros k' va Hva' Hk'. apply (table_store Hpt Ht); [by eapply root_own|done]. }
  split; cbn [ram frames with_ram]; [| |done| |unfold avail; simpl; lia|by apply quiet_barrier].
  - split; [done|]. exists own. split; [|done]. apply (pt_ok_store Hpt Ht); [done|].
    destruct k as [|[|k]]; [done| |lia]. right; right. auto.
  - intros va Hva'. unfold translate. fold m'. case_decide as Hd.
    + apply Hblk in Hd. assert (table m' root k va = Some t) as Hta.
      { rewrite Htabs by (done || lia). rewrite <-Htab. apply table_same_block.
        rewrite !(div_shift_S k), Hd. done. }
      rewrite (walk_at_table _ _ _ _ _ Hta).
      replace (idx k va) with (idx k va0) by (unfold idx; by rewrite Hd).
      unfold m' at 2. rewrite load64_store64_eq, u64_small, Hleaf by done. simpl.
      do 2 f_equal. pose proof (Z.div_mod va (2 ^ shift k)). unfold lo. rewrite <-Hd. lia.
    + rewrite Hother; [done|done|]. intros E. by apply Hd, Hblk.
  - intros va Hva' Hn [x Hx]. exists x. rewrite <-Hother; [done|done|].
    intros E. by apply Hn, Hblk.
Qed.

(** ** Loops over a range *)

(** An operation on [lo, hi) at the level-[k] slot [p] may start. *)
Record ready (k : nat) (s : mach) (lo hi phys p cost : Z) : Prop := Ready {
  rd_ok : ok s;
  rd_range : 0 <= lo < hi /\ hi <= 2 ^ 48;
  rd_align : lo mod 4096 = 0 /\ hi mod 4096 = 0 /\ phys mod 4096 = 0;
  rd_phys : 0 <= phys /\ phys + (hi - lo) <= 2 ^ 48;
  rd_sect : forall va, lo <= va < hi -> ~ sect (ram s) root va;
  rd_cost : cost <= avail s;
  rd_slot : exists t, table (ram s) root k lo = Some t /\ p = t + 8 * idx k lo;
}.

(** The end of the level-[k] block of [lo], cut at [hi]. *)
Definition block_end (k : nat) (lo hi : Z) : Z := Z.min ((lo / 2 ^ shift k + 1) * 2 ^ shift k) hi.

Lemma block_end_spec k lo hi :
  0 <= lo < hi ->
  lo < block_end k lo hi <= hi /\
  (block_end k lo hi < hi -> block_end k lo hi / 2 ^ shift k = lo / 2 ^ shift k + 1 /\
                            block_end k lo hi mod 2 ^ shift k = 0) /\
  (block_end k lo hi - 1) / 2 ^ shift k = lo / 2 ^ shift k.
Proof.
  intros H. unfold block_end. pose proof (shift_pos k).
  assert (0 < 2 ^ shift k) by lia. set (S := 2 ^ shift k) in *.
  pose proof (Z.div_mod lo S). pose proof (Z.mod_pos_bound lo S).
  split; [lia|]. split.
  - intros Hlt. rewrite Z.min_l by lia. rewrite Z.div_mul, Z.mod_mul by lia. done.
  - destruct (Z.min_spec ((lo / S + 1) * S) hi) as [[Hm ->]|[Hm ->]].
    + symmetry. apply Z.div_unique with (S - 1); lia.
    + symmetry. apply Z.div_unique with (hi - 1 - S * (lo / S)); lia.
Qed.

Lemma block_end_lt k lo hi : 0 <= lo < block_end k lo hi -> 0 <= lo < hi.
Proof. unfold block_end. lia. Qed.

Lemma aligned_mod4096 k x : x mod 2 ^ shift k = 0 -> x mod 4096 = 0.
Proof.
  intros H. pose proof (shift_pos k). unfold shift in *.
  rewrite Z.pow_add_r in H by lia. change (2 ^ 12) with 4096 in H.
  rewrite Z.rem_mul_r in H by lia.
  pose proof (Z.mod_pos_bound x 4096). pose proof (Z.mod_pos_bound (x / 4096) (2 ^ (9 * Z.of_nat k))).
  nia.
Qed.

Lemma block_end_aligned k lo hi :
  0 <= lo < hi -> hi mod 4096 = 0 -> block_end k lo hi mod 4096 = 0.
Proof.
  intros H Ha. destruct (block_end_spec k lo hi H) as (Hr & Hb & _).
  destruct (decide (block_end k lo hi = hi)) as [->|Hne]; [done|].
  apply (aligned_mod4096 k), Hb. lia.
Qed.

Lemma ready_first k s lo hi phys p c c' :
  ready k s lo hi phys p c -> c' <= c -> ready k s lo (block_end k lo hi) phys p c'.
Proof.
  intros [Ho [Hr Hh] (A1 & A2 & A3) Hp Hs Hc Ht] Hc'.
  destruct (block_end_spec k lo hi Hr) as (Hb & _).
  split; [done|lia| |lia| |lia|done].
  - auto using block_end_aligned.
  - intros va Hva. apply Hs. lia.
Qed.

Lemma ready_next k s s1 lo hi phys prot p c c1 :
  let n := block_end k lo hi in
  ready k s lo hi phys p (c1 + c) -> n < hi ->
  lo / 2 ^ shift (S k) = (hi - 1) / 2 ^ shift (S k) ->
  effect k s s1 lo n phys prot c1 ->
  ready k s1 n hi (phys + (n - lo)) (p + 8) c.
Proof.
  intros n [Ho [Hr Hh] (A1 & A2 & A3) Hp Hs Hc (t & Ht & Hpt)] Hn Hblk [O1 _ T1 S1 C1 _].
  destruct (block_end_spec k lo hi Hr) as (Hb & Hb1 & _). fold n in Hb, Hb1.
  destruct (Hb1 Hn) as [Hdiv Hmod]. pose proof (aligned_mod4096 k n Hmod) as Hn4.
  assert (n / 2 ^ shift (S k) = lo / 2 ^ shift (S k)) as Hsame.
  { assert (0 < 2 ^ shift (S k)) by (pose proof (shift_pos (S k)); lia).
    assert (lo / 2 ^ shift (S k) <= n / 2 ^ shift (S k)) by (apply Z.div_le_mono; lia).
    assert (n / 2 ^ shift (S k) <= (hi - 1) / 2 ^ shift (S k)) by (apply Z.div_le_mono; lia).
    lia. }
  split; [done|lia| |lia| |lia|].
  - split; [done|]. split; [done|]. rewrite Zplus_mod, A3, Zminus_mod, Hn4, A1. done.
  - intros va Hva Hsect. apply (Hs va); [lia|]. apply S1; [lia|lia|done].
  - exists t. rewrite T1 by lia. split; [rewrite <-Ht; by apply table_same_block|].
    pose proof (block_split k n). pose proof (block_split k lo). rewrite Hsame in *. lia.
Qed.

Section RangeLoop.
Context (k : nat) (hi prot : Z) (cost : Z -> Z -> Z).
Context (op : Z -> Z -> Z -> Z -> M mach unit) (body : Z * Z * Z -> M mach (Z * Z * Z + unit)).
Abbreviation nxt lo := (block_end k lo hi).

(** One iteration works on the current block and moves on. *)
Context (Hbody : forall s lo phys p c, ready k s lo hi phys p c ->
  body (lo, phys, p) =
  (op p lo (nxt lo) phys;;
   mret (if nxt lo =? hi then inr tt else inl (nxt lo, phys + (nxt lo - lo), p + 8)))).
Context (Hop : forall s lo phys p,
  ready k s lo (nxt lo) phys p (cost lo (nxt lo)) ->
  wp (op p lo (nxt lo) phys) s (fun _ s' =>
    effect k s s' lo (nxt lo) phys prot (cost lo (nxt lo)))).
Context (Hcost : forall lo, 0 <= lo < hi -> nxt lo < hi ->
  cost lo (nxt lo) + cost (nxt lo) hi = cost lo hi).
Context (Hpos : forall a b, a < b -> 0 <= cost a b).

Lemma range_loop fuel : forall s lo phys p,
  ready k s lo hi phys p (cost lo hi) ->
  lo / 2 ^ shift (S k) = (hi - 1) / 2 ^ shift (S k) ->
  (hi - 1) / 2 ^ shift k - lo / 2 ^ shift k < Z.of_nat fuel ->
  wp (loop fuel body (lo, phys, p)) s (fun _ s' => effect k s s' lo hi phys prot (cost lo hi)).
Proof.
  induction fuel as [|fuel IH]; intros s lo phys p Hrd Hblk Hf.
  { pose proof (rd_range _ _ _ _ _ _ _ Hrd) as [Hr _].
    assert (lo / 2 ^ shift k <= (hi - 1) / 2 ^ shift k)
      by (apply Z.div_le_mono; [pose proof (shift_pos k); lia|lia]). lia. }
  pose proof (rd_range _ _ _ _ _ _ _ Hrd) as [Hr _].
  destruct (block_end_spec k lo hi Hr) as (Hb & Hb1 & _).
  rewrite loop_unfold. wp_step. rewrite (Hbody s lo phys p _ Hrd).
  wp_step. destruct (decide (nxt lo = hi)) as [E|E].
  - assert (cost lo (nxt lo) = cost lo hi) as Ec by (by rewrite E).
    eapply wp_mono; [apply Hop; eapply ready_first; [done|lia]|].
    intros [] s1 He. rewrite E in *. rewrite (proj2 (Z.eqb_eq hi hi)) by done. by wp_steps.
  - assert (nxt lo < hi) as Hlt by lia. pose proof (Hcost lo Hr Hlt) as Ec.
    pose proof (Hpos (nxt lo) hi Hlt).
    eapply wp_mono; [apply Hop; eapply ready_first; [done|lia]|].
    intros [] s1 He. rewrite (proj2 (Z.eqb_neq _ _)) by done. wp_steps.
    rewrite <-Ec in Hrd. pose proof (ready_next _ _ _ _ _ _ _ _ _ _ Hrd Hlt Hblk He) as Hrd1.
    destruct (Hb1 Hlt) as [Hd _].
    eapply wp_mono; [apply IH; [done| |lia]|].
    + assert (0 < 2 ^ shift (S k)) by (pose proof (shift_pos (S k)); lia).
      assert (lo / 2 ^ shift (S k) <= nxt lo / 2 ^ shift (S k)) by (apply Z.div_le_mono; lia).
      assert (nxt lo / 2 ^ shift (S k) <= (hi - 1) / 2 ^ shift (S k)) by (apply Z.div_le_mono; lia).
      lia.
    + intros [] s2 He2. rewrite <-Ec. eapply effect_trans; [|done|done]. lia.
Qed.

End RangeLoop.

(** ** A table level: link the table, then run the loop of the level below *)

Lemma populate_bind (f : Z -> M mach unit) a s :
  (e ← read a;
   (if e =? 0 then p ← alloc; set_entry a (Z.lor p 3) else mret tt);;
   e ← read a; f e) s = (populate a ≫= f) s.
Proof.
  unfold populate, mbind, M_bind. destruct (read a s) as [[e s1]| |]; [|done|done].
  destruct (e =? 0); [|done]. by destruct (alloc s1) as [[p s2]| |].
Qed.

Lemma populate_loop k s lo n phys prot p c (f : Z -> M mach unit) :
  ready (S k) s lo n phys p (1 + c) -> 0 <= c ->
  (forall s1 e, let t := Z.land e PTE_ADDR_MASK in
     ready k s1 lo n phys (t + 8 * idx k lo) c -> 0 <= t -> t + 4096 <= 2 ^ 48 ->
     wp (f e) s1 (fun _ s' => effect k s1 s' lo n phys prot c)) ->
  wp (populate p ≫= f) s (fun _ s' => effect (S k) s s' lo n phys prot (1 + c)).
Proof.
  intros [Ho [Hr Hh] Ha Hp Hs Hc (t & Ht & ->)] Hc0 Hf. wp_step.
  eapply wp_mono; [eapply (populate_spec k s t lo lo phys prot); try done; try lia|].
  { apply Hs. lia. }
  intros e s1 (He & Ht1 & Hb1 & Hb2). cbn beta.
  pose proof He as [O1 M1 T1 S1 C1 _].
  eapply wp_mono; [apply Hf; [|done|done]|].
  - split; [done|done|done|done| |lia|by eexists].
    intros va Hva Hsect. apply (Hs va Hva), S1; [lia|lia|done].
  - intros [] s2 He2. eapply effect_trans; [|exact He|].
    + lia.
    + rewrite Z.sub_diag, Z.add_0_r. eapply effect_weaken; [| |done]; lia.
Qed.

(** ** Index and end macros *)

Lemma pte_offset_idx e va : 0 <= va ->
  0 <= Z.land e PTE_ADDR_MASK -> Z.land e PTE_ADDR_MASK + 4096 <= 2 ^ 48 ->
  pte_offset_phys e va = Z.land e PTE_ADDR_MASK + 8 * idx 0 va /\
  pmd_offset_phys e va = Z.land e PTE_ADDR_MASK + 8 * idx 1 va /\
  pud_offset_phys e va = Z.land e PTE_ADDR_MASK + 8 * idx 2 va.
Proof.
  intros Hva H0 H1.
  unfold pte_offset_phys, pmd_offset_phys, pud_offset_phys, pmd_page_paddr, pud_page_paddr,
    pgd_page_paddr, pte_index, pmd_index, pud_index.
  change (PTRS_PER_PTE - 1) with (2 ^ 9 - 1). change (PTRS_PER_PMD - 1) with (2 ^ 9 - 1).
  change (PTRS_PER_PUD - 1) with (2 ^ 9 - 1).
  rewrite !land_ones_mod, !shiftr_div by (vm_compute; congruence).
  pose proof (idx_range 0 va). pose proof (idx_range 1 va). pose proof (idx_range 2 va).
  change ((va / 2 ^ PAGE_SHIFT) mod 2 ^ 9) with (idx 0 va).
  change ((va / 2 ^ PMD_SHIFT) mod 2 ^ 9) with (idx 1 va).
  change ((va / 2 ^ PUD_SHIFT) mod 2 ^ 9) with (idx 2 va).
  rewrite !u64_small by lia. lia.
Qed.

Lemma addr_end_block k lo hi :
  (k <= 3)%nat -> 0 <= lo < hi -> hi <= 2 ^ 48 ->
  addr_end (2 ^ shift k) (not64 (2 ^ shift k - 1)) lo hi = block_end k lo hi.
Proof.
  intros Hk Hr Hh. assert (12 <= shift k <= 39) by (unfold shift; lia).
  assert (2 ^ shift k <= 2 ^ 39) by (apply Z.pow_le_mono_r; lia).
  assert (0 < 2 ^ shift k) by lia.
  unfold addr_end, block_end.
  rewrite land_not64_pow2 by (try apply u64_range; lia).
  rewrite (u64_small (lo + _)) by lia.
  replace ((lo + 2 ^ shift k) / 2 ^ shift k) with (lo / 2 ^ shift k + 1).
  2: { replace (lo + 2 ^ shift k) with (lo + 1 * 2 ^ shift k) by lia.
       by rewrite Z.div_add by lia. }
  pose proof (Z.div_mod lo (2 ^ shift k)). pose proof (Z.mod_pos_bound lo (2 ^ shift k)).
  set (b := (lo / 2 ^ shift k + 1) * 2 ^ shift k) in *.
  rewrite !u64_small by lia. destruct (Z.ltb_spec (b - 1) (hi - 1)); lia.
Qed.

(** ** The four functions *)

(** Table pages a mapping of [lo, hi) may need: one per level-[k] block touched. *)
Definition blocks (k : nat) (lo hi : Z) : Z := (hi - 1) / 2 ^ shift k - lo / 2 ^ shift k + 1.

Lemma blocks_pos k lo hi : lo < hi -> 1 <= blocks k lo hi.
Proof.
  intros H. unfold blocks.
  assert (lo / 2 ^ shift k <= (hi - 1) / 2 ^ shift k)
    by (apply Z.div_le_mono; [pose proof (shift_pos k); lia|lia]). lia.
Qed.

Lemma blocks_add k lo mid hi :
  mid mod 2 ^ shift k = 0 -> blocks k lo mid + blocks k mid hi = blocks k lo hi.
Proof.
  intros H. unfold blocks. assert (0 < 2 ^ shift k) by (pose proof (shift_pos k); lia).
  pose proof (Z.div_mod mid (2 ^ shift k)).
  assert ((mid - 1) / 2 ^ shift k = mid / 2 ^ shift k - 1) as ->; [|lia].
  symmetry. apply Z.div_unique with (2 ^ shift k - 1); lia.
Qed.

Lemma shift_mod_le j k x : (j <= k)%nat -> x mod 2 ^ shift k = 0 -> x mod 2 ^ shift j = 0.
Proof.
  intros Hj Hx. replace (shift k) with (shift j + 9 * (Z.of_nat k - Z.of_nat j)) in Hx
    by (unfold shift; lia).
  assert (0 < 2 ^ shift j) by (pose proof (shift_pos j); lia).
  assert (0 < 2 ^ (9 * (Z.of_nat k - Z.of_nat j))) by lia.
  rewrite Z.pow_add_r, Z.rem_mul_r in Hx by (unfold shift in *; lia).
  pose proof (Z.mod_pos_bound x (2 ^ shift j)).
  pose proof (Z.mod_pos_bound (x / 2 ^ shift j) (2 ^ (9 * (Z.of_nat k - Z.of_nat j)))). nia.
Qed.

Lemma ready_slot k s lo hi phys p c : ready k s lo hi phys p c -> 0 <= p /\ p + 8 <= 2 ^ 48.
Proof.
  intros [[_ (own & Hpt & _)] [Hr Hh] _ _ _ _ (t & Ht & ->)].
  apply (own_table Hpt) in Ht; [|lia]. apply (pt_page _ _ _ Hpt) in Ht.
  pose proof (idx_range k lo). lia.
Qed.

(** The step of the three upper loops, without the wrap-around of [u64]. *)
Lemma upper_step k s lo hi phys p c :
  ready k s lo hi phys p c ->
  u64 (phys + u64 (block_end k lo hi - lo)) = phys + (block_end k lo hi - lo) /\
  u64 (p + 8) = p + 8.
Proof.
  intros Hrd. pose proof (ready_slot _ _ _ _ _ _ _ Hrd).
  destruct Hrd as [_ [Hr Hh] _ Hp _ _ _].
  destruct (block_end_spec k lo hi Hr) as (Hb & _).
  rewrite (u64_small (block_end k lo hi - lo)), !u64_small by lia. done.
Qed.

(** The fuel of the upper loops covers every block of the range. *)
Lemma upper_fuel k lo hi :
  0 <= lo < hi -> hi <= 2 ^ 48 ->
  (hi - 1) / 2 ^ shift k - lo / 2 ^ shift k <
  Z.of_nat (S (S (Z.to_nat (u64 (hi - lo) / 2 ^ shift k)))).
Proof.
  intros Hr Hh. assert (0 < 2 ^ shift k) by (pose proof (shift_pos k); lia).
  rewrite u64_small by lia. set (S := 2 ^ shift k) in *.
  pose proof (Z.div_mod lo S). pose proof (Z.mod_pos_bound lo S).
  pose proof (Z.div_mod (hi - 1) S). pose proof (Z.mod_pos_bound (hi - 1) S).
  pose proof (Z.div_mod (hi - lo) S). pose proof (Z.mod_pos_bound (hi - lo) S).
  assert (0 <= (hi - lo) / S) by (apply Z.div_pos; lia). nia.
Qed.

Context (prot : Z) (Hprot : prot_ok prot).

Lemma pte_leaf phys :
  0 <= phys < 2 ^ 48 -> phys mod 4096 = 0 ->
  let v := pfn_pte (Z.shiftr phys PAGE_SHIFT) prot in
  0 <= v < 2 ^ 64 /\
  forall m va, walk_entry m 0 v va = Some (O, (phys + va mod 2 ^ shift 0, attrs prot)).
Proof.
  intros Hp Ha v. destruct Hprot as (Hr & Hm & Ht). pose proof (Z.div_mod phys 4096).
  assert (v = Z.lor phys prot) as ->.
  { unfold v, pfn_pte. rewrite Z.shiftl_mul_pow2, shiftr_div by (vm_compute; congruence).
    change (2 ^ PAGE_SHIFT) with 4096. rewrite u64_small by lia. f_equal. lia. }
  destruct (desc_or phys prot Hp Ha Hm) as (E1 & E2 & E3).
  split; [by apply desc_range|]. intros m va. cbn [walk_entry].
  rewrite E2, Ht, E3. simpl. unfold out_addr. rewrite E1.
  change (2 ^ shift 0) with 4096. do 4 f_equal. lia.
Qed.

Lemma pmd_leaf phys :
  0 <= phys < 2 ^ 48 -> phys mod 2 ^ 21 = 0 ->
  let v := pfn_pmd (Z.shiftr phys PMD_SHIFT) (Z.lor PMD_TYPE_SECT (mk_sect_prot prot)) in
  0 <= v < 2 ^ 64 /\ v mod 4 = 1 /\
  forall m va, walk_entry m 1 v va = Some (1%nat, (phys + va mod 2 ^ shift 1, attrs prot)).
Proof.
  intros Hp Ha v. destruct Hprot as (Hr & Hm & Ht). pose proof (Z.div_mod phys (2 ^ 21)).
  assert (phys mod 4096 = 0) as Ha' by (apply (aligned_mod4096 1); done).
  set (bits := Z.lor PMD_TYPE_SECT (mk_sect_prot prot)) in *.
  assert (v = Z.lor phys bits) as ->.
  { unfold v, pfn_pmd. rewrite Z.shiftl_mul_pow2, shiftr_div by (vm_compute; congruence).
    change (2 ^ PMD_SHIFT) with (2 ^ 21). rewrite u64_small by lia. f_equal. lia. }
  assert (0 <= bits < 2 ^ 64) as Hbr.
  { apply lor_range; [lia|vm_compute; split; congruence|]. apply land_range; lia. }
  assert (Z.land bits PTE_ADDR_MASK = 0) as Hbm.
  { unfold bits, mk_sect_prot. rewrite Z.land_lor_distr_l, (Z.land_comm prot), <-Z.land_assoc, Hm.
    rewrite Z.land_0_r. done. }
  assert (attrs bits = attrs prot) as Hba.
  { unfold attrs, bits, mk_sect_prot. rewrite Z.land_lor_distr_l, <-Z.land_assoc. done. }
  assert (bits mod 4 = 1) as Hbt.
  { rewrite mod4_land. unfold bits, mk_sect_prot.
    rewrite Z.land_lor_distr_l, (Z.land_comm prot), <-Z.land_assoc, <-(mod4_land prot), Ht. done. }
  destruct (desc_or phys bits Hp Ha' Hbm) as (E1 & E2 & E3).
  split; [by apply desc_range|]. rewrite E2, Hbt. split; [done|]. intros m va.
  cbn [walk_entry]. rewrite E2, Hbt, E3, Hba. simpl. unfold out_addr. rewrite E1.
  change (2 ^ shift 1) with (2 ^ 21). do 4 f_equal. lia.
Qed.

Lemma block_end_page lo hi :
  0 <= lo < hi -> lo mod 4096 = 0 -> hi mod 4096 = 0 -> block_end 0 lo hi = lo + 4096.
Proof.
  intros Hr Hl Hh. unfold block_end. change (2 ^ shift 0) with 4096.
  pose proof (Z.div_mod lo 4096). pose proof (Z.div_mod hi 4096). lia.
Qed.

Lemma pte_loop_spec s lo hi phys p :
  ready 0 s lo hi phys p 0 -> lo / 2 ^ shift 1 = (hi - 1) / 2 ^ shift 1 ->
  wp (loop (S (Z.to_nat (u64 (hi - lo) / PAGE_SIZE))) (alloc_init_pte_body hi prot) (lo, phys, p)) s
     (fun _ s' => effect 0 s s' lo hi phys prot 0).
Proof.
  intros Hrd Hblk. pose proof (rd_range _ _ _ _ _ _ _ Hrd) as [Hr Hh].
  apply (range_loop 0 hi prot (fun _ _ => 0)
           (fun p _ _ phys => set_entry p (pfn_pte (Z.shiftr phys PAGE_SHIFT) prot)));
    try done.
  - clear s lo phys p Hrd Hblk Hr. intros s lo phys p c Hrd.
    pose proof (ready_slot _ _ _ _ _ _ _ Hrd).
    destruct Hrd as [_ [Hr _] (A1 & A2 & _) Hp _ _ _].
    unfold alloc_init_pte_body. change PAGE_SIZE with 4096.
    rewrite (block_end_page lo hi Hr A1 A2), !u64_small by
      (pose proof (Z.div_mod lo 4096); pose proof (Z.div_mod hi 4096); lia).
    replace (phys + (lo + 4096 - lo)) with (phys + 4096) by lia. done.
  - intros s1 lo1 phys1 p1 [Ho [Hr1 Hh1] (A1 & A2 & A3) Hp Hs _ (t & Ht & ->)].
    destruct (block_end_spec 0 lo1 hi) as (Hb & _ & Hb2); [by apply block_end_lt in Hr1|].
    destruct (pte_leaf phys1) as [Hv Hw]; [lia|done|].
    assert (block_end 0 lo1 hi = lo1 / 2 ^ shift 0 * 2 ^ shift 0 + 2 ^ shift 0) as E.
    { assert (block_end 0 lo1 hi <= (lo1 / 2 ^ shift 0 + 1) * 2 ^ shift 0)
        by (unfold block_end; lia).
      change (2 ^ shift 0) with 4096 in *. pose proof (Z.div_mod lo1 4096).
      pose proof (Z.div_mod (block_end 0 lo1 hi) 4096). lia. }
    assert (lo1 = lo1 / 2 ^ shift 0 * 2 ^ shift 0) as E1.
    { change (2 ^ shift 0) with 4096. pose proof (Z.div_mod lo1 4096). lia. }
    eapply wp_mono; [apply (set_leaf_spec 0 s1 t lo1 _ phys1 prot); (done || lia || auto)|].
    intros [] s' He. cbn beta. rewrite E. by rewrite <-E1 in *.
  - change PAGE_SIZE with (2 ^ shift 0).
    pose proof (rd_align _ _ _ _ _ _ _ Hrd) as (A1 & A2 & _).
    rewrite u64_small by lia. change (2 ^ shift 0) with 4096.
    pose proof (Z.div_mod lo 4096). pose proof (Z.div_mod hi 4096).
    assert ((hi - 1) / 4096 < hi / 4096) by (apply Z.div_lt_upper_bound; lia).
    replace (hi - lo) with ((hi / 4096 - lo / 4096) * 4096) by lia.
    rewrite Z.div_mul by lia. lia.
Qed.

Lemma alloc_init_pte_spec flags s lo hi phys p :
  ready 1 s lo hi phys p 1 -> lo / 2 ^ shift 1 = (hi - 1) / 2 ^ shift 1 ->
  wp (alloc_init_pte alloc p lo hi phys prot flags) s
     (fun _ s' => effect 1 s s' lo hi phys prot 1).
Proof.
  intros Hrd Hblk. eapply wp_run.
  { unfold alloc_init_pte, pmd_none. change PMD_TYPE_TABLE with 3. apply populate_bind. }
  pose proof (rd_range _ _ _ _ _ _ _ Hrd) as [Hr Hh].
  apply (populate_loop 0 s lo hi phys prot p 0); [done|lia|].
  intros s1 e t Hrd1 Ht0 Ht1. cbn zeta.
  rewrite (proj1 (pte_offset_idx e lo ltac:(lia) Ht0 Ht1)). by apply pte_loop_spec.
Qed.

Lemma section_cond lo hi phys :
  0 <= lo < hi -> 0 <= phys -> (hi - 1) / 2 ^ 21 = lo / 2 ^ 21 ->
  Z.land (Z.lor (Z.lor lo hi) phys) (not64 SECTION_MASK) = 0 ->
  lo mod 2 ^ 21 = 0 /\ hi = lo + 2 ^ 21 /\ phys mod 2 ^ 21 = 0.
Proof.
  intros Hr Hp Hb H. change (not64 SECTION_MASK) with (2 ^ 21 - 1) in H.
  rewrite !Z.land_lor_distr_l, !land_ones_mod in H by lia.
  apply Z.lor_eq_0_iff in H as [[H1 H2]%Z.lor_eq_0_iff H3].
  split; [done|]. split; [|done].
  pose proof (Z.div_mod lo (2 ^ 21)). pose proof (Z.div_mod hi (2 ^ 21)).
  pose proof (Z.div_mod (hi - 1) (2 ^ 21)). pose proof (Z.mod_pos_bound (hi - 1) (2 ^ 21)). lia.
Qed.

Lemma blocks_one k lo hi : 0 <= lo < hi -> (hi - 1) / 2 ^ shift k = lo / 2 ^ shift k -> blocks k lo hi = 1.
Proof. unfold blocks. lia. Qed.

(** One iteration of [alloc_init_pmd]: a section where it fits, pages otherwise. *)
Definition pmd_op (flags p lo n phys : Z) : M mach unit :=
  if (Z.land (Z.lor (Z.lor lo n) phys) (not64 SECTION_MASK) =? 0)
     && (Z.land flags NO_BLOCK_MAPPINGS =? 0)
  then pmd_set_section p phys prot
  else alloc_init_pte alloc p lo n phys prot flags.

Lemma pmd_op_spec flags s lo n phys p :
  ready 1 s lo n phys p 1 -> (n - 1) / 2 ^ shift 1 = lo / 2 ^ shift 1 ->
  wp (pmd_op flags p lo n phys) s (fun _ s' => effect 1 s s' lo n phys prot 1).
Proof.
  intros Hrd Hblk. unfold pmd_op.
  destruct (_ =? 0) eqn:Ec; cbn [andb]; [|by apply alloc_init_pte_spec].
  destruct (Z.land flags NO_BLOCK_MAPPINGS =? 0); [|by apply alloc_init_pte_spec].
  destruct Hrd as [Ho [Hr Hh] (A1 & A2 & A3) Hp Hs _ (t & Ht & ->)].
  apply Z.eqb_eq, section_cond in Ec as (B1 & B2 & B3); [|lia|lia|done].
  destruct (pmd_leaf phys) as (Hv & Hv1 & Hw); [lia|done|].
  unfold pmd_set_section. cbn zeta.
  eapply wp_mono; [apply (set_leaf_spec 1 s t lo _ phys prot); (done || lia || auto)|].
  intros [] s' He. cbn beta. change (2 ^ shift 1) with (2 ^ 21) in He.
  replace (lo / 2 ^ 21 * 2 ^ 21) with lo in He by (pose proof (Z.div_mod lo (2 ^ 21)); lia).
  rewrite <-B2 in He. eapply effect_weaken; [| |done]; lia.
Qed.

(** The three upper loops are instances of [range_loop]. *)
Lemma upper_loop k hi (cost : Z -> Z -> Z) (op : Z -> Z -> Z -> Z -> M mach unit) s lo phys p :
  (1 <= k <= 3)%nat ->
  (forall s lo n phys p, ready k s lo n phys p (cost lo n) ->
     (n - 1) / 2 ^ shift k = lo / 2 ^ shift k ->
     wp (op p lo n phys) s (fun _ s' => effect k s s' lo n phys prot (cost lo n))) ->
  (forall lo, 0 <= lo < hi -> block_end k lo hi < hi ->
     cost lo (block_end k lo hi) + cost (block_end k lo hi) hi = cost lo hi) ->
  (forall a b, a < b -> 0 <= cost a b) ->
  ready k s lo hi phys p (cost lo hi) ->
  lo / 2 ^ shift (S k) = (hi - 1) / 2 ^ shift (S k) ->
  wp (loop (S (S (Z.to_nat (u64 (hi - lo) / 2 ^ shift k)))) (fun st =>
        let '(addr, phys, p) := st in
        let next := addr_end (2 ^ shift k) (not64 (2 ^ shift k - 1)) addr hi in
        op p addr next phys;;
        let phys := u64 (phys + u64 (next - addr)) in
        let p := u64 (p + 8) in
        let addr := next in
        mret (if addr =? hi then inr tt else inl (addr, phys, p))) (lo, phys, p)) s
     (fun _ s' => effect k s s' lo hi phys prot (cost lo hi)).
Proof.
  intros Hk Hop Hcost Hpos Hrd Hblk. pose proof (rd_range _ _ _ _ _ _ _ Hrd) as [Hr Hh].
  apply (range_loop k hi prot cost op); [| |done|done|done|done|by apply upper_fuel].
  - intros s1 lo1 phys1 p1 c Hrd1. cbn beta iota zeta.
    pose proof (rd_range _ _ _ _ _ _ _ Hrd1) as [Hr1 _].
    rewrite addr_end_block by lia.
    destruct (upper_step _ _ _ _ _ _ _ Hrd1) as [-> ->]. done.
  - intros s1 lo1 phys1 p1 Hrd1. apply Hop; [done|].
    pose proof (rd_range _ _ _ _ _ _ _ Hrd1) as [Hr1 _].
    apply block_end_spec. by eapply block_end_lt.
Qed.

Lemma alloc_init_pmd_spec flags s lo hi phys p :
  ready 2 s lo hi phys p (1 + blocks 1 lo hi) -> (hi - 1) / 2 ^ shift 2 = lo / 2 ^ shift 2 ->
  wp (alloc_init_pmd alloc p lo hi phys prot flags) s
     (fun _ s' => effect 2 s s' lo hi phys prot (1 + blocks 1 lo hi)).
Proof.
  intros Hrd Hblk. eapply wp_run.
  { unfold alloc_init_pmd, pud_none. change PUD_TYPE_TABLE with 3. apply populate_bind. }
  pose proof (rd_range _ _ _ _ _ _ _ Hrd) as [Hr Hh].
  pose proof (blocks_pos 1 lo hi ltac:(lia)).
  apply (populate_loop 1 s lo hi phys prot p); [done|lia|].
  intros s1 e t Hrd1 Ht0 Ht1. cbn zeta.
  rewrite (proj1 (proj2 (pte_offset_idx e lo ltac:(lia) Ht0 Ht1))).
  apply (upper_loop 1 hi (blocks 1) (pmd_op flags)); [lia| | | |done|done].
  - intros s2 lo2 n2 phys2 p2 Hrd2 Hb2. pose proof (rd_range _ _ _ _ _ _ _ Hrd2) as [Hr2 _].
    rewrite (blocks_one 1) in * by done. by apply pmd_op_spec.
  - intros lo2 Hr2 Hlt. apply blocks_add. by apply block_end_spec.
  - intros a b Hab. pose proof (blocks_pos 1 a b Hab). lia.
Qed.

Definition pud_cost (lo hi : Z) : Z := blocks 2 lo hi + blocks 1 lo hi.

Lemma blocks_split j k lo hi :
  (j <= k)%nat -> 0 <= lo < hi -> block_end k lo hi < hi ->
  blocks j lo (block_end k lo hi) + blocks j (block_end k lo hi) hi = blocks j lo hi.
Proof. intros Hj Hr Hlt. apply blocks_add. apply (shift_mod_le j k); [done|]. by apply block_end_spec. Qed.

Lemma alloc_init_pud_spec flags s lo hi phys p :
  ready 3 s lo hi phys p (1 + pud_cost lo hi) -> (hi - 1) / 2 ^ shift 3 = lo / 2 ^ shift 3 ->
  wp (alloc_init_pud alloc p lo hi phys prot flags) s
     (fun _ s' => effect 3 s s' lo hi phys prot (1 + pud_cost lo hi)).
Proof.
  intros Hrd Hblk. eapply wp_run.
  { unfold alloc_init_pud, pgd_none. change PUD_TYPE_TABLE with 3. apply populate_bind. }
  pose proof (rd_range _ _ _ _ _ _ _ Hrd) as [Hr Hh].
  assert (forall j a b, a < b -> 0 < blocks j a b) as Hpos
    by (intros j a b Hab; pose proof (blocks_pos j a b Hab); lia).
  pose proof (Hpos 1%nat lo hi ltac:(lia)). pose proof (Hpos 2%nat lo hi ltac:(lia)).
  apply (populate_loop 2 s lo hi phys prot p); [done|unfold pud_cost; lia|].
  intros s1 e t Hrd1 Ht0 Ht1. cbn zeta.
  rewrite (proj2 (proj2 (pte_offset_idx e lo ltac:(lia) Ht0 Ht1))).
  apply (upper_loop 2 hi pud_cost (fun p lo n phys => alloc_init_pmd alloc p lo n phys prot flags));
    [lia| | | |done|done].
  - intros s2 lo2 n2 phys2 p2 Hrd2 Hb2. pose proof (rd_range _ _ _ _ _ _ _ Hrd2) as [Hr2 _].
    unfold pud_cost in *. rewrite (blocks_one 2) in * by done. by apply alloc_init_pmd_spec.
  - intros lo2 Hr2 Hlt. unfold pud_cost.
    pose proof (blocks_split 1 2 lo2 hi ltac:(lia) Hr2 Hlt).
    pose proof (blocks_split 2 2 lo2 hi ltac:(lia) Hr2 Hlt). lia.
  - intros a b Hab. unfold pud_cost. pose proof (Hpos 1%nat a b Hab). pose proof (Hpos 2%nat a b Hab). lia.
Qed.

Definition map_cost (lo hi : Z) : Z := blocks 3 lo hi + pud_cost lo hi.

Lemma map_cost_split lo hi :
  0 <= lo < hi -> block_end 3 lo hi < hi ->
  map_cost lo (block_end 3 lo hi) + map_cost (block_end 3 lo hi) hi = map_cost lo hi.
Proof.
  intros Hr Hlt. unfold map_cost, pud_cost.
  pose proof (blocks_split 1 3 lo hi ltac:(lia) Hr Hlt).
  pose proof (blocks_split 2 3 lo hi ltac:(lia) Hr Hlt).
  pose proof (blocks_split 3 3 lo hi ltac:(lia) Hr Hlt). lia.
Qed.

Lemma map_cost_nonneg lo hi : lo < hi -> 0 <= map_cost lo hi.
Proof.
  intros H. unfold map_cost, pud_cost. pose proof (blocks_pos 1 lo hi H).
  pose proof (blocks_pos 2 lo hi H). pose proof (blocks_pos 3 lo hi H). lia.
Qed.

(** The rounded range of a request. *)
Definition req_lo (virt : Z) : Z := virt / 4096 * 4096.
Definition req_hi (virt size : Z) : Z := (virt + size + 4095) / 4096 * 4096.

Lemma create_pgd_mapping_effect flags s phys virt size :
  0 <= virt -> 0 < size -> req_hi virt size <= 2 ^ 48 ->
  0 <= phys -> req_lo phys + (req_hi virt size - req_lo virt) <= 2 ^ 48 ->
  ok s ->
  (forall va, req_lo virt <= va < req_hi virt size -> ~ sect (ram s) root va) ->
  map_cost (req_lo virt) (req_hi virt size) <= avail s ->
  wp (__create_pgd_mapping alloc root phys virt size prot flags) s (fun _ s' =>
    effect 3 s s' (req_lo virt) (req_hi virt size) (req_lo phys) prot
      (map_cost (req_lo virt) (req_hi virt size))).
Proof.
  intros Hv Hs Hh Hp Hph Hok Hsect Hav. unfold __create_pgd_mapping. cbn zeta.
  rewrite !land_PAGE_MASK. fold (req_lo virt) (req_lo phys).
  assert (virt + size <= req_hi virt size).
  { unfold req_hi. pose proof (Z.div_mod (virt + size + 4095) 4096).
    pose proof (Z.mod_pos_bound (virt + size + 4095) 4096). lia. }
  rewrite (u64_small (virt + size)), PAGE_BALIGN_small by lia. fold (req_hi virt size).
  pose proof (Z.div_mod virt 4096). pose proof (Z.mod_pos_bound virt 4096).
  pose proof (Z.div_pos virt 4096). pose proof (Z.div_pos phys 4096).
  assert (0 <= req_lo virt <= virt /\ 0 <= req_lo phys) by (unfold req_lo; lia).
  assert (idx 3 (req_lo virt) = idx 3 virt) as Hi.
  { unfold idx, req_lo. change (2 ^ shift 3) with (4096 * 2 ^ 27).
    rewrite <-!Z.div_div, Z.div_mul by lia. done. }
  destruct Hok as [Hinv (own & Hpt & Hown)].
  destruct (pt_page _ _ _ Hpt _ _ _ (pt_root _ _ _ Hpt)) as (Ra & R0 & R1).
  assert (pgd_offset_raw root virt = root + 8 * idx 3 (req_lo virt)) as ->.
  { unfold pgd_offset_raw, pgd_index. change (PTRS_PER_PGD - 1) with (2 ^ 9 - 1).
    rewrite land_ones_mod, shiftr_div by (vm_compute; congruence).
    change ((virt / 2 ^ PGDIR_SHIFT) mod 2 ^ 9) with (idx 3 virt). rewrite Hi.
    pose proof (idx_range 3 virt). rewrite u64_small by lia. lia. }
  apply (upper_loop 3 (req_hi virt size) map_cost
           (fun p lo n phys => alloc_init_pud alloc p lo n phys prot flags)); [lia| | | | |].
  - intros s2 lo2 n2 phys2 p2 Hrd2 Hb2. pose proof (rd_range _ _ _ _ _ _ _ Hrd2) as [Hr2 _].
    unfold map_cost in *. rewrite (blocks_one 3) in * by done. by apply alloc_init_pud_spec.
  - intros lo2 Hr2 Hlt. by apply map_cost_split.
  - apply map_cost_nonneg.
  - split; [by split; eauto|lia| |lia|done|done|by exists root].
    unfold req_lo, req_hi. by rewrite !Z.mod_mul.
  - change (shift 4) with 48. rewrite !Z.div_small by lia. done.
Qed.

(** C2: Mapping a range: for any request of positive size inside the 48-bit
    address spaces that meets no section mapping, with enough table pages left,
    [__create_pgd_mapping] returns; afterwards every address of the page-rounded
    range translates linearly from the page-rounded physical address with the
    attributes of [prot], every other address translates as before, and the
    tables still form a tree disjoint from the free pages. *)
Theorem create_pgd_mapping_maps flags s phys virt size :
  let lo := req_lo virt in
  let hi := req_hi virt size in
  0 <= virt -> 0 < size -> hi <= 2 ^ 48 ->
  0 <= phys -> req_lo phys + (hi - lo) <= 2 ^ 48 ->
  ok s ->
  (forall va, lo <= va < hi -> ~ sect (ram s) root va) ->
  map_cost lo hi <= avail s ->
  exists s', __create_pgd_mapping alloc root phys virt size prot flags s = Ret (tt, s') /\
    ok s' /\
    (forall va, 0 <= va < 2 ^ 48 ->
       translate (ram s') root va =
       if decide (lo <= va < hi) then Some (req_lo phys + (va - lo), attrs prot)
       else translate (ram s) root va) /\
    avail s - map_cost lo hi <= avail s'.
Proof.
  intros lo hi Hv Hs Hh Hp Hph Hok Hsect Hav.
  destruct (wp_elim _ _ _ (create_pgd_mapping_effect flags s phys virt size
    Hv Hs Hh Hp Hph Hok Hsect Hav)) as ([] & s1 & E & [O1 M1 _ _ C1 _]).
  exists s1. split; [done|]. split; [done|]. split; [done|]. fold lo hi in C1. lia.
Qed.

End Map.
End MmuMap.
