(* ===== verification/MmuBoot.v ===== *)
(** * The boot mappings

    [mmu.c] from [paging_init] down, with the real allocator: the page allocator
    keeps the promises of [TableAlloc], the tables built at boot translate as
    intended, and the system registers are written in the right order. *)

From S2P Require Import Prelude Base Fields Mem PageAlloc Pgtable Mmu PtWalk MmuMap.
Import Mmu Walk MmuMap.

Module MmuBoot.

(** ** The page allocator as a table allocator *)

Definition frame_free (l : list Z) (p : Z) : Prop :=
  exists i, p = PageAlloc.page_of i /\ l !! i = Some 0.

Lemma early_pgtable_alloc_ok s n :
  PageAlloc.wf (frames s) -> PageAlloc.free_frames (frames s) = S n ->
  wp early_pgtable_alloc s (fun p s' =>
    PageAlloc.wf (frames s') /\ PageAlloc.free_frames (frames s') = n /\
    frame_free (frames s) p /\
    (forall q, frame_free (frames s') q -> frame_free (frames s) q /\ q <> p) /\
    p mod 4096 = 0 /\ 0 <= p /\ p + 4096 <= 2 ^ 48 /\
    (forall b, p <= b -> b + 8 <= p + 4096 -> load64 (ram s') b = 0) /\
    (forall b, b + 8 <= p \/ p + 4096 <= b -> load64 (ram s') b = load64 (ram s) b) /\
    quiet s s').
Proof.
  intros Hwf Hn. destruct (PageAlloc.first_free_is_Some (frames s)) as [i E]; [lia|].
  pose proof (PageAlloc.first_free_lt _ _ Hwf E) as Hlt.
  pose proof (PageAlloc.page_of_range i Hlt) as Hr. unfold LOW_MEMORY, TOTAL_MEMORY in Hr.
  pose proof (PageAlloc.page_of_aligned i) as Ha.
  pose proof (proj1 (proj1 (PageAlloc.first_free_Some _ _) E)) as Hi.
  rewrite (PageAlloc.free_frames_insert _ i Hi) in Hn. injection Hn as Hn.
  unfold early_pgtable_alloc. wp_step. apply wp_zoom. unfold wp at 1. cbn [frames_lens lget].
  rewrite PageAlloc.get_free_page_eq, E by done. set (p := PageAlloc.page_of i) in *.
  wp_step. apply wp_zoom. unfold wp at 1. cbn [ram_lens lget lset ram].
  change PAGE_SIZE with 4096. rewrite memset_eq by lia. wp_step.
  cbn [ram frames with_ram]. change (Z.to_nat 4096) with 4096%nat.
  split; [by apply PageAlloc.wf_insert|]. split; [done|]. split; [by exists i|].
  split; [|split; [done|]; split; [lia|]; split; [lia|]].
  - intros q (j & -> & Hj). apply list_lookup_insert_Some in Hj as [(_ & ? & _)|[Hne Hj]]; [lia|].
    split; [by exists j|]. intros ->%PageAlloc.page_of_inj. done.
  - split; [intros b H1 H2; apply load64_fill_zero; lia|].
    split; [intros b H1; apply load64_fill_ne; lia|]. split; [done|]. split; [done|]. by exists O.
Qed.

#[global] Instance early_alloc : TableAlloc early_pgtable_alloc := {
  ta_inv := PageAlloc.wf;
  ta_avail := PageAlloc.free_frames;
  ta_free := frame_free;
  ta_alloc := early_pgtable_alloc_ok;
}.

Abbreviation bok im := (ok early_pgtable_alloc (idmap_pg_dir im)).
Abbreviation beff im := (effect early_pgtable_alloc (idmap_pg_dir im) 3).
Abbreviation tr im s va := (translate (ram s) (idmap_pg_dir im) va).

(** ** The image *)

(** What the linker script gives: a page of the image for the root table, below
    the allocator's memory, and text that ends before memory does. *)
Record image_ok (im : image) : Prop := ImageOk {
  im_root : idmap_pg_dir im mod 4096 = 0 /\ 0 <= idmap_pg_dir im /\
            idmap_pg_dir im + 4096 <= LOW_MEMORY;
  im_text : 0 <= _text_boot im < _etext im;
  im_end : req_hi 0 (_etext im) < TOTAL_MEMORY;
}.

(** A cleared root table: the empty tree. *)
Lemma empty_tree im s :
  image_ok im -> PageAlloc.wf (frames s) ->
  wp (zoom ram_lens (memset (idmap_pg_dir im) 0 PAGE_SIZE)) s (fun _ s' =>
    bok im s' /\ (forall va, walk (ram s') (idmap_pg_dir im) va = None) /\
    frames s' = frames s /\ quiet s s').
Proof.
  intros [(Ra & R0 & R1) _ _] Hwf. unfold LOW_MEMORY in R1.
  apply wp_zoom. unfold wp. cbn [ram_lens lget lset]. change PAGE_SIZE with 4096.
  rewrite memset_eq by lia. change (Z.to_nat 4096) with 4096%nat. cbn [ram frames with_ram].
  set (root := idmap_pg_dir im) in *. set (m := fill _ _ _ _).
  assert (forall i, 0 <= i < 512 -> load64 m (root + 8 * i) = 0) as Hz.
  { intros i Hi. apply load64_fill_zero; lia. }
  split; [|split; [|split; [done|split; [done|split; [done|by exists O]]]]].
  - split; [done|]. exists {[root := (3%nat, 0)]}. split.
    + split; [by rewrite lookup_singleton_eq| |].
      * intros p n pre [<- _]%lookup_singleton_Some. lia.
      * intros p n pre i [<- [= <- <-]]%lookup_singleton_Some Hi. left. by apply Hz.
    + intros p x [<- _]%lookup_singleton_Some (i & E & Hi).
      unfold PageAlloc.page_of, LOW_MEMORY in *. lia.
  - intros va. unfold walk. rewrite Hz by apply idx_range. apply walk_zero.
Qed.

(** ** The three requests *)

Lemma prot_ok_kernel : prot_ok PAGE_KERNNEL_ROX /\ prot_ok PAGE_KERNEL /\ prot_ok PROT_DEVICE_nGnRnE.
Proof. by vm_compute. Qed.

(** A request of at most 512 MB needs few table pages. *)
Lemma map_cost_bound lo hi :
  0 <= lo < hi -> hi - lo <= TOTAL_MEMORY -> map_cost lo hi <= 262.
Proof.
  intros Hr Hh. unfold TOTAL_MEMORY in Hh.
  assert (forall k, blocks k lo hi <= (hi - lo) / 2 ^ shift k + 2) as Hb.
  { intros k. pose proof (shift_pos k). assert (0 < 2 ^ shift k) as Hp by lia.
    unfold blocks. set (S := 2 ^ shift k) in *.
    pose proof (Z.div_mod lo S). pose proof (Z.mod_pos_bound lo S).
    pose proof (Z.div_mod (hi - 1) S). pose proof (Z.mod_pos_bound (hi - 1) S).
    pose proof (Z.div_mod (hi - lo) S). pose proof (Z.mod_pos_bound (hi - lo) S). nia. }
  unfold map_cost, pud_cost. pose proof (Hb 1%nat). pose proof (Hb 2%nat). pose proof (Hb 3%nat).
  assert (2 ^ shift 1 = 2097152 /\ 2 ^ shift 2 = 1073741824 /\ 2 ^ shift 3 = 549755813888)
    as (E1 & E2 & E3) by done.
  assert ((hi - lo) / 2 ^ shift 1 <= 256) by (rewrite E1; apply Z.div_le_upper_bound; lia).
  assert ((hi - lo) / 2 ^ shift 2 = 0) by (rewrite E2; apply Z.div_small; lia).
  assert ((hi - lo) / 2 ^ shift 3 = 0) by (rewrite E3; apply Z.div_small; lia).
  lia.
Qed.

Abbreviation bavail := (avail early_pgtable_alloc).

(** An identity request. *)
Lemma identity_map im prot start size s :
  let lo := req_lo start in
  let hi := req_hi start size in
  prot_ok prot -> bok im s -> 0 <= start -> 0 < size -> hi <= 2 ^ 48 -> hi - lo <= TOTAL_MEMORY ->
  (forall va, lo <= va < hi -> ~ sect (ram s) (idmap_pg_dir im) va) -> 262 <= bavail s ->
  wp (__create_pgd_mapping early_pgtable_alloc (idmap_pg_dir im) start start size prot 0) s
     (fun _ s' => beff im s s' lo hi lo prot 262).
Proof.
  intros lo hi Hp Ho Hs Hz Hh Ht Hsect Hav.
  assert (0 <= lo < hi).
  { unfold lo, hi, req_lo, req_hi. pose proof (Z.div_mod start 4096).
    pose proof (Z.mod_pos_bound start 4096). pose proof (Z.div_pos start 4096).
    pose proof (Z.div_mod (start + size + 4095) 4096).
    pose proof (Z.mod_pos_bound (start + size + 4095) 4096). lia. }
  pose proof (map_cost_bound lo hi ltac:(lia) Ht).
  eapply wp_mono; [apply (create_pgd_mapping_effect _ _ _ Hp); fold lo hi; (done || lia)|].
  intros [] s' He. eapply effect_weaken; [| |exact He]; [lia|done].
Qed.

(** Where a boot mapping sends an address; the attributes are those of the
    descriptor bits the code passes. *)
Definition boot_map (im : image) (va : Z) : option (Z * Z) :=
  if decide (req_lo (_text_boot im) <= va < PAGE_BALIGN (_etext im))
  then Some (va, attrs PAGE_KERNNEL_ROX)
  else if decide (PAGE_BALIGN (_etext im) <= va < TOTAL_MEMORY)
  then Some (va, attrs PAGE_KERNEL)
  else if decide (PBASE <= va < PBASE + DEVICE_SIZE)
  then Some (va, attrs PROT_DEVICE_nGnRnE)
  else None.

Lemma BALIGN_etext im :
  image_ok im ->
  PAGE_BALIGN (_etext im) = req_hi 0 (_etext im) /\
  _etext im <= req_hi 0 (_etext im) < TOTAL_MEMORY /\ req_hi 0 (_etext im) mod 4096 = 0 /\
  req_hi (_text_boot im) (_etext im - _text_boot im) = req_hi 0 (_etext im).
Proof.
  intros [_ Ht He]. unfold req_hi in *. rewrite !Z.add_0_l in *.
  pose proof (Z.div_mod (_etext im + 4095) 4096).
  pose proof (Z.mod_pos_bound (_etext im + 4095) 4096).
  rewrite PAGE_BALIGN_small by (unfold TOTAL_MEMORY in *; lia).
  split; [done|]. split; [lia|]. split; [by rewrite Z.mod_mul|].
  do 2 f_equal. lia.
Qed.

Lemma aligned_req x : x mod 4096 = 0 -> req_lo x = x.
Proof. intros H. unfold req_lo. pose proof (Z.div_mod x 4096). lia. Qed.

Lemma text_map im s :
  image_ok im -> bok im s -> (forall va, walk (ram s) (idmap_pg_dir im) va = None) ->
  262 <= bavail s ->
  wp (__create_pgd_mapping early_pgtable_alloc (idmap_pg_dir im) (_text_boot im) (_text_boot im)
        (u64 (_etext im - _text_boot im)) PAGE_KERNNEL_ROX 0) s
     (fun _ s' => beff im s s' (req_lo (_text_boot im)) (PAGE_BALIGN (_etext im))
                    (req_lo (_text_boot im)) PAGE_KERNNEL_ROX 262).
Proof.
  intros Him Ho Hw Hav. destruct (BALIGN_etext im Him) as (-> & He & _ & E).
  pose proof (im_text _ Him) as Ht. unfold TOTAL_MEMORY in He.
  pose proof (Z.div_mod (_text_boot im) 4096). pose proof (Z.div_pos (_text_boot im) 4096).
  assert (0 <= req_lo (_text_boot im)) by (unfold req_lo; lia).
  rewrite u64_small by lia. rewrite <-E in He |- *.
  apply identity_map; try done; try (unfold TOTAL_MEMORY in *; lia).
  intros va _ [x Hx]. by rewrite Hw in Hx.
Qed.

Lemma memory_map im s :
  image_ok im -> bok im s ->
  (forall va, PAGE_BALIGN (_etext im) <= va < TOTAL_MEMORY -> ~ sect (ram s) (idmap_pg_dir im) va) ->
  262 <= bavail s ->
  wp (__create_pgd_mapping early_pgtable_alloc (idmap_pg_dir im) (PAGE_BALIGN (_etext im))
        (PAGE_BALIGN (_etext im)) (u64 (TOTAL_MEMORY - PAGE_BALIGN (_etext im))) PAGE_KERNEL 0) s
     (fun _ s' => beff im s s' (PAGE_BALIGN (_etext im)) TOTAL_MEMORY
                    (PAGE_BALIGN (_etext im)) PAGE_KERNEL 262).
Proof.
  intros Him Ho Hs Hav. destruct (BALIGN_etext im Him) as (-> & He & Ha & E).
  pose proof (im_text _ Him) as Ht.
  destruct (BALIGN_etext im Him) as (EB & _). rewrite EB in Hs. clear EB E.
  set (e := req_hi 0 (_etext im)) in *.
  rewrite u64_small by (unfold TOTAL_MEMORY in *; lia).
  assert (req_hi e (TOTAL_MEMORY - e) = TOTAL_MEMORY) as E1.
  { unfold req_hi. replace (e + (TOTAL_MEMORY - e) + 4095) with (4095 + TOTAL_MEMORY) by lia. done. }
  pose proof (identity_map im PAGE_KERNEL e (TOTAL_MEMORY - e) s) as H. cbn zeta in H.
  rewrite E1, (aligned_req e Ha) in H.
  apply H; try done; try lia; unfold TOTAL_MEMORY; lia.
Qed.

Lemma device_map im s :
  bok im s ->
  (forall va, PBASE <= va < PBASE + DEVICE_SIZE -> ~ sect (ram s) (idmap_pg_dir im) va) ->
  262 <= bavail s ->
  wp (create_mmio_mapping im) s
     (fun _ s' => beff im s s' PBASE (PBASE + DEVICE_SIZE) PBASE PROT_DEVICE_nGnRnE 262).
Proof.
  intros Ho Hs Hav.
  pose proof (identity_map im PROT_DEVICE_nGnRnE PBASE DEVICE_SIZE s) as H. cbn zeta in H.
  change (req_lo PBASE) with PBASE in H.
  change (req_hi PBASE DEVICE_SIZE) with (PBASE + DEVICE_SIZE) in H.
  apply H; (done || (by vm_compute)).
Qed.

(** ** paging_init *)

Lemma boot_tables im s :
  image_ok im -> PageAlloc.wf (frames s) -> 1024 <= bavail s ->
  wp (zoom ram_lens (memset (idmap_pg_dir im) 0 PAGE_SIZE);;
      create_identical_mapping im;; create_mmio_mapping im) s (fun _ s' =>
    bok im s' /\ (forall va, 0 <= va < 2 ^ 48 -> tr im s' va = boot_map im va) /\ quiet s s').
Proof.
  intros Him Hwf Hav. destruct (BALIGN_etext im Him) as (EB & He & _ & _). pose proof (im_text _ Him).
  wp_step. eapply wp_mono; [by apply empty_tree|].
  intros _ s0 (O0 & W0 & F0 & Q0). unfold create_identical_mapping. cbn zeta.
  assert (bavail s0 = bavail s) as A0 by (unfold avail; by rewrite F0).
  wp_step. wp_step. eapply wp_mono; [apply text_map; (done || lia)|].
  intros [] s1 [O1 M1 _ S1 C1 Q1].
  assert (forall va, 0 <= va < 2 ^ 48 -> PAGE_BALIGN (_etext im) <= va ->
            ~ sect (ram s1) (idmap_pg_dir im) va) as N1.
  { intros va Hva Hge [x Hx]%S1; [by rewrite W0 in Hx|done|lia]. }
  eapply wp_mono; [apply memory_map; [done|done| |lia]|].
  { intros va Hva. apply N1; unfold TOTAL_MEMORY in *; lia. }
  intros [] s2 [O2 M2 _ S2 C2 Q2].
  eapply wp_mono; [apply device_map; [done| |lia]|].
  { intros va Hva Hse%S2; [|unfold PBASE, DEVICE_SIZE in *; lia|unfold PBASE, TOTAL_MEMORY in *; lia].
    apply N1 in Hse; [done|unfold PBASE, DEVICE_SIZE in *; lia|].
    unfold TOTAL_MEMORY, PBASE in *. lia. }
  intros [] s3 [O3 M3 _ _ _ Q3]. split; [done|].
  split; [|by repeat (etransitivity; [eassumption|])].
  intros va Hva. rewrite M3, M2, M1 by done. unfold boot_map, translate. rewrite W0.
  unfold TOTAL_MEMORY, PBASE, DEVICE_SIZE in *.
  repeat case_decide; try lia; try done; do 2 f_equal; lia.
Qed.

(** The registers [cpu_init] programs, and the events it and [enable_mmu] issue, newest first. *)
Definition mair_value : Z := 0xbbff440c0400.
Definition tcr_value (mmfr : Z) : Z :=
  Z.lor (Z.lor (TCR_TxSZ VA_BITS) TCR_TG_FLAGS) (Z.shiftl (Z.min (Z.land mmfr 0xf) 5) 32).
Definition cpu_init_events (mmfr : Z) : list sysev :=
  [MSR "tcr_el1" (tcr_value mmfr); MSR "mair_el1" mair_value; MSR "mdscr_el1" 0x1000;
   MSR "cpacr_el1" 0x300000; SYS "dsb nsh"; SYS "tlbi vmalle1"].
Definition has_4k_granule (mmfr : Z) : bool := Z.land (Z.shiftr mmfr 28) 0xf =? 0.
Definition enable_mmu_events (im : image) : list sysev :=
  [SYS "isb"; SYS "dsb nsh"; SYS "ic iallu"; SYS "isb"; MSR "sctlr_el1" 1; SYS "isb";
   MSR "ttbr0_el1" (idmap_pg_dir im)].

Lemma parange_small mmfr :
  u64 (Z.shiftl (if ID_AA64MMFR0_PARANGE_48 <? Z.land mmfr 0xf
                 then ID_AA64MMFR0_PARANGE_48 else Z.land mmfr 0xf) TCR_IPS_SHIFT) =
  Z.shiftl (Z.min (Z.land mmfr 0xf) 5) 32.
Proof.
  unfold ID_AA64MMFR0_PARANGE_48, TCR_IPS_SHIFT.
  change 0xf with (2 ^ 4 - 1). rewrite land_ones_mod by lia. change (2 ^ 4) with 16.
  pose proof (Z.mod_pos_bound mmfr 16). rewrite !Z.shiftl_mul_pow2 by lia.
  destruct (Z.ltb_spec 5 (mmfr mod 16)); rewrite u64_small by lia; f_equal; lia.
Qed.

Lemma cpu_init_eq s :
  cpu_init s =
  Ret (tt, Mach (ram s) (frames s) (cpu_init_events (mmfr0 s) ++ trace s) (mmfr0 s) (klog s)).
Proof.
  unfold cpu_init, cpu_init_events, tcr_value. rewrite <-parange_small. reflexivity.
Qed.

Lemma enable_mmu_eq im s :
  enable_mmu im s =
  if has_4k_granule (mmfr0 s)
  then Ret (0, Mach (ram s) (frames s) (enable_mmu_events im ++ trace s) (mmfr0 s) (klog s))
  else Ret (-1, s).
Proof.
  unfold enable_mmu, has_4k_granule, mbind at 1, M_bind at 1, gets.
  change ID_AA64MMFR0_TGRAN4_SHIFT with 28. change ID_AA64MMFR0_TGRAN4_SUPPORTED with 0.
  destruct (Z.land (Z.shiftr (mmfr0 s) 28) 15 =? 0); reflexivity.
Qed.

Lemma paging_init_eq im s :
  image_ok im -> PageAlloc.wf (frames s) -> 1024 <= bavail s ->
  wp (paging_init im) s (fun _ s' =>
    bok im s' /\ (forall va, 0 <= va < 2 ^ 48 -> tr im s' va = boot_map im va) /\
    klog s' = klog s ++ [("enable mmu done" +:+ nl, [])] /\
    exists n, trace s' =
      (if has_4k_granule (mmfr0 s) then enable_mmu_events im else []) ++
      cpu_init_events (mmfr0 s) ++ replicate n (SYS "dsb ishst") ++ trace s).
Proof.
  intros Him Hwf Hav. pose proof (boot_tables im s Him Hwf Hav) as H.
  apply wp_elim in H as ([] & s1 & E & O1 & M1 & Q1 & Q2 & n & Q3).
  assert (paging_init im s =
    ((cpu_init;; _ ← enable_mmu im; printk ("enable mmu done" +:+ nl) []) : M mach unit) s1) as Ep.
  { revert E. unfold paging_init, mbind, M_bind.
    destruct (zoom _ _ s) as [[? ?]| |]; [|done|done].
    destruct (create_identical_mapping im m) as [[? ?]| |]; [|done|done].
    by intros ->. }
  eapply (wp_run _ _ _ s1); [exact Ep|]. apply wp_bind. unfold wp at 1. rewrite cpu_init_eq.
  wp_step. unfold wp at 1. rewrite enable_mmu_eq. cbn [mmfr0 ram frames trace klog].
  rewrite Q1. destruct (has_4k_granule (mmfr0 s)); unfold printk; wp_steps; cbn [mmfr0 ram frames trace klog].
  all: split; [done|]; split; [done|]; split; [by rewrite Q2|]; exists n; by rewrite Q3.
Qed.

(** ** Properties *)

(** C1: The boot page tables: for any image that fits in memory and with 1024 free
    pages, [paging_init] returns, and then a 48-bit address is mapped to itself
    when it is in the kernel text (read-only, executable), in the memory between
    the text and 512 MB (writable), or in the device window; any other address
    faults. The tables form a tree and none of their pages is free. *)
Theorem paging_init_maps im s :
  image_ok im -> PageAlloc.wf (frames s) -> (1024 <= PageAlloc.free_frames (frames s))%nat ->
  exists s', paging_init im s = Ret (tt, s') /\ bok im s' /\
    forall va, 0 <= va < 2 ^ 48 -> tr im s' va = boot_map im va.
Proof.
  intros Him Hwf Hav.
  assert (1024 <= bavail s) as H by (unfold avail, ta_avail; simpl; lia).
  apply (paging_init_eq im s Him Hwf) in H. apply wp_elim in H as ([] & s1 & E & O1 & M1 & _).
  exists s1. split; [exact E|]. split; [exact O1|exact M1].
Qed.

(** C36: The order of the system register writes in [paging_init]: only barriers while
    the tables are built, then [cpu_init], then [TTBR0] before [SCTLR] turns the MMU
    on, and nothing more than barriers after it. On a CPU without 4 KB granules
    [enable_mmu] fails and the MMU stays off, yet the success message is printed. *)
Theorem paging_init_regs im s :
  image_ok im -> PageAlloc.wf (frames s) -> (1024 <= PageAlloc.free_frames (frames s))%nat ->
  exists s' n, paging_init im s = Ret (tt, s') /\
    klog s' = klog s ++ [("enable mmu done" +:+ nl, [])] /\
    trace s' = (if has_4k_granule (mmfr0 s) then enable_mmu_events im else []) ++
      cpu_init_events (mmfr0 s) ++ replicate n (SYS "dsb ishst") ++ trace s.
Proof.
  intros Him Hwf Hav.
  assert (1024 <= bavail s) as H by (unfold avail, ta_avail; simpl; lia).
  apply (paging_init_eq im s Him Hwf) in H. apply wp_elim in H as ([] & s1 & E & _ & _ & K1 & n & T1).
  exists s1, n. split; [exact E|]. split; [exact K1|exact T1].
Qed.

(** The two registers [cpu_init] computes: MAIR holds the attribute
    byte of every memory type at the index the page tables use for it. TCR selects
    48-bit addresses and 4 KB granules for both halves and the physical address
    size the CPU reports, cut at 48 bits, and every other field of it is zero: table walks are neither
    cached nor shared, no top byte is ignored, ASIDs have 8 bits. *)
Theorem cpu_init_fields s :
  exists s' tcr mair, cpu_init s = Ret (tt, s') /\
    trace s' = MSR "tcr_el1" tcr :: MSR "mair_el1" mair :: MSR "mdscr_el1" 0x1000 ::
               MSR "cpacr_el1" 0x300000 :: SYS "dsb nsh" :: SYS "tlbi vmalle1" :: trace s /\
    (forall mt attr, In (mt, attr)
       [(MT_DEVICE_nGnRnE, 0x00); (MT_DEVICE_nGnRE, 0x04); (MT_DEVICE_GRE, 0x0c);
        (MT_NORMAL_NC, 0x44); (MT_NORMAL, 0xff); (MT_NORMAL_WT, 0xbb)] ->
       Z.land (Z.shiftr mair (8 * mt)) 0xff = attr) /\
    tcr = Fields.pack tcr_fields
      [64 - VA_BITS; 0; 0; 0; 0; 0; 0; 64 - VA_BITS; 0; 0; 0; 0; 0; 2; Z.min (Z.land (mmfr0 s) 0xf) 5;
       0; 0; 0; 0; 0; 0] /\
    (fun f => Fields.get f tcr) <$> tcr_fields =
      [16; 0; 0; 0; 0; 0; 0; 16; 0; 0; 0; 0; 0; 2; Z.min (Z.land (mmfr0 s) 0xf) 5; 0; 0; 0; 0; 0; 0].
Proof.
  eexists _, (tcr_value (mmfr0 s)), mair_value. split; [apply cpu_init_eq|].
  split; [done|]. split.
  { intros mt attr H. repeat destruct H as [[= <- <-]|H]; done. }
  unfold tcr_value. set (p := Z.min _ 5). assert (0 <= p <= 5) as Hp.
  { pose proof (land_range 4 0xf (mmfr0 s)). rewrite Z.land_comm in H. unfold p. lia. }
  clearbody p. assert (p = 0 \/ p = 1 \/ p = 2 \/ p = 3 \/ p = 4 \/ p = 5) as H by lia.
  destruct_or! H; subst p; split; reflexivity.
Qed.

(** The attributes of a mapping: may EL1 write, may EL1 execute, may EL0 do anything. *)
Definition el1_writable (attr : Z) : bool := Z.land attr PTE_RDONLY =? 0.
Definition el1_executable (attr : Z) : bool := Z.land attr PTE_PXN =? 0.
Definition el0_access (attr : Z) : bool := negb (Z.land attr PTE_USER =? 0) || (Z.land attr PTE_UXN =? 0).

(** C29: After [paging_init] no address is both writable and executable, all and only the kernel
    text is executable, user code can reach nothing, and every mapping may be used without an access fault. *)
Theorem boot_write_xor_execute im s :
  image_ok im -> PageAlloc.wf (frames s) -> (1024 <= PageAlloc.free_frames (frames s))%nat ->
  exists s', paging_init im s = Ret (tt, s') /\
    forall va pa attr, 0 <= va < 2 ^ 48 -> tr im s' va = Some (pa, attr) ->
      el1_writable attr = negb (el1_executable attr) /\
      el1_executable attr = bool_decide (req_lo (_text_boot im) <= va < PAGE_BALIGN (_etext im)) /\
      el0_access attr = false /\ negb (Z.land attr PTE_AF =? 0) = true.
Proof.
  intros Him Hwf Hav.
  assert (1024 <= bavail s) as H by (unfold avail, ta_avail; simpl; lia).
  apply (paging_init_eq im s Him Hwf) in H. apply wp_elim in H as ([] & s1 & E & _ & M1 & _).
  exists s1. split; [exact E|]. intros va pa attr Hva Ht. rewrite M1 in Ht by done. unfold boot_map in Ht.
  destruct (decide _) as [Hx|Hx]; [|destruct (decide _); [|destruct (decide _); [|discriminate Ht]]];
    injection Ht as <- <-; [rewrite bool_decide_eq_true_2 by exact Hx|rewrite bool_decide_eq_false_2 by exact Hx..];
    vm_compute; repeat split; reflexivity.
Qed.

Definition yios_image : image := Image 0x88000 0x80000 0x83456.
Definition boot_state (mmfr : Z) : mach := Mach ∅ PageAlloc.mem_map_init [] mmfr [].

Lemma yios_image_ok : image_ok yios_image.
Proof. split; by vm_compute. Qed.

Lemma boot_state_free mmfr : (1024 <= PageAlloc.free_frames (frames (boot_state mmfr)))%nat.
Proof. simpl. rewrite PageAlloc.free_frames_init, NR_PAGES_val. lia. Qed.

Lemma paging_init_maps_witness :
  exists s', paging_init yios_image (boot_state 0x1124) = Ret (tt, s') /\ bok yios_image s' /\
    forall va, 0 <= va < 2 ^ 48 -> tr yios_image s' va = boot_map yios_image va.
Proof.
  apply paging_init_maps; [apply yios_image_ok|apply PageAlloc.wf_init|apply boot_state_free].
Defined.

(** Where a run on this image translates: the same for any two runs, as there is one result. *)
Lemma yios_tr mmfr s' va :
  paging_init yios_image (boot_state mmfr) = Ret (tt, s') -> 0 <= va < 2 ^ 48 -> tr yios_image s' va = boot_map yios_image va.
Proof.
  intros E Hva. pose proof (boot_state_free mmfr) as Hf.
  pose proof (paging_init_eq yios_image (boot_state mmfr) yios_image_ok PageAlloc.wf_init) as H.
  apply wp_elim in H as ([] & s1 & E' & _ & M1 & _); [|unfold avail, ta_avail, early_alloc; lia].
  rewrite E in E'. injection E' as <-. by apply M1.
Qed.

Lemma boot_write_xor_execute_witness :
  exists s', paging_init yios_image (boot_state 0x1124) = Ret (tt, s') /\ el1_writable (attrs PAGE_KERNNEL_ROX) = false.
Proof.
  destruct (boot_write_xor_execute yios_image (boot_state 0x1124) yios_image_ok PageAlloc.wf_init (boot_state_free 0x1124))
    as (s' & E & H). exists s'. split; [exact E|].
  destruct (H 0x81000 0x81000 (attrs PAGE_KERNNEL_ROX)) as [H1 _]; [lia|rewrite (yios_tr _ _ _ E) by lia; reflexivity|].
  exact H1.
Defined.

Lemma paging_init_regs_witness :
  exists s' n, paging_init yios_image (boot_state 0xf0001124) = Ret (tt, s') /\
    klog s' = [("enable mmu done" +:+ nl, [])] /\
    trace s' = cpu_init_events 0xf0001124 ++ replicate n (SYS "dsb ishst") ++ [].
Proof.
  apply (paging_init_regs yios_image (boot_state 0xf0001124));
    [apply yios_image_ok|apply PageAlloc.wf_init|apply boot_state_free].
Defined.

Lemma create_pgd_mapping_maps_witness :
  exists s0 s', wp (zoom ram_lens (memset 0x88000 0 PAGE_SIZE)) (boot_state 0) (fun _ s => s = s0) /\
    __create_pgd_mapping early_pgtable_alloc 0x88000 0x3f201004 0x40200123 0x300000 PAGE_KERNEL 0 s0
    = Ret (tt, s') /\
    translate (ram s') 0x88000 0x40201234 = Some (0x3f202234, attrs PAGE_KERNEL).
Proof.
  pose proof (empty_tree yios_image (boot_state 0) yios_image_ok PageAlloc.wf_init) as H.
  apply wp_elim in H as (x & s0 & E & O0 & W0 & F0 & _).
  destruct (create_pgd_mapping_maps early_pgtable_alloc 0x88000 PAGE_KERNEL
              (proj1 (proj2 prot_ok_kernel)) 0 s0 0x3f201004 0x40200123 0x300000)
    as (s1 & E1 & _ & M1 & _).
  1-5: by vm_compute.
  - exact O0.
  - intros va _ [y Hy]. rewrite W0 in Hy. discriminate Hy.
  - apply Z.le_trans with 262.
    { apply map_cost_bound; [split|]; by vm_compute. }
    unfold avail, ta_avail, early_alloc. rewrite F0. pose proof (boot_state_free 0). lia.
  - exists s0, s1. split; [eapply wp_intro; [exact E|done]|]. split; [exact E1|].
    rewrite M1 by lia. by vm_compute.
Defined.

End MmuBoot.
