(* ===== verification/Dump.v ===== *)
(** * Dumping the page tables

    [kernel/dump_pgtable.c]: the tables of attribute names, [dump_prot],
    [print_pgtable] and the four walks, against the walk of [PtWalk]. The memory that holds
    the page tables is an argument; the state is the array [pg_level], whose masks
    [pg_level_init] fills in, and the messages. *)

From S2P Require Import Prelude Base Mem Printk PageAlloc Pgtable PtWalk Mmu MmuMap MmuBoot.
Import Walk.

Module Dump.

(** [clear] may be a null pointer. *)
Record prot_bits : Type := ProtBits {
  mask : Z;
  val : Z;
  set : string;
  clear : option string;
}.

(** The array [bits] and [num] together are a list; a null [bits] is [None]. *)
Record pg_level : Type := PgLevel {
  bits : option (list prot_bits);
  name : option string;
  lmask : Z;
}.

Definition address_markers : list (Z * string) := [(0, "Identical mapping")].

Definition pte_bits : list prot_bits :=
  [ProtBits PTE_VALID PTE_VALID " " (Some "F");
   ProtBits PTE_USER PTE_USER "USR" (Some " ");
   ProtBits PTE_RDONLY PTE_RDONLY "ro" (Some "RW");
   ProtBits PTE_PXN PTE_PXN "NX" (Some "X");
   ProtBits PTE_SHARED PTE_SHARED "SHD" (Some "   ");
   ProtBits PTE_AF PTE_AF "AF" (Some "  ");
   ProtBits PTE_NG PTE_NG "NG" (Some "  ");
   ProtBits PTE_CONT PTE_CONT "CON" (Some "   ");
   ProtBits PTE_TABLE_BIT PTE_TABLE_BIT "   " (Some "BLK");
   ProtBits PTE_UXN PTE_UXN "UXN" None;
   ProtBits PTE_ATTRINDX_MASK (PTE_ATTRINDX MT_DEVICE_nGnRnE) "DEVICE/nGnRnE" None;
   ProtBits PTE_ATTRINDX_MASK (PTE_ATTRINDX MT_DEVICE_nGnRE) "DEVICE/nGnRE" None;
   ProtBits PTE_ATTRINDX_MASK (PTE_ATTRINDX MT_DEVICE_GRE) "DEVICE/GRE" None;
   ProtBits PTE_ATTRINDX_MASK (PTE_ATTRINDX MT_NORMAL_NC) "MEM/NORMAL-NC" None;
   ProtBits PTE_ATTRINDX_MASK (PTE_ATTRINDX MT_NORMAL) "MEM/NORMAL" None].

Definition pg_level_value : list pg_level :=
  [PgLevel None None 0;
   PgLevel (Some pte_bits) (Some "PGD") 0; PgLevel (Some pte_bits) (Some "PUD") 0;
   PgLevel (Some pte_bits) (Some "PMD") 0; PgLevel (Some pte_bits) (Some "PTE") 0].

Record dst : Type := Dst {
  levels : list pg_level;
  klog : list call;
}.
Definition printk (fmt : string) (a : list varg) : M dst unit :=
  modify (fun s => Dst (levels s) (klog s ++ [(fmt, a)])).

Fixpoint dump_prot (prot : Z) (bs : list prot_bits) : M dst unit :=
  match bs with
  | [] => mret tt
  | b :: bs =>
      match (if Z.land prot (mask b) =? val b then Some (set b) else clear b) with
      | Some s => printk " %s" [VStr s]
      | None => mret tt
      end;;
      dump_prot prot bs
  end.

(** The markers; the result tells whether to return. *)
Fixpoint print_markers (start val : Z) (ms : list (Z * string)) : M dst bool :=
  match ms with
  | [] => mret false
  | (a, n) :: ms =>
      (if start =? a then printk ("---[ %s ]---" +:+ nl) [VStr n] else mret tt);;
      if val =? 0 then mret true else print_markers start val ms
  end.

Definition units : list Z := Printk.bytes "KMGT" ++ [0].
(** The loop tests [units[1]], which is never 0. *)
Definition unit_body (st : Z * Z) : M dst (Z * Z + Z * Z) :=
  let '(delta, unit) := st in
  if Z.land delta 1023 =? 0 then mret (inl (Z.shiftr delta 10, unit + 1)) else mret (inr (delta, unit)).

(** Seven rounds empty 64 bits. *)
Definition print_pgtable (start end_ level val : Z) : M dst unit :=
  l ← gets levels;
  lv ← of_option (arr_get l level);
  let prot := Z.land val (lmask lv) in
  ret ← print_markers start val address_markers;
  if (ret : bool) then mret tt
  else
    printk "0x%016lx-0x%016lx   " [VNum start; VNum end_];;
    du ← loop 8 unit_body (Z.shiftr (u64 (end_ - start)) 10, 0);
    c ← of_option (arr_get units du.2);
    printk "%9lu%c %s" [VNum du.1; VNum c; match name lv with Some n => VStr n | None => VNum 0 end];;
    match bits lv with
    | Some bs => dump_prot prot bs
    | None => mret tt
    end;;
    printk nl [].

Section Walks.
Context (m : mem).

Definition walk_pte_body (end_ : Z) (st : Z * Z) : M dst (Z * Z + unit) :=
  let '(addr, ptep) := st in
  print_pgtable addr (u64 (addr + PAGE_SIZE)) 4 (load64 m ptep);;
  let ptep := u64 (ptep + 8) in
  let addr := u64 (addr + PAGE_SIZE) in
  mret (if addr =? end_ then inr tt else inl (addr, ptep)).

Definition walk_pte (pmdp start end_ : Z) : M dst unit :=
  let ptep := pte_offset_phys (load64 m pmdp) start in
  loop (S (Z.to_nat (u64 (end_ - start) / PAGE_SIZE))) (walk_pte_body end_) (start, ptep).

Definition walk_pmd_body (end_ : Z) (st : Z * Z) : M dst (Z * Z + unit) :=
  let '(addr, pmdp) := st in
  let pmd := load64 m pmdp in
  let next := pmd_addr_end addr end_ in
  (if pmd_none pmd || pmd_sect pmd then print_pgtable addr next 3 pmd else walk_pte pmdp addr next);;
  let pmdp := u64 (pmdp + 8) in
  let addr := next in
  mret (if addr =? end_ then inr tt else inl (addr, pmdp)).

Definition walk_pmd (pudp start end_ : Z) : M dst unit :=
  let pmdp := pmd_offset_phys (load64 m pudp) start in
  loop (S (S (Z.to_nat (u64 (end_ - start) / PMD_SIZE)))) (walk_pmd_body end_) (start, pmdp).

(** [next] is computed from [start], not from [addr]. *)
Definition walk_pud_body (start end_ : Z) (st : Z * Z) : M dst (Z * Z + unit) :=
  let '(addr, pudp) := st in
  let pud := load64 m pudp in
  let next := pud_addr_end start end_ in
  (if pud_none pud || pud_sect pud then print_pgtable addr next 2 pud else walk_pmd pudp addr next);;
  let pudp := u64 (pudp + 8) in
  let addr := next in
  mret (if addr =? end_ then inr tt else inl (addr, pudp)).

Definition walk_pud (pgdp start end_ : Z) : M dst unit :=
  let pudp := pud_offset_phys (load64 m pgdp) start in
  loop (S (S (Z.to_nat (u64 (end_ - start) / PUD_SIZE)))) (walk_pud_body start end_) (start, pudp).

Definition walk_pgd_body (end_ : Z) (st : Z * Z) : M dst (Z * Z + unit) :=
  let '(addr, pgdp) := st in
  let pgd_entry := load64 m pgdp in
  let next := pgd_addr_end addr end_ in
  (if pgd_none pgd_entry then print_pgtable addr next 1 pgd_entry else walk_pud pgdp addr next);;
  let pgdp := u64 (pgdp + 8) in
  let addr := next in
  mret (if addr =? end_ then inr tt else inl (addr, pgdp)).

Definition walk_pgd (pgd start size : Z) : M dst unit :=
  let end_ := u64 (start + size) in
  let pgdp := pgd_offset_raw pgd start in
  loop (S (S (Z.to_nat (u64 (end_ - start) / PGDIR_SIZE)))) (walk_pgd_body end_) (start, pgdp).

Definition pg_level_init : M dst unit :=
  modify (fun s => Dst ((fun l => match bits l with
    | Some bs => PgLevel (bits l) (name l) (fold_left (fun a b => Z.lor a (mask b)) bs (lmask l))
    | None => l
    end) <$> levels s) (klog s)).

Definition dump_pgtable (idmap_pg_dir : Z) : M dst unit :=
  pg_level_init;;
  walk_pgd idmap_pg_dir 0 TOTAL_MEMORY.
End Walks.

(** ** What a line shows *)

(** The masks once [pg_level_init] has run. *)
Definition all_mask : Z := fold_left (fun a b => Z.lor a (mask b)) pte_bits 0.
Definition ready_levels : list pg_level :=
  [PgLevel None None 0;
   PgLevel (Some pte_bits) (Some "PGD") all_mask; PgLevel (Some pte_bits) (Some "PUD") all_mask;
   PgLevel (Some pte_bits) (Some "PMD") all_mask; PgLevel (Some pte_bits) (Some "PTE") all_mask].

Definition level_name (level : Z) : string :=
  if level =? 1 then "PGD" else if level =? 2 then "PUD" else if level =? 3 then "PMD" else "PTE".

Definition prot_names (prot : Z) (bs : list prot_bits) : list string :=
  omap (fun b => if Z.land prot (mask b) =? val b then Some (set b) else clear b) bs.

(** A size in the largest unit that divides it. *)
Fixpoint human (fuel : nat) (delta unit : Z) : Z * Z :=
  match fuel with
  | O => (delta, unit)
  | S fuel => if delta mod 1024 =? 0 then human fuel (delta / 1024) (unit + 1) else (delta, unit)
  end.

(** An entry of the dump: a range, a level and the descriptor that serves the range. *)
Definition entry : Type := Z * Z * Z * Z.

Definition lines (e : entry) : list call :=
  let '(start, end_, level, v) := e in
  (if start =? 0 then [("---[ %s ]---" +:+ nl, [VStr "Identical mapping"])] else []) ++
  if v =? 0 then []
  else
    let du := human 4 ((end_ - start) / 1024) 0 in
    [("0x%016lx-0x%016lx   ", [VNum start; VNum end_]);
     ("%9lu%c %s", [VNum du.1; VNum (nth (Z.to_nat du.2) units 0); VStr (level_name level)])] ++
    ((fun n => (" %s", [VStr n])) <$> prot_names (Z.land v all_mask) pte_bits) ++
    [(nl, [])].

Lemma unit_loop k f : forall delta unit s,
  0 < delta < 2 ^ (10 * Z.of_nat f) ->
  loop (S (f + k)) unit_body (delta, unit) s = Ret (human f delta unit, s) /\
  unit <= (human f delta unit).2 < unit + Z.of_nat f.
Proof.
  induction f as [|f IH]; intros delta unit s Hd; [change (2 ^ (10 * Z.of_nat 0)) with 1 in Hd; lia|].
  rewrite loop_unfold. unfold mbind at 1, M_bind at 1. unfold unit_body at 1. cbn [human].
  change 1023 with (2 ^ 10 - 1). rewrite land_ones_mod by lia. change (2 ^ 10) with 1024.
  destruct (Z.eqb_spec (delta mod 1024) 0) as [E|E]; [|cbn [snd]; split; [done|lia]].
  unfold mret, M_ret. rewrite shiftr_div by lia. change (2 ^ 10) with 1024.
  pose proof (Z.div_mod delta 1024).
  cbn [Nat.add].
  destruct (IH (delta / 1024) (unit + 1) s) as [-> H']; [|split; [done|lia]].
  replace (10 * Z.of_nat (S f)) with (10 * Z.of_nat f + 10) in Hd by lia.
  rewrite Z.pow_add_r in Hd by lia. change (2 ^ 10) with 1024 in Hd.
  split; [lia|]. apply Z.div_lt_upper_bound; lia.
Qed.

Lemma dump_prot_eq prot bs lv log :
  dump_prot prot bs (Dst lv log) =
  Ret (tt, Dst lv (log ++ ((fun n => (" %s", [VStr n])) <$> prot_names prot bs))).
Proof.
  revert log. induction bs as [|b bs IH]; intros log; cbn [dump_prot prot_names omap list_omap].
  { by rewrite app_nil_r. }
  unfold mbind at 1, M_bind at 1. destruct (if _ =? _ then _ else _) as [n|].
  - unfold printk, modify. cbn [levels klog]. rewrite IH, <-app_assoc. done.
  - unfold mret, M_ret. by rewrite IH.
Qed.

Lemma ready_level level :
  1 <= level <= 4 ->
  arr_get ready_levels level = Some (PgLevel (Some pte_bits) (Some (level_name level)) all_mask).
Proof.
  intros H. assert (level = 1 \/ level = 2 \/ level = 3 \/ level = 4) as [-> | [-> | [-> | ->]]] by lia; done.
Qed.

Lemma unit_char u : 0 <= u < 5 -> arr_get units u = Some (nth (Z.to_nat u) units 0).
Proof.
  intros H. assert (u = 0 \/ u = 1 \/ u = 2 \/ u = 3 \/ u = 4) as [-> | [-> | [-> | [-> | ->]]]] by lia; done.
Qed.

Lemma print_pgtable_eq start end_ level v log :
  1 <= level <= 4 -> 0 <= start -> start + 1024 <= end_ -> end_ <= 2 ^ 48 ->
  print_pgtable start end_ level v (Dst ready_levels log) =
  Ret (tt, Dst ready_levels (log ++ lines (start, end_, level, v))).
Proof.
  intros Hl Hs Hse He. unfold print_pgtable. unfold mbind at 1, M_bind at 1, gets at 1. cbn [levels].
  unfold mbind at 1, M_bind at 1, of_option at 1. rewrite ready_level by done.
  cbn [lmask name bits]. set (mk := if start =? 0 then [("---[ %s ]---" +:+ nl, [VStr "Identical mapping"])] else []).
  assert (print_markers start v address_markers (Dst ready_levels log) =
    Ret (v =? 0, Dst ready_levels (log ++ mk))) as Hmk.
  { unfold mk, address_markers. cbn [print_markers]. unfold mbind, M_bind, printk, modify, mret, M_ret.
    destruct (start =? 0), (v =? 0); cbn [levels klog]; by rewrite ?app_nil_r. }
  unfold mbind at 1, M_bind at 1. rewrite Hmk. cbn [lines]. fold mk.
  destruct (v =? 0); [by rewrite app_nil_r|].
  rewrite u64_small, shiftr_div by lia. change (2 ^ 10) with 1024. set (delta := (end_ - start) / 1024).
  assert (0 < delta < 2 ^ (10 * Z.of_nat 4)) as Hd.
  { change (2 ^ (10 * Z.of_nat 4)) with (2 ^ 40). unfold delta. split; [|apply Z.div_lt_upper_bound; lia].
    apply Z.div_str_pos. lia. }
  unfold mbind at 1, M_bind at 1, printk at 1, modify at 1. cbn [levels klog].
  unfold mbind at 1, M_bind at 1.
  destruct (unit_loop 3 4 delta 0 (Dst ready_levels ((log ++ mk) ++ [("0x%016lx-0x%016lx   ", [VNum start; VNum end_])])) Hd)
    as [Hu Hr].
  change (S (4 + 3)) with 8%nat in Hu. rewrite Hu.
  unfold mbind at 1, M_bind at 1, of_option at 1. rewrite unit_char by lia.
  unfold mbind at 1, M_bind at 1, printk at 1, modify at 1. cbn [levels klog].
  unfold mbind at 1, M_bind at 1. rewrite dump_prot_eq. unfold printk, modify. cbn [levels klog].
  by rewrite <-!app_assoc.
Qed.

(** Every line can be printed. *)
Ltac message gs :=
  apply (Printk.printable_segs _ gs []);
  [reflexivity | by apply Printk.seg_okb_ok | apply Nat.ltb_lt; reflexivity].

Lemma lines_printable e : Forall Printk.printable (lines e).
Proof.
  destruct e as [[[start end_] level] v]. unfold lines. apply Forall_app. split.
  { destruct (start =? 0); [|done]. apply Forall_singleton.
    message [Printk.Text (Printk.bytes "---[ "); Printk.Str "Identical mapping"; Printk.Text (Printk.bytes (" ]---" +:+ nl))]. }
  destruct (v =? 0); [done|]. set (du := human _ _ _). 
  apply Forall_app; split; [apply Forall_cons; split; [|apply Forall_singleton]|apply Forall_app; split].
  - message [Printk.Text (Printk.bytes "0x"); Printk.Num true 16 Printk.Ql Printk.Kx start; Printk.Text (Printk.bytes "-0x");
             Printk.Num true 16 Printk.Ql Printk.Kx end_; Printk.Text (Printk.bytes "   ")].
  - assert (exists n, level_name level = n /\ (n = "PGD" \/ n = "PUD" \/ n = "PMD" \/ n = "PTE")) as (n & -> & Hn).
    { unfold level_name. destruct (level =? 1), (level =? 2), (level =? 3); eauto 10. }
    destruct Hn as [-> | [-> | [-> | ->]]];
    [set (n := "PGD")|set (n := "PUD")|set (n := "PMD")|set (n := "PTE")];
    message [Printk.Num false 9 Printk.Ql Printk.Ku du.1; Printk.Char (nth (Z.to_nat du.2) units 0);
             Printk.Text (Printk.bytes " "); Printk.Str n].
  - apply Forall_fmap, Forall_forall. intros n Hn. unfold compose.
    assert (Forall (fun n => (length (Printk.bytes n) <= 20)%nat) (prot_names (Z.land v all_mask) pte_bits)) as Hs.
    { unfold prot_names. apply Forall_forall. intros x Hx. apply list_elem_of_omap in Hx as (b & Hb & E).
      assert (Forall (fun b => (length (Printk.bytes (set b)) <= 20)%nat /\
        match clear b with Some c => (length (Printk.bytes c) <= 20)%nat | None => True end) pte_bits) as Hall.
      { repeat constructor; simpl; lia. }
      rewrite Forall_forall in Hall. destruct (Hall b Hb) as [H1 H2]. destruct (_ =? _); [by injection E as <-|].
      by rewrite E in H2. }
    rewrite Forall_forall in Hs. specialize (Hs n Hn).
    apply (Printk.printable_segs _ [Printk.Text (Printk.bytes " "); Printk.Str n] []);
      [reflexivity|by apply Printk.seg_okb_ok|]. simpl. lia.
  - apply Forall_singleton. message [Printk.Text (Printk.bytes nl)].
Qed.

(** ** The walks *)

(** The entries follow each other from [a] to [b]. *)
Fixpoint chain (a : Z) (es : list entry) (b : Z) : Prop :=
  match es with
  | [] => a = b
  | (s, e, _, _) :: es => s = a /\ s < e /\ chain e es b
  end.

Lemma chain_bounds es : forall a b, chain a es b ->
  a <= b /\ forall s e l v, (s, e, l, v) ∈ es -> a <= s /\ e <= b.
Proof.
  induction es as [|[[[s0 e0] l0] v0] es IH]; intros a b; cbn [chain].
  - intros ->. split; [lia|]. intros s e l v H. by apply elem_of_nil in H.
  - intros (-> & H1 & H2). destruct (IH _ _ H2) as [H3 H4]. split; [lia|].
    intros s e l v H. apply elem_of_cons in H as [[= -> -> -> ->]|H]; [lia|]. apply H4 in H. lia.
Qed.

(** What a descriptor says by itself, without following a table: a page at the last level,
    a block at the two above it. *)
Definition leaf (level v va : Z) : option (Z * Z) :=
  let n := Z.to_nat (4 - level) in
  if ((level =? 4) && (v mod 4 =? 3)) || (((level =? 2) || (level =? 3)) && (v mod 4 =? 1))
  then Some (out_addr n v va, attrs v) else None.

(** A walk that meets no table ends at once. *)
Lemma walk_leaf m k v va :
  (k <= 3)%nat -> (k <> 0%nat -> v mod 4 <> 3) -> snd <$> walk_entry m k v va = leaf (4 - Z.of_nat k) v va.
Proof.
  intros Hk Hv. unfold leaf. replace (Z.to_nat (4 - (4 - Z.of_nat k))) with k by lia.
  destruct k as [|k]; cbn [walk_entry]; [by destruct (v mod 4 =? 3)|].
  rewrite (proj2 (Z.eqb_neq (v mod 4) 3)) by auto.
  do 3 (destruct k as [|k]; [by destruct (v mod 4 =? 1)|]). lia.
Qed.

Lemma chain_app a es1 b es2 c : chain a es1 b -> chain b es2 c -> chain a (es1 ++ es2) c.
Proof.
  revert a. induction es1 as [|[[[s e] l] v] es1 IH]; intros a; cbn [chain app]; [by intros ->|].
  intros (H1 & H2 & H3) H. split; [done|]. split; [done|]. by apply IH.
Qed.

Section Spec.
Context (m : mem) (root : Z) (own : owners) (Hpt : pt_ok own m root).

(** An entry shows the descriptor at which the translation of its addresses ends: it is no
    table, its range is inside the one block or page that a descriptor of its level serves, and every address of the
    range translates, or does not, as the descriptor by itself says. *)
Definition entry_ok (e : entry) : Prop :=
  let '(start, end_, level, v) := e in
  1 <= level <= 4 /\ (level < 4 -> v mod 4 <> 3) /\
  (let block := 2 ^ shift (Z.to_nat (4 - level)) in (end_ - 1) / block = start / block) /\
  forall va, start <= va < end_ -> translate m root va = leaf level v va.

(** A computation that dumps a range. *)
Definition dumps (f : M dst unit) (lo hi : Z) : Prop :=
  forall log, exists es, f (Dst ready_levels log) = Ret (tt, Dst ready_levels (log ++ concat (lines <$> es))) /\
    chain lo es hi /\ Forall entry_ok es.

(** The slot of [lo] in the level-[k] table on its path. *)
Definition slot (k : nat) (lo p : Z) : Prop := exists t, table m root k lo = Some t /\ p = t + 8 * idx k lo.

Lemma slot_range k lo p : 0 <= lo < 2 ^ 48 -> slot k lo p -> 0 <= p /\ p + 8 <= 2 ^ 48.
Proof.
  intros Hlo (t & Ht & ->). apply (own_table Hpt) in Ht; [|done]. apply (pt_page _ _ _ Hpt) in Ht.
  pose proof (idx_range k lo). lia.
Qed.

Lemma slot_next k lo hi p :
  0 <= lo < hi -> MmuMap.block_end k lo hi < hi -> lo / 2 ^ shift (S k) = (hi - 1) / 2 ^ shift (S k) ->
  slot k lo p -> slot k (MmuMap.block_end k lo hi) (p + 8).
Proof.
  intros Hr Hn Hblk (t & Ht & ->). set (n := MmuMap.block_end k lo hi) in *.
  destruct (MmuMap.block_end_spec k lo hi Hr) as (Hb & Hb1 & _). fold n in Hb, Hb1.
  destruct (Hb1 Hn) as [Hdiv _].
  assert (n / 2 ^ shift (S k) = lo / 2 ^ shift (S k)) as Hsame.
  { assert (0 < 2 ^ shift (S k)) by (pose proof (shift_pos (S k)); lia).
    assert (lo / 2 ^ shift (S k) <= n / 2 ^ shift (S k)) by (apply Z.div_le_mono; lia).
    assert (n / 2 ^ shift (S k) <= (hi - 1) / 2 ^ shift (S k)) by (apply Z.div_le_mono; lia). lia. }
  exists t. split; [rewrite <-Ht; by apply table_same_block|].
  pose proof (block_split k n). pose proof (block_split k lo). rewrite Hsame in *. lia.
Qed.

(** The addresses of one block share their descriptor. *)
Lemma walk_slot k lo p va :
  slot k lo p -> va / 2 ^ shift k = lo / 2 ^ shift k -> walk m root va = walk_entry m k (load64 m p) va.
Proof.
  intros (t & Ht & ->) E. assert (va / 2 ^ shift (S k) = lo / 2 ^ shift (S k)) as E'.
  { by rewrite !div_shift_S, E. }
  assert (idx k va = idx k lo) as <- by (unfold idx; by rewrite E).
  apply walk_at_table. rewrite <-Ht. by apply table_same_block.
Qed.

Lemma dumps_seq f g lo mid hi : dumps f lo mid -> dumps g mid hi -> dumps (f;; g) lo hi.
Proof.
  intros Hf Hg log. destruct (Hf log) as (e1 & E1 & C1 & F1).
  destruct (Hg (log ++ concat (lines <$> e1))) as (e2 & E2 & C2 & F2).
  exists (e1 ++ e2). unfold mbind, M_bind. rewrite E1, E2, fmap_app, concat_app, app_assoc.
  split; [done|]. split; [by eapply chain_app|]. by apply Forall_app.
Qed.

(** One entry, at a slot that is not a table. *)
Lemma dumps_entry k lo n p :
  (k <= 3)%nat -> (k <> 0%nat -> load64 m p mod 4 <> 3) -> slot k lo p -> 0 <= lo -> lo + 1024 <= n -> n <= 2 ^ 48 -> (n - 1) / 2 ^ shift k = lo / 2 ^ shift k ->
  dumps (print_pgtable lo n (4 - Z.of_nat k) (load64 m p)) lo n.
Proof.
  intros Hk Ht Hs H0 H1 H2 Hb log. exists [(lo, n, 4 - Z.of_nat k, load64 m p)].
  rewrite print_pgtable_eq by lia. cbn [fmap list_fmap concat]. rewrite app_nil_r. split; [done|].
  split; [cbn [chain]; lia|]. apply Forall_singleton. split; [lia|].
  split; [intros; apply Ht; lia|]. replace (Z.to_nat (4 - (4 - Z.of_nat k))) with k by lia. split; [exact Hb|].
  intros va Hva. rewrite <-(walk_leaf m) by done. unfold translate. f_equal.
  apply (walk_slot k lo); [done|].
  assert (0 < 2 ^ shift k) by (pose proof (shift_pos k); lia).
  assert (lo / 2 ^ shift k <= va / 2 ^ shift k) by (apply Z.div_le_mono; lia).
  assert (va / 2 ^ shift k <= (n - 1) / 2 ^ shift k) by (apply Z.div_le_mono; lia). lia.
Qed.

(** A loop over the slots of a table. *)
Lemma dump_loop k hi (op : Z -> Z -> M dst unit) (body : Z * Z -> M dst (Z * Z + unit)) fuel : forall lo p,
  (forall lo p, 0 <= lo < hi -> lo mod 4096 = 0 -> slot k lo p ->
     (forall log, body (lo, p) (Dst ready_levels log) =
       (op p lo;; mret (if MmuMap.block_end k lo hi =? hi then inr tt else inl (MmuMap.block_end k lo hi, p + 8)))
         (Dst ready_levels log)) /\
     dumps (op p lo) lo (MmuMap.block_end k lo hi)) ->
  0 <= lo < hi -> lo mod 4096 = 0 -> hi mod 4096 = 0 -> slot k lo p ->
  lo / 2 ^ shift (S k) = (hi - 1) / 2 ^ shift (S k) ->
  (hi - 1) / 2 ^ shift k - lo / 2 ^ shift k < Z.of_nat fuel ->
  dumps (loop fuel body (lo, p)) lo hi.
Proof.
  induction fuel as [|fuel IH]; intros lo p Hop Hr Ha Hh Hs Hblk Hf.
  { assert (lo / 2 ^ shift k <= (hi - 1) / 2 ^ shift k); [|lia].
    apply Z.div_le_mono; [pose proof (shift_pos k)|]; lia. }
  intros log. destruct (Hop lo p Hr Ha Hs) as [Hb Hd]. destruct (Hd log) as (e1 & E1 & C1 & F1).
  destruct (MmuMap.block_end_spec k lo hi Hr) as (Hn & Hn1 & _). pose proof (MmuMap.block_end_aligned k lo hi Hr Hh) as Hna.
  rewrite loop_unfold. unfold mbind at 1, M_bind at 1. rewrite Hb. unfold mbind at 1, M_bind at 1. rewrite E1.
  unfold mret, M_ret. destruct (Z.eqb_spec (MmuMap.block_end k lo hi) hi) as [E|E].
  - rewrite E in C1. by exists e1.
  - destruct Hn1 as [Hdiv _]; [lia|].
    assert (lo / 2 ^ shift (S k) <= MmuMap.block_end k lo hi / 2 ^ shift (S k) <= (hi - 1) / 2 ^ shift (S k)).
    { split; (apply Z.div_le_mono; [pose proof (shift_pos (S k))|]; lia). }
    destruct (IH (MmuMap.block_end k lo hi) (p + 8) Hop ltac:(lia) Hna Hh
      ltac:(apply slot_next; (done || lia)) ltac:(lia) ltac:(lia) (log ++ concat (lines <$> e1))) as (e2 & E2 & C2 & F2).
    exists (e1 ++ e2). rewrite E2, fmap_app, concat_app, app_assoc. split; [done|].
    split; [by eapply chain_app|]. by apply Forall_app.
Qed.

Lemma slot_table k lo p :
  0 <= lo < 2 ^ 48 -> slot (S k) lo p ->
  let e := load64 m p in
  e = 0 \/ (e mod 4 = 3 /\ 0 <= Z.land e PTE_ADDR_MASK /\ Z.land e PTE_ADDR_MASK + 4096 <= 2 ^ 48 /\
            slot k lo (Z.land e PTE_ADDR_MASK + 8 * idx k lo)) \/ (k = O /\ e mod 4 = 1).
Proof.
  intros Hlo (t & Ht & ->) e. pose proof (own_table Hpt lo (S k) t Hlo Ht) as Ho.
  destruct (pt_step Hpt t k lo Ho) as [E|[(q & Hq & Hoq & Hl & Hm)|E]]; [by left| |by right; right].
  right; left. fold e in Hl, Hm. destruct (pt_page _ _ _ Hpt _ _ _ Hoq) as (_ & H0 & H1).
  split; [done|]. rewrite Hl. split; [done|]. split; [done|]. exists q. split; [|done].
  rewrite <-Hl. by apply (table_from_step m 3 root lo k t).
Qed.

Lemma dump_step k hi lo p :
  (k <= 3)%nat -> 0 <= lo < hi -> hi <= 2 ^ 48 -> slot k lo p ->
  addr_end (2 ^ shift k) (not64 (2 ^ shift k - 1)) lo hi = MmuMap.block_end k lo hi /\ u64 (p + 8) = p + 8.
Proof.
  intros Hk Hr Hh Hs. split; [by apply MmuMap.addr_end_block|].
  pose proof (slot_range k lo p ltac:(lia) Hs). apply u64_small. lia.
Qed.

Lemma block_room k lo hi :
  0 <= lo < hi -> lo mod 4096 = 0 -> hi mod 4096 = 0 -> lo + 1024 <= MmuMap.block_end k lo hi.
Proof.
  intros Hr Hl Hh. pose proof (MmuMap.block_end_aligned k lo hi Hr Hh) as Ha.
  destruct (MmuMap.block_end_spec k lo hi Hr) as (Hb & _).
  pose proof (Z.div_mod lo 4096). pose proof (Z.div_mod (MmuMap.block_end k lo hi) 4096). lia.
Qed.

Lemma walk_pte_dumps pmdp lo hi :
  0 <= lo < hi -> hi <= 2 ^ 48 -> lo mod 4096 = 0 -> hi mod 4096 = 0 -> (hi - 1) / 2 ^ shift 1 = lo / 2 ^ shift 1 ->
  0 <= Z.land (load64 m pmdp) PTE_ADDR_MASK -> Z.land (load64 m pmdp) PTE_ADDR_MASK + 4096 <= 2 ^ 48 ->
  slot 0 lo (Z.land (load64 m pmdp) PTE_ADDR_MASK + 8 * idx 0 lo) ->
  dumps (walk_pte m pmdp lo hi) lo hi.
Proof.
  intros Hr Hh Hl Hhi Hb H0 H1 Hs. unfold walk_pte.
  rewrite (proj1 (MmuMap.pte_offset_idx _ lo ltac:(lia) H0 H1)).
  apply (dump_loop 0 hi (fun p a => print_pgtable a (MmuMap.block_end 0 a hi) 4 (load64 m p))); try done.
  - intros a p Ha Haa Hsa. split.
    + intros log. unfold walk_pte_body. change PAGE_SIZE with 4096.
      rewrite (MmuMap.block_end_page a hi), !(u64_small (a + _)) by (done || lia).
      by destruct (dump_step 0 hi a p ltac:(lia) Ha Hh Hsa) as [_ ->].
    + apply (dumps_entry 0); [lia|done|done|lia|by apply block_room| |by apply MmuMap.block_end_spec].
      pose proof (MmuMap.block_end_spec 0 a hi Ha). lia.
  - rewrite u64_small by lia. change PAGE_SIZE with 4096. change (2 ^ shift 0) with 4096.
    pose proof (Z.div_mod lo 4096). pose proof (Z.div_mod hi 4096).
    assert ((hi - 1) / 4096 = hi / 4096 - 1) as -> by (symmetry; apply Z.div_unique with 4095; lia).
    assert ((hi - lo) / 4096 = hi / 4096 - lo / 4096) as -> by (symmetry; apply Z.div_unique with 0; lia).
    lia.
Qed.

Lemma mod4_sect e : pmd_sect e = (e mod 4 =? 1) /\ pud_sect e = (e mod 4 =? 1).
Proof. unfold pmd_sect, pud_sect. rewrite MmuMap.mod4_land. done. Qed.

Lemma walk_pmd_dumps pudp lo hi :
  0 <= lo < hi -> hi <= 2 ^ 48 -> lo mod 4096 = 0 -> hi mod 4096 = 0 -> (hi - 1) / 2 ^ shift 2 = lo / 2 ^ shift 2 ->
  0 <= Z.land (load64 m pudp) PTE_ADDR_MASK -> Z.land (load64 m pudp) PTE_ADDR_MASK + 4096 <= 2 ^ 48 ->
  slot 1 lo (Z.land (load64 m pudp) PTE_ADDR_MASK + 8 * idx 1 lo) ->
  dumps (walk_pmd m pudp lo hi) lo hi.
Proof.
  intros Hr Hh Hl Hhi Hb H0 H1 Hs. unfold walk_pmd.
  rewrite (proj1 (proj2 (MmuMap.pte_offset_idx _ lo ltac:(lia) H0 H1))).
  apply (dump_loop 1 hi (fun p a => let n := MmuMap.block_end 1 a hi in
    if pmd_none (load64 m p) || pmd_sect (load64 m p) then print_pgtable a n 3 (load64 m p) else walk_pte m p a n));
    try done; [|by apply MmuMap.upper_fuel].
  intros a p Ha Haa Hsa. destruct (dump_step 1 hi a p ltac:(lia) Ha Hh Hsa) as [En Ep].
  destruct (MmuMap.block_end_spec 1 a hi Ha) as (Hn & _ & Hn2). split.
  - intros log. unfold walk_pmd_body, pmd_addr_end. change PMD_SIZE with (2 ^ shift 1). change PMD_MASK with (not64 (2 ^ shift 1 - 1)).
    by rewrite En, Ep.
  - cbv zeta. rewrite (proj1 (mod4_sect _)). unfold pmd_none.
    assert (load64 m p mod 4 <> 3 -> dumps (print_pgtable a (MmuMap.block_end 1 a hi) 3 (load64 m p)) a (MmuMap.block_end 1 a hi)) as Hleaf.
    { intros E. apply (dumps_entry 1); [lia|done|done|lia|by apply block_room|lia|done]. }
    destruct (slot_table 0 a p ltac:(lia) Hsa) as [E|[(E & T0 & T1 & Ts)|[_ E]]].
    + rewrite E in Hleaf |- *. by apply Hleaf.
    + rewrite E. destruct (Z.eqb_spec (load64 m p) 0) as [E0|_]; [by rewrite E0 in E|]. cbn [orb].
      apply walk_pte_dumps; (done || lia || by apply MmuMap.block_end_aligned).
    + rewrite E in *. destruct (load64 m p =? 0); by apply Hleaf.
Qed.

(** A range inside one 1 GB block: [walk_pud] and [walk_pgd] make one round. *)
Lemma one_block k lo hi :
  0 <= lo < hi -> (hi - 1) / 2 ^ shift k = lo / 2 ^ shift k -> MmuMap.block_end k lo hi = hi.
Proof.
  intros Hr Hb. destruct (MmuMap.block_end_spec k lo hi Hr) as (Hn & Hn1 & _).
  destruct (decide (MmuMap.block_end k lo hi = hi)) as [|Hne]; [done|].
  destruct Hn1 as [Hd _]; [lia|].
  assert (MmuMap.block_end k lo hi / 2 ^ shift k <= (hi - 1) / 2 ^ shift k); [|lia].
  apply Z.div_le_mono; [pose proof (shift_pos k)|]; lia.
Qed.

Lemma walk_pud_dumps pgdp lo hi :
  0 <= lo < hi -> hi <= 2 ^ 48 -> lo mod 4096 = 0 -> hi mod 4096 = 0 -> (hi - 1) / 2 ^ shift 2 = lo / 2 ^ shift 2 ->
  0 <= Z.land (load64 m pgdp) PTE_ADDR_MASK -> Z.land (load64 m pgdp) PTE_ADDR_MASK + 4096 <= 2 ^ 48 ->
  slot 2 lo (Z.land (load64 m pgdp) PTE_ADDR_MASK + 8 * idx 2 lo) ->
  dumps (walk_pud m pgdp lo hi) lo hi.
Proof.
  intros Hr Hh Hl Hhi Hb H0 H1 Hs. unfold walk_pud.
  rewrite (proj2 (proj2 (MmuMap.pte_offset_idx _ lo ltac:(lia) H0 H1))).
  set (p := Z.land (load64 m pgdp) PTE_ADDR_MASK + 8 * idx 2 lo) in *. rewrite loop_unfold. intros log. unfold mbind at 1, M_bind at 1.
  unfold walk_pud_body at 1, pud_addr_end. change PUD_SIZE with (2 ^ shift 2). change PUD_MASK with (not64 (2 ^ shift 2 - 1)).
  rewrite MmuMap.addr_end_block, one_block, Z.eqb_refl by (done || lia).
  assert (dumps (if pud_none (load64 m p) || pud_sect (load64 m p) then print_pgtable lo hi 2 (load64 m p)
                 else walk_pmd m p lo hi) lo hi) as Hd.
  { rewrite (proj2 (mod4_sect _)). unfold pud_none.
    destruct (slot_table 1 lo p ltac:(lia) Hs) as [E|[(E & T0 & T1 & Ts)|[E _]]]; [| |done].
    - assert (dumps (print_pgtable lo hi 2 (load64 m p)) lo hi) as Hleaf; [|by rewrite E in Hleaf |- *].
      apply (dumps_entry 2); [lia|by rewrite E|done|lia| |lia|done].
      rewrite <-(one_block 2 lo hi) by done. by apply block_room.
    - rewrite E. destruct (Z.eqb_spec (load64 m p) 0) as [E0|_]; [by rewrite E0 in E|]. cbn [orb].
      by apply walk_pmd_dumps. }
  destruct (Hd log) as (es & E & C & F). exists es. unfold mbind, M_bind. by rewrite E.
Qed.

Lemma walk_pgd_dumps lo size :
  let hi := lo + size in
  0 <= lo < hi -> hi <= 2 ^ 48 -> lo mod 4096 = 0 -> hi mod 4096 = 0 -> (hi - 1) / 2 ^ shift 2 = lo / 2 ^ shift 2 ->
  dumps (walk_pgd m root lo size) lo hi.
Proof.
  intros hi Hr Hh Hl Hhi Hb. unfold walk_pgd. rewrite (u64_small (lo + size)) by (fold hi; lia). fold hi.
  destruct (pt_page _ _ _ Hpt _ _ _ (pt_root _ _ _ Hpt)) as (Ra & R0 & R1).
  assert (pgd_offset_raw root lo = root + 8 * idx 3 lo) as ->.
  { unfold pgd_offset_raw, pgd_index. change (PTRS_PER_PGD - 1) with (2 ^ 9 - 1).
    rewrite land_ones_mod, shiftr_div by (vm_compute; congruence).
    change ((lo / 2 ^ PGDIR_SHIFT) mod 2 ^ 9) with (idx 3 lo).
    pose proof (idx_range 3 lo). rewrite u64_small by lia. lia. }
  assert (slot 3 lo (root + 8 * idx 3 lo)) as Hs by (by exists root).
  assert ((hi - 1) / 2 ^ shift 3 = lo / 2 ^ shift 3) as Hb3 by (by rewrite !(div_shift_S 2), Hb).
  set (p := root + 8 * idx 3 lo) in *. rewrite loop_unfold. intros log. unfold mbind at 1, M_bind at 1.
  unfold walk_pgd_body at 1, pgd_addr_end. change PGDIR_SIZE with (2 ^ shift 3). change PGDIR_MASK with (not64 (2 ^ shift 3 - 1)).
  rewrite MmuMap.addr_end_block, one_block, Z.eqb_refl by (done || lia).
  assert (dumps (if pgd_none (load64 m p) then print_pgtable lo hi 1 (load64 m p) else walk_pud m p lo hi) lo hi) as Hd.
  { unfold pgd_none. destruct (slot_table 2 lo p ltac:(lia) Hs) as [E|[(E & T0 & T1 & Ts)|[E _]]]; [| |done].
    - assert (dumps (print_pgtable lo hi 1 (load64 m p)) lo hi) as Hleaf; [|by rewrite E in Hleaf |- *].
      apply (dumps_entry 3); [lia|by rewrite E|done|lia| |lia|done].
      rewrite <-(one_block 3 lo hi) by done. by apply block_room.
    - destruct (Z.eqb_spec (load64 m p) 0) as [E0|_]; [by rewrite E0 in E|]. by apply walk_pud_dumps. }
  destruct (Hd log) as (es & E & C & F). exists es. unfold mbind, M_bind. by rewrite E.
Qed.

(** ** Properties *)

Lemma dump_pgtable_run log :
  exists es, dump_pgtable m root (Dst pg_level_value log) =
    Ret (tt, Dst ready_levels (log ++ concat (lines <$> es))) /\
  chain 0 es TOTAL_MEMORY /\ Forall entry_ok es /\ Forall Printk.printable (concat (lines <$> es)).
Proof.
  destruct (walk_pgd_dumps 0 TOTAL_MEMORY ltac:(by vm_compute) ltac:(by vm_compute) eq_refl eq_refl eq_refl log)
    as (es & E & C & F).
  exists es. split; [exact E|]. split; [exact C|]. split; [done|].
  clear E C F. induction es as [|e es IH]; [done|]. rewrite fmap_cons. apply Forall_app. split; [apply lines_printable|done].
Qed.

(** C23: Dumping the page tables: for tables that form a tree, [dump_pgtable] returns; the
    entries it prints follow each other without a gap from address 0 to the end
    of memory; each shows a descriptor that is not a table, its range lies in the one page or block of that
    descriptor, and every address of the range translates as the descriptor by itself says, to its page or block with
    its attributes or not at all, so the walk went down to where the translation ends; and every line printed
    is defined and within the print buffer. *)
Theorem dump_pgtable_spec log :
  exists es, dump_pgtable m root (Dst pg_level_value log) =
    Ret (tt, Dst ready_levels (log ++ concat (lines <$> es))) /\
  chain 0 es TOTAL_MEMORY /\ Forall entry_ok es /\ Forall Printk.printable (concat (lines <$> es)).
Proof. apply dump_pgtable_run. Qed.

End Spec.

(** [walk_pud] on a range that goes past the block of [start] never returns, however
    long it runs: its next address is computed from [start] and never reaches the end. *)
Theorem walk_pud_stuck m start end_ fuel st s r :
  pud_addr_end start end_ <> end_ -> loop fuel (walk_pud_body m start end_) st s <> Ret r.
Proof.
  intros Hne. revert st s. induction fuel as [|fuel IH]; intros [addr pudp] s; [done|].
  rewrite loop_unfold. unfold mbind at 1, M_bind at 1. unfold walk_pud_body at 1. unfold mbind at 1, M_bind at 1.
  set (f := if _ : bool then _ else _ : M dst unit). destruct (f s) as [[[] s']| |]; [|done|done].
  unfold mret, M_ret. rewrite (proj2 (Z.eqb_neq _ _)) by done. apply IH.
Qed.

(** ** Witnesses *)

Lemma walk_pud_stuck_witness :
  loop 1000 (walk_pud_body ∅ 0 (2 ^ 31)) (0, 0) (Dst ready_levels []) <> Ret (tt, Dst ready_levels []).
Proof. apply (walk_pud_stuck ∅ 0 (2 ^ 31)). by vm_compute. Defined.

(** The tables of boot. *)
Lemma boot_tree : exists m own, pt_ok own m 0x88000.
Proof.
  assert (1024 <= MmuMap.avail Mmu.early_pgtable_alloc (MmuBoot.boot_state 0)) as Ha.
  { unfold MmuMap.avail, MmuMap.ta_avail, MmuBoot.early_alloc. pose proof (MmuBoot.boot_state_free 0). lia. }
  pose proof (MmuBoot.boot_tables MmuBoot.yios_image (MmuBoot.boot_state 0) MmuBoot.yios_image_ok PageAlloc.wf_init Ha) as H.
  apply wp_elim in H as (x & s' & _ & [_ (own & Hpt & _)] & _).
  by exists (Mmu.ram s'), own.
Qed.

Lemma dump_pgtable_spec_witness :
  exists m own es, pt_ok own m 0x88000 /\
    dump_pgtable m 0x88000 (Dst pg_level_value []) = Ret (tt, Dst ready_levels ([] ++ concat (lines <$> es))) /\
    chain 0 es TOTAL_MEMORY /\ Forall (entry_ok m 0x88000) es.
Proof.
  destruct boot_tree as (m & own & Hpt).
  destruct (dump_pgtable_spec m 0x88000 own Hpt []) as (es & E & C & F & _).
  exists m, own, es. split; [exact Hpt|]. split; [exact E|]. split; [exact C|exact F].
Defined.

End Dump.
