(* ===== verification/Sched.v ===== *)
(** * Tasks and the scheduler

    [kernel/sched.c], [kernel/sched_simple.c], [kernel/fork.c], [init/init_task.c],
    [include/yios/sched.h], [asm/processor.h], [asm/current.h] and [cpu_switch_to]
    and [ret_from_fork] of [core/entry.S].

    A [struct task_struct] is identified by its address. Its fields live in [tasks],
    except [run_list], which is the list node at offset 128. Memory that was never
    written reads as zeros; what a fresh page holds is whatever the map holds there.
    A context switch does not return to its caller: the code after it runs on the
    stack of the task switched to. The stack frame that a suspended task has in
    [__schedule] is recorded by the function that frame returns to. *)

From S2P Require Import Prelude Base PageAlloc Klist.
Import Klist.

Module Sched.

(** ** Data *)

Record cpu_context : Type := CpuContext {
  x19 : Z; x20 : Z; x21 : Z; x22 : Z; x23 : Z; x24 : Z; x25 : Z; x26 : Z; x27 : Z; x28 : Z;
  fp : Z; sp : Z; pc : Z;
}.
Definition zero_context : cpu_context := CpuContext 0 0 0 0 0 0 0 0 0 0 0 0 0.

(** [enum task_state]. *)
Definition TASK_RUNNING : Z := 0.
Definition TASK_INTERRUPTIBLE : Z := 1.
Definition TASK_UNINTERRUPTIBLE : Z := 2.
Definition TASK_ZOMBIE : Z := 3.
Definition TASK_STOPPED : Z := 4.
Definition PF_KTHREAD : Z := Z.shiftl 1 0.
Definition NR_TASK : Z := 64.
Definition THREAD_SIZE : Z := PAGE_SIZE.
Definition THREAD_START_SP : Z := THREAD_SIZE - 8.
Definition HZ : Z := 250.
Definition DEF_COUNTER : Z := HZ / 10.

Record task_struct : Type := Task {
  state : Z; flags : Z; count : Z; priority : Z; pid : Z;
  context : cpu_context;
  need_resched : Z; preempt_count : Z;
  next_task : Z; prev_task : Z;
}.
Definition zero_task : task_struct := Task 0 0 0 0 0 zero_context 0 0 0 0.

Definition set_state v t := Task v (flags t) (count t) (priority t) (pid t) (context t) (need_resched t) (preempt_count t) (next_task t) (prev_task t).
Definition set_count v t := Task (state t) (flags t) v (priority t) (pid t) (context t) (need_resched t) (preempt_count t) (next_task t) (prev_task t).
Definition set_priority v t := Task (state t) (flags t) (count t) v (pid t) (context t) (need_resched t) (preempt_count t) (next_task t) (prev_task t).
Definition set_pid v t := Task (state t) (flags t) (count t) (priority t) v (context t) (need_resched t) (preempt_count t) (next_task t) (prev_task t).
Definition set_context v t := Task (state t) (flags t) (count t) (priority t) (pid t) v (need_resched t) (preempt_count t) (next_task t) (prev_task t).
Definition set_need_resched v t := Task (state t) (flags t) (count t) (priority t) (pid t) (context t) v (preempt_count t) (next_task t) (prev_task t).
Definition set_preempt_count v t := Task (state t) (flags t) (count t) (priority t) (pid t) (context t) (need_resched t) v (next_task t) (prev_task t).
Definition set_next_task v t := Task (state t) (flags t) (count t) (priority t) (pid t) (context t) (need_resched t) (preempt_count t) v (prev_task t).
Definition set_prev_task v t := Task (state t) (flags t) (count t) (priority t) (pid t) (context t) (need_resched t) (preempt_count t) (next_task t) v.

(** [struct pt_regs]; 272 bytes. *)
Record pt_regs : Type := PtRegs { gprs : list Z; r_sp : Z; r_pc : Z; pstate : Z }.
Definition zero_regs : pt_regs := PtRegs (replicate 31 0) 0 0 0.
Definition sizeof_pt_regs : Z := 272.
Definition PSR_MODE_EL1h : Z := 5.

(** [struct run_queue] without [rq_head], which is a list node. *)
Record run_queue : Type := RunQueue { nr_running : Z; nr_switches : Z; curr : Z }.

(** The callee-saved registers ([fp] is x29, [pc] is x30), [SP_EL0], which holds the
    current task, and whether IRQs are unmasked. *)
Record cpu_state : Type := Cpu { regs : cpu_context; sp_el0 : Z; irq_on : bool }.

(** The function a suspended [__schedule] returns to. *)
Inductive caller : Type := FromSchedule | FromPreempt.

(** Where a task goes on running after the scheduler: after its own call of
    [schedule] or [preempt_schedule_irq], at the entry of a kernel thread, or in
    [ret_to_user], which no task can survive. *)
Inductive resumed : Type :=
  | After (c : caller)
  | Started (fn arg : Z)
  | BadExit.

#[global] Instance caller_eq_dec : EqDecision caller.
Proof. solve_decision. Defined.
#[global] Instance resumed_eq_dec : EqDecision resumed.
Proof. solve_decision. Defined.

Record ks : Type := Ks {
  lists : nodes;
  tasks : gmap Z task_struct;
  ptregs : gmap Z pt_regs;
  g_rq : run_queue;
  g_task : list Z;
  frames : list Z;
  cpu : cpu_state;
  kstack : gmap Z caller;
  klog : list call;
}.

Definition with_lists s x := Ks x (tasks s) (ptregs s) (g_rq s) (g_task s) (frames s) (cpu s) (kstack s) (klog s).
Definition with_tasks s x := Ks (lists s) x (ptregs s) (g_rq s) (g_task s) (frames s) (cpu s) (kstack s) (klog s).
Definition with_ptregs s x := Ks (lists s) (tasks s) x (g_rq s) (g_task s) (frames s) (cpu s) (kstack s) (klog s).
Definition with_rq s x := Ks (lists s) (tasks s) (ptregs s) x (g_task s) (frames s) (cpu s) (kstack s) (klog s).
Definition with_g_task s x := Ks (lists s) (tasks s) (ptregs s) (g_rq s) x (frames s) (cpu s) (kstack s) (klog s).
Definition with_frames s x := Ks (lists s) (tasks s) (ptregs s) (g_rq s) (g_task s) x (cpu s) (kstack s) (klog s).
Definition with_cpu s x := Ks (lists s) (tasks s) (ptregs s) (g_rq s) (g_task s) (frames s) x (kstack s) (klog s).
Definition with_kstack s x := Ks (lists s) (tasks s) (ptregs s) (g_rq s) (g_task s) (frames s) (cpu s) x (klog s).
Definition with_klog s x := Ks (lists s) (tasks s) (ptregs s) (g_rq s) (g_task s) (frames s) (cpu s) (kstack s) x.

Definition lists_lens : lens ks nodes := Lens lists (fun x s => with_lists s x).
Definition frames_lens : lens ks (list Z) := Lens frames (fun x s => with_frames s x).

Definition task (s : ks) (p : Z) : task_struct := default zero_task (tasks s !! p).
Definition upd (s : ks) (p : Z) (f : task_struct -> task_struct) : ks :=
  with_tasks s (<[p := f (task s p)]> (tasks s)).
Definition field {A} (p : Z) (f : task_struct -> A) : M ks A := gets (fun s => f (task s p)).
Definition update (p : Z) (f : task_struct -> task_struct) : M ks unit := modify (fun s => upd s p f).
Definition printk (fmt : string) (args : list varg) : M ks unit :=
  modify (fun s => with_klog s (klog s ++ [(fmt, args)])).

(** [&p->run_list] and [list_entry (n, struct task_struct, run_list)]. *)
Definition run_list (p : Z) : Z := p + 128.
Definition task_of (n : Z) : Z := list_entry n 128.

Definition current : M ks Z := gets (fun s => sp_el0 (cpu s)).
Definition set_irq (b : bool) : M ks unit :=
  modify (fun s => with_cpu s (Cpu (regs (cpu s)) (sp_el0 (cpu s)) b)).
Definition raw_local_irq_enable : M ks unit := set_irq true.
Definition raw_local_irq_disable : M ks unit := set_irq false.

Section Kernel.
(** Addresses fixed at link time: [&g_rq.rq_head], [&init_task], [ret_from_fork], and
    the return address of the call of [cpu_switch_to]. *)
Variables rq_head init_task ret_from_fork switch_return : Z.

(** ** sched_simple.c *)

Definition set_nr_running (f : Z -> Z) : M ks unit :=
  modify (fun s => with_rq s (RunQueue (u32 (f (nr_running (g_rq s)))) (nr_switches (g_rq s)) (curr (g_rq s)))).

Definition dequeue_task_simple (p : Z) : M ks unit :=
  set_nr_running (fun n => n - 1);;
  zoom lists_lens (list_del (run_list p)).

Definition enqueue_task_simple (p : Z) : M ks unit :=
  zoom lists_lens (list_add (run_list p) rq_head);;
  set_nr_running (fun n => n + 1).

Definition goodness (t : task_struct) : Z := s32 (count t).

(** [for_each_task (p) { f }]. At most [NR_TASK] tasks are linked. *)
Definition for_each_task_body (f : Z -> M ks unit) (p : Z) : M ks (Z + unit) :=
  p ← field p next_task;
  if p =? init_task then mret (inr tt)
  else
    f p;;
    mret (inl p).
Definition for_each_task (f : Z -> M ks unit) : M ks unit := loop (Z.to_nat NR_TASK) (for_each_task_body f) init_task.

Definition new_score (p : Z) : M ks unit := update p (fun t => set_count (s32 (DEF_COUNTER + priority t)) t).
Definition reset_score : M ks unit := for_each_task new_score.

(** The scan of the queue; [next] has no value before the first assignment. *)
Definition pick_scan (tmp : Z) (cn : Z * option Z) : M ks (Z * option Z) :=
  let p := task_of tmp in
  weight ← field p goodness;
  mret (if cn.1 <? weight then (weight, Some p) else cn).

Definition pick_body (next : option Z) : M ks (option Z + option Z) :=
  cn ← list_for_each lists_lens rq_head pick_scan (Z.to_nat NR_TASK) (-1000, next);
  if cn.1 =? 0 then reset_score;; mret (inl cn.2)
  else mret (inr cn.2).

Definition pick_next_task_simple (prev : Z) : M ks Z :=
  next ← loop 3 pick_body None;
  of_option next.

Definition task_tick_simple (p : Z) : M ks unit :=
  update p (fun t => set_count (s64 (count t - 1)) t);;
  c ← field p count;
  if c <=? 0 then
    update p (set_count 0);;
    update p (set_need_resched 1);;
    n ← field p pid;
    printk ("pid %d need_resched" +:+ nl) [VNum n]
  else mret tt.

(** ** sched.h and sched.c *)

(** A scheduling class: its operations, each of which may be a null pointer, and the address of the
    next class, null here. *)
Record sched_class : Type := SchedClass {
  sc_next : Z;
  sc_task_fork : option (Z -> M ks unit);
  sc_enqueure_task : option (Z -> M ks unit);
  sc_dequeue_task : option (Z -> M ks unit);
  sc_task_tick : option (Z -> M ks unit);
  sc_pick_next_task : option (Z -> M ks Z);
}.

Definition simple_sched_class : sched_class :=
  SchedClass 0 None (Some enqueue_task_simple) (Some dequeue_task_simple) (Some task_tick_simple)
    (Some pick_next_task_simple).

(** A call through a null pointer is undefined. *)
Definition through {A} (op : option (Z -> M ks A)) (p : Z) : M ks A :=
  match op with Some f => f p | None => undef end.

Definition pick_next_task (prev : Z) : M ks Z := through (sc_pick_next_task simple_sched_class) prev.
Definition dequeue_task (p : Z) : M ks unit := through (sc_dequeue_task simple_sched_class) p.
Definition enqueue_task (p : Z) : M ks unit := through (sc_enqueure_task simple_sched_class) p.
Definition task_tick (p : Z) : M ks unit := through (sc_task_tick simple_sched_class) p.

Definition preempt_disable : M ks unit :=
  p ← current; update p (fun t => set_preempt_count (s32 (preempt_count t + 1)) t).
Definition preempt_enable : M ks unit :=
  p ← current; update p (fun t => set_preempt_count (s32 (preempt_count t - 1)) t).
Definition preempt_add (val : Z) : M ks unit :=
  p ← current; update p (fun t => set_preempt_count (s32 (preempt_count t + val)) t).
Definition preempt_sub (val : Z) : M ks unit :=
  p ← current; update p (fun t => set_preempt_count (s32 (preempt_count t - val)) t).
Definition in_atomic_preempt_off : M ks bool :=
  c ← current; n ← field c preempt_count; mret (negb (n =? 1)).
Definition clear_task_resched (p : Z) : M ks unit := update p (set_need_resched 0).

Definition schedule_tail : M ks unit := raw_local_irq_enable.

Definition tick_handle_periodic : M ks unit := p ← current; task_tick p.

Definition schedule_debug (p : Z) : M ks unit :=
  b ← in_atomic_preempt_off;
  if (b : bool) then
    i ← field p pid; c ← current; n ← field c preempt_count;
    printk ("BUG: scheduling while atomic:%d, 0x%x" +:+ nl) [VNum i; VNum n]
  else mret tt.

(** Called by [bl], so that x30 is the return address. *)
Definition cpu_switch_to (prev next : Z) : M ks unit :=
  modify (fun s => with_cpu s
    (Cpu (let r := regs (cpu s) in
          CpuContext (x19 r) (x20 r) (x21 r) (x22 r) (x23 r) (x24 r) (x25 r) (x26 r) (x27 r) (x28 r)
                     (fp r) (sp r) switch_return) (sp_el0 (cpu s)) (irq_on (cpu s))));;
  r ← gets (fun s => regs (cpu s));
  update prev (set_context r);;
  r' ← field next context;
  modify (fun s => with_cpu s (Cpu r' next (irq_on (cpu s)))).

(** [false] is the null pointer that is returned without a switch; after a switch the caller goes on when it is
    switched to again, in [resume]. *)
Definition switch_to (prev next : Z) : M ks bool :=
  if prev =? next then mret false
  else cpu_switch_to prev next;; mret true.

(** The code the switched-to task runs: [ret_from_fork] or the rest of [switch_to]
    and [__schedule], whose [last] is the task switched away from. *)
Definition resume (last : Z) : M ks resumed :=
  r ← gets (fun s => regs (cpu s));
  if pc r =? ret_from_fork then
    schedule_tail;;
    mret (if x19 r =? 0 then BadExit else Started (x19 r) (x20 r))
  else if pc r =? switch_return then
    c ← current;
    modify (fun s => with_rq s
      (RunQueue (nr_running (g_rq s)) (u64 (nr_switches (g_rq s) + 1)) c));;
    (if last =? 0 then mret tt else schedule_tail);;
    who ← gets (fun s => kstack s !! c);
    who ← of_option who;
    mret (After who)
  else undef.

Definition __schedule (who : caller) : M ks resumed :=
  prev ← current;
  schedule_debug prev;;
  raw_local_irq_disable;;
  st ← field prev state;
  (if negb (st =? 0) then dequeue_task prev else mret tt);;
  next ← pick_next_task prev;
  clear_task_resched prev;;
  if negb (next =? prev) then
    modify (fun s => with_kstack s (<[prev := who]> (kstack s)));;
    switched ← switch_to prev next;
    if (switched : bool) then resume prev
    else
      modify (fun s => with_rq s (RunQueue (nr_running (g_rq s)) (u64 (nr_switches (g_rq s) + 1)) (sp_el0 (cpu s))));;
      mret (After who)
  else mret (After who).

(** What follows the call of [__schedule] in its two callers. *)
Definition epilogue (r : resumed) : M ks resumed :=
  match r with
  | After FromSchedule => preempt_enable;; mret r
  | After FromPreempt => raw_local_irq_disable;; preempt_enable;; mret r
  | _ => mret r
  end.

Definition schedule : M ks resumed :=
  preempt_disable;;
  r ← __schedule FromSchedule;
  epilogue r.

Definition preempt_schedule_irq : M ks resumed :=
  c ← current; n ← field c preempt_count;
  (if negb (n =? 0) then
     printk ("BUG: %s incorrect preempt count: 0x%x" +:+ nl)
       [VStr "preempt_schedule_irq"; VNum n]
   else mret tt);;
  preempt_disable;;
  raw_local_irq_enable;;
  r ← __schedule FromPreempt;
  epilogue r.

(** The end of [el1_irq]: preemption on the way out of an interrupt; [None] is the
    return to the interrupted code. *)
Definition el1_irq_exit : M ks (option resumed) :=
  tsk ← current;
  w24 ← field tsk preempt_count;
  if negb (w24 =? 0) then mret None
  else
    w0 ← field tsk need_resched;
    if w0 =? 0 then mret None
    else r ← preempt_schedule_irq; mret (Some r).

Definition wake_up_process (p : Z) : M ks unit :=
  update p (set_state TASK_RUNNING);;
  enqueue_task p.

Definition sched_init : M ks unit :=
  zoom lists_lens (INIT_LIST_HEAD rq_head);;
  modify (fun s => with_rq s (RunQueue 0 (nr_switches (g_rq s)) (curr (g_rq s))));;
  modify (fun s => with_rq s (RunQueue (nr_running (g_rq s)) 0 (curr (g_rq s))));;
  modify (fun s => with_rq s (RunQueue (nr_running (g_rq s)) (nr_switches (g_rq s)) 0)).

(** ** fork.c and init_task.c *)

Definition init_task_value : task_struct :=
  Task 0 PF_KTHREAD DEF_COUNTER 1 0 zero_context 0 0 init_task init_task.
Definition g_task_value : list Z := init_task :: replicate (Z.to_nat NR_TASK - 1) 0.

Definition find_empty_task_body (i : Z) : M ks (Z + Z) :=
  if i <? NR_TASK then
    g ← gets g_task;
    p ← of_option (arr_get g i);
    mret (if p =? 0 then inr i else inl (i + 1))
  else mret (inr (-1)).
Definition find_empty_task : M ks Z := loop (S (Z.to_nat NR_TASK)) find_empty_task_body 0.

Definition task_pt_regs (task : Z) : Z := u64 (u64 (task + THREAD_SIZE) - sizeof_pt_regs).

Definition copy_thread (clone_flags p fn arg : Z) : M ks Z :=
  let childregs := task_pt_regs p in
  modify (fun s => with_ptregs s (<[childregs := zero_regs]> (ptregs s)));;
  update p (set_context zero_context);;
  (if negb (Z.land clone_flags PF_KTHREAD =? 0) then
     modify (fun s => let r := default zero_regs (ptregs s !! childregs) in
       with_ptregs s (<[childregs := PtRegs (gprs r) (r_sp r) (r_pc r) PSR_MODE_EL1h]> (ptregs s)));;
     update p (fun t => let c := context t in
       set_context (CpuContext fn (x20 c) (x21 c) (x22 c) (x23 c) (x24 c) (x25 c) (x26 c) (x27 c)
                               (x28 c) (fp c) (sp c) (pc c)) t);;
     update p (fun t => let c := context t in
       set_context (CpuContext (x19 c) arg (x21 c) (x22 c) (x23 c) (x24 c) (x25 c) (x26 c) (x27 c)
                               (x28 c) (fp c) (sp c) (pc c)) t)
   else mret tt);;
  update p (fun t => let c := context t in
    set_context (CpuContext (x19 c) (x20 c) (x21 c) (x22 c) (x23 c) (x24 c) (x25 c) (x26 c) (x27 c)
                            (x28 c) (fp c) (sp c) ret_from_fork) t);;
  update p (fun t => let c := context t in
    set_context (CpuContext (x19 c) (x20 c) (x21 c) (x22 c) (x23 c) (x24 c) (x25 c) (x26 c) (x27 c)
                            (x28 c) (fp c) childregs (pc c)) t);;
  mret 0.

Definition SET_LINKS (p : Z) : M ks unit :=
  update p (set_next_task init_task);;
  q ← field init_task prev_task;
  update p (set_prev_task q);;
  q ← field init_task prev_task;
  update q (set_next_task p);;
  update init_task (set_prev_task p).

Definition do_fork (clone_flags fn arg : Z) : M ks Z :=
  p ← zoom frames_lens PageAlloc.get_free_page;
  if p =? 0 then mret (-1)
  else
    pid ← find_empty_task;
    if pid <? 0 then mret (-1)
    else
      r ← copy_thread clone_flags p fn arg;
      if negb (r =? 0) then mret (-1)
      else
        update p (set_state TASK_RUNNING);;
        update p (set_pid pid);;
        cur ← current;
        c ← field cur count;
        update p (set_count (Z.shiftr (s64 (c + 1)) 1));;
        update cur (fun t => set_count (Z.shiftr (count t) 1) t);;
        update p (set_need_resched 0);;
        update p (set_preempt_count 0);;
        update p (set_priority 2);;
        g ← gets g_task;
        g ← of_option (arr_set g pid p);
        modify (fun s => with_g_task s g);;
        SET_LINKS p;;
        wake_up_process p;;
        mret pid.

End Kernel.

End Sched.
