(* ===== verification/SchedInv.v ===== *)
(** * The scheduler picks right and keeps its state consistent

    The task list, the run queue and the saved contexts of [Sched] as one invariant;
    what each operation does to it; reachable states. *)

From S2P Require Import Prelude Base PageAlloc Klist Sched.
Import Klist Sched.

Module SchedInv.

(** ** State lemmas *)

Lemma task_upd s p f q : task (upd s p f) q = if decide (p = q) then f (task s p) else task s q.
Proof.
  unfold upd, task at 1. simpl. case_decide as E.
  - subst q. by rewrite lookup_insert_eq.
  - by rewrite lookup_insert_ne.
Qed.

Lemma task_upd_eq s p f : task (upd s p f) p = f (task s p).
Proof. rewrite task_upd. by rewrite decide_True. Qed.

Lemma task_upd_ne s p f q : p <> q -> task (upd s p f) q = task s q.
Proof. intros H. rewrite task_upd. by rewrite decide_False. Qed.

(** Two states that differ in the [tasks] map only. *)
Definition tasks_only (s s' : ks) : Prop := s' = with_tasks s (tasks s').

Lemma tasks_only_refl s : tasks_only s s.
Proof. unfold tasks_only. by destruct s. Qed.
Lemma tasks_only_upd s s' p f : tasks_only s s' -> tasks_only s (upd s' p f).
Proof. unfold tasks_only. intros ->. done. Qed.
Lemma tasks_only_trans s1 s2 s3 : tasks_only s1 s2 -> tasks_only s2 s3 -> tasks_only s1 s3.
Proof. unfold tasks_only. intros -> ->. done. Qed.
Lemma tasks_only_lists s s' : tasks_only s s' -> lists s' = lists s.
Proof. by intros ->. Qed.

(** ** The choice *)

(** [p] is the first task of [q] among those of the greatest weight. *)
Definition choice (w : Z -> Z) (q : list Z) (p : Z) : Prop :=
  exists l1 l2, q = l1 ++ p :: l2 /\
    (forall r, r ∈ q -> w r <= w p) /\ (forall r, r ∈ l1 -> w r < w p).

Definition scan_step (w : Z -> Z) (cn : Z * option Z) (p : Z) : Z * option Z :=
  if cn.1 <? w p then (w p, Some p) else cn.

Lemma scan_best w q n0 :
  (forall r, r ∈ q -> -1000 < w r) ->
  fold_left (scan_step w) q (-1000, n0) = (-1000, n0) /\ q = [] \/
  exists p, fold_left (scan_step w) q (-1000, n0) = (w p, Some p) /\ choice w q p.
Proof.
  induction q as [|x q IH] using rev_ind; intros Hw; [by left|right].
  rewrite fold_left_app. simpl.
  destruct IH as [[E ->]|(p & E & l1 & l2 & -> & Hmax & Hfst)].
  { intros r Hr. apply Hw. rewrite elem_of_app. by left. }
  - exists x. rewrite E. unfold scan_step. simpl. rewrite (proj2 (Z.ltb_lt _ _)).
    2: { apply Hw. left. }
    split; [done|]. exists [], []. split; [done|]. split.
    + intros r ->%list_elem_of_singleton. lia.
    + intros r []%not_elem_of_nil.
  - rewrite E. unfold scan_step. simpl. destruct (Z.ltb_spec (w p) (w x)) as [Hlt|Hge].
    + exists x. split; [done|]. exists (l1 ++ p :: l2), []. split; [done|]. split.
      * intros r [Hr| ->%list_elem_of_singleton]%elem_of_app; [|lia]. apply Hmax in Hr. lia.
      * intros r Hr. apply Hmax in Hr. lia.
    + exists p. split; [done|]. exists l1, (l2 ++ [x]). split; [by rewrite <-app_assoc|]. split; [|done].
      intros r [Hr| ->%list_elem_of_singleton]%elem_of_app; [by apply Hmax|lia].
Qed.

Section Inv.
Context (rq_head init_task ret_from_fork switch_return : Z).

(** ** The circular list of tasks *)

Fixpoint tlinks (s : ks) (l : list Z) : Prop :=
  match l with
  | a :: (b :: _) as t => next_task (task s a) = b /\ prev_task (task s b) = a /\ tlinks s t
  | _ => True
  end.

(** [ts] are the tasks linked behind [init_task], oldest first. *)
Definition tring (s : ks) (ts : list Z) : Prop :=
  NoDup (init_task :: ts) /\ tlinks s (init_task :: ts ++ [init_task]).

Lemma tlinks_app s l1 a l2 :
  tlinks s (l1 ++ a :: l2) <-> tlinks s (l1 ++ [a]) /\ tlinks s (a :: l2).
Proof.
  induction l1 as [|b l1 IH]; [simpl; tauto|].
  destruct l1 as [|c l1]; simpl in *; tauto.
Qed.

Lemma tlinks_ext s s' l :
  (forall a, a ∈ removelast l -> next_task (task s' a) = next_task (task s a)) ->
  (forall a, a ∈ tail l -> prev_task (task s' a) = prev_task (task s a)) ->
  tlinks s l -> tlinks s' l.
Proof.
  induction l as [|a [|b l] IH]; intros Hn Hp Hl; [done|done|].
  destruct Hl as (H1 & H2 & H3). split; [rewrite Hn; [done|by left]|].
  split; [rewrite Hp; [done|by left]|]. apply IH; [| |done].
  - intros x Hx. apply Hn. by right.
  - intros x Hx. apply Hp. by right.
Qed.

Lemma tring_ext s s' ts :
  (forall p, next_task (task s' p) = next_task (task s p) /\
             prev_task (task s' p) = prev_task (task s p)) ->
  tring s ts -> tring s' ts.
Proof. intros H [Hd Hl]. split; [done|]. eapply tlinks_ext; [| |exact Hl]; intros; apply H. Qed.

(** ** reset_score *)

Definition rescored (t : task_struct) : task_struct := set_count (s32 (DEF_COUNTER + priority t)) t.

Lemma reset_score_spec s ts :
  tring s ts -> (length ts < Z.to_nat NR_TASK)%nat ->
  wp (reset_score init_task) s (fun _ s' => tasks_only s s' /\
    forall p, task s' p = if decide (p ∈ ts) then rescored (task s p) else task s p).
Proof.
  intros [Hd Hl] Hlen. unfold reset_score.
  assert (forall rest seen a fuel s1,
    init_task :: ts = seen ++ a :: rest -> (length rest < fuel)%nat -> tasks_only s s1 ->
    (forall p, task s1 p = if decide (p ∈ ts /\ p ∈ seen ++ [a]) then rescored (task s p) else task s p) ->
    wp (loop fuel (for_each_task_body init_task new_score) a) s1 (fun _ s' => tasks_only s s' /\
      forall p, task s' p = if decide (p ∈ ts) then rescored (task s p) else task s p)) as Hloop.
  { induction rest as [|b rest IH]; intros seen a [|fuel] s1 E Hf Ho Ht; try (simpl in Hf; lia);
      rewrite loop_unfold; wp_step; unfold for_each_task_body, new_score, field, update; wp_step; wp_step.
    - assert (next_task (task s1 a) = init_task) as ->.
      { replace (next_task (task s1 a)) with (next_task (task s a)) by (rewrite Ht; by case_decide).
        rewrite app_comm_cons, E, <-app_assoc in Hl. by apply tlinks_app in Hl as [_ (? & _)]. }
      rewrite Z.eqb_refl. wp_steps. split; [done|]. intros p. rewrite Ht.
      assert (p ∈ ts -> p ∈ seen ++ [a]) by (rewrite <-E; by right).
      repeat case_decide; tauto.
    - assert (next_task (task s1 a) = b) as ->.
      { replace (next_task (task s1 a)) with (next_task (task s a)) by (rewrite Ht; by case_decide).
        rewrite app_comm_cons, E, <-app_assoc in Hl. by apply tlinks_app in Hl as [_ (? & _)]. }
      assert (b ∈ ts /\ (b ∉ seen ++ [a]) /\ b <> init_task) as (Hb1 & Hb2 & Hb3).
      { replace (seen ++ a :: b :: rest) with ((seen ++ [a]) ++ b :: rest) in E by (by rewrite <-app_assoc).
        rewrite E in Hd. apply NoDup_app in Hd as (Hd1 & Hd2 & _).
        assert (b ∉ seen ++ [a]) as Hb by (intros Hb; apply (Hd2 b Hb); left).
        destruct (seen ++ [a]) as [|c l] eqn:El; [by destruct seen|]. injection E as <- E.
        split; [rewrite E, elem_of_app; right; left|]. split; [done|]. intros ->. apply Hb. left. }
      rewrite (proj2 (Z.eqb_neq _ _)) by done. wp_steps.
      apply (IH (seen ++ [a])); [by rewrite <-app_assoc|simpl in Hf; lia|by apply tasks_only_upd|].
      intros p. rewrite task_upd. destruct (decide (b = p)) as [<-|Hne].
      + rewrite Ht, decide_False by tauto. rewrite decide_True; [done|].
        split; [done|]. rewrite elem_of_app. right. left.
      + rewrite Ht. assert (p ∈ (seen ++ [a]) ++ [b] <-> p ∈ seen ++ [a]) as Hx.
        { rewrite (elem_of_app _ [b]), list_elem_of_singleton. intuition congruence. }
        repeat case_decide; tauto. }
  apply (Hloop ts []); [done|done|apply tasks_only_refl|].
  intros p. rewrite decide_False; [done|]. intros [Hp Hi%list_elem_of_singleton].
  subst p. by apply NoDup_cons in Hd as [? _].
Qed.

(** ** pick_next_task *)

Lemma task_of_run_list (q : list Z) : task_of <$> (run_list <$> q) = q.
Proof.
  induction q as [|p q IH]; [done|]. rewrite !fmap_cons, IH. f_equal.
  unfold task_of, list_entry, run_list. lia.
Qed.

Lemma scan_spec s q acc fuel :
  ring (lists s) rq_head (run_list <$> q) -> (length q < fuel)%nat ->
  wp (list_for_each lists_lens rq_head pick_scan fuel acc) s (fun cn s' =>
    s' = s /\ cn = fold_left (scan_step (fun p => goodness (task s p))) q acc).
Proof.
  intros Hr Hf.
  eapply wp_mono; [apply (list_for_each_wp lists_lens rq_head (run_list <$> q) pick_scan
    (fun seen a s' => s' = s /\
       a = fold_left (scan_step (fun p => goodness (task s p))) (task_of <$> seen) acc))|].
  - intros seen a s' [-> _]. done.
  - intros seen x rest a s' _ [-> ->]. unfold pick_scan, field. wp_steps.
    split; [done|]. by rewrite fmap_app, fold_left_app.
  - done.
  - by rewrite length_fmap.
  - intros cn s' [-> ->]. by rewrite task_of_run_list.
Qed.

(** Time slices that fit the [int] of [goodness], priorities that fit a time slice. *)
Definition scored (t : task_struct) : Prop := 0 <= count t < 2 ^ 31 /\ 0 <= priority t <= 100.

Lemma rescored_scored t : scored t -> scored (rescored t) /\ count (rescored t) = 25 + priority t.
Proof.
  intros [_ Hp]. unfold scored, rescored. change DEF_COUNTER with 25. simpl.
  rewrite s32_small by lia. lia.
Qed.

Lemma choice_ext w w' q p : (forall r, r ∈ q -> w' r = w r) -> choice w q p -> choice w' q p.
Proof.
  intros Hw (l1 & l2 & -> & H1 & H2). exists l1, l2. split; [done|].
  assert (p ∈ l1 ++ p :: l2) by (rewrite elem_of_app; right; left).
  split; intros r Hr.
  - rewrite !Hw by done. auto.
  - rewrite !Hw by (done || (rewrite elem_of_app; by left)). auto.
Qed.

Lemma choice_elem w q p : choice w q p -> p ∈ q.
Proof. intros (l1 & l2 & -> & _). rewrite elem_of_app. right. left. Qed.

(** One pass over a queue of scored tasks. *)
Lemma pass_spec s q n0 fuel :
  ring (lists s) rq_head (run_list <$> q) -> (length q < fuel)%nat -> q <> [] ->
  (forall r, r ∈ q -> scored (task s r)) ->
  wp (list_for_each lists_lens rq_head pick_scan fuel (-1000, n0)) s (fun cn s' =>
    s' = s /\ exists p, cn = (count (task s p), Some p) /\ choice (fun r => count (task s r)) q p).
Proof.
  intros Hr Hf Hq Hsc. eapply wp_mono; [by apply (scan_spec s q)|].
  intros cn s' [-> ->]. split; [done|].
  assert (forall r, r ∈ q -> goodness (task s r) = count (task s r)) as Hg.
  { intros r Hr'. apply Hsc in Hr' as [Hc _]. unfold goodness. apply s32_small. lia. }
  destruct (scan_best (fun r => goodness (task s r)) q n0) as [[_ E]|(p & E & Hc)].
  { intros r Hr'. rewrite Hg by done. apply Hsc in Hr' as [? _]. lia. }
  - done.
  - exists p. rewrite E, Hg by (by apply (choice_elem _ _ _ Hc)). split; [done|].
    eapply choice_ext; [|exact Hc]. intros r Hr'. cbn beta. by rewrite Hg.
Qed.

(** The tasks after a pick: every time slice is refilled when all those of the
    queue are used up. *)
Definition exhausted (s : ks) (q : list Z) : Prop := Forall (fun r => count (task s r) = 0) q.
#[global] Instance exhausted_dec s q : Decision (exhausted s q).
Proof. unfold exhausted. apply _. Defined.

Definition refilled (s s' : ks) (ts q : list Z) : Prop :=
  forall r, task s' r = if decide (exhausted s q /\ r ∈ ts) then rescored (task s r) else task s r.

Lemma pick_spec s ts q prev :
  ring (lists s) rq_head (run_list <$> q) -> tring s ts -> (forall p, p ∈ q -> p ∈ ts) ->
  q <> [] -> (length q < Z.to_nat NR_TASK)%nat -> (length ts < Z.to_nat NR_TASK)%nat ->
  (forall r, r ∈ ts -> scored (task s r)) ->
  wp (pick_next_task_simple rq_head init_task prev) s (fun p s' =>
    tasks_only s s' /\ refilled s s' ts q /\ choice (fun r => count (task s' r)) q p).
Proof.
  intros Hr Ht Hsub Hq Hlq Hlt Hsc. unfold pick_next_task_simple. wp_step.
  rewrite loop_unfold. wp_step. unfold pick_body at 1. wp_step.
  eapply wp_mono; [apply (pass_spec s q); auto|]. intros cn s1 (-> & p & -> & Hc). cbn [fst snd].
  pose proof Hc as (l1 & l2 & _ & Hmax & _). pose proof (choice_elem _ _ _ Hc) as Hp.
  pose proof (proj1 (Hsc p (Hsub p Hp))) as Hpos.
  destruct (Z.eqb_spec (count (task s p)) 0) as [E|E].
  2: { wp_steps. eapply wp_of_option; [done|]. split; [apply tasks_only_refl|]. split; [|done].
       intros r. rewrite decide_False; [done|]. intros [Hex _]. unfold exhausted in Hex.
       rewrite Forall_forall in Hex. by apply E, Hex. }
  assert (exhausted s q) as Hex.
  { apply Forall_forall. intros r Hr'. pose proof (Hmax r Hr'). cbn beta in *.
    pose proof (proj1 (Hsc r (Hsub r Hr'))). lia. }
  wp_step. eapply wp_mono; [by apply (reset_score_spec s ts)|].
  intros [] s1 (Ho & Ht1). wp_steps. rewrite loop_unfold. wp_step. unfold pick_body at 1. wp_step.
  assert (forall r, r ∈ q -> task s1 r = rescored (task s r)) as Hq1.
  { intros r Hr'. rewrite Ht1, decide_True; auto. }
  eapply wp_mono; [apply (pass_spec s1 q); auto|].
  { by rewrite (tasks_only_lists _ _ Ho). }
  { intros r Hr'. rewrite Hq1 by done. apply rescored_scored; auto. }
  intros cn s2 (-> & p2 & -> & Hc2). cbn [fst snd].
  pose proof (choice_elem _ _ _ Hc2) as Hp2.
  destruct (rescored_scored (task s p2)) as [_ Hc3]; [by apply Hsc, Hsub|].
  pose proof (proj2 (Hsc p2 (Hsub p2 Hp2))).
  rewrite (proj2 (Z.eqb_neq _ 0)) by (rewrite (Hq1 p2 Hp2); lia).
  wp_steps. eapply wp_of_option; [done|]. split; [done|]. split; [|done].
  intros r. rewrite Ht1. repeat case_decide; tauto.
Qed.

(** ** The invariant *)

Definition cur (s : ks) : Z := sp_el0 (cpu s).

(** The running task runs; or it has changed its state and is still queued; or it
    was just taken off the queue. *)
Inductive mode : Type := Run | Blocking | Blocked.

(** A task that does not run: new, or inside [__schedule] with preemption off. *)
Definition suspended (s : ks) (p : Z) : Prop :=
  (pc (context (task s p)) = ret_from_fork /\ preempt_count (task s p) = 0) \/
  (pc (context (task s p)) = switch_return /\ preempt_count (task s p) = 1 /\ is_Some (kstack s !! p)).

(** [ts] are the forked tasks, [q] the run queue, [n] the preemption count of the
    running task. *)
Record inv (s : ks) (ts q : list Z) (n : Z) (m : mode) : Prop := Inv {
  i_ring : ring (lists s) rq_head (run_list <$> q);
  i_len : nr_running (g_rq s) = Z.of_nat (length q);
  i_sub : forall p, p ∈ q -> p ∈ ts;
  i_tring : tring s ts;
  i_wf : PageAlloc.wf (frames s);
  i_page : forall p, p ∈ ts -> PageAlloc.allocated (frames s) p;
  i_slots : length (g_task s) = Z.to_nat NR_TASK /\ g_task s !! 0%nat = Some init_task;
  i_pid : forall p, p ∈ ts -> exists i, pid (task s p) = Z.of_nat i /\ g_task s !! i = Some p;
  i_slot : forall i p, g_task s !! i = Some p -> p <> 0 -> p ∈ init_task :: ts;
  i_scored : forall p, p ∈ init_task :: ts -> scored (task s p);
  i_state : forall p, p ∈ ts -> (p ∈ q <-> state (task s p) = 0 \/ (m = Blocking /\ p = cur s));
  i_cur : cur s ∈ init_task :: ts;
  i_mode : match m with
           | Run => state (task s (cur s)) = 0
           | Blocking => state (task s (cur s)) <> 0 /\ cur s ∈ q
           | Blocked => state (task s (cur s)) <> 0 /\ (cur s ∉ q)
           end;
  i_count : preempt_count (task s (cur s)) = n;
  i_susp : forall p, p ∈ init_task :: ts -> p <> cur s -> suspended s p;
}.

(** What the invariant reads of a task, apart from its score. *)
Definition core (t : task_struct) : Z * Z * cpu_context * Z * Z * Z :=
  (state t, pid t, context t, preempt_count t, next_task t, prev_task t).

Lemma inv_frame s s' ts q n m :
  lists s' = lists s -> nr_running (g_rq s') = nr_running (g_rq s) ->
  frames s' = frames s -> g_task s' = g_task s -> cur s' = cur s -> kstack s' = kstack s ->
  (forall p, core (task s' p) = core (task s p)) ->
  (forall p, p ∈ init_task :: ts -> scored (task s p) -> scored (task s' p)) ->
  inv s ts q n m -> inv s' ts q n m.
Proof.
  intros El En Ef Eg Ec Ek Ht Hs [].
  assert (forall p, state (task s' p) = state (task s p) /\ pid (task s' p) = pid (task s p) /\
    context (task s' p) = context (task s p) /\
    preempt_count (task s' p) = preempt_count (task s p) /\
    next_task (task s' p) = next_task (task s p) /\
    prev_task (task s' p) = prev_task (task s p)) as Hc.
  { intros p. specialize (Ht p). unfold core in Ht. by simplify_eq. }
  split; rewrite ?El, ?En, ?Ef, ?Eg, ?Ec; auto.
  - eapply tring_ext; [|exact i_tring0]. intros p. destruct (Hc p) as (_ & _ & _ & _ & ? & ?). done.
  - intros p Hp. destruct (Hc p) as (_ & -> & _). auto.
  - intros p Hp. destruct (Hc p) as (-> & _). auto.
  - destruct (Hc (cur s)) as (-> & _). done.
  - destruct (Hc (cur s)) as (_ & _ & _ & -> & _). done.
  - intros p Hp Hne. unfold suspended. destruct (Hc p) as (_ & _ & -> & -> & _).
    rewrite Ek. by apply i_susp0.
Qed.

Lemma inv_tasks s s' ts q n m :
  tasks_only s s' -> (forall p, core (task s' p) = core (task s p)) ->
  (forall p, p ∈ init_task :: ts -> scored (task s p) -> scored (task s' p)) ->
  inv s ts q n m -> inv s' ts q n m.
Proof. intros Ho. apply inv_frame; by rewrite Ho. Qed.

Lemma inv_lengths s ts q n m :
  inv s ts q n m -> (length ts < Z.to_nat NR_TASK)%nat /\ (length q < Z.to_nat NR_TASK)%nat.
Proof.
  intros []. destruct i_slots0 as [Hl H0], i_tring0 as [[Hi Hd]%NoDup_cons _].
  destruct (g_task s) as [|g0 g] eqn:E; [done|]. injection H0 as ->.
  assert (length ts <= length g)%nat.
  { apply submseteq_length, NoDup_submseteq; [done|]. intros p Hp.
    destruct (i_pid0 p Hp) as (i & _ & Hg). destruct i as [|i]; [|by eapply list_elem_of_lookup_2].
    injection Hg as ->. done. }
  assert (length q <= length ts)%nat.
  { destruct i_ring0 as [[_ Hq]%NoDup_cons _]. apply NoDup_fmap_1 in Hq.
    by apply submseteq_length, NoDup_submseteq. }
  simpl in Hl. lia.
Qed.

(** ** Operations *)

Lemma inv_preempt s ts q n v m :
  inv s ts q n m -> inv (upd s (cur s) (set_preempt_count v)) ts q v m.
Proof.
  intros []. set (s' := upd s (cur s) _).
  assert (forall p, state (task s' p) = state (task s p) /\ pid (task s' p) = pid (task s p) /\
    next_task (task s' p) = next_task (task s p) /\ prev_task (task s' p) = prev_task (task s p) /\
    (scored (task s p) -> scored (task s' p))) as Hc.
  { intros p. unfold s'. rewrite task_upd. case_decide; [by subst|done]. }
  split; auto.
  - eapply tring_ext; [|exact i_tring0]. intros p. by destruct (Hc p) as (_ & _ & ? & ? & _).
  - intros p Hp. destruct (Hc p) as (_ & -> & _). auto.
  - intros p Hp. apply Hc. auto.
  - intros p Hp. destruct (Hc p) as (-> & _). by apply i_state0.
  - destruct (Hc (cur s)) as (E & _). change (cur s') with (cur s). by rewrite E.
  - unfold s'. change (cur (upd s (cur s) (set_preempt_count v))) with (cur s). by rewrite task_upd_eq.
  - intros p Hp Hne. unfold suspended, s'. rewrite task_upd_ne by done. by apply i_susp0.
Qed.

Lemma preempt_disable_spec s ts q m :
  inv s ts q 0 m ->
  wp preempt_disable s (fun _ s' => inv s' ts q 1 m /\ s' = upd s (cur s) (set_preempt_count 1)).
Proof.
  intros Hi. unfold preempt_disable, current, update. wp_steps. fold (cur s).
  assert (upd s (cur s) (fun t => set_preempt_count (s32 (preempt_count t + 1)) t) =
          upd s (cur s) (set_preempt_count 1)) as ->.
  { unfold upd. by rewrite (i_count _ _ _ _ _ Hi). }
  split; [by apply (inv_preempt s ts q 0)|done].
Qed.

Lemma preempt_enable_spec s ts q m :
  inv s ts q 1 m ->
  wp preempt_enable s (fun _ s' => inv s' ts q 0 m /\ s' = upd s (cur s) (set_preempt_count 0)).
Proof.
  intros Hi. unfold preempt_enable, current, update. wp_steps. fold (cur s).
  assert (upd s (cur s) (fun t => set_preempt_count (s32 (preempt_count t - 1)) t) =
          upd s (cur s) (set_preempt_count 0)) as ->.
  { unfold upd. by rewrite (i_count _ _ _ _ _ Hi). }
  split; [by apply (inv_preempt s ts q 1)|done].
Qed.

Lemma elem_of_del (q1 q2 : list Z) x p :
  NoDup (q1 ++ x :: q2) -> (p ∈ q1 ++ q2 <-> p ∈ q1 ++ x :: q2 /\ p <> x).
Proof.
  intros (H1 & H2 & [H3 H4]%NoDup_cons)%NoDup_app.
  assert (x ∉ q1) as Hx by (intros Hx; apply (H2 x Hx); left).
  rewrite !elem_of_app, elem_of_cons. split.
  - intros [Hp|Hp]; (split; [tauto|]); intros ->; tauto.
  - tauto.
Qed.

Lemma run_list_inj : Inj (=) (=) run_list.
Proof. intros x y. unfold run_list. lia. Qed.

Lemma dequeue_spec s ts q1 q2 n :
  inv s ts (q1 ++ cur s :: q2) n Blocking ->
  wp (dequeue_task_simple (cur s)) s (fun _ s' =>
    inv s' ts (q1 ++ q2) n Blocked /\ tasks s' = tasks s /\ cpu s' = cpu s /\ kstack s' = kstack s).
Proof.
  intros Hi. pose proof (inv_lengths _ _ _ _ _ Hi) as [_ Hlen]. destruct Hi.
  unfold dequeue_task_simple, set_nr_running. wp_step. wp_step. apply wp_zoom. cbn [lists_lens lget lists with_rq].
  pose proof (proj1 i_ring0) as [_ Hnd]%NoDup_cons. apply NoDup_fmap_1 in Hnd.
  rewrite fmap_app, fmap_cons in i_ring0.
  eapply wp_mono; [by apply (list_del_ring (lists s) rq_head (run_list <$> q1) _ (run_list <$> q2))|].
  intros [] h' (Hr & _ & _). cbn [lset lists_lens]. split; [|done].
  rewrite length_app in i_len0, Hlen. simpl in i_len0, Hlen.
  split; auto; cbn [lists with_lists with_rq g_rq nr_running frames g_task].
  - by rewrite fmap_app.
  - rewrite i_len0, length_app. change (Z.to_nat NR_TASK) with 64%nat in Hlen. rewrite u32_small; lia.
  - intros p Hp. apply i_sub0. by apply (elem_of_del q1 q2 _ p Hnd) in Hp as [? _].
  - by eapply tring_ext; [|exact i_tring0].
  - intros p Hp. rewrite elem_of_del by done. destruct i_mode0 as [Hst _].
    change (task (with_lists _ _) p) with (task s p).
    rewrite i_state0 by done. split; [intros [[?|[_ ?]] ?]; [by left|done]|].
    intros [H|[H _]]; [|done]. split; [by left|]. intros ->. done.
  - split; [apply i_mode0|]. change (cur (with_lists _ _)) with (cur s).
    rewrite elem_of_del by done. by intros [_ ?].
Qed.

(** Link-time addresses: the two structures lie below the allocator's memory, and
    the two places a saved context can point to are distinct. *)
Record layout_ok : Prop := LayoutOk {
  l_init : 0 < init_task < LOW_MEMORY - 128;
  l_head : rq_head < LOW_MEMORY;
  l_code : ret_from_fork <> switch_return;
}.
Context (Hlay : layout_ok).

Lemma inv_task_nonzero s ts q n m p : inv s ts q n m -> p ∈ init_task :: ts -> p <> 0.
Proof.
  intros Hi [->|Hp]%elem_of_cons; [destruct Hlay; lia|].
  apply (i_page _ _ _ _ _ Hi) in Hp as (i & v & -> & _). unfold PageAlloc.page_of, LOW_MEMORY. lia.
Qed.

(** The state after the switch from the running task to [next]. *)
Definition switched (s : ks) (who : caller) (next : Z) (s' : ks) : Prop :=
  cur s' = next /\ regs (cpu s') = context (task s next) /\ irq_on (cpu s') = irq_on (cpu s) /\
  kstack s' = <[cur s := who]> (kstack s) /\
  (forall p, p <> cur s -> task s' p = task s p) /\
  exists r, pc r = switch_return /\ task s' (cur s) = set_context r (task s (cur s)).

Lemma switch_spec s ts q m who next :
  inv s ts q 1 m -> m <> Blocking -> next ∈ q -> next <> cur s ->
  wp (modify (fun s0 => with_kstack s0 (<[cur s := who]> (kstack s0)));;
      cpu_switch_to switch_return (cur s) next) s (fun _ s' =>
    inv s' ts q (preempt_count (task s next)) Run /\ switched s who next s').
Proof.
  intros Hi Hm Hnq Hne. pose proof (i_sub _ _ _ _ _ Hi next Hnq) as Hnt.
  wp_step. wp_step. unfold cpu_switch_to, field, update. wp_steps.
  set (r := CpuContext _ _ _ _ _ _ _ _ _ _ _ _ switch_return). set (s' := with_cpu _ _).
  assert (switched s who next s') as Hsw.
  { split; [done|]. split; [by unfold s'; cbn [cpu regs with_cpu]; rewrite task_upd_ne|].
    split; [done|]. split; [done|]. split.
    - intros p Hp. unfold s'. change (task (with_cpu ?x _)) with (task x). by rewrite task_upd_ne.
    - exists r. split; [done|]. unfold s'. change (task (with_cpu ?x _)) with (task x).
      by rewrite task_upd_eq. }
  split; [|done]. destruct Hsw as (Hc & _ & _ & Hk & Ht & r' & Hpc & Hp).
  assert (forall p, state (task s' p) = state (task s p) /\ pid (task s' p) = pid (task s p) /\
    next_task (task s' p) = next_task (task s p) /\ prev_task (task s' p) = prev_task (task s p) /\
    preempt_count (task s' p) = preempt_count (task s p) /\
    (scored (task s p) -> scored (task s' p))) as Hs.
  { intros p. destruct (decide (p = cur s)) as [->|Hp']; [by rewrite Hp|by rewrite Ht]. }
  destruct Hi. split; auto.
  - eapply tring_ext; [|exact i_tring0]. intros p. by destruct (Hs p) as (_ & _ & ? & ? & _).
  - intros p Hp'. destruct (Hs p) as (_ & -> & _). auto.
  - intros p Hp'. apply Hs. auto.
  - intros p Hp'. destruct (Hs p) as (-> & _). rewrite i_state0 by done.
    split; (intros [?|[? _]]; [by left|done]).
  - rewrite Hc. by right.
  - rewrite Hc. destruct (Hs next) as (-> & _). apply i_state0 in Hnq as [?|[? _]]; done.
  - rewrite Hc. by destruct (Hs next) as (_ & _ & _ & _ & -> & _).
  - intros p Hp' Hpc'. unfold suspended. rewrite Hc in Hpc'. rewrite Hk.
    destruct (decide (p = cur s)) as [->|Hne'].
    + right. rewrite Hp, lookup_insert_eq. simpl. rewrite Hpc. eauto.
    + rewrite Ht, lookup_insert_ne by done. by apply i_susp0.
Qed.

Lemma resume_spec s ts q n last :
  inv s ts q n Run -> last <> 0 -> regs (cpu s) = context (task s (cur s)) ->
  (pc (context (task s (cur s))) = ret_from_fork /\ n = 0) \/
  (pc (context (task s (cur s))) = switch_return /\ n = 1 /\ is_Some (kstack s !! cur s)) ->
  wp (resume ret_from_fork switch_return last) s (fun r s' =>
    inv s' ts q (match r with After _ => 1 | _ => 0 end) Run /\
    cur s' = cur s /\ irq_on (cpu s') = true /\ tasks s' = tasks s).
Proof.
  intros Hi Hl Hr Hpc. unfold resume. wp_step. wp_step. rewrite Hr.
  destruct Hpc as [[-> ->]|(-> & -> & who & Hw)].
  - rewrite Z.eqb_refl. unfold schedule_tail, raw_local_irq_enable, set_irq. wp_steps.
    split; [|done]. destruct (x19 _ =? 0); (eapply inv_frame; [..|exact Hi]; done).
  - destruct Hlay as [_ _ Hc]. rewrite (proj2 (Z.eqb_neq _ _)) by done. rewrite Z.eqb_refl.
    unfold current. wp_step. wp_step. wp_step. wp_step.
    rewrite (proj2 (Z.eqb_neq _ 0)) by done. unfold schedule_tail, raw_local_irq_enable, set_irq.
    wp_step. wp_step. wp_step. wp_step. fold (cur s). cbn [kstack with_cpu with_rq].
    wp_step. eapply wp_of_option; [exact Hw|]. wp_steps.
    split; [|done]. eapply inv_frame; [..|exact Hi]; done.
Qed.

(** ** __schedule *)

(** The time slices after a decision: new ones for all when the queue has none left. *)
Definition slices (s s' : ks) (ts q : list Z) : Prop :=
  forall p, count (task s' p) =
    count (if decide (exhausted s q /\ p ∈ ts) then rescored (task s p) else task s p).

Lemma slices_ext s s1 s' ts q :
  (forall p, count (task s1 p) = count (task s p) /\ priority (task s1 p) = priority (task s p)) ->
  slices s1 s' ts q -> slices s s' ts q.
Proof.
  intros Hs H p. assert (exhausted s1 q <-> exhausted s q) as He.
  { unfold exhausted. rewrite !Forall_forall. split; intros He r Hr; specialize (He r Hr);
      destruct (Hs r) as [E _]; congruence. }
  rewrite H. destruct (Hs p) as [Ec Ep]. repeat case_decide; try tauto; unfold rescored; cbn; congruence.
Qed.

(** The outcome of a scheduling decision over the queue [q]: the running task is
    the queue's choice; if it is the old one, its caller goes on and IRQs are off. *)
Definition decided (s : ks) (who : caller) (ts q : list Z) (r : resumed) (s' : ks) : Prop :=
  slices s s' ts q /\ choice (fun p => count (task s' p)) q (cur s') /\
  (cur s' = cur s -> r = After who /\ irq_on (cpu s') = false) /\
  (cur s' <> cur s -> irq_on (cpu s') = true).

(** [switch_to] between two tasks switches. *)
Lemma switch_to_ne {A} prev next (f : bool -> M ks A) s :
  next <> prev -> (b ← switch_to switch_return prev next; f b) s = (cpu_switch_to switch_return prev next;; f true) s.
Proof.
  intros H. unfold switch_to. rewrite (proj2 (Z.eqb_neq _ _)) by congruence. by rewrite <-bind_assoc.
Qed.

(** From the choice on. *)
Lemma pick_switch_spec s ts q m who :
  inv s ts q 1 m -> m <> Blocking -> q <> [] -> irq_on (cpu s) = false ->
  wp (next ← pick_next_task_simple rq_head init_task (cur s);
      clear_task_resched (cur s);;
      if negb (next =? cur s) then
        modify (fun s0 => with_kstack s0 (<[cur s := who]> (kstack s0)));;
        switched ← switch_to switch_return (cur s) next;
        if (switched : bool) then resume ret_from_fork switch_return (cur s)
        else
          modify (fun s => with_rq s (RunQueue (nr_running (g_rq s)) (u64 (nr_switches (g_rq s) + 1)) (sp_el0 (cpu s))));;
          mret (After who)
      else mret (After who)) s (fun r s' =>
    inv s' ts q (match r with After _ => 1 | _ => 0 end) Run /\ decided s who ts q r s').
Proof.
  intros Hi Hm Hq Hirq. destruct (inv_lengths _ _ _ _ _ Hi) as [Hl1 Hl2].
  wp_step. eapply wp_mono; [apply (pick_spec s ts q); try apply Hi; try done|].
  { intros r Hr. apply (i_scored _ _ _ _ _ Hi). by right. }
  intros next s1 (Ho & Hrf & Hc). unfold clear_task_resched, update. wp_step. wp_step.
  set (s2 := upd s1 _ _).
  assert (tasks_only s s2) as Ho2 by (by apply tasks_only_upd).
  assert (forall p, count (task s2 p) = count (task s1 p)) as Hcnt.
  { intros p. unfold s2. rewrite task_upd. case_decide; [by subst|done]. }
  assert (inv s2 ts q 1 m) as Hi2.
  { apply (inv_tasks s s2); [done| | |done].
    - intros p. unfold s2. rewrite task_upd. case_decide; subst; rewrite Hrf; by case_decide.
    - intros p Hp Hs. assert (scored (task s1 p)) as Hs1.
      { rewrite Hrf. case_decide; [by apply rescored_scored|done]. }
      unfold s2. rewrite task_upd. case_decide; [by subst|done]. }
  assert (slices s s2 ts q) as Hsl by (intros p; by rewrite Hcnt, Hrf).
  assert (cur s2 = cur s) as Ec by (by rewrite Ho2).
  assert (choice (fun p => count (task s2 p)) q next) as Hc2 by (by eapply choice_ext; [|exact Hc]).
  pose proof (choice_elem _ _ _ Hc) as Hnq.
  destruct (Z.eqb_spec next (cur s)) as [->|Hne]; cbn [negb].
  - wp_step. assert (m = Run) as ->.
    { destruct m; [done|done|]. by destruct (i_mode _ _ _ _ _ Hi). }
    split; [done|]. split; [exact Hsl|]. split; [by rewrite Ec|]. split; [|done].
    intros _. split; [done|]. by rewrite Ho2.
  - rewrite <-Ec. wp_step. wp_step. eapply wp_run; [apply switch_to_ne; by rewrite Ec|]. wp_step.
    eapply wp_mono; [apply (switch_spec s2 ts q m who next Hi2 Hm Hnq); by rewrite Ec|].
    intros [] s3 (Hi3 & Hcur & Hregs & Hirq3 & Hk & Ht & r & Hpc & Hp).
    assert (task s3 next = task s2 next) as Hn3 by (apply Ht; by rewrite Ec).
    eapply wp_mono; [eapply (resume_spec s3 ts q); [exact Hi3| | |]|].
    + apply (inv_task_nonzero _ _ _ _ _ _ Hi2), (i_cur _ _ _ _ _ Hi2).
    + by rewrite Hregs, Hcur, Hn3.
    + rewrite Hcur, Hn3, Hk, lookup_insert_ne by (by rewrite Ec).
      destruct (i_susp _ _ _ _ _ Hi2 next) as [?|?]; [right; by apply (i_sub _ _ _ _ _ Hi2)|by rewrite Ec|by left|by right].
    + intros r4 s4 (Hi4 & Hc4 & Hirq4 & Ht4). split; [done|].
      assert (forall p, count (task s4 p) = count (task s2 p)) as H42.
      { intros p. unfold task. rewrite Ht4. fold (task s3 p) (task s2 p).
        destruct (decide (p = cur s2)) as [->|]; [by rewrite Hp|by rewrite Ht]. }
      split; [intros p; by rewrite H42|]. split; [|split; [rewrite Hc4, Hcur; done|done]].
      rewrite Hc4, Hcur. by eapply choice_ext; [|exact Hc2].
Qed.

(** The queue a scheduling decision is made over. *)
Definition left_queue (s : ks) (q q' : list Z) (m : mode) : Prop :=
  match m with
  | Run => q' = q
  | _ => exists q1 q2, q = q1 ++ cur s :: q2 /\ q' = q1 ++ q2
  end.

Lemma __schedule_spec s ts q q' m who :
  inv s ts q 1 m -> m <> Blocked -> left_queue s q q' m -> q' <> [] ->
  wp (__schedule rq_head init_task ret_from_fork switch_return who) s (fun r s' =>
    inv s' ts q' (match r with After _ => 1 | _ => 0 end) Run /\ decided s who ts q' r s').
Proof.
  intros Hi Hm Hq Hne. unfold __schedule, current. wp_step. wp_step. fold (cur s).
  unfold schedule_debug, in_atomic_preempt_off, current, field. wp_steps. fold (cur s).
  rewrite (i_count _ _ _ _ _ Hi). cbn [Z.eqb negb Pos.eqb]. wp_step.
  unfold raw_local_irq_disable, set_irq. wp_step. wp_step. set (s1 := with_cpu _ _).
  assert (inv s1 ts q 1 m) as Hi1 by (eapply inv_frame; [..|exact Hi]; done).
  wp_step. wp_step. change (task s1) with (task s). pose proof (i_mode _ _ _ _ _ Hi) as Hst.
  destruct m; [| |done]; cbn in Hq.
  - rewrite Hst. cbn [Z.eqb negb]. subst q'. wp_step. wp_step.
    eapply wp_mono; [apply (pick_switch_spec s1 ts q Run who); done|].
    intros r s' [H1 H2]. split; [exact H1|exact H2].
  - destruct Hst as [Hst _]. rewrite (proj2 (Z.eqb_neq _ 0)) by done. cbn [negb].
    destruct Hq as (q1 & q2 & -> & ->). wp_step.
    eapply wp_mono; [exact (dequeue_spec s1 ts q1 q2 1 Hi1)|].
    intros [] s2 (Hi2 & Ht2 & Hc2 & _).
    assert (cur s2 = cur s) as Ec by (unfold cur; by rewrite Hc2). rewrite <-Ec.
    eapply wp_mono; [apply (pick_switch_spec s2 ts (q1 ++ q2) Blocked who); try done; by rewrite Hc2|].
    intros r s' [H1 (H0 & H2 & H3 & H4)]. split; [exact H1|]. rewrite Ec in H3, H4. split; [|done].
    eapply slices_ext; [|exact H0]. intros p. unfold task. by rewrite Ht2.
Qed.

Lemma epilogue_spec s0 ts q who r s :
  inv s ts q (match r with After _ => 1 | _ => 0 end) Run -> decided s0 who ts q r s ->
  wp (epilogue r) s (fun r' s' => r' = r /\ inv s' ts q 0 Run /\
    choice (fun p => count (task s' p)) q (cur s') /\ cur s' = cur s /\
    irq_on (cpu s') = match r with After FromPreempt => false | _ => irq_on (cpu s) end /\
    forall p, count (task s' p) = count (task s p)).
Proof.
  assert (forall t v p, count (task (upd t (cur t) (set_preempt_count v)) p) = count (task t p)) as Hu.
  { intros t v p. rewrite task_upd. case_decide; [by subst|done]. }
  intros Hi (_ & Hc & _). destruct r as [[]| |]; unfold epilogue.
  - wp_step. eapply wp_mono; [by apply preempt_enable_spec|].
    intros [] s1 [Hi1 ->]. wp_step. split; [done|]. split; [done|].
    split; [by eapply choice_ext; [|exact Hc]|]. split; [done|]. split; [done|apply Hu].
  - unfold raw_local_irq_disable, set_irq. wp_step. wp_step. wp_step. set (s1 := with_cpu _ _).
    assert (inv s1 ts q 1 Run) as Hi0 by (eapply inv_frame; [..|exact Hi]; done).
    eapply wp_mono; [apply (preempt_enable_spec s1 ts q Run Hi0)|].
    intros [] s2 [Hi2 ->]. wp_step. split; [done|]. split; [done|].
    split; [eapply choice_ext; [|exact Hc]; intros p _; apply (Hu s1)|]. split; [done|]. split; [done|apply (Hu s1)].
  - by wp_steps.
  - by wp_steps.
Qed.

Lemma schedule_inv s ts q q' m :
  inv s ts q 0 m -> m <> Blocked -> left_queue s q q' m -> q' <> [] ->
  wp (schedule rq_head init_task ret_from_fork switch_return) s (fun r s' =>
    inv s' ts q' 0 Run /\ choice (fun p => count (task s' p)) q' (cur s') /\
    (cur s' = cur s -> r = After FromSchedule /\ irq_on (cpu s') = false) /\
    (cur s' <> cur s -> irq_on (cpu s') = bool_decide (r <> After FromPreempt))).
Proof.
  intros Hi Hm Hq Hne. unfold schedule. wp_step.
  eapply wp_mono; [by apply preempt_disable_spec|]. intros [] s1 [Hi1 ->]. wp_step.
  eapply wp_mono; [by apply (__schedule_spec _ ts q q' m)|].
  intros r s2 [Hi2 Hd]. eapply wp_mono; [by apply (epilogue_spec _ ts q' _ r s2 Hi2 Hd)|].
  intros r3 s3 (-> & Hi3 & Hc3 & Ec & Hirq & _). destruct Hd as (_ & _ & Hd1 & Hd2).
  change (cur (upd s (cur s) _)) with (cur s) in *.
  split; [done|]. split; [done|]. rewrite Ec, Hirq. split.
  - intros E. destruct (Hd1 E) as [-> ->]. done.
  - intros E. rewrite (Hd2 E). destruct r as [[]| |]; done.
Qed.

Lemma preempt_schedule_irq_inv s ts q :
  inv s ts q 0 Run -> q <> [] ->
  wp (preempt_schedule_irq rq_head init_task ret_from_fork switch_return) s (fun r s' =>
    inv s' ts q 0 Run /\ choice (fun p => count (task s' p)) q (cur s') /\
    (cur s' = cur s -> r = After FromPreempt /\ irq_on (cpu s') = false) /\
    (cur s' <> cur s -> irq_on (cpu s') = bool_decide (r <> After FromPreempt)) /\
    slices s s' ts q).
Proof.
  intros Hi Hne. unfold preempt_schedule_irq, current, field. wp_step. wp_step. fold (cur s).
  wp_step. wp_step. rewrite (i_count _ _ _ _ _ Hi). cbn [Z.eqb negb]. wp_step. wp_step. wp_step.
  eapply wp_mono; [by apply preempt_disable_spec|]. intros [] s1 [Hi1 ->].
  unfold raw_local_irq_enable, set_irq. wp_step. wp_step. set (s1 := with_cpu _ _).
  assert (inv s1 ts q 1 Run) as Hi2 by (eapply inv_frame; [..|exact Hi1]; done).
  wp_step. eapply wp_mono; [by apply (__schedule_spec s1 ts q q Run)|].
  intros r s2 [Hi3 Hd]. eapply wp_mono; [by apply (epilogue_spec _ ts q _ r s2 Hi3 Hd)|].
  intros r3 s3 (-> & Hi4 & Hc3 & Ec & Hirq & Hcnt). destruct Hd as (Hsl & _ & Hd1 & Hd2).
  change (cur s1) with (cur s) in *.
  split; [done|]. split; [done|]. rewrite Ec, Hirq. split; [|split].
  - intros E. by destruct (Hd1 E) as [-> _].
  - intros E. pose proof (Hd2 E). by destruct r as [[]| |].
  - eapply (slices_ext s s1); [|intros p; rewrite Hcnt; apply Hsl].
    intros p. change (task s1 p) with (task (upd s (cur s) (set_preempt_count 1)) p).
    rewrite task_upd. case_decide; [by subst|done].
Qed.

(** ** Ticks and wake-ups *)

Lemma tick_inv s ts q n m :
  inv s ts q n m ->
  wp (tick_handle_periodic rq_head init_task) s (fun _ s' =>
    inv s' ts q n m /\ cur s' = cur s /\
    count (task s' (cur s)) = Z.max 0 (count (task s (cur s)) - 1) /\
    need_resched (task s' (cur s)) =
      (if count (task s (cur s)) <=? 1 then 1 else need_resched (task s (cur s))) /\
    (forall p, p <> cur s -> task s' p = task s p) /\ irq_on (cpu s') = irq_on (cpu s)).
Proof.
  intros Hi. pose proof (i_scored _ _ _ _ _ Hi _ (i_cur _ _ _ _ _ Hi)) as [Hc Hp].
  unfold tick_handle_periodic, task_tick, through; cbn [simple_sched_class sc_task_tick]; unfold current, task_tick_simple, update, field. wp_step. wp_step. fold (cur s).
  wp_step. wp_step. wp_step. wp_step. rewrite task_upd_eq. cbn [count set_count].
  rewrite s64_small by lia. destruct (Z.leb_spec (count (task s (cur s)) - 1) 0).
  - unfold printk. wp_steps. set (s' := with_klog _ _).
    assert (forall p, task s' p = if decide (cur s = p)
              then set_need_resched 1 (set_count 0 (task s p)) else task s p) as Ht.
    { intros p. unfold s'. change (task (with_klog ?x _)) with (task x).
      destruct (decide (cur s = p)) as [<-|]; [by rewrite !task_upd_eq|by rewrite !task_upd_ne]. }
    split.
    { eapply inv_frame; [..|exact Hi]; try done; intros p; rewrite Ht; case_decide; try done.
      intros _ [? ?]. split; simpl; lia. }
    split; [done|]. rewrite Ht, decide_True by done. cbn [count need_resched set_count set_need_resched].
    split; [lia|]. split; [by rewrite (proj2 (Z.leb_le _ _)) by lia|]. split; [|done].
    intros p Hne. by rewrite Ht, decide_False.
  - wp_step. split.
    { apply (inv_tasks s); [apply tasks_only_upd, tasks_only_refl| | |done];
        intros p; rewrite task_upd; case_decide; try done; subst; try done.
      intros _ _. split; simpl; [rewrite s64_small by lia|]; lia. }
    split; [done|]. rewrite task_upd_eq. cbn [count need_resched set_count].
    rewrite s64_small by lia. split; [lia|].
    split; [by rewrite (proj2 (Z.leb_gt _ _)) by lia|]. split; [|done].
    intros p Hne. by rewrite task_upd_ne.
Qed.

Lemma run_list_fresh s ts q n m p :
  inv s ts q n m -> LOW_MEMORY <= p -> p ∉ q -> run_list p ∉ rq_head :: (run_list <$> q).
Proof.
  intros Hi Hp Hq. rewrite not_elem_of_cons. destruct Hlay.
  split; [unfold run_list; lia|]. intros (r & E & Hr)%list_elem_of_fmap.
  apply run_list_inj in E as <-. done.
Qed.

Lemma enqueue_spec s p q :
  ring (lists s) rq_head (run_list <$> q) -> run_list p ∉ rq_head :: (run_list <$> q) ->
  nr_running (g_rq s) = Z.of_nat (length q) -> (length q < Z.to_nat NR_TASK)%nat ->
  wp (enqueue_task_simple rq_head p) s (fun _ s' =>
    exists h' rq', s' = with_rq (with_lists s h') rq' /\ ring h' rq_head (run_list <$> (p :: q)) /\
      nr_running rq' = Z.of_nat (length (p :: q))).
Proof.
  intros Hr Hn Hl Hb. unfold enqueue_task_simple, set_nr_running. wp_step. apply wp_zoom.
  cbn [lget lists_lens]. eapply wp_mono; [by apply list_add_ring|]. intros [] h' [Hr' _].
  wp_step. eexists h', _. split; [done|]. split; [done|].
  cbn [nr_running g_rq with_lists lset lists_lens]. rewrite Hl. change (Z.to_nat NR_TASK) with 64%nat in Hb.
  rewrite u32_small; simpl; lia.
Qed.

Lemma wake_inv s ts q n p :
  inv s ts q n Run -> p ∈ ts -> state (task s p) <> 0 ->
  wp (wake_up_process rq_head init_task p) s (fun _ s' =>
    inv s' ts (p :: q) n Run /\ cur s' = cur s /\ cpu s' = cpu s).
Proof.
  intros Hi Hp Hst. destruct (inv_lengths _ _ _ _ _ Hi) as [_ Hlen].
  assert (p ∉ q) as Hpq.
  { intros Hq. apply (i_state _ _ _ _ _ Hi) in Hq as [?|[? _]]; done. }
  assert (p <> cur s) as Hpc by (intros ->; by apply Hst, (i_mode _ _ _ _ _ Hi)).
  assert (LOW_MEMORY <= p) as Hlow.
  { apply (i_page _ _ _ _ _ Hi) in Hp as (i & v & -> & _). unfold PageAlloc.page_of. lia. }
  pose proof (run_list_fresh _ _ _ _ _ _ Hi Hlow Hpq) as Hfresh.
  unfold wake_up_process, update. wp_step. wp_step. set (s1 := upd s p _).
  destruct Hi.
  eapply wp_mono; [by apply (enqueue_spec s1 p q)|].
  intros [] s' (h' & rq' & -> & Hr & Hl). split; [|done].
  assert (forall r, task s1 r = if decide (p = r) then set_state 0 (task s r) else task s r) as Ht.
  { intros r. unfold s1. rewrite task_upd. case_decide; [by subst|done]. }
  split; auto; change (task (with_rq (with_lists s1 h') rq')) with (task s1);
    change (cur (with_rq (with_lists s1 h') rq')) with (cur s).
  - intros r [->|Hr']%elem_of_cons; auto.
  - eapply tring_ext; [|exact i_tring0].
    intros r. change (task (with_rq (with_lists s1 h') rq') r) with (task s1 r).
    rewrite Ht. by case_decide.
  - intros r Hr'. rewrite Ht. case_decide; apply i_pid0; done.
  - intros r Hr'. rewrite Ht. case_decide; apply i_scored0; done.
  - intros r Hr'. rewrite Ht, elem_of_cons, i_state0 by done.
    case_decide; [subst; simpl; tauto|]. intuition congruence.
  - rewrite Ht, decide_False by done. done.
  - rewrite Ht, decide_False by done. done.
  - intros r Hr' Hne. unfold suspended.
    change (task (with_rq (with_lists s1 h') rq') r) with (task s1 r). rewrite Ht.
    case_decide; apply i_susp0; done.
Qed.

End Inv.
End SchedInv.
