(* ===== verification/Fork.v ===== *)
(** * Creating tasks, and the states the scheduler can reach

    [kernel/fork.c] against the invariant of [SchedInv], and the system as a
    transition relation: every reachable state satisfies the invariant and the
    scheduler returns from it. *)

From S2P Require Import Prelude Base PageAlloc Klist Sched SchedInv.
Import Klist Sched SchedInv.

Module Fork.

Section Fork.
Context (rq_head init_task ret_from_fork switch_return : Z).
Abbreviation inv := (SchedInv.inv rq_head init_task ret_from_fork switch_return).
Context (Hlay : layout_ok rq_head init_task ret_from_fork switch_return).

(** ** find_empty_task *)

Lemma find_empty_task_spec s :
  length (g_task s) = Z.to_nat NR_TASK ->
  wp find_empty_task s (fun r s' => s' = s /\
    ((r = -1 /\ forall i, g_task s !! i <> Some 0) \/
     exists i, r = Z.of_nat i /\ g_task s !! i = Some 0 /\ (i < Z.to_nat NR_TASK)%nat /\
       forall j, (j < i)%nat -> g_task s !! j <> Some 0)).
Proof.
  intros Hl. unfold find_empty_task. change (Z.to_nat NR_TASK) with 64%nat in *.
  assert (forall k i fuel, (i + k = 64)%nat -> (k < fuel)%nat ->
    (forall j, (j < i)%nat -> g_task s !! j <> Some 0) ->
    wp (loop fuel find_empty_task_body (Z.of_nat i)) s (fun r s' => s' = s /\
      ((r = -1 /\ forall i, g_task s !! i <> Some 0) \/
       exists i, r = Z.of_nat i /\ g_task s !! i = Some 0 /\ (i < 64)%nat /\
         forall j, (j < i)%nat -> g_task s !! j <> Some 0))) as Hloop.
  { induction k as [|k IH]; intros i [|fuel] Hik Hf Hpre; try lia;
      rewrite loop_unfold; wp_step; unfold find_empty_task_body; change NR_TASK with 64.
    - rewrite (proj2 (Z.ltb_ge _ _)) by lia. wp_steps. split; [done|]. left. split; [done|].
      intros j E. apply (Hpre j); [|done]. apply lookup_lt_Some in E. lia.
    - rewrite (proj2 (Z.ltb_lt _ _)) by lia. wp_step. wp_step. wp_step.
      destruct (lookup_lt_is_Some_2 (g_task s) i) as [v Hv]; [lia|].
      eapply wp_of_option; [rewrite arr_get_nat; exact Hv|]. wp_step.
      destruct (Z.eqb_spec v 0) as [->|Hne].
      + wp_step. split; [done|]. right. exists i. split; [done|]. split; [done|]. split; [lia|done].
      + replace (Z.of_nat i + 1) with (Z.of_nat (S i)) by lia. apply IH; [lia|lia|].
        intros j Hj. destruct (decide (j = i)) as [->|]; [congruence|]. apply Hpre. lia. }
  apply (Hloop 64%nat 0%nat); [lia|lia|]. intros j Hj. lia.
Qed.

(** ** copy_thread *)

(** The context of a new thread: it enters [ret_from_fork] on a stack that starts at
    its register frame, with the function and its argument in x19 and x20. *)
Definition child_context (clone_flags p fn arg : Z) : cpu_context :=
  let k := negb (Z.land clone_flags PF_KTHREAD =? 0) in
  CpuContext (if k then fn else 0) (if k then arg else 0) 0 0 0 0 0 0 0 0 0 (task_pt_regs p) ret_from_fork.

Definition child_regs (clone_flags : Z) : pt_regs :=
  PtRegs (replicate 31 0) 0 0 (if negb (Z.land clone_flags PF_KTHREAD =? 0) then PSR_MODE_EL1h else 0).

Lemma upd_upd s p f g : upd (upd s p f) p g = upd s p (fun t => g (f t)).
Proof. unfold upd, task. simpl. rewrite lookup_insert_eq. simpl. unfold with_tasks. simpl. by rewrite insert_insert_eq. Qed.

Lemma upd_ptregs s x p f : upd (with_ptregs s x) p f = with_ptregs (upd s p f) x.
Proof. done. Qed.

Lemma copy_thread_eq s clone_flags p fn arg :
  copy_thread ret_from_fork clone_flags p fn arg s =
  Ret (0, upd (with_ptregs s (<[task_pt_regs p := child_regs clone_flags]> (ptregs s))) p
            (set_context (child_context clone_flags p fn arg))).
Proof.
  unfold copy_thread, child_context, child_regs, update, modify, mbind, M_bind, mret, M_ret.
  destruct (negb (Z.land clone_flags PF_KTHREAD =? 0)); cbn beta iota zeta.
  - cbn [ptregs with_ptregs upd with_tasks]. rewrite lookup_insert_eq. cbn [default].
    rewrite !upd_ptregs, !upd_upd. unfold with_ptregs. cbn. by rewrite insert_insert_eq.
  - rewrite !upd_upd. reflexivity.
Qed.

(** ** do_fork *)

(** The new task as [do_fork] leaves it, over what its page held before. *)
Definition child (junk : task_struct) (ctx : cpu_context) (slot cnt last : Z) : task_struct :=
  Task TASK_RUNNING (flags junk) cnt 2 slot ctx 0 0 init_task last.

(** The tasks after [do_fork]: the child, half of the parent's time slice, and the
    child linked between [last] and [init_task]. *)
Record forked (s s' : ks) (p slot last : Z) (ctx : cpu_context) : Prop := Forked {
  f_child : task s' p =
    child (task s p) ctx slot (Z.shiftr (s64 (count (task s (cur s)) + 1)) 1) last;
  f_count : forall r, r <> p ->
    count (task s' r) = if decide (r = cur s) then Z.shiftr (count (task s r)) 1 else count (task s r);
  f_next : forall r, r <> p ->
    next_task (task s' r) = if decide (r = last) then p else next_task (task s r);
  f_prev : forall r, r <> p ->
    prev_task (task s' r) = if decide (r = init_task) then p else prev_task (task s r);
  f_same : forall r, r <> p ->
    state (task s' r) = state (task s r) /\ pid (task s' r) = pid (task s r) /\
    context (task s' r) = context (task s r) /\ priority (task s' r) = priority (task s r) /\
    preempt_count (task s' r) = preempt_count (task s r);
}.

Lemma forked_links s s' ts p slot last ctx :
  tring init_task s ts -> p ∉ init_task :: ts ->
  prev_task (task s init_task) = last -> forked s s' p slot last ctx ->
  tring init_task s' (ts ++ [p]).
Proof.
  intros [Hd Hl] Hp Hlast Hf. pose proof Hp as [Hp1 Hp2]%not_elem_of_cons.
  pose proof Hd as [Hi Hd2]%NoDup_cons. split.
  { apply NoDup_cons. rewrite <-NoDup_snoc, NoDup_cons, elem_of_app, list_elem_of_singleton.
    split_and!; [|done|done]. intros [?|?]; congruence. }
  destruct (exists_last (l := init_task :: ts)) as (A & z & E); [done|].
  rewrite app_comm_cons, E, <-app_assoc in Hl. simpl in Hl. apply tlinks_app in Hl as [HA (_ & Hz & _)].
  assert (z = last) as -> by congruence.
  assert (NoDup (A ++ [last])) as HdA by (by rewrite <-E).
  apply NoDup_snoc, NoDup_cons in HdA as [HzA _].
  assert (last <> p) as Hlp.
  { intros ->. apply Hp. rewrite E, elem_of_app. right. left. }
  assert (forall r, r ∈ A ++ [last] -> r <> p) as HAp by (rewrite <-E; intros r Hr ->; done).
  replace (init_task :: (ts ++ [p]) ++ [init_task]) with (A ++ last :: p :: [init_task]).
  2: { rewrite <-app_assoc, app_comm_cons, E, <-app_assoc. done. }
  apply tlinks_app. split; [|split; [|split; [|split; [|split]]]].
  - eapply tlinks_ext; [| |exact HA].
    + intros r Hr. rewrite removelast_snoc in Hr.
      rewrite (f_next _ _ _ _ _ _ Hf), decide_False; [done|congruence|].
      apply HAp. rewrite elem_of_app. by left.
    + intros r Hr. rewrite <-E in Hr. simpl in Hr.
      rewrite (f_prev _ _ _ _ _ _ Hf), decide_False; [done|congruence|congruence].
  - rewrite (f_next _ _ _ _ _ _ Hf), decide_True by done. done.
  - by rewrite (f_child _ _ _ _ _ _ Hf).
  - by rewrite (f_child _ _ _ _ _ _ Hf).
  - rewrite (f_prev _ _ _ _ _ _ Hf), decide_True by congruence. done.
  - done.
Qed.

Lemma half_range c : 0 <= c < 2 ^ 31 ->
  0 <= Z.shiftr c 1 < 2 ^ 31 /\ 0 <= Z.shiftr (s64 (c + 1)) 1 < 2 ^ 31.
Proof.
  intros H. rewrite s64_small by lia. rewrite !shiftr_div by lia. change (2 ^ 1) with 2.
  pose proof (Z.div_mod c 2). pose proof (Z.mod_pos_bound c 2).
  pose proof (Z.div_mod (c + 1) 2). pose proof (Z.mod_pos_bound (c + 1) 2). lia.
Qed.

(** What a fork leaves of the old tasks, and gives the child. *)
Section Forked.
Context (s s' : ks) (ts q : list Z) (n p : Z) (i : nat) (ctx : cpu_context).
Context (Hi : inv s ts q n Run) (Hpn : p ∉ init_task :: ts).
Context (Hf : forked s s' p (Z.of_nat i) (prev_task (task s init_task)) ctx).

Lemma forked_ne r : r ∈ init_task :: ts -> r <> p.
Proof. by intros Hx ->. Qed.

Lemma forked_scored r : r ∈ init_task :: ts ++ [p] -> scored (task s' r).
Proof.
  destruct Hf. assert (forall r, r ∈ init_task :: ts -> scored (task s' r)) as Hold.
  { intros x Hx. pose proof (forked_ne x Hx) as Hxp.
    destruct (i_scored _ _ _ _ _ _ _ _ _ Hi x Hx) as [Hc Hpr].
    unfold scored. rewrite f_count0 by done. destruct (f_same0 x Hxp) as (_ & _ & _ & -> & _).
    split; [|done]. case_decide; [by apply half_range|done]. }
  intros [->|[Hx|Hx%list_elem_of_singleton]%elem_of_app]%elem_of_cons.
  - apply Hold. left.
  - apply Hold. by right.
  - subst r. rewrite f_child0. split; simpl; [apply half_range|lia].
    apply (i_scored _ _ _ _ _ _ _ _ _ Hi), (i_cur _ _ _ _ _ _ _ _ _ Hi).
Qed.

Lemma forked_susp r :
  pc ctx = ret_from_fork -> kstack s' = kstack s ->
  r ∈ init_task :: ts ++ [p] -> r <> cur s -> suspended ret_from_fork switch_return s' r.
Proof.
  intros Hpc Ek. destruct Hf.
  assert (forall r, r ∈ init_task :: ts -> r <> cur s -> suspended ret_from_fork switch_return s' r) as Hold.
  { intros x Hx Hxc. destruct (f_same0 x (forked_ne x Hx)) as (_ & _ & E1 & _ & E2).
    unfold suspended. rewrite E1, E2, Ek. by apply (i_susp _ _ _ _ _ _ _ _ _ Hi). }
  intros [->|[Hx|Hx%list_elem_of_singleton]%elem_of_app]%elem_of_cons Hxc.
  - apply Hold; [left|done].
  - apply Hold; [by right|done].
  - subst r. left. by rewrite f_child0.
Qed.

Lemma forked_pid r :
  g_task s !! i = Some 0 -> r ∈ ts ++ [p] ->
  exists j, pid (task s' r) = Z.of_nat j /\ <[i := p]> (g_task s) !! j = Some r.
Proof.
  intros Hg. destruct Hf. intros [Hx|Hx%list_elem_of_singleton]%elem_of_app.
  - destruct (f_same0 r) as (_ & -> & _); [by apply forked_ne; right|].
    destruct (i_pid _ _ _ _ _ _ _ _ _ Hi r Hx) as (j & Ej & Hj). exists j. split; [done|].
    destruct (decide (i = j)) as [->|]; [|by rewrite list_lookup_insert_ne].
    exfalso. rewrite Hg in Hj. injection Hj as <-.
    apply (i_page _ _ _ _ _ _ _ _ _ Hi 0) in Hx as (k & w & E & _). unfold PageAlloc.page_of, LOW_MEMORY in E. lia.
  - subst r. rewrite f_child0. exists i. split; [done|]. apply list_lookup_insert_eq. by apply lookup_lt_Some in Hg.
Qed.
End Forked.

(** Creating a task in a state that satisfies the invariant. *)
Lemma forked_inv s s' ts q n p i fr ctx h' :
  inv s ts q n Run -> frames s !! fr = Some 0 -> p = PageAlloc.page_of fr ->
  g_task s !! i = Some 0 -> pc ctx = ret_from_fork ->
  forked s s' p (Z.of_nat i) (prev_task (task s init_task)) ctx ->
  lists s' = h' -> ring h' rq_head (run_list <$> (p :: q)) ->
  nr_running (g_rq s') = Z.of_nat (length (p :: q)) ->
  frames s' = <[fr := 1]> (frames s) -> g_task s' = <[i := p]> (g_task s) ->
  cpu s' = cpu s -> kstack s' = kstack s ->
  inv s' (ts ++ [p]) (p :: q) n Run.
Proof.
  intros Hi Hfr Hp Hg Hpc Hf Hl Hr Hn Efr Eg Ec Ek.
  pose proof (i_cur _ _ _ _ _ _ _ _ _ Hi) as Hcur0.
  assert (p ∉ ts) as Hpt.
  { intros Ht. apply (i_page _ _ _ _ _ _ _ _ _ Hi) in Ht as (j & v & E & Hv & Hv0).
    rewrite Hp in E. apply PageAlloc.page_of_inj in E as <-. congruence. }
  assert (p <> init_task /\ p <> 0) as [Hpi Hp0].
  { destruct Hlay. unfold PageAlloc.page_of, LOW_MEMORY in *. lia. }
  assert (p ∉ init_task :: ts) as Hpn by (rewrite not_elem_of_cons; done).
  pose proof (forked_links s s' ts p _ _ ctx (i_tring _ _ _ _ _ _ _ _ _ Hi) Hpn eq_refl Hf) as Htr.
  assert (forall r, r ∈ init_task :: ts -> r <> p) as Hne by (intros r Hx ->; done).
  assert (cur s' = cur s) as Ecur by (unfold cur; by rewrite Ec).
  assert (cur s <> p) as Hcp by (by apply Hne).
  assert (i < length (g_task s))%nat as Hil by (by apply lookup_lt_Some in Hg).
  assert (fr < length (frames s))%nat as Hfl by (by apply lookup_lt_Some in Hfr).
  pose proof Hi as Hi'. pose proof Hf as Hf'. destruct Hi', Hf'. destruct i_slots0 as [Hs1 Hs2].
  assert (i <> 0%nat) as Hi0 by (intros ->; destruct Hlay; rewrite Hs2 in Hg; injection Hg; lia).
  split; rewrite ?Ecur, ?Hl, ?Efr, ?Eg; auto.
  - intros r [->|Hx]%elem_of_cons; rewrite elem_of_app, list_elem_of_singleton; auto.
  - by apply PageAlloc.wf_insert.
  - intros r [Hx|Hx%list_elem_of_singleton]%elem_of_app; apply PageAlloc.allocated_insert; try done.
    + right. split; [|auto]. rewrite <-Hp. apply Hne. by right.
    + left. split; [congruence|lia].
  - split; [by rewrite length_insert|]. by rewrite list_lookup_insert_ne.
  - intros r. apply (forked_pid s s' ts q n p i ctx); done.
  - intros j r Hj Hr0. rewrite elem_of_cons, elem_of_app, list_elem_of_singleton.
    apply list_lookup_insert_Some in Hj as [(_ & -> & _)|[_ Hj]]; [auto|].
    apply i_slot0 in Hj as [?|?]%elem_of_cons; auto.
  - intros r. by apply (forked_scored s s' ts q n p i ctx).
  - intros r [Hx|Hx%list_elem_of_singleton]%elem_of_app.
    + pose proof (Hne r ltac:(by right)) as Hrp. destruct (f_same0 r Hrp) as (-> & _).
      rewrite elem_of_cons, i_state0 by done. intuition congruence.
    + subst r. rewrite f_child0, elem_of_cons. simpl. tauto.
  - apply elem_of_cons in Hcur0 as [?|?]; [rewrite elem_of_cons; auto|].
    rewrite elem_of_cons, elem_of_app. auto.
  - destruct (f_same0 _ Hcp) as (-> & _). done.
  - destruct (f_same0 _ Hcp) as (_ & _ & _ & _ & ->). done.
  - intros r. by apply (forked_susp s s' ts q n p i ctx).
Qed.

(** [SET_LINKS] puts [p] at the end of the circular list of tasks. *)
Lemma SET_LINKS_spec s p :
  let last := prev_task (task s init_task) in
  p <> init_task -> p <> last ->
  wp (SET_LINKS init_task p) s (fun _ s' => tasks_only s s' /\
    task s' p = set_prev_task last (set_next_task init_task (task s p)) /\
    forall r, r <> p ->
      task s' r = (if decide (r = init_task) then set_prev_task p else id)
                    ((if decide (r = last) then set_next_task p else id) (task s r))).
Proof.
  intros last Hi Hl. unfold SET_LINKS, update, field. do 6 wp_step.
  rewrite task_upd_ne by done. fold last. do 2 wp_step. rewrite !task_upd_ne by done. fold last.
  do 3 wp_step. split; [repeat apply tasks_only_upd; apply tasks_only_refl|].
  split; [by rewrite !(task_upd_ne _ _ _ p), !task_upd_eq by done|].
  clearbody last. intros r Hr. rewrite !task_upd. repeat case_decide; subst; done.
Qed.

Lemma tring_last s ts : tring init_task s ts -> prev_task (task s init_task) ∈ init_task :: ts.
Proof.
  intros [_ Hl]. destruct (exists_last (l := init_task :: ts)) as (A & z & E); [done|].
  rewrite app_comm_cons, E, <-app_assoc in Hl. apply tlinks_app in Hl as [_ (_ & -> & _)].
  rewrite E, elem_of_app. right. left.
Qed.

(** The child after the assignments of [do_fork] to its fields. *)
Definition filled (s s1 : ks) (p slot : Z) (ctx : cpu_context) : Prop :=
  task s1 p = Task 0 (flags (task s p)) (Z.shiftr (s64 (count (task s (cur s)) + 1)) 1) 2
    slot ctx 0 0 (next_task (task s p)) (prev_task (task s p)) /\
  forall r, r <> p -> task s1 r =
    if decide (r = cur s) then set_count (Z.shiftr (count (task s r)) 1) (task s r) else task s r.

Lemma fill_spec s p slot ctx (k : M ks Z) Q :
  p <> cur s ->
  (forall s1, tasks_only s s1 -> filled s s1 p slot ctx -> wp k s1 Q) ->
  wp (update p (set_state TASK_RUNNING);;
      update p (set_pid slot);;
      cur ← current;
      c ← field cur count;
      update p (set_count (Z.shiftr (s64 (c + 1)) 1));;
      update cur (fun t => set_count (Z.shiftr (count t) 1) t);;
      update p (set_need_resched 0);;
      update p (set_preempt_count 0);;
      update p (set_priority 2);;
      k) (upd s p (set_context ctx)) Q.
Proof.
  intros Hpc Hk. unfold update, field, current.
  do 6 wp_step. rewrite !upd_upd. change (sp_el0 (cpu (upd s p _))) with (cur s).
  wp_step. wp_step. rewrite task_upd_ne by done. do 10 wp_step. rewrite !upd_upd.
  apply Hk; [repeat apply tasks_only_upd; apply tasks_only_refl|]. split.
  - rewrite task_upd_eq, task_upd_ne, task_upd_eq by congruence. reflexivity.
  - intros r Hr. rewrite task_upd_ne, task_upd by congruence.
    rewrite !(task_upd_ne _ p) by congruence. repeat case_decide; subst; (done || congruence).
Qed.

Lemma forked_intro s s1 s2 s' p slot last ctx h' rq' :
  tasks s' = tasks (with_rq (with_lists (upd s2 p (set_state TASK_RUNNING)) h') rq') ->
  filled s s1 p slot ctx ->
  task s2 p = set_prev_task last (set_next_task init_task (task s1 p)) ->
  (forall r, r <> p ->
     task s2 r = (if decide (r = init_task) then set_prev_task p else id)
                   ((if decide (r = last) then set_next_task p else id) (task s1 r))) ->
  forked s s' p slot last ctx.
Proof.
  intros Es [Ep Er] Ep2 Er2.
  assert (forall r, task s' r = task (upd s2 p (set_state TASK_RUNNING)) r) as Et
    by (intros r; unfold task; by rewrite Es).
  split; [by rewrite Et, task_upd_eq, Ep2, Ep|..];
    (intros r Hr; rewrite Et, task_upd_ne, Er2, Er by done; repeat case_decide; done).
Qed.

(** The part of [do_fork] after the slot is found, up to the wake-up. *)
Lemma fork_body_spec s ts q n clone_flags fn arg fr i :
  inv s ts q n Run -> frames s !! fr = Some 0 -> g_task s !! i = Some 0 ->
  (i < Z.to_nat NR_TASK)%nat -> (length q < Z.to_nat NR_TASK)%nat ->
  let p := PageAlloc.page_of fr in
  let ctx := child_context clone_flags p fn arg in
  wp (r ← copy_thread ret_from_fork clone_flags p fn arg;
      if negb (r =? 0) then mret (-1)
      else
        update p (set_state TASK_RUNNING);;
        update p (set_pid (Z.of_nat i));;
        cur ← current;
        c ← field cur count;
        update p (set_count (Z.shiftr (s64 (c + 1)) 1));;
        update cur (fun t => set_count (Z.shiftr (count t) 1) t);;
        update p (set_need_resched 0);;
        update p (set_preempt_count 0);;
        update p (set_priority 2);;
        g ← gets g_task;
        g ← of_option (arr_set g (Z.of_nat i) p);
        modify (fun s => with_g_task s g);;
        SET_LINKS init_task p;;
        wake_up_process rq_head init_task p;;
        mret (Z.of_nat i)) (with_frames s (<[fr := 1]> (frames s))) (fun r s' =>
    r = Z.of_nat i /\ inv s' (ts ++ [p]) (p :: q) n Run /\ cpu s' = cpu s /\
    forked s s' p (Z.of_nat i) (prev_task (task s init_task)) ctx /\
    ptregs s' !! task_pt_regs p = Some (child_regs clone_flags)).
Proof.
  intros Hi Hfr Hg Hil Hlq p ctx.
  assert (LOW_MEMORY <= p) as Hlow by (unfold p, PageAlloc.page_of; lia).
  assert (p ∉ ts) as Hpt.
  { intros (j & v & E & Hv & Hv0)%(i_page _ _ _ _ _ _ _ _ _ Hi).
    apply PageAlloc.page_of_inj in E as <-. congruence. }
  assert (p <> init_task) as Hpi by (destruct Hlay; unfold LOW_MEMORY in *; lia).
  assert (p <> cur s) as Hpc.
  { intros E. pose proof (i_cur _ _ _ _ _ _ _ _ _ Hi) as Hc. rewrite <-E in Hc.
    by apply elem_of_cons in Hc as [?|?]. }
  assert (p ∉ q) as Hpq by (intros Hx; by apply Hpt, (i_sub _ _ _ _ _ _ _ _ _ Hi)).
  pose proof (run_list_fresh _ _ _ _ Hlay _ _ _ _ _ _ Hi Hlow Hpq) as Hfresh.
  wp_step. unfold wp at 1. rewrite copy_thread_eq. fold ctx. cbn [Z.eqb negb].
  set (s0 := with_ptregs _ _). apply fill_spec; [done|].
  intros s1 E1 Hfill. do 3 wp_step.
  assert (g_task s1 = g_task s) as Eg by (by rewrite E1).
  eapply wp_of_option.
  { rewrite Eg. apply arr_set_nat. by apply lookup_lt_Some in Hg. }
  do 3 wp_step. set (s2 := with_g_task _ _). set (last := prev_task (task s init_task)).
  assert (prev_task (task s2 init_task) = last) as Elast.
  { change (task s2) with (task s1). rewrite (proj2 Hfill) by done. by case_decide. }
  assert (p <> last) as Hpl.
  { pose proof (tring_last _ _ (i_tring _ _ _ _ _ _ _ _ _ Hi)) as Hx. fold last in Hx.
    intros E. rewrite <-E in Hx. by apply elem_of_cons in Hx as [?|?]. }
  eapply wp_mono; [apply (SET_LINKS_spec s2 p); [done|by rewrite Elast]|].
  rewrite Elast. intros [] s3 (E3 & Ep3 & Er3). wp_step. unfold wake_up_process, update.
  wp_step. wp_step. set (s4 := upd s3 _ _).
  assert (lists s4 = lists s /\ g_rq s4 = g_rq s /\ frames s4 = <[fr := 1]> (frames s) /\
    g_task s4 = <[i := p]> (g_task s) /\ cpu s4 = cpu s /\ kstack s4 = kstack s /\
    ptregs s4 !! task_pt_regs p = Some (child_regs clone_flags)) as (L1 & L2 & L3 & L4 & L5 & L6 & L7).
  { unfold s4. rewrite E3. unfold s2. rewrite E1. unfold s0. cbn. by rewrite lookup_insert_eq. }
  pose proof (i_ring _ _ _ _ _ _ _ _ _ Hi) as Hring. pose proof (i_len _ _ _ _ _ _ _ _ _ Hi) as Hlen.
  eapply wp_mono; [apply (enqueue_spec rq_head s4 p q); rewrite ?L1, ?L2; done|].
  intros [] s5 (h' & rq' & -> & Hr5 & Hn5). wp_step.
  assert (forked s (with_rq (with_lists s4 h') rq') p (Z.of_nat i) last ctx) as Hf
    by (by eapply (forked_intro s s1 s3)).
  split; [done|]. split; [|split; [done|]; split; [done|exact L7]].
  eapply (forked_inv s _ ts q n p i fr ctx h'); try done.
Qed.

Lemma inv_leak s ts q n m fr :
  inv s ts q n m -> frames s !! fr = Some 0 ->
  inv (with_frames s (<[fr := 1]> (frames s))) ts q n m.
Proof.
  intros [] Hfr. split; auto.
  - by eapply tring_ext; [|exact i_tring0].
  - by apply PageAlloc.wf_insert.
  - intros p Hp. apply PageAlloc.allocated_insert; [by apply lookup_lt_Some in Hfr|].
    destruct (i_page0 p Hp) as (j & v & -> & Hj & Hv). right. split; [|by exists j, v].
    intros <-%PageAlloc.page_of_inj. congruence.
Qed.

Lemma do_fork_inv s ts q n clone_flags fn arg :
  inv s ts q n Run ->
  wp (do_fork rq_head init_task ret_from_fork clone_flags fn arg) s (fun r s' =>
    cpu s' = cpu s /\
    ((r = -1 /\ inv s' ts q n Run /\ tasks s' = tasks s /\
      (PageAlloc.first_free (frames s) = None \/ forall i, g_task s !! i <> Some 0)) \/
     exists p, 0 <= r < NR_TASK /\ g_task s !! Z.to_nat r = Some 0 /\
       (forall j, (j < Z.to_nat r)%nat -> g_task s !! j <> Some 0) /\
       PageAlloc.page_of <$> PageAlloc.first_free (frames s) = Some p /\
       inv s' (ts ++ [p]) (p :: q) n Run /\
       forked s s' p r (prev_task (task s init_task)) (child_context clone_flags p fn arg) /\
       ptregs s' !! task_pt_regs p = Some (child_regs clone_flags))).
Proof.
  intros Hi. unfold do_fork. wp_step. apply wp_zoom. unfold wp at 1. cbn [lget frames_lens].
  rewrite PageAlloc.get_free_page_eq by apply Hi.
  destruct (PageAlloc.first_free (frames s)) as [fr|] eqn:Ef.
  2: { cbn [lset frames_lens Z.eqb]. wp_step. split; [done|]. left. split; [done|].
       split; [|split; [done|by left]]. by destruct s. }
  pose proof (proj1 (proj1 (PageAlloc.first_free_Some _ _) Ef)) as Hfr.
  cbn [lset frames_lens]. rewrite (proj2 (Z.eqb_neq _ 0)) by (unfold PageAlloc.page_of, LOW_MEMORY; lia).
  set (s1 := with_frames _ _). wp_step.
  eapply wp_mono; [apply (find_empty_task_spec s1), Hi|]. intros r s2 [-> [[-> Hno]|(i & -> & Hg & Hil & Hlow)]].
  - cbn [Z.ltb Z.compare]. wp_step. split; [done|]. left. split; [done|].
    split; [by apply (inv_leak s)|]. split; [done|by right].
  - rewrite (proj2 (Z.ltb_ge _ 0)) by lia.
    eapply wp_mono; [apply (fork_body_spec s ts q n clone_flags fn arg fr i); try done; by eapply inv_lengths|].
    intros r s' (-> & Hi' & Hc & Hf & Hp). split; [done|]. right. exists (PageAlloc.page_of fr).
    change (Z.to_nat NR_TASK) with 64%nat in Hil. change NR_TASK with 64. rewrite Nat2Z.id.
    split; [lia|]. done.
Qed.

(** ** The system *)

(** [el1_irq] from the interrupted instruction to the next one of a task. An interrupt is taken only with IRQs unmasked, and
    taking it masks them; the handler runs; [el1_irq] tests whether to preempt the task; and the [eret] to the
    interrupted code, or to that of the task that runs now when it was preempted itself, unmasks them again. *)
Definition interrupt (handler : M ks unit) : M ks (option resumed) :=
  on ← gets (fun s => irq_on (cpu s));
  if negb on then undef
  else
    raw_local_irq_disable;;
    handler;;
    r ← el1_irq_exit rq_head init_task ret_from_fork switch_return;
    match r with
    | None | Some (After FromPreempt) => raw_local_irq_enable;; mret r
    | _ => mret r
    end.

(** The interrupt of a timer whose handler calls [tick_handle_periodic]. *)
Abbreviation timer_interrupt := (interrupt (tick_handle_periodic rq_head init_task)).

(** What can happen between two points where task code runs: the running task
    forks; calls [schedule], possibly after giving itself a waiting state; wakes a
    waiting task; or is interrupted by a timer that drives the scheduler. Excluded are: a call of [schedule] and a tick
    while the run queue is empty; a waiting state for [init_task], which is in no queue to leave, and for the last task of the
    queue, after which nothing could run; and waking a task that is not waiting, which would queue it twice. The
    code checks for none of these. *)
Inductive step (s : ks) : ks -> Prop :=
  | step_fork clone_flags fn arg r s' :
      do_fork rq_head init_task ret_from_fork clone_flags fn arg s = Ret (r, s') -> step s s'
  | step_schedule r s' :
      nxt (lists s) rq_head <> rq_head ->
      schedule rq_head init_task ret_from_fork switch_return s = Ret (r, s') -> step s s'
  | step_wait st r s' :
      st <> 0 -> cur s <> init_task -> 2 <= nr_running (g_rq s) ->
      schedule rq_head init_task ret_from_fork switch_return (upd s (cur s) (set_state st)) = Ret (r, s') ->
      step s s'
  | step_wake p s' i :
      g_task s !! i = Some p -> p <> 0 -> p <> init_task -> state (task s p) <> 0 ->
      wake_up_process rq_head init_task p s = Ret (tt, s') -> step s s'
  | step_tick r s' :
      nxt (lists s) rq_head <> rq_head ->
      timer_interrupt s = Ret (r, s') ->
      step s s'.

(** The state after [sched_init] at boot, on zeroed [.bss]. *)
Definition boot (fr : list Z) (r : cpu_context) (irq : bool) : ks :=
  Ks {[rq_head := ListHead rq_head rq_head]} {[init_task := init_task_value init_task]} ∅
     (RunQueue 0 0 0) (g_task_value init_task) fr (Cpu r init_task irq) ∅ [].

Definition invs (s : ks) : Prop := exists ts q, inv s ts q 0 Run.

Lemma queue_nonempty s ts q n m :
  inv s ts q n m -> nxt (lists s) rq_head <> rq_head -> q <> [].
Proof. intros Hi Hn ->. apply Hn. by rewrite (ring_first _ _ _ (i_ring _ _ _ _ _ _ _ _ _ Hi)). Qed.

(** Giving itself a waiting state, the running task is still queued. *)
Lemma inv_waiting s ts q n st :
  inv s ts q n Run -> st <> 0 -> cur s <> init_task ->
  inv (upd s (cur s) (set_state st)) ts q n Blocking.
Proof.
  intros [] Hst Hc. set (s' := upd s (cur s) _).
  assert (cur s ∈ ts) as Hct by (by apply elem_of_cons in i_cur0 as [?|?]).
  assert (forall r, task s' r = if decide (cur s = r) then set_state st (task s r) else task s r) as Ht.
  { intros r. unfold s'. rewrite task_upd. case_decide; [by subst|done]. }
  assert (cur s ∈ q) as Hcq by (apply i_state0; auto).
  split; auto; change (cur s') with (cur s).
  - eapply tring_ext; [|exact i_tring0]. intros r. rewrite Ht. by case_decide.
  - intros r Hr. rewrite Ht. case_decide; apply i_pid0; done.
  - intros r Hr. rewrite Ht. case_decide; apply i_scored0; done.
  - intros r Hr. rewrite Ht, i_state0 by done. case_decide; [subst; simpl; tauto|].
    intuition congruence.
  - by rewrite Ht, decide_True.
  - by rewrite Ht, decide_True.
  - intros r Hr Hne. unfold suspended. rewrite Ht, decide_False by congruence. by apply i_susp0.
Qed.

(** A task that gave itself a waiting state leaves the queue when it schedules. *)
Lemma wait_inv s ts q st :
  inv s ts q 0 Run -> st <> 0 -> cur s <> init_task -> (2 <= length q)%nat ->
  exists q1 q2, q = q1 ++ cur s :: q2 /\
    wp (schedule rq_head init_task ret_from_fork switch_return) (upd s (cur s) (set_state st)) (fun _ s' =>
      inv s' ts (q1 ++ q2) 0 Run /\ choice (fun p => count (task s' p)) (q1 ++ q2) (cur s')).
Proof.
  intros Hi Hst Hc Hl. pose proof (inv_waiting s ts q 0 st Hi Hst Hc) as Hi1.
  pose proof (i_mode _ _ _ _ _ _ _ _ _ Hi1) as [_ Hcq]. change (cur (upd s _ _)) with (cur s) in Hcq.
  apply list_elem_of_split in Hcq as (q1 & q2 & Eq). exists q1, q2. split; [done|].
  assert (q1 ++ q2 <> []) as Hne.
  { intros [-> ->]%app_eq_nil. rewrite Eq in Hl. simpl in Hl. lia. }
  eapply wp_mono; [apply (schedule_inv _ _ _ _ Hlay _ ts q (q1 ++ q2) Blocking Hi1 ltac:(done)
    (ex_intro _ q1 (ex_intro _ q2 (conj Eq eq_refl))) Hne)|].
  intros r s' (Hi' & Hch & _). by split.
Qed.

Lemma irq_inv s ts q n m b :
  inv s ts q n m -> inv (with_cpu s (Cpu (regs (cpu s)) (sp_el0 (cpu s)) b)) ts q n m.
Proof. intros Hi. by eapply inv_frame; [..|exact Hi]. Qed.

(** After an interrupt: the running task goes on with a smaller slice, or the queue's choice runs. *)
Definition after_tick (s : ks) (ts q : list Z) (r : option resumed) (s' : ks) : Prop :=
  inv s' ts q 0 Run /\ irq_on (cpu s') = true /\
  exists s1, inv s1 ts q 0 Run /\ cur s1 = cur s /\
    count (task s1 (cur s)) = Z.max 0 (count (task s (cur s)) - 1) /\
    (forall p, p <> cur s -> count (task s1 p) = count (task s p)) /\
    ((r = None /\ cur s' = cur s /\ 1 < count (task s (cur s)) /\ forall p, count (task s' p) = count (task s1 p)) \/
     (is_Some r /\ slices s1 s' ts q /\ choice (fun p => count (task s' p)) q (cur s'))).

Lemma interrupt_inv s ts q :
  inv s ts q 0 Run -> q <> [] -> irq_on (cpu s) = true -> wp timer_interrupt s (after_tick s ts q).
Proof.
  intros Hi Hq Hon. unfold interrupt. do 2 wp_step. rewrite Hon. cbn [negb].
  unfold raw_local_irq_disable, raw_local_irq_enable, set_irq. wp_step. wp_step. set (s0 := with_cpu s _).
  pose proof (irq_inv s ts q 0 Run false Hi) as Hi0. wp_step. eapply wp_mono; [by apply tick_inv|].
  intros [] s1 (Hi1 & Ec & Hc & Hn & Ho & Hirq). change (cur s0) with (cur s) in *. change (task s0) with (task s) in *.
  assert (forall p, p <> cur s -> count (task s1 p) = count (task s p)) as Ho' by (intros p Hp; by rewrite Ho).
  unfold el1_irq_exit, current, field. do 5 wp_step. fold (cur s1).
  rewrite (i_count _ _ _ _ _ _ _ _ _ Hi1). cbn [Z.eqb negb]. do 2 wp_step.
  destruct (Z.eqb_spec (need_resched (task s1 (cur s1))) 0) as [E|E]; wp_step.
  - do 2 wp_step. wp_step. split; [by apply irq_inv|]. split; [done|]. exists s1. split; [done|]. split; [done|]. split; [done|].
    split; [done|]. left. split; [done|]. split; [done|]. split; [|done]. rewrite Ec, Hn in E.
    destruct (Z.leb_spec (count (task s (cur s))) 1); [done|lia].
  - eapply wp_mono; [by apply (preempt_schedule_irq_inv _ _ _ _ Hlay s1 ts q)|].
    intros r s2 (Hi2 & Hch & Hsame & Hother & Hsl). wp_step.
    destruct (decide (r = After FromPreempt)) as [->|Hr].
    + do 2 wp_step. wp_step. split; [by apply irq_inv|]. split; [done|]. exists s1. split_and!; try done. right. by split.
    + assert (irq_on (cpu s2) = true) as Hirq2.
      { destruct (decide (cur s2 = cur s1)) as [E2|E2]; [by destruct (Hsame E2)|]. rewrite (Hother E2). by apply bool_decide_eq_true. }
      assert (wp (mret (Some r)) s2 (after_tick s ts q)) as Hend.
      { wp_step. split; [done|]. split; [done|]. exists s1. split_and!; try done. right. by split. }
      by destruct r as [[]| |].
Qed.

Lemma step_inv s s' : invs s -> step s s' -> invs s'.
Proof.
  intros (ts & q & Hi) Hstep. destruct Hstep as [fl fn arg r s' E|r s' Hn E|st r s' Hst Hc Hl E
    |p s' i Hg Hp Hpi Hst E|r s' Hn E].
  - pose proof (do_fork_inv s ts q 0 fl fn arg Hi) as H. unfold wp in H. rewrite E in H.
    destruct H as (_ & [(_ & H & _)|(p & _ & _ & _ & _ & H & _)]); [by exists ts, q|by eexists _, _].
  - pose proof (schedule_inv _ _ _ _ Hlay s ts q q Run Hi ltac:(done) eq_refl
      (queue_nonempty _ _ _ _ _ Hi Hn)) as H.
    unfold wp in H. rewrite E in H. exists ts, q. apply H.
  - destruct (wait_inv s ts q st Hi Hst Hc) as (q1 & q2 & _ & H).
    { rewrite (i_len _ _ _ _ _ _ _ _ _ Hi) in Hl. lia. }
    unfold wp in H. rewrite E in H. exists ts, (q1 ++ q2). apply H.
  - assert (p ∈ ts) as Hpt.
    { apply (i_slot _ _ _ _ _ _ _ _ _ Hi) in Hg; [|done]. by apply elem_of_cons in Hg as [?|?]. }
    pose proof (wake_inv _ _ _ _ Hlay s ts q 0 p Hi Hpt Hst) as H. unfold wp in H. rewrite E in H.
    exists ts, (p :: q). apply H.
  - assert (irq_on (cpu s) = true) as Hon.
    { unfold interrupt, mbind, M_bind, gets in E. by destruct (irq_on (cpu s)). }
    pose proof (interrupt_inv s ts q Hi (queue_nonempty _ _ _ _ _ Hi Hn) Hon) as H.
    unfold wp in H. rewrite E in H. exists ts, q. apply H.
Qed.

Lemma boot_inv fr r irq : PageAlloc.wf fr -> inv (boot fr r irq) [] [] 0 Run.
Proof.
  intros Hfr.
  assert (task (boot fr r irq) init_task = init_task_value init_task) as Ht.
  { unfold task, boot. simpl. by rewrite lookup_singleton_eq. }
  assert (node (lists (boot fr r irq)) rq_head = ListHead rq_head rq_head) as Hn.
  { unfold node, boot. simpl. by rewrite lookup_singleton_eq. }
  split; try done; try (by intros p ?%not_elem_of_nil).
  - split; [apply NoDup_singleton|].
    change (nxt (lists (boot fr r irq)) rq_head = rq_head /\ prv (lists (boot fr r irq)) rq_head = rq_head /\ True).
    unfold nxt, prv. by rewrite Hn.
  - split; [apply NoDup_singleton|]. simpl tlinks. by rewrite Ht.
  - intros i p Hg Hp. unfold boot, g_task, g_task_value in Hg.
    apply elem_of_cons. left. destruct i as [|i]; [by injection Hg|].
    change (replicate (Z.to_nat NR_TASK - 1) 0 !! i = Some p) in Hg.
    apply lookup_replicate in Hg as [-> _]. done.
  - intros p ->%list_elem_of_singleton. rewrite Ht. by vm_compute.
  - left.
  - change (cur _) with init_task. by rewrite Ht.
  - change (cur _) with init_task. by rewrite Ht.
  - intros p ->%list_elem_of_singleton Hp. done.
Qed.

Definition reachable (s : ks) : Prop :=
  exists fr r irq, PageAlloc.wf fr /\ rtc step (boot fr r irq) s.

Lemma reachable_invs s : reachable s -> invs s.
Proof.
  intros (fr & r & irq & Hfr & Hr).
  assert (invs (boot fr r irq)) as H0 by (eexists [], []; by apply boot_inv).
  induction Hr as [|x y z Hxy _ IH]; [done|]. by apply IH, (step_inv x).
Qed.

(** ** Properties *)



(** C35: A waiting task: when the running task sets a waiting state and calls [schedule],
    and another task is queued, [schedule] takes it off the run queue, runs the
    best of the others and keeps the invariant. *)
Theorem schedule_wait s ts q st :
  inv s ts q 0 Run -> st <> 0 -> cur s <> init_task -> (2 <= length q)%nat ->
  exists q' r s', Permutation q (cur s :: q') /\
    schedule rq_head init_task ret_from_fork switch_return (upd s (cur s) (set_state st)) = Ret (r, s') /\
    inv s' ts q' 0 Run /\ choice (fun p => count (task s' p)) q' (cur s') /\ cur s' <> cur s.
Proof.
  intros Hi Hst Hc Hl. destruct (wait_inv s ts q st Hi Hst Hc Hl) as (q1 & q2 & Eq & H).
  apply wp_elim in H as (r & s' & E & Hi' & Hch).
  exists (q1 ++ q2), r, s'. split; [rewrite Eq; solve_Permutation|]. split; [done|].
  split; [done|]. split; [done|]. intros Ec.
  pose proof (choice_elem _ _ _ Hch) as Hx. rewrite Ec in Hx.
  pose proof (i_ring _ _ _ _ _ _ _ _ _ Hi) as [[_ Hnd]%NoDup_cons _]. apply NoDup_fmap_1 in Hnd.
  rewrite Eq in Hnd. by apply (elem_of_del q1 q2 _ _ Hnd) in Hx as [_ ?].
Qed.

(** C8: Creating a task: with a free page and a free slot, [do_fork] returns the lowest
    free pid, the child is the page's task structure, queued first and linked
    last, it will start in [ret_from_fork] with the function and argument in x19 and
    x20 and its stack below its register frame, and it takes half of the parent's
    time slice; otherwise [do_fork] returns -1 and no task changes. The invariant is
    kept in both cases. *)
Theorem do_fork_spec s ts q n clone_flags fn arg :
  inv s ts q n Run ->
  exists r s', do_fork rq_head init_task ret_from_fork clone_flags fn arg s = Ret (r, s') /\
    cpu s' = cpu s /\
    ((r = -1 /\ inv s' ts q n Run /\ tasks s' = tasks s /\
      (PageAlloc.first_free (frames s) = None \/ forall i, g_task s !! i <> Some 0)) \/
     exists p, 0 <= r < NR_TASK /\ g_task s !! Z.to_nat r = Some 0 /\
       (forall j, (j < Z.to_nat r)%nat -> g_task s !! j <> Some 0) /\
       PageAlloc.page_of <$> PageAlloc.first_free (frames s) = Some p /\
       inv s' (ts ++ [p]) (p :: q) n Run /\
       forked s s' p r (prev_task (task s init_task)) (child_context clone_flags p fn arg) /\
       ptregs s' !! task_pt_regs p = Some (child_regs clone_flags)).
Proof.
  intros Hi. pose proof (do_fork_inv s ts q n clone_flags fn arg Hi) as H.
  apply wp_elim in H as (r & s' & E & H). by exists r, s'.
Qed.

(** The timer tick: the running task's time slice shrinks by one and never
    becomes negative; when it is used up the task is marked for rescheduling; no
    other task changes, and the invariant is kept. *)
Theorem tick_spec s ts q n m :
  inv s ts q n m ->
  exists s', tick_handle_periodic rq_head init_task s = Ret (tt, s') /\ inv s' ts q n m /\ cur s' = cur s /\
    count (task s' (cur s)) = Z.max 0 (count (task s (cur s)) - 1) /\
    need_resched (task s' (cur s)) =
      (if count (task s (cur s)) <=? 1 then 1 else need_resched (task s (cur s))) /\
    (forall p, p <> cur s -> task s' p = task s p) /\ irq_on (cpu s') = irq_on (cpu s).
Proof.
  intros Hi. pose proof (tick_inv _ _ _ _ s ts q n m Hi) as H.
  apply wp_elim in H as ([] & s' & E & H). by exists s'.
Qed.

(** C10: The choice of the next task: over a queue of linked tasks with time slices in
    range, [pick_next_task_simple] ends and returns the first task of the greatest
    time slice; when every queued task has used up its slice, it first gives all
    tasks a new one, and it changes nothing else. *)
Theorem pick_next_task_spec s ts q n m prev :
  inv s ts q n m -> q <> [] ->
  exists p s', pick_next_task_simple rq_head init_task prev s = Ret (p, s') /\
    tasks_only s s' /\ refilled s s' ts q /\ choice (fun r => count (task s' r)) q p.
Proof.
  intros Hi Hq. destruct (inv_lengths _ _ _ _ _ _ _ _ _ Hi) as [Hl1 Hl2].
  assert (wp (pick_next_task_simple rq_head init_task prev) s (fun p s' =>
    tasks_only s s' /\ refilled s s' ts q /\ choice (fun r => count (task s' r)) q p)) as H.
  { apply (pick_spec rq_head init_task s ts q); try apply Hi; try done.
    intros r Hr. apply (i_scored _ _ _ _ _ _ _ _ _ Hi). by right. }
  apply wp_elim in H as (p & s' & E & H). by exists p, s'.
Qed.

(** [pick_next_task_simple] on an empty run queue returns a variable that was never
    assigned. *)
Theorem pick_next_task_empty s prev :
  ring (lists s) rq_head [] -> pick_next_task_simple rq_head init_task prev s = Undef.
Proof.
  intros Hr. pose proof (scan_spec rq_head s [] (-1000, None) (Z.to_nat NR_TASK) Hr) as H.
  apply wp_elim in H as (cn & s' & E & -> & ->); [|change (Z.to_nat NR_TASK) with 64%nat; simpl; lia].
  unfold pick_next_task_simple. rewrite loop_unfold. unfold pick_body, mbind, M_bind. by rewrite E.
Qed.

(** A context switch is a round trip: whatever runs between the switch away from
    [a] and the switch back, as long as it keeps the saved context, [a] finds its
    callee-saved registers and stack pointer as it left them, is the current task
    again, and continues after its call of [cpu_switch_to]. *)
Theorem cpu_switch_round_trip s s1 s2 a b c :
  a <> b -> a <> c ->
  cpu_switch_to switch_return a b s = Ret (tt, s1) ->
  context (task s2 a) = context (task s1 a) ->
  exists s3, cpu_switch_to switch_return c a s2 = Ret (tt, s3) /\ cur s3 = a /\
    pc (regs (cpu s3)) = switch_return /\
    regs (cpu s3) = (let r := regs (cpu s) in
      CpuContext (x19 r) (x20 r) (x21 r) (x22 r) (x23 r) (x24 r) (x25 r) (x26 r) (x27 r) (x28 r)
                 (fp r) (sp r) switch_return).
Proof.
  intros Hab Hac E1 Ec. unfold cpu_switch_to, update, field, modify, gets, mbind, M_bind in *.
  injection E1 as <-. eexists. split; [reflexivity|]. split; [done|].
  cbn [cpu regs with_cpu]. rewrite task_upd_ne by done.
  change (task (with_cpu ?x _)) with (task x) in *. rewrite Ec, task_upd_eq. done.
Qed.

(** [sched_init] leaves an empty run queue and zero counters, whatever was there, and
    nothing else changes; on the zeroed [.bss] of boot it gives the state that
    reachability starts from. *)
Theorem sched_init_spec s fr r irq :
  (exists h, sched_init rq_head s = Ret (tt, with_rq (with_lists s h) (RunQueue 0 0 0)) /\
     ring h rq_head [] /\ forall a, a <> rq_head -> node h a = node (lists s) a) /\
  sched_init rq_head (with_rq (with_lists (boot fr r irq) ∅) (RunQueue 0 0 0)) = Ret (tt, boot fr r irq).
Proof.
  split.
  - pose proof (ring_init (lists s) rq_head) as H. apply wp_elim in H as ([] & h & E & Hr & Hf).
    exists h. split; [|done]. unfold sched_init, mbind, M_bind, zoom, modify.
    cbn [lget lists_lens]. by rewrite E.
  - assert (put_prev (put_next ∅ rq_head rq_head) rq_head rq_head =
            {[rq_head := ListHead rq_head rq_head]}) as E.
    { unfold put_prev, nxt, node, put_next. by rewrite lookup_insert_eq, insert_insert_eq. }
    change (Ret (tt, with_lists (boot fr r irq) (put_prev (put_next ∅ rq_head rq_head) rq_head rq_head))
            = Ret (tt, boot fr r irq)).
    by rewrite E.
Qed.

End Fork.

(** ** A concrete system *)

Definition head0 : Z := 0x90000.
Definition init0 : Z := 0x90100.
Definition fork0 : Z := 0x81000.
Definition return0 : Z := 0x81500.
Definition boot0 : ks := boot head0 init0 PageAlloc.mem_map_init zero_context true.

Lemma layout0 : layout_ok head0 init0 fork0 return0.
Proof. split; by vm_compute. Qed.

Lemma boot0_inv : inv head0 init0 fork0 return0 boot0 [] [] 0 Run.
Proof. apply (boot_inv _ _ _ _ _ zero_context true PageAlloc.wf_init). Qed.

Lemma boot0_reachable : reachable head0 init0 fork0 return0 boot0.
Proof. eexists _, _, _. split; [apply PageAlloc.wf_init|apply rtc_refl]. Qed.

Lemma first_free_init : PageAlloc.first_free PageAlloc.mem_map_init = Some 0%nat.
Proof. reflexivity. Qed.

(** Forking from a state with free pages and a free slot. *)
Lemma fork_some s ts q i fr :
  inv head0 init0 fork0 return0 s ts q 0 Run ->
  PageAlloc.first_free (frames s) = Some fr -> g_task s !! i = Some 0 ->
  exists r s' p, do_fork head0 init0 fork0 PF_KTHREAD 0x5000 7 s = Ret (r, s') /\
    inv head0 init0 fork0 return0 s' (ts ++ [p]) (p :: q) 0 Run /\ cpu s' = cpu s.
Proof.
  intros Hi Hf Hg. pose proof (do_fork_inv head0 init0 fork0 return0 layout0 s ts q 0 PF_KTHREAD 0x5000 7 Hi) as H.
  apply wp_elim in H as (r & s' & E & Hc & [(_ & _ & _ & [Hn|Hn])|(p & _ & _ & _ & _ & Hi' & _)]).
  - congruence.
  - by destruct (Hn i).
  - by exists r, s', p.
Qed.

Lemma fork_boot0 :
  exists r s' p, do_fork head0 init0 fork0 PF_KTHREAD 0x5000 7 boot0 = Ret (r, s') /\
    inv head0 init0 fork0 return0 s' [p] [p] 0 Run /\ cpu s' = cpu boot0.
Proof. apply (fork_some boot0 [] [] 1 0 boot0_inv first_free_init). reflexivity. Qed.

Lemma nonempty_next s ts p q n m :
  inv head0 init0 fork0 return0 s ts (p :: q) n m -> nxt (lists s) head0 <> head0.
Proof.
  intros Hi E. pose proof (i_ring _ _ _ _ _ _ _ _ _ Hi) as Hr.
  rewrite (ring_first _ _ _ Hr) in E. simpl in E. destruct Hr as [[Hh _]%NoDup_cons _].
  apply Hh. rewrite <-E at 1. left.
Qed.



Lemma do_fork_spec_witness :
  exists r s', do_fork head0 init0 fork0 PF_KTHREAD 0x5000 7 boot0 = Ret (r, s') /\ cpu s' = cpu boot0.
Proof.
  destruct (do_fork_spec _ _ _ _ layout0 boot0 [] [] 0 PF_KTHREAD 0x5000 7 boot0_inv)
    as (r & s' & E & Hc & _).
  exists r, s'. split; [exact E|exact Hc].
Defined.

Lemma tick_spec_witness :
  exists s', tick_handle_periodic head0 init0 boot0 = Ret (tt, s') /\ count (task s' init0) = Z.max 0 (25 - 1).
Proof.
  destruct (tick_spec _ _ _ _ boot0 [] [] 0 Run boot0_inv) as (s' & E & _ & _ & Hc & _).
  exists s'. split; [exact E|exact Hc].
Defined.

Lemma pick_next_task_spec_witness :
  exists s ts q p s', inv head0 init0 fork0 return0 s ts q 0 Run /\
    pick_next_task_simple head0 init0 init0 s = Ret (p, s') /\ choice (fun r => count (task s' r)) q p.
Proof.
  destruct fork_boot0 as (r & s1 & p & E & Hi & _).
  destruct (pick_next_task_spec _ _ _ _ s1 [p] [p] 0 Run init0 Hi ltac:(done)) as (p' & s' & E' & _ & _ & Hc).
  exists s1, [p], [p], p', s'. split; [exact Hi|]. split; [exact E'|exact Hc].
Defined.

Lemma pick_next_task_empty_witness : pick_next_task_simple head0 init0 init0 boot0 = Undef.
Proof. apply pick_next_task_empty, (i_ring _ _ _ _ _ _ _ _ _ boot0_inv). Defined.

(** Two tasks forked, the first of them running. *)
Definition t1 : Z := 0x400000.
Definition t2 : Z := 0x401000.
Definition saved (p : Z) : cpu_context := CpuContext 0 0 0 0 0 0 0 0 0 0 0 0 p.
Definition two : ks :=
  Ks {[head0 := ListHead (run_list t2) (run_list t1); run_list t2 := ListHead (run_list t1) head0;
       run_list t1 := ListHead head0 (run_list t2)]}
     {[init0 := Task 0 1 6 1 0 (saved return0) 0 1 t1 t2; t1 := Task 0 0 13 2 1 (saved fork0) 0 0 t2 init0;
       t2 := Task 0 0 6 2 2 (saved fork0) 0 0 init0 t1]}
     ∅ (RunQueue 2 0 0) (init0 :: t1 :: t2 :: replicate 61 0)
     (<[0%nat := 1]> (<[1%nat := 1]> PageAlloc.mem_map_init))
     (Cpu zero_context t1 true) {[init0 := FromSchedule]} [].

Ltac each := repeat match goal with
  | H : _ ∈ _ :: _ |- _ => apply elem_of_cons in H as [->|H]
  | H : _ ∈ [] |- _ => by apply not_elem_of_nil in H
  end.

(** The invariant of a state with these two tasks queued and [t1] running, by evaluation. *)
Ltac two_tasks :=
  split;
  [ split; [apply (bool_decide_unpack _); by vm_compute|by vm_compute]
  | reflexivity
  | intros p Hp; each; apply (bool_decide_unpack _); by vm_compute
  | split; [apply (bool_decide_unpack _); by vm_compute|by vm_compute]
  | apply PageAlloc.wf_insert, PageAlloc.wf_insert, PageAlloc.wf_init
  | intros p Hp; each; [exists 0%nat, 1|exists 1%nat, 1]; (split; [reflexivity|split; [reflexivity|lia]])
  | split; reflexivity
  | intros p Hp; each; [exists 1%nat|exists 2%nat]; split; reflexivity
  | intros i p Hg Hp; destruct i as [|[|[|i]]]; try (injection Hg as <-; apply (bool_decide_unpack _); by vm_compute);
    change (replicate 61 0 !! i = Some p) in Hg; by apply lookup_replicate in Hg as [-> _]
  | intros p Hp; each; by vm_compute
  | intros p Hp; each; (split; [left; reflexivity|]); intros _; apply (bool_decide_unpack _); by vm_compute
  | apply (bool_decide_unpack _); by vm_compute
  | reflexivity
  | reflexivity
  | intros p Hp Hne; each;
    [ right; split; [reflexivity|]; split; [reflexivity|]; by exists FromSchedule
    | done
    | left; split; reflexivity ] ].

Lemma two_inv : inv head0 init0 fork0 return0 two [t1; t2] [t2; t1] 0 Run.
Proof. two_tasks. Qed.

Lemma schedule_wait_witness :
  exists q' r s', Permutation [t2; t1] (t1 :: q') /\
    schedule head0 init0 fork0 return0 (upd two t1 (set_state 1)) = Ret (r, s') /\ cur s' <> t1.
Proof.
  destruct (schedule_wait _ _ _ _ layout0 two [t1; t2] [t2; t1] 1 two_inv) as (q' & r & s' & Hp & E & _ & _ & Hc).
  - done.
  - done.
  - simpl. lia.
  - exists q', r, s'. split; [exact Hp|]. split; [exact E|exact Hc].
Defined.

Lemma cpu_switch_round_trip_witness :
  exists s1 s3, cpu_switch_to return0 t1 t2 two = Ret (tt, s1) /\
    cpu_switch_to return0 t2 t1 s1 = Ret (tt, s3) /\ cur s3 = t1.
Proof.
  eexists. destruct (cpu_switch_round_trip return0 two _ _ t1 t2 t2 ltac:(done) ltac:(done) eq_refl eq_refl)
    as (s3 & E & Hc & _).
  exists s3. split; [reflexivity|]. split; [exact E|exact Hc].
Defined.

End Fork.
