(* ===== verification/Layout.v ===== *)
(** * The layout of C structures

    How the compiler lays out the structures of [asm/ptrace.h], [asm/processor.h],
    [yios/list.h], [yios/sched.h] and [asm/pgtable_types.h] (the AAPCS64 rules: every member at the next multiple
    of its alignment, the size rounded up to the largest alignment), and the constants
    that [core/asm-offsets.c] derives from it for the assembly. *)

From S2P Require Import Prelude Base Klist Pgtable Sched.

Module Layout.

(** ** Layouts *)

Record layout : Type := Ly { ly_size : Z; ly_align : Z }.

Definition members : Type := list (string * layout).

Definition align_up (off a : Z) : Z := (off + a - 1) / a * a.

(** Name, offset and layout of each member, from offset [off] on. *)
Fixpoint place (off : Z) (ms : members) : list (string * Z * layout) :=
  match ms with
  | [] => []
  | (f, l) :: ms =>
      let o := align_up off (ly_align l) in (f, o, l) :: place (o + ly_size l) ms
  end.

Fixpoint end_of (off : Z) (ms : members) : Z :=
  match ms with
  | [] => off
  | (_, l) :: ms => end_of (align_up off (ly_align l) + ly_size l) ms
  end.

Definition alignof (ms : members) : Z := foldr (fun m a => Z.max (ly_align m.2) a) 1 ms.
Definition struct_of (ms : members) : layout :=
  Ly (align_up (end_of 0 ms) (alignof ms)) (alignof ms).

(** A union starts every member at 0. *)
Definition union_of (ms : members) : layout :=
  Ly (align_up (foldr (fun m n => Z.max (ly_size m.2) n) 0 ms) (alignof ms)) (alignof ms).

Definition array (l : layout) (n : Z) : layout := Ly (n * ly_size l) (ly_align l).

Definition sizeof (ms : members) : Z := ly_size (struct_of ms).

(** The address of the member in an object at address 0. *)
Definition offsetof (ms : members) (f : string) : option Z :=
  (fun '(_, (_, o, _)) => o) <$> list_find (fun p => p.1.1 = f) (place 0 ms).

(** ** The structures *)

Definition c_int : layout := Ly 4 4.
Definition c_enum : layout := Ly 4 4.
Definition c_long : layout := Ly 8 8.
Definition c_ptr : layout := Ly 8 8.

Definition list_head_members : members := [("next", c_ptr); ("prev", c_ptr)].

Definition cpu_context_members : members :=
  [("x19", c_long); ("x20", c_long); ("x21", c_long); ("x22", c_long); ("x23", c_long);
   ("x24", c_long); ("x25", c_long); ("x26", c_long); ("x27", c_long); ("x28", c_long);
   ("fp", c_long); ("sp", c_long); ("pc", c_long)].

Definition pt_regs_members : members :=
  [("regs", array c_long 31); ("sp", c_long); ("pc", c_long); ("pstate", c_long)].

Definition task_struct_members : members :=
  [("state", c_enum); ("flags", c_enum); ("count", c_long); ("priority", c_int); ("pid", c_int);
   ("cpu_context", struct_of cpu_context_members); ("run_list", struct_of list_head_members);
   ("need_resched", c_int); ("preempt_count", c_int); ("next_task", c_ptr); ("prev_task", c_ptr)].

Definition run_queue_members : members :=
  [("rq_head", struct_of list_head_members); ("nr_running", c_int); ("nr_switches", c_long); ("curr", c_ptr)].

Definition sched_class_members : members :=
  [("next", c_ptr); ("task_fork", c_ptr); ("enqueure_task", c_ptr); ("dequeue_task", c_ptr);
   ("task_tick", c_ptr); ("pick_next_task", c_ptr)].

Definition thread_union_members : members :=
  [("task", struct_of task_struct_members);
   ("stack", array c_long (Sched.THREAD_SIZE / ly_size c_long))].

(** [pgtable_types.h]: an entry of each level is a structure of one word. *)
Definition pgd_t_members : members := [("pgd", c_long)].
Definition pud_t_members : members := [("pud", c_long)].
Definition pmd_t_members : members := [("pmd", c_long)].
Definition pte_t_members : members := [("pte", c_long)].

(** ** asm-offsets.c *)

(** [offsetof (struct pt_regs, regs[i])] *)
Definition offsetof_reg (i : Z) : option Z :=
  (fun o => o + i * ly_size c_long) <$> offsetof pt_regs_members "regs".

(** The symbols that [main] defines, in order. *)
Definition asm_offsets : list (string * option Z) :=
  [("STACK_FRAME_SIZE", Some (sizeof pt_regs_members));
   ("S_X0", offsetof_reg 0); ("S_X1", offsetof_reg 1); ("S_X2", offsetof_reg 2);
   ("S_X3", offsetof_reg 3); ("S_X4", offsetof_reg 4); ("S_X5", offsetof_reg 5);
   ("S_X6", offsetof_reg 6); ("S_X7", offsetof_reg 7); ("S_X8", offsetof_reg 8);
   ("S_X10", offsetof_reg 10); ("S_X12", offsetof_reg 12); ("S_X14", offsetof_reg 14);
   ("S_X16", offsetof_reg 16); ("S_X18", offsetof_reg 18); ("S_X20", offsetof_reg 20);
   ("S_X22", offsetof_reg 22); ("S_X24", offsetof_reg 24); ("S_X26", offsetof_reg 26);
   ("S_X28", offsetof_reg 28); ("S_FP", offsetof_reg 29); ("S_LR", offsetof_reg 30);
   ("S_SP", offsetof pt_regs_members "sp");
   ("S_PSTATE", offsetof pt_regs_members "pstate");
   ("S_PC", offsetof pt_regs_members "pc");
   ("THREAD_CPU_CONTEXT", offsetof task_struct_members "cpu_context");
   ("TI_PREEMPT", offsetof task_struct_members "preempt_count");
   ("NEED_RESCHED", offsetof task_struct_members "need_resched")].

Definition asm_offset (sym : string) : Z :=
  default 0 (list_find (fun d => d.1 = sym) asm_offsets ≫= fun '(_, (_, o)) => o).

Definition STACK_FRAME_SIZE : Z := asm_offset "STACK_FRAME_SIZE".
Definition S_LR : Z := asm_offset "S_LR".
Definition S_SP : Z := asm_offset "S_SP".
Definition S_PC : Z := asm_offset "S_PC".
Definition S_PSTATE : Z := asm_offset "S_PSTATE".
Definition THREAD_CPU_CONTEXT : Z := asm_offset "THREAD_CPU_CONTEXT".
Definition TI_PREEMPT : Z := asm_offset "TI_PREEMPT".
Definition NEED_RESCHED : Z := asm_offset "NEED_RESCHED".

Lemma asm_offset_values :
  STACK_FRAME_SIZE = 272 /\ S_LR = 240 /\ S_SP = 248 /\ S_PC = 256 /\ S_PSTATE = 264 /\
  THREAD_CPU_CONTEXT = 24 /\ TI_PREEMPT = 148 /\ NEED_RESCHED = 144.
Proof. by vm_compute. Qed.

(** ** Every structure is laid out *)

(** A size and an alignment an object can have. *)
Definition layout_ok (l : layout) : Prop :=
  0 <= ly_size l /\ (ly_align l | ly_size l) /\ exists k, 0 <= k /\ ly_align l = 2 ^ k.

(** The members in order, aligned, disjoint and inside; the next one of an array of
    such structures is aligned too. *)
Definition laid_out (ms : members) : Prop :=
  layout_ok (struct_of ms) /\
  (forall i f o l, place 0 ms !! i = Some (f, o, l) ->
     0 <= o /\ o + ly_size l <= sizeof ms /\ (ly_align l | o) /\ (ly_align l | sizeof ms)) /\
  (forall i j f o l f' o' l', (i < j)%nat -> place 0 ms !! i = Some (f, o, l) ->
     place 0 ms !! j = Some (f', o', l') -> o + ly_size l <= o').

Lemma align_up_spec off a : 0 < a -> off <= align_up off a < off + a /\ (a | align_up off a).
Proof.
  intros Ha. unfold align_up. split; [|apply Z.divide_factor_r].
  pose proof (Z.div_mod (off + a - 1) a). pose proof (Z.mod_pos_bound (off + a - 1) a). lia.
Qed.

Lemma pow2_divide a b :
  (exists k, 0 <= k /\ a = 2 ^ k) -> (exists k, 0 <= k /\ b = 2 ^ k) -> a <= b -> (a | b).
Proof.
  intros (k & Hk & ->) (n & Hn & ->) H. apply Z.pow_le_mono_r_iff in H; [|lia|lia].
  exists (2 ^ (n - k)). rewrite <-Z.pow_add_r by lia. f_equal. lia.
Qed.

Lemma align_pos l : layout_ok l -> 0 < ly_align l.
Proof. intros (_ & _ & k & Hk & ->). lia. Qed.

Lemma alignof_spec ms :
  Forall (fun m => layout_ok m.2) ms ->
  (exists k, 0 <= k /\ alignof ms = 2 ^ k) /\ Forall (fun m => ly_align m.2 <= alignof ms) ms.
Proof.
  unfold alignof. induction 1 as [|[f l] ms Hl _ [(k & Hk & E) IH]]; simpl in *.
  - split; [exists 0; done|done].
  - destruct Hl as (_ & _ & n & Hn & En). split.
    + destruct (Z.max_spec (ly_align l) (2 ^ k)) as [[_ H]|[_ H]]; rewrite E, H; eauto.
    + apply Forall_cons. split; [simpl; lia|]. eapply Forall_impl; [exact IH|]. simpl. lia.
Qed.

Lemma end_of_ge ms : Forall (fun m => layout_ok m.2) ms -> forall off, off <= end_of off ms.
Proof.
  induction 1 as [|[f l] ms Hl _ IH]; intros off; simpl in *; [lia|].
  pose proof (align_up_spec off _ (align_pos _ Hl)). pose proof (proj1 Hl).
  specialize (IH (align_up off (ly_align l) + ly_size l)). lia.
Qed.

Lemma place_spec ms : Forall (fun m => layout_ok m.2) ms -> forall off i f o l,
  place off ms !! i = Some (f, o, l) ->
  off <= o /\ o + ly_size l <= end_of off ms /\ (ly_align l | o) /\ (f, l) ∈ ms.
Proof.
  induction 1 as [|[g r] ms Hl Hms IH]; intros off [|i] f o l E; simpl in E; try discriminate; simpl in Hl;
    pose proof (align_up_spec off _ (align_pos _ Hl)) as [? ?]; pose proof (proj1 Hl); simpl.
  - injection E as <- <- <-. pose proof (end_of_ge ms Hms (align_up off (ly_align r) + ly_size r)).
    repeat split; [lia|lia|done|left].
  - apply IH in E as (? & ? & ? & ?). repeat split; [lia|lia|done|by right].
Qed.

Lemma place_order ms : Forall (fun m => layout_ok m.2) ms -> forall off i j f o l f' o' l',
  (i < j)%nat -> place off ms !! i = Some (f, o, l) -> place off ms !! j = Some (f', o', l') ->
  o + ly_size l <= o'.
Proof.
  induction 1 as [|[g r] ms Hl Hms IH]; intros off [|i] [|j] f o l f' o' l' Hij E E';
    simpl in E, E'; try discriminate; try lia.
  - injection E as <- <- <-. apply (place_spec ms Hms) in E'. lia.
  - eapply (IH _ i j); [lia|exact E|exact E'].
Qed.

Lemma struct_laid_out ms : Forall (fun m => layout_ok m.2) ms -> laid_out ms.
Proof.
  intros H. destruct (alignof_spec ms H) as [Hp Ha].
  assert (0 < alignof ms) as H0 by (destruct Hp as (k & Hk & ->); lia).
  destruct (align_up_spec (end_of 0 ms) _ H0) as [He Hd].
  split; [|split].
  - split; [|split; [exact Hd|exact Hp]]. simpl. pose proof (end_of_ge ms H 0). lia.
  - intros i f o l E. apply (place_spec ms H) in E as (E1 & E2 & E3 & Hin).
    unfold sizeof, struct_of. simpl. repeat split; [lia|lia|done|].
    etrans; [|exact Hd]. rewrite Forall_forall in H, Ha. specialize (H _ Hin). specialize (Ha _ Hin).
    apply pow2_divide; [apply H|done|exact Ha].
  - intros. by eapply (place_order ms H).
Qed.

Lemma layout_ok_scalar k : 0 <= k -> layout_ok (Ly (2 ^ k) (2 ^ k)).
Proof. intros H. split; [simpl; lia|]. split; [by exists 1; simpl; lia|]. by exists k. Qed.
Lemma layout_ok_array l n : 0 <= n -> layout_ok l -> layout_ok (array l n).
Proof. intros Hn (H1 & H2 & H3). split; [simpl; nia|]. split; [|done]. simpl. by apply Z.divide_mul_r. Qed.
Lemma layout_ok_int : layout_ok c_int.
Proof. apply (layout_ok_scalar 2). lia. Qed.
Lemma layout_ok_long : layout_ok c_long.
Proof. apply (layout_ok_scalar 3). lia. Qed.

Create HintDb layout.
#[local] Hint Resolve layout_ok_int layout_ok_long layout_ok_array : layout.

Ltac members_ok := repeat (apply Forall_cons; split); try done; simpl; auto with layout lia.

Lemma list_head_ok : laid_out list_head_members.
Proof. apply struct_laid_out. members_ok. Qed.
Lemma cpu_context_ok : laid_out cpu_context_members.
Proof. apply struct_laid_out. members_ok. Qed.
#[local] Hint Resolve list_head_ok cpu_context_ok : layout.
Lemma laid_out_layout ms : laid_out ms -> layout_ok (struct_of ms).
Proof. by intros [? _]. Qed.
#[local] Hint Resolve laid_out_layout : layout.

(** The structures that the assembly and the scheduler share are laid out as C requires
    (members in order, aligned, disjoint, inside), and the constants of [asm-offsets.c] fit
    the code that uses them: register [i] is at [8 * i], as the [stp] of exception entry
    assume, the rest of the frame follows in the order it is stored, the frame keeps the stack
    pointer 16-byte aligned, the thirteen saved registers of a task are contiguous,
    and a task and the frame at the top of its stack fit into its page. The entries of a page table are words, and
    every table fills a page. *)
Theorem structs_laid_out :
  Forall laid_out [list_head_members; cpu_context_members; pt_regs_members; task_struct_members;
                   run_queue_members; sched_class_members;
                   pgd_t_members; pud_t_members; pmd_t_members; pte_t_members] /\
  Forall (fun n => ly_size (array (struct_of n.1) n.2) = PAGE_SIZE)
    [(pgd_t_members, PTRS_PER_PGD); (pud_t_members, PTRS_PER_PUD); (pmd_t_members, PTRS_PER_PMD); (pte_t_members, PTRS_PER_PTE)] /\
  (forall i, 0 <= i < 31 -> offsetof_reg i = Some (8 * i)) /\
  [S_LR; S_SP; S_PC; S_PSTATE; STACK_FRAME_SIZE] = [8 * 30; 8 * 31; 8 * 32; 8 * 33; 8 * 34] /\
  STACK_FRAME_SIZE = Sched.sizeof_pt_regs /\ (16 | STACK_FRAME_SIZE) /\
  (fun m => offsetof cpu_context_members m.1) <$> cpu_context_members =
    (fun i => Some (8 * i)) <$> seqZ 0 13 /\
  (THREAD_CPU_CONTEXT, NEED_RESCHED, TI_PREEMPT) = (24, 144, 148) /\
  (forall p, (fun o => p + o) <$> offsetof task_struct_members "run_list" = Some (Sched.run_list p)) /\
  ly_size (union_of thread_union_members) = Sched.THREAD_SIZE /\
  sizeof task_struct_members + sizeof pt_regs_members <= Sched.THREAD_SIZE.
Proof.
  split; [repeat (apply Forall_cons; split); try done; auto with layout; apply struct_laid_out; members_ok|].
  split; [by repeat (apply Forall_cons; split)|].
  split; [intros i _; rewrite (Z.mul_comm 8 i); reflexivity|].
  split; [done|]. split; [done|]. split; [by exists 17|].
  repeat (split; [by vm_compute|]). by vm_compute.
Qed.

End Layout.
