(* ===== verification/Arm.v ===== *)
(** * The processor as the assembly sees it

    General registers, the current stack pointer, the program counter, the processor state
    in the encoding of [SPSR], the system registers by name, memory, and the history of
    device accesses. Instructions are operations of the state monad with the syntax of the
    assembly. The [io] variants are the same instructions on a device address, which the
    early serial code uses only. Control flow is structured: a branch and link [bl r f] stores the
    return address [r] in x30 and runs [f]. *)

From S2P Require Import Prelude Base Mem Uart.

Module Arm.

Record machine : Type := Mc {
  x : list Z;
  sp : Z;
  pc : Z;
  pstate : Z;
  sys : gmap string Z;
  ram : mem;
  hist : list access;
}.

Definition with_x s v := Mc v (sp s) (pc s) (pstate s) (sys s) (ram s) (hist s).
Definition with_sp s v := Mc (x s) v (pc s) (pstate s) (sys s) (ram s) (hist s).
Definition with_pc s v := Mc (x s) (sp s) v (pstate s) (sys s) (ram s) (hist s).
Definition with_pstate s v := Mc (x s) (sp s) (pc s) v (sys s) (ram s) (hist s).
Definition with_sys s v := Mc (x s) (sp s) (pc s) (pstate s) v (ram s) (hist s).
Definition with_ram s v := Mc (x s) (sp s) (pc s) (pstate s) (sys s) v (hist s).
Definition with_hist s v := Mc (x s) (sp s) (pc s) (pstate s) (sys s) (ram s) v.

Definition ram_lens : lens machine mem := Lens ram (fun v s => with_ram s v).
Definition hist_lens : lens machine (list access) := Lens hist (fun v s => with_hist s v).

Definition setx (n : nat) (v : Z) (s : machine) : machine := with_x s (<[n := v]> (x s)).
Definition xreg (s : machine) (n : nat) : Z := nth n (x s) 0.
Definition sysreg (s : machine) (r : string) : Z := default 0 (sys s !! r).

(** A register operand: x0 to x30, the zero register, the stack pointer. *)
Inductive reg : Type := X (n : nat) | XZR | SP.
Abbreviation LR := (X 30).

Definition rd (r : reg) : M machine Z := gets (fun s =>
  match r with X n => xreg s n | XZR => 0 | SP => sp s end).
Definition wr (r : reg) (v : Z) : M machine unit := modify (fun s =>
  match r with X n => setx n v s | XZR => s | SP => with_sp s v end).

(** ** Data processing; a W operand is the low half, and a W result clears the high half *)

Definition mov (d a : reg) : M machine unit := v ← rd a; wr d v.
Definition movi (d : reg) (v : Z) : M machine unit := wr d (u64 v).
Definition add (d a : reg) (v : Z) : M machine unit := w ← rd a; wr d (u64 (w + v)).
Definition sub (d a : reg) (v : Z) : M machine unit := w ← rd a; wr d (u64 (w - v)).
Definition add_r (d a b : reg) : M machine unit := v ← rd a; w ← rd b; wr d (u64 (v + w)).
Definition sub_r (d a b : reg) : M machine unit := v ← rd a; w ← rd b; wr d (u64 (v - w)).
Definition lsr (d a : reg) (n : Z) : M machine unit := v ← rd a; wr d (Z.shiftr v n).
Definition and_x (d a : reg) (v : Z) : M machine unit := w ← rd a; wr d (Z.land w v).
Definition and_w (d a : reg) (v : Z) : M machine unit := w ← rd a; wr d (Z.land (u32 w) v).
Definition orr_w (d a : reg) (v : Z) : M machine unit := w ← rd a; wr d (Z.lor (u32 w) v).

(** ** Loads and stores *)

Definition load32 (m : mem) (a : Z) : Z := le_combine (load_bytes m a 4).

Definition str (r b : reg) (off : Z) : M machine unit :=
  v ← rd r; a ← rd b; modify (fun s => with_ram s (store64 (ram s) (u64 (a + off)) v)).
Definition stp (r1 r2 b : reg) (off : Z) : M machine unit := str r1 b off;; str r2 b (off + 8).
Definition ldr (r b : reg) (off : Z) : M machine unit :=
  a ← rd b; v ← gets (fun s => load64 (ram s) (u64 (a + off))); wr r v.
Definition ldp (r1 r2 b : reg) (off : Z) : M machine unit := ldr r1 b off;; ldr r2 b (off + 8).
Definition ldr_w (r b : reg) (off : Z) : M machine unit :=
  a ← rd b; v ← gets (fun s => load32 (ram s) (u64 (a + off))); wr r v.
Definition ldrb (r b : reg) : M machine unit :=
  a ← rd b; v ← gets (fun s => load8 (ram s) a); wr r v.

(** [\[b\], #inc]: the access, then the base register moves on. *)
Definition stp_post (r1 r2 b : reg) (inc : Z) : M machine unit := stp r1 r2 b 0;; add b b inc.
Definition ldp_post (r1 r2 b : reg) (inc : Z) : M machine unit := ldp r1 r2 b 0;; add b b inc.

Definition ldr_io (dev : list access -> Z -> Z) (r b : reg) : M machine unit :=
  a ← rd b; v ← zoom hist_lens (readl dev a); wr r v.
Definition str_io (r b : reg) : M machine unit :=
  v ← rd r; a ← rd b; zoom hist_lens (writel v a).

(** ** System registers, calls and exceptions *)

Definition mrs (d : reg) (r : string) : M machine unit := v ← gets (fun s => sysreg s r); wr d v.
Definition msr (r : string) (a : reg) : M machine unit :=
  v ← rd a; modify (fun s => with_sys s (<[r := v]> (sys s))).

Definition bl {A} (ret : Z) (f : M machine A) : M machine A := wr LR ret;; f.

(** [eret] at exception level [n]: the saved state and address become current. *)
Definition eret (elr spsr : string) : M machine unit :=
  modify (fun s => with_pc (with_pstate s (sysreg s spsr)) (sysreg s elr)).

(** ** Registers hold 64-bit values *)

Definition is64 (v : Z) : Prop := 0 <= v < 2 ^ 64.
Definition wf (s : machine) : Prop :=
  length (x s) = 31%nat /\ Forall is64 (x s) /\ is64 (sp s) /\ is64 (pc s) /\ is64 (pstate s) /\
  forall r, is64 (sysreg s r).

Lemma wf_x s n v : wf s -> is64 v -> wf (setx n v s).
Proof.
  intros (Hl & Hx & H) Hv. split; [|split; [|exact H]]; cbn [x with_x setx].
  - by rewrite length_insert.
  - by apply Forall_insert.
Qed.

Lemma wf_sys s r v : wf s -> is64 v -> wf (with_sys s (<[r := v]> (sys s))).
Proof.
  intros (Hl & Hx & Hs & Hp & Hq & H) Hv. do 5 (split; [done|]). intros r'. unfold sysreg. cbn [sys with_sys].
  destruct (decide (r' = r)) as [->|Hne]; [by rewrite lookup_insert_eq|]. rewrite lookup_insert_ne by done. apply H.
Qed.

Lemma xreg_is64 s n : wf s -> is64 (xreg s n).
Proof.
  intros (_ & Hx & _). unfold xreg. destruct (x s !! n) as [v|] eqn:E.
  - rewrite (nth_lookup_Some _ _ _ _ E). by eapply (Forall_lookup_1 _ _ _ _ Hx).
  - rewrite nth_lookup, E. done.
Qed.

Lemma length_setx n v s : length (x (setx n v s)) = length (x s).
Proof. apply length_insert. Qed.

Lemma length_sys s m : length (x (with_sys s m)) = length (x s).
Proof. done. Qed.
Ltac regs_len := solve [repeat first [rewrite length_setx | rewrite length_sys]; done].

Lemma xreg_set s n v :
  length (x s) = 31%nat -> (n < 31)%nat -> xreg (setx n v s) n = v.
Proof.
  intros Hl Hn. unfold xreg. cbn [x with_x setx]. apply nth_lookup_Some.
  apply list_lookup_insert_eq. lia.
Qed.

Lemma xreg_eq s n v : wf s -> (n < 31)%nat -> xreg (setx n v s) n = v.
Proof. intros (Hl & _). by apply xreg_set. Qed.

Lemma xreg_ne s n k v : n <> k -> xreg (setx n v s) k = xreg s k.
Proof. intros H. unfold xreg. cbn [x with_x setx]. rewrite !nth_lookup, list_lookup_insert_ne by done. done. Qed.

(** A register after a chain of writes. *)
Ltac xreg_simp := repeat first
  [ rewrite xreg_ne by lia
  | rewrite xreg_set by first [lia | regs_len] ].

Lemma load32_range m a : 0 <= load32 m a < 2 ^ 32.
Proof.
  pose proof (le_combine_range _ (load_bytes_range m a 4)) as H. rewrite length_load_bytes in H. apply H.
Qed.

Lemma u64_is64 v : is64 (u64 v).
Proof. apply u64_range. Qed.
Lemma load32_is64 m a : is64 (load32 m a).
Proof. pose proof (load32_range m a). unfold is64. lia. Qed.
Lemma load64_is64 m a : is64 (load64 m a).
Proof. apply load64_range. Qed.

Create HintDb arm.
#[export] Hint Resolve wf_x wf_sys xreg_is64 u64_is64 load32_is64 load64_is64 : arm.

(** ** Running straight-line code on thirty-one named registers *)

Lemma length_31 (l : list Z) : length l = 31%nat ->
  exists a0 a1 a2 a3 a4 a5 a6 a7 a8 a9 a10 a11 a12 a13 a14 a15 a16 a17 a18 a19 a20 a21 a22 a23 a24
    a25 a26 a27 a28 a29 a30, l = [a0; a1; a2; a3; a4; a5; a6; a7; a8; a9; a10; a11; a12; a13; a14;
    a15; a16; a17; a18; a19; a20; a21; a22; a23; a24; a25; a26; a27; a28; a29; a30].
Proof.
  intros H. do 31 (destruct l as [|? l]; [discriminate H|]).
  destruct l; [|discriminate H]. repeat eexists.
Qed.

Ltac regs_of l H := destruct (length_31 l H) as
  (?&?&?&?&?&?&?&?&?&?&?&?&?&?&?&?&?&?&?&?&?&?&?&?&?&?&?&?&?&?&?&E); rewrite E in *; clear E.

(** ** A block of 64-bit words *)

Fixpoint store64s (m : mem) (a : Z) (vs : list Z) : mem :=
  match vs with
  | [] => m
  | v :: vs => store64s (store64 m a v) (a + 8) vs
  end.

Definition load64s (m : mem) (a : Z) (n : nat) : list Z :=
  (fun i => load64 m (a + 8 * i)) <$> seqZ 0 (Z.of_nat n).

Lemma load8_store64s_ne vs : forall m a b,
  ~ a <= b < a + 8 * Z.of_nat (length vs) -> load8 (store64s m a vs) b = load8 m b.
Proof.
  induction vs as [|v vs IH]; intros m a b H; simpl in *; [done|].
  rewrite IH by lia. apply load8_store64_ne. lia.
Qed.

Lemma load64_store64s_ne vs m a b :
  b + 8 <= a \/ a + 8 * Z.of_nat (length vs) <= b -> load64 (store64s m a vs) b = load64 m b.
Proof. intros H. apply load64_ext. intros c Hc. apply load8_store64s_ne. lia. Qed.

Lemma load64_store64s vs : forall m a i v,
  vs !! i = Some v -> load64 (store64s m a vs) (a + 8 * Z.of_nat i) = u64 v.
Proof.
  induction vs as [|w vs IH]; intros m a [|i] v E; simpl in *; try discriminate.
  - injection E as ->. rewrite load64_store64s_ne by lia.
    rewrite Z.add_0_r. apply load64_store64_eq.
  - replace (a + 8 * Z.of_nat (S i)) with (a + 8 + 8 * Z.of_nat i) by lia. by apply IH.
Qed.

Lemma load64s_ext m m' a n :
  (forall b, a <= b < a + 8 * Z.of_nat n -> load8 m' b = load8 m b) -> load64s m' a n = load64s m a n.
Proof.
  intros H. unfold load64s. apply list_fmap_ext. intros i k Hk.
  apply lookup_seqZ in Hk as [-> Hk]. apply load64_ext. intros b Hb. apply H. lia.
Qed.

Lemma load64s_store64s m a vs : Forall is64 vs -> load64s (store64s m a vs) a (length vs) = vs.
Proof.
  intros H. apply list_eq. intros i. unfold load64s. rewrite list_lookup_fmap.
  destruct (vs !! i) as [v|] eqn:E.
  - pose proof (lookup_lt_Some _ _ _ E). rewrite lookup_seqZ_lt by lia.
    cbn [fmap option_fmap option_map]. rewrite Z.add_0_l, (load64_store64s vs m a i v E). f_equal. apply u64_small. by eapply (Forall_lookup_1 _ _ _ _ H).
  - apply lookup_ge_None in E. rewrite lookup_seqZ_ge by lia. done.
Qed.

Lemma load64s_app m a n1 n2 :
  load64s m a (n1 + n2) = load64s m a n1 ++ load64s m (a + 8 * Z.of_nat n1) n2.
Proof.
  unfold load64s. rewrite Nat2Z.inj_add, seqZ_app by lia. rewrite fmap_app. f_equal.
  apply list_eq. intros i. rewrite !list_lookup_fmap.
  destruct (decide (Z.of_nat i < Z.of_nat n2)).
  - rewrite !lookup_seqZ_lt by lia. cbn [fmap option_fmap option_map]. do 2 f_equal. lia.
  - by rewrite !lookup_seqZ_ge by lia.
Qed.

Lemma length_load64s m a n : length (load64s m a n) = n.
Proof. unfold load64s. rewrite length_fmap, length_seqZ. lia. Qed.

End Arm.
