(* ===== verification/Esr.v ===== *)
(** * The exception syndrome

    [include/asm/esr.h]: the fields of [ESR_ELx], the templates that recognise a syndrome and the
    encoding of trapped system instructions. A constant written [UL(...)] is an [unsigned long], one without is
    an [int]; all but one fit both. *)

From Stdlib Require Import Btauto.
From S2P Require Import Prelude Base Fields.
Import Fields.

Module Esr.

(** ** Exception classes *)

Definition ESR_ELx_EC_UNKNOWN : Z := 0x00.
Definition ESR_ELx_EC_WFx : Z := 0x01.
Definition ESR_ELx_EC_CP15_32 : Z := 0x03.
Definition ESR_ELx_EC_CP15_64 : Z := 0x04.
Definition ESR_ELx_EC_CP14_MR : Z := 0x05.
Definition ESR_ELx_EC_CP14_LS : Z := 0x06.
Definition ESR_ELx_EC_FP_ASIMD : Z := 0x07.
Definition ESR_ELx_EC_CP10_ID : Z := 0x08.
Definition ESR_ELx_EC_PAC : Z := 0x09.
Definition ESR_ELx_EC_CP14_64 : Z := 0x0C.
Definition ESR_ELx_EC_ILL : Z := 0x0E.
Definition ESR_ELx_EC_SVC32 : Z := 0x11.
Definition ESR_ELx_EC_HVC32 : Z := 0x12.
Definition ESR_ELx_EC_SMC32 : Z := 0x13.
Definition ESR_ELx_EC_SVC64 : Z := 0x15.
Definition ESR_ELx_EC_HVC64 : Z := 0x16.
Definition ESR_ELx_EC_SMC64 : Z := 0x17.
Definition ESR_ELx_EC_SYS64 : Z := 0x18.
Definition ESR_ELx_EC_SVE : Z := 0x19.
Definition ESR_ELx_EC_IMP_DEF : Z := 0x1f.
Definition ESR_ELx_EC_IABT_LOW : Z := 0x20.
Definition ESR_ELx_EC_IABT_CUR : Z := 0x21.
Definition ESR_ELx_EC_PC_ALIGN : Z := 0x22.
Definition ESR_ELx_EC_DABT_LOW : Z := 0x24.
Definition ESR_ELx_EC_DABT_CUR : Z := 0x25.
Definition ESR_ELx_EC_SP_ALIGN : Z := 0x26.
Definition ESR_ELx_EC_FP_EXC32 : Z := 0x28.
Definition ESR_ELx_EC_FP_EXC64 : Z := 0x2C.
Definition ESR_ELx_EC_SERROR : Z := 0x2F.
Definition ESR_ELx_EC_BREAKPT_LOW : Z := 0x30.
Definition ESR_ELx_EC_BREAKPT_CUR : Z := 0x31.
Definition ESR_ELx_EC_SOFTSTP_LOW : Z := 0x32.
Definition ESR_ELx_EC_SOFTSTP_CUR : Z := 0x33.
Definition ESR_ELx_EC_WATCHPT_LOW : Z := 0x34.
Definition ESR_ELx_EC_WATCHPT_CUR : Z := 0x35.
Definition ESR_ELx_EC_BKPT32 : Z := 0x38.
Definition ESR_ELx_EC_VECTOR32 : Z := 0x3A.
Definition ESR_ELx_EC_BRK64 : Z := 0x3C.
Definition ESR_ELx_EC_MAX : Z := 0x3F.
Definition ESR_ELx_EC_SHIFT : Z := 26.
Definition ESR_ELx_EC_MASK : Z := Z.shiftl 0x3F ESR_ELx_EC_SHIFT.
Definition ESR_ELx_EC (esr : Z) : Z := Z.shiftr (Z.land esr ESR_ELx_EC_MASK) ESR_ELx_EC_SHIFT.

(** ** Instruction length and instruction-specific syndrome *)

Definition ESR_ELx_IL_SHIFT : Z := 25.
Definition ESR_ELx_IL : Z := Z.shiftl 1 ESR_ELx_IL_SHIFT.
Definition ESR_ELx_ISS_MASK : Z := ESR_ELx_IL - 1.
Definition ESR_ELx_WNR_SHIFT : Z := 6.
Definition ESR_ELx_WNR : Z := Z.shiftl 1 ESR_ELx_WNR_SHIFT.

(** ** Asynchronous errors *)

Definition ESR_ELx_IDS_SHIFT : Z := 24.
Definition ESR_ELx_IDS : Z := Z.shiftl 1 ESR_ELx_IDS_SHIFT.
Definition ESR_ELx_AET_SHIFT : Z := 10.
Definition ESR_ELx_AET : Z := Z.shiftl 0x7 ESR_ELx_AET_SHIFT.
Definition ESR_ELx_AET_UC : Z := Z.shiftl 0 ESR_ELx_AET_SHIFT.
Definition ESR_ELx_AET_UEU : Z := Z.shiftl 1 ESR_ELx_AET_SHIFT.
Definition ESR_ELx_AET_UEO : Z := Z.shiftl 2 ESR_ELx_AET_SHIFT.
Definition ESR_ELx_AET_UER : Z := Z.shiftl 3 ESR_ELx_AET_SHIFT.
Definition ESR_ELx_AET_CE : Z := Z.shiftl 6 ESR_ELx_AET_SHIFT.

(** ** Data and instruction aborts *)

Definition ESR_ELx_SET_SHIFT : Z := 11.
Definition ESR_ELx_SET_MASK : Z := Z.shiftl 3 ESR_ELx_SET_SHIFT.
Definition ESR_ELx_FnV_SHIFT : Z := 10.
Definition ESR_ELx_FnV : Z := Z.shiftl 1 ESR_ELx_FnV_SHIFT.
Definition ESR_ELx_EA_SHIFT : Z := 9.
Definition ESR_ELx_EA : Z := Z.shiftl 1 ESR_ELx_EA_SHIFT.
Definition ESR_ELx_S1PTW_SHIFT : Z := 7.
Definition ESR_ELx_S1PTW : Z := Z.shiftl 1 ESR_ELx_S1PTW_SHIFT.
Definition ESR_ELx_FSC : Z := 0x3F.
Definition ESR_ELx_FSC_TYPE : Z := 0x3C.
Definition ESR_ELx_FSC_EXTABT : Z := 0x10.
Definition ESR_ELx_FSC_SERROR : Z := 0x11.
Definition ESR_ELx_FSC_ACCESS : Z := 0x08.
Definition ESR_ELx_FSC_FAULT : Z := 0x04.
Definition ESR_ELx_FSC_PERM : Z := 0x0C.
Definition ESR_ELx_ISV_SHIFT : Z := 24.
Definition ESR_ELx_ISV : Z := Z.shiftl 1 ESR_ELx_ISV_SHIFT.
Definition ESR_ELx_SAS_SHIFT : Z := 22.
Definition ESR_ELx_SAS : Z := Z.shiftl 3 ESR_ELx_SAS_SHIFT.
Definition ESR_ELx_SSE_SHIFT : Z := 21.
Definition ESR_ELx_SSE : Z := Z.shiftl 1 ESR_ELx_SSE_SHIFT.
Definition ESR_ELx_SRT_SHIFT : Z := 16.
Definition ESR_ELx_SRT_MASK : Z := Z.shiftl 0x1F ESR_ELx_SRT_SHIFT.
Definition ESR_ELx_SF_SHIFT : Z := 15.
Definition ESR_ELx_SF : Z := Z.shiftl 1 ESR_ELx_SF_SHIFT.
Definition ESR_ELx_AR_SHIFT : Z := 14.
Definition ESR_ELx_AR : Z := Z.shiftl 1 ESR_ELx_AR_SHIFT.
Definition ESR_ELx_CM_SHIFT : Z := 8.
Definition ESR_ELx_CM : Z := Z.shiftl 1 ESR_ELx_CM_SHIFT.

(** ** Exceptions taken to Hyp *)

Definition ESR_ELx_CV : Z := Z.shiftl 1 24.
Definition ESR_ELx_COND_SHIFT : Z := 20.
Definition ESR_ELx_COND_MASK : Z := Z.shiftl 0xF ESR_ELx_COND_SHIFT.
Definition ESR_ELx_WFx_ISS_TI : Z := Z.shiftl 1 0.
Definition ESR_ELx_WFx_ISS_WFI : Z := Z.shiftl 0 0.
Definition ESR_ELx_WFx_ISS_WFE : Z := Z.shiftl 1 0.
Definition ESR_ELx_xVC_IMM_MASK : Z := Z.shiftl 1 16 - 1.
Definition DISR_EL1_IDS : Z := Z.shiftl 1 24.
Definition DISR_EL1_ESR_MASK : Z := Z.lor (Z.lor ESR_ELx_AET ESR_ELx_EA) ESR_ELx_FSC.

(** ** Templates of whole syndromes *)

Definition ESR_ELx_WFx_MASK : Z := Z.lor ESR_ELx_EC_MASK ESR_ELx_WFx_ISS_TI.
Definition ESR_ELx_WFx_WFI_VAL : Z := Z.lor (Z.shiftl ESR_ELx_EC_WFx ESR_ELx_EC_SHIFT) ESR_ELx_WFx_ISS_WFI.
(** The shift is of an [int], and 0x3C << 26 does not fit in one: the wrapped value is sign-extended
    when it meets the [unsigned long]. *)
Definition ESR_ELx_VAL_BRK64 (imm : Z) : Z :=
  Z.lor (Z.lor (u64 (s32 (Z.shiftl ESR_ELx_EC_BRK64 ESR_ELx_EC_SHIFT))) ESR_ELx_IL) (Z.land imm 0xffff).

(** ** System instructions *)

Definition ESR_ELx_SYS64_ISS_RES0_SHIFT : Z := 22.
Definition ESR_ELx_SYS64_ISS_RES0_MASK : Z := Z.shiftl 0x7 ESR_ELx_SYS64_ISS_RES0_SHIFT.
Definition ESR_ELx_SYS64_ISS_DIR_MASK : Z := 0x1.
Definition ESR_ELx_SYS64_ISS_DIR_READ : Z := 0x1.
Definition ESR_ELx_SYS64_ISS_DIR_WRITE : Z := 0x0.
Definition ESR_ELx_SYS64_ISS_RT_SHIFT : Z := 5.
Definition ESR_ELx_SYS64_ISS_RT_MASK : Z := Z.shiftl 0x1f ESR_ELx_SYS64_ISS_RT_SHIFT.
Definition ESR_ELx_SYS64_ISS_CRM_SHIFT : Z := 1.
Definition ESR_ELx_SYS64_ISS_CRM_MASK : Z := Z.shiftl 0xf ESR_ELx_SYS64_ISS_CRM_SHIFT.
Definition ESR_ELx_SYS64_ISS_CRN_SHIFT : Z := 10.
Definition ESR_ELx_SYS64_ISS_CRN_MASK : Z := Z.shiftl 0xf ESR_ELx_SYS64_ISS_CRN_SHIFT.
Definition ESR_ELx_SYS64_ISS_OP1_SHIFT : Z := 14.
Definition ESR_ELx_SYS64_ISS_OP1_MASK : Z := Z.shiftl 0x7 ESR_ELx_SYS64_ISS_OP1_SHIFT.
Definition ESR_ELx_SYS64_ISS_OP2_SHIFT : Z := 17.
Definition ESR_ELx_SYS64_ISS_OP2_MASK : Z := Z.shiftl 0x7 ESR_ELx_SYS64_ISS_OP2_SHIFT.
Definition ESR_ELx_SYS64_ISS_OP0_SHIFT : Z := 20.
Definition ESR_ELx_SYS64_ISS_OP0_MASK : Z := Z.shiftl 0x3 ESR_ELx_SYS64_ISS_OP0_SHIFT.
Definition ESR_ELx_SYS64_ISS_SYS_MASK : Z :=
  Z.lor (Z.lor (Z.lor (Z.lor ESR_ELx_SYS64_ISS_OP0_MASK ESR_ELx_SYS64_ISS_OP1_MASK)
    ESR_ELx_SYS64_ISS_OP2_MASK) ESR_ELx_SYS64_ISS_CRN_MASK) ESR_ELx_SYS64_ISS_CRM_MASK.
Definition ESR_ELx_SYS64_ISS_SYS_VAL (op0 op1 op2 crn crm : Z) : Z :=
  Z.lor (Z.lor (Z.lor (Z.lor (Z.shiftl op0 ESR_ELx_SYS64_ISS_OP0_SHIFT)
    (Z.shiftl op1 ESR_ELx_SYS64_ISS_OP1_SHIFT)) (Z.shiftl op2 ESR_ELx_SYS64_ISS_OP2_SHIFT)) (Z.shiftl
    crn ESR_ELx_SYS64_ISS_CRN_SHIFT)) (Z.shiftl crm ESR_ELx_SYS64_ISS_CRM_SHIFT).
Definition ESR_ELx_SYS64_ISS_SYS_OP_MASK : Z := Z.lor ESR_ELx_SYS64_ISS_SYS_MASK ESR_ELx_SYS64_ISS_DIR_MASK.
Definition ESR_ELx_SYS64_ISS_RT (esr : Z) : Z :=
  Z.shiftr (Z.land esr ESR_ELx_SYS64_ISS_RT_MASK) ESR_ELx_SYS64_ISS_RT_SHIFT.
Definition ESR_ELx_SYS64_ISS_CRM_DC_CIVAC : Z := 14.
Definition ESR_ELx_SYS64_ISS_CRM_DC_CVAP : Z := 12.
Definition ESR_ELx_SYS64_ISS_CRM_DC_CVAU : Z := 11.
Definition ESR_ELx_SYS64_ISS_CRM_DC_CVAC : Z := 10.
Definition ESR_ELx_SYS64_ISS_CRM_IC_IVAU : Z := 5.
Definition ESR_ELx_SYS64_ISS_EL0_CACHE_OP_MASK : Z :=
  Z.lor (Z.lor (Z.lor (Z.lor ESR_ELx_SYS64_ISS_OP0_MASK ESR_ELx_SYS64_ISS_OP1_MASK)
    ESR_ELx_SYS64_ISS_OP2_MASK) ESR_ELx_SYS64_ISS_CRN_MASK) ESR_ELx_SYS64_ISS_DIR_MASK.
Definition ESR_ELx_SYS64_ISS_EL0_CACHE_OP_VAL : Z :=
  Z.lor (ESR_ELx_SYS64_ISS_SYS_VAL 1 3 1 7 0) ESR_ELx_SYS64_ISS_DIR_WRITE.
Definition ESR_ELx_SYS64_ISS_SYS_MRS_OP_MASK : Z :=
  Z.lor (Z.lor (Z.lor ESR_ELx_SYS64_ISS_OP0_MASK ESR_ELx_SYS64_ISS_OP1_MASK)
    ESR_ELx_SYS64_ISS_CRN_MASK) ESR_ELx_SYS64_ISS_DIR_MASK.
Definition ESR_ELx_SYS64_ISS_SYS_MRS_OP_VAL : Z :=
  Z.lor (ESR_ELx_SYS64_ISS_SYS_VAL 3 0 0 0 0) ESR_ELx_SYS64_ISS_DIR_READ.
Definition ESR_ELx_SYS64_ISS_SYS_CTR : Z := ESR_ELx_SYS64_ISS_SYS_VAL 3 3 1 0 0.
Definition ESR_ELx_SYS64_ISS_SYS_CTR_READ : Z := Z.lor ESR_ELx_SYS64_ISS_SYS_CTR ESR_ELx_SYS64_ISS_DIR_READ.
Definition ESR_ELx_SYS64_ISS_SYS_CNTVCT : Z :=
  Z.lor (ESR_ELx_SYS64_ISS_SYS_VAL 3 3 2 14 0) ESR_ELx_SYS64_ISS_DIR_READ.
Definition ESR_ELx_SYS64_ISS_SYS_CNTFRQ : Z :=
  Z.lor (ESR_ELx_SYS64_ISS_SYS_VAL 3 3 0 14 0) ESR_ELx_SYS64_ISS_DIR_READ.

(** ** Floating point and CP15 accesses *)

Definition ESR_ELx_FP_EXC_TFV : Z := Z.shiftl 1 23.
Definition ESR_ELx_CP15_32_ISS_DIR_MASK : Z := 0x1.
Definition ESR_ELx_CP15_32_ISS_DIR_READ : Z := 0x1.
Definition ESR_ELx_CP15_32_ISS_DIR_WRITE : Z := 0x0.
Definition ESR_ELx_CP15_32_ISS_RT_SHIFT : Z := 5.
Definition ESR_ELx_CP15_32_ISS_RT_MASK : Z := Z.shiftl 0x1f ESR_ELx_CP15_32_ISS_RT_SHIFT.
Definition ESR_ELx_CP15_32_ISS_CRM_SHIFT : Z := 1.
Definition ESR_ELx_CP15_32_ISS_CRM_MASK : Z := Z.shiftl 0xf ESR_ELx_CP15_32_ISS_CRM_SHIFT.
Definition ESR_ELx_CP15_32_ISS_CRN_SHIFT : Z := 10.
Definition ESR_ELx_CP15_32_ISS_CRN_MASK : Z := Z.shiftl 0xf ESR_ELx_CP15_32_ISS_CRN_SHIFT.
Definition ESR_ELx_CP15_32_ISS_OP1_SHIFT : Z := 14.
Definition ESR_ELx_CP15_32_ISS_OP1_MASK : Z := Z.shiftl 0x7 ESR_ELx_CP15_32_ISS_OP1_SHIFT.
Definition ESR_ELx_CP15_32_ISS_OP2_SHIFT : Z := 17.
Definition ESR_ELx_CP15_32_ISS_OP2_MASK : Z := Z.shiftl 0x7 ESR_ELx_CP15_32_ISS_OP2_SHIFT.
Definition ESR_ELx_CP15_32_ISS_SYS_MASK : Z :=
  Z.lor (Z.lor (Z.lor (Z.lor ESR_ELx_CP15_32_ISS_OP1_MASK ESR_ELx_CP15_32_ISS_OP2_MASK)
    ESR_ELx_CP15_32_ISS_CRN_MASK) ESR_ELx_CP15_32_ISS_CRM_MASK) ESR_ELx_CP15_32_ISS_DIR_MASK.
Definition ESR_ELx_CP15_32_ISS_SYS_VAL (op1 op2 crn crm : Z) : Z :=
  Z.lor (Z.lor (Z.lor (Z.shiftl op1 ESR_ELx_CP15_32_ISS_OP1_SHIFT)
    (Z.shiftl op2 ESR_ELx_CP15_32_ISS_OP2_SHIFT)) (Z.shiftl crn ESR_ELx_CP15_32_ISS_CRN_SHIFT))
    (Z.shiftl crm ESR_ELx_CP15_32_ISS_CRM_SHIFT).
Definition ESR_ELx_CP15_64_ISS_DIR_MASK : Z := 0x1.
Definition ESR_ELx_CP15_64_ISS_DIR_READ : Z := 0x1.
Definition ESR_ELx_CP15_64_ISS_DIR_WRITE : Z := 0x0.
Definition ESR_ELx_CP15_64_ISS_RT_SHIFT : Z := 5.
Definition ESR_ELx_CP15_64_ISS_RT_MASK : Z := Z.shiftl 0x1f ESR_ELx_CP15_64_ISS_RT_SHIFT.
Definition ESR_ELx_CP15_64_ISS_RT2_SHIFT : Z := 10.
Definition ESR_ELx_CP15_64_ISS_RT2_MASK : Z := Z.shiftl 0x1f ESR_ELx_CP15_64_ISS_RT2_SHIFT.
Definition ESR_ELx_CP15_64_ISS_OP1_SHIFT : Z := 16.
Definition ESR_ELx_CP15_64_ISS_OP1_MASK : Z := Z.shiftl 0xf ESR_ELx_CP15_64_ISS_OP1_SHIFT.
Definition ESR_ELx_CP15_64_ISS_CRM_SHIFT : Z := 1.
Definition ESR_ELx_CP15_64_ISS_CRM_MASK : Z := Z.shiftl 0xf ESR_ELx_CP15_64_ISS_CRM_SHIFT.
Definition ESR_ELx_CP15_64_ISS_SYS_VAL (op1 crm : Z) : Z :=
  Z.lor (Z.shiftl op1 ESR_ELx_CP15_64_ISS_OP1_SHIFT) (Z.shiftl crm ESR_ELx_CP15_64_ISS_CRM_SHIFT).
Definition ESR_ELx_CP15_64_ISS_SYS_MASK : Z :=
  Z.lor (Z.lor ESR_ELx_CP15_64_ISS_OP1_MASK ESR_ELx_CP15_64_ISS_CRM_MASK) ESR_ELx_CP15_64_ISS_DIR_MASK.
Definition ESR_ELx_CP15_64_ISS_SYS_CNTVCT : Z :=
  Z.lor (ESR_ELx_CP15_64_ISS_SYS_VAL 1 14) ESR_ELx_CP15_64_ISS_DIR_READ.
Definition ESR_ELx_CP15_32_ISS_SYS_CNTFRQ : Z :=
  Z.lor (ESR_ELx_CP15_32_ISS_SYS_VAL 0 0 14 0) ESR_ELx_CP15_32_ISS_DIR_READ.

Section Sysreg.
(** [sys_reg(op0, op1, crn, crm, op2)], which no header of the repository defines. *)
Context {A : Type} (sys_reg : Z -> Z -> Z -> Z -> Z -> A).

Definition esr_sys64_to_sysreg (e : Z) : A :=
  sys_reg (Z.shiftr (Z.land e ESR_ELx_SYS64_ISS_OP0_MASK) ESR_ELx_SYS64_ISS_OP0_SHIFT)
          (Z.shiftr (Z.land e ESR_ELx_SYS64_ISS_OP1_MASK) ESR_ELx_SYS64_ISS_OP1_SHIFT)
          (Z.shiftr (Z.land e ESR_ELx_SYS64_ISS_CRN_MASK) ESR_ELx_SYS64_ISS_CRN_SHIFT)
          (Z.shiftr (Z.land e ESR_ELx_SYS64_ISS_CRM_MASK) ESR_ELx_SYS64_ISS_CRM_SHIFT)
          (Z.shiftr (Z.land e ESR_ELx_SYS64_ISS_OP2_MASK) ESR_ELx_SYS64_ISS_OP2_SHIFT).

Definition esr_cp15_to_sysreg (e : Z) : A :=
  sys_reg 3
          (Z.shiftr (Z.land e ESR_ELx_SYS64_ISS_OP1_MASK) ESR_ELx_SYS64_ISS_OP1_SHIFT)
          (Z.shiftr (Z.land e ESR_ELx_SYS64_ISS_CRN_MASK) ESR_ELx_SYS64_ISS_CRN_SHIFT)
          (Z.shiftr (Z.land e ESR_ELx_SYS64_ISS_CRM_MASK) ESR_ELx_SYS64_ISS_CRM_SHIFT)
          (Z.shiftr (Z.land e ESR_ELx_SYS64_ISS_OP2_MASK) ESR_ELx_SYS64_ISS_OP2_SHIFT).
End Sysreg.

Definition esr_is_data_abort (esr : Z) : bool :=
  let ec := u32 (ESR_ELx_EC esr) in
  (ec =? ESR_ELx_EC_DABT_LOW) || (ec =? ESR_ELx_EC_DABT_CUR).

(** ** Layouts *)

(** A data abort, from bit 0: the fault code to the class. Bit 13 is not used. *)
Definition data_abort_fields : list field :=
  [Fld ESR_ELx_FSC 0 6; Fld ESR_ELx_WNR ESR_ELx_WNR_SHIFT 1; Fld ESR_ELx_S1PTW ESR_ELx_S1PTW_SHIFT 1;
   Fld ESR_ELx_CM ESR_ELx_CM_SHIFT 1; Fld ESR_ELx_EA ESR_ELx_EA_SHIFT 1; Fld ESR_ELx_FnV ESR_ELx_FnV_SHIFT 1;
   Fld ESR_ELx_SET_MASK ESR_ELx_SET_SHIFT 2; Fld (Z.shiftl 1 13) 13 1; Fld ESR_ELx_AR ESR_ELx_AR_SHIFT 1;
   Fld ESR_ELx_SF ESR_ELx_SF_SHIFT 1; Fld ESR_ELx_SRT_MASK ESR_ELx_SRT_SHIFT 5; Fld ESR_ELx_SSE ESR_ELx_SSE_SHIFT 1;
   Fld ESR_ELx_SAS ESR_ELx_SAS_SHIFT 2; Fld ESR_ELx_ISV ESR_ELx_ISV_SHIFT 1; Fld ESR_ELx_IL ESR_ELx_IL_SHIFT 1;
   Fld ESR_ELx_EC_MASK ESR_ELx_EC_SHIFT 6].

Lemma data_abort_tiles : tiles 0 data_abort_fields 32 = true.
Proof. reflexivity. Qed.

(** The syndrome of a trapped system instruction. *)
Definition sys64_fields : list field :=
  [Fld ESR_ELx_SYS64_ISS_DIR_MASK 0 1; Fld ESR_ELx_SYS64_ISS_CRM_MASK ESR_ELx_SYS64_ISS_CRM_SHIFT 4;
   Fld ESR_ELx_SYS64_ISS_RT_MASK ESR_ELx_SYS64_ISS_RT_SHIFT 5; Fld ESR_ELx_SYS64_ISS_CRN_MASK ESR_ELx_SYS64_ISS_CRN_SHIFT 4;
   Fld ESR_ELx_SYS64_ISS_OP1_MASK ESR_ELx_SYS64_ISS_OP1_SHIFT 3; Fld ESR_ELx_SYS64_ISS_OP2_MASK ESR_ELx_SYS64_ISS_OP2_SHIFT 3;
   Fld ESR_ELx_SYS64_ISS_OP0_MASK ESR_ELx_SYS64_ISS_OP0_SHIFT 2; Fld ESR_ELx_SYS64_ISS_RES0_MASK ESR_ELx_SYS64_ISS_RES0_SHIFT 3;
   Fld ESR_ELx_IL ESR_ELx_IL_SHIFT 1; Fld ESR_ELx_EC_MASK ESR_ELx_EC_SHIFT 6].

Lemma sys64_tiles : tiles 0 sys64_fields 32 = true.
Proof. reflexivity. Qed.

(** ** Trapped system instructions *)

(** The syndrome of an access: its direction, registers and operands. *)
Definition sys64_syndrome (dir crm rt crn op1 op2 op0 : Z) : Z :=
  Z.lor (Z.lor (Z.lor (ESR_ELx_SYS64_ISS_SYS_VAL op0 op1 op2 crn crm) (Z.shiftl rt ESR_ELx_SYS64_ISS_RT_SHIFT)) dir)
    (Z.lor (Z.shiftl ESR_ELx_EC_SYS64 ESR_ELx_EC_SHIFT) ESR_ELx_IL).

Lemma sys64_pack dir crm rt crn op1 op2 op0 :
  sys64_syndrome dir crm rt crn op1 op2 op0 =
  pack sys64_fields [dir; crm; rt; crn; op1; op2; op0; 0; 1; ESR_ELx_EC_SYS64].
Proof.
  apply Z.bits_inj'. intros i Hi. unfold sys64_syndrome, ESR_ELx_SYS64_ISS_SYS_VAL, ESR_ELx_IL.
  cbn [sys64_fields pack zip_with foldr shift]. rewrite !Z.lor_spec, Z.shiftl_0_r, Z.shiftl_0_l, Z.bits_0. btauto.
Qed.

(** What a mask keeps of a field of [e], and the field of a template, as constants. *)
Ltac keep_fields e := repeat match goal with
  | |- context [Z.land ?m1 ?m2] =>
      lazymatch m1 with e => fail | _ => first [change (Z.land m1 m2) with m2 | change (Z.land m1 m2) with 0] end
  | |- context [get ?f ?v] => let c := eval vm_compute in (get f v) in progress change (get f v) with c
  end.

(** A system instruction trap keeps all that it encodes: the register and operands, the transfer register,
    the direction and the class are read back from the syndrome, whatever [sys_reg] is. The template of the
    cache operations of user space matches exactly op0=1, op1=3, op2=1, crn=7, write, and that
    of the emulated MRS exactly op0=3, op1=0, crn=0, read, as the comments say. *)
Theorem sys64_roundtrip {A} (sys_reg : Z -> Z -> Z -> Z -> Z -> A) dir crm rt crn op1 op2 op0 :
  Forall2 (fun v n => 0 <= v < n) [dir; crm; rt; crn; op1; op2; op0] [2; 16; 32; 16; 8; 8; 4] ->
  let e := sys64_syndrome dir crm rt crn op1 op2 op0 in
  esr_sys64_to_sysreg sys_reg e = sys_reg op0 op1 crn crm op2 /\
  ESR_ELx_SYS64_ISS_RT e = rt /\ Z.land e ESR_ELx_SYS64_ISS_DIR_MASK = dir /\ ESR_ELx_EC e = ESR_ELx_EC_SYS64 /\
  (Z.land e ESR_ELx_SYS64_ISS_EL0_CACHE_OP_MASK = ESR_ELx_SYS64_ISS_EL0_CACHE_OP_VAL <->
   op0 = 1 /\ op1 = 3 /\ op2 = 1 /\ crn = 7 /\ dir = ESR_ELx_SYS64_ISS_DIR_WRITE) /\
  (Z.land e ESR_ELx_SYS64_ISS_SYS_MRS_OP_MASK = ESR_ELx_SYS64_ISS_SYS_MRS_OP_VAL <->
   op0 = 3 /\ op1 = 0 /\ crn = 0 /\ dir = ESR_ELx_SYS64_ISS_DIR_READ).
Proof.
  intros H e. assert (Forall2 fits sys64_fields [dir; crm; rt; crn; op1; op2; op0; 0; 1; ESR_ELx_EC_SYS64]) as Hv.
  { repeat (inversion H as [|? ? ? ? ? H']; subst; clear H; rename H' into H; constructor; [done|]).
    repeat (constructor; [by split|]). constructor. }
  pose proof (gets_pack _ _ _ sys64_tiles Hv) as G. pose proof (pack_range _ _ _ sys64_tiles Hv) as Hr.
  rewrite <-sys64_pack in G, Hr. fold e in G, Hr. clearbody e. cbn [sys64_fields fmap list_fmap] in G. injection G as G1 G2 G3 G4 G5 G6 G7 G8 G9 G10.
  unfold get in *. cbn [mask shift] in *. rewrite Z.shiftr_0_r in G1.
  split; [unfold esr_sys64_to_sysreg; by rewrite G2, G4, G5, G6, G7|]. split; [exact G3|]. split; [exact G1|]. split; [exact G10|].
  rewrite !(match_fields sys64_fields 32) by (done || (split; by vm_compute)). unfold sys64_fields.
  rewrite !Forall_cons_iff. cbn [mask shift]. split; keep_fields e;
    rewrite ?Z.land_0_r, ?Z.shiftr_0_l, ?Z.shiftr_0_r, ?G1, ?G2, ?G3, ?G4, ?G5, ?G6, ?G7;
    (split; [intros H'; decompose [and] H'; by repeat split|intros (-> & H'); decompose [and] H'; subst; by repeat split]).
Qed.

(** A read of [CTR_EL0] into x7. *)
Lemma sys64_roundtrip_witness :
  esr_sys64_to_sysreg (fun a b c d e => [a; b; c; d; e]) (sys64_syndrome 1 0 7 0 3 1 3) = [3; 3; 0; 0; 1] /\
  ESR_ELx_SYS64_ISS_RT (sys64_syndrome 1 0 7 0 3 1 3) = 7.
Proof.
  destruct (sys64_roundtrip (fun a b c d e => [a; b; c; d; e]) 1 0 7 0 3 1 3) as (H1 & H2 & _).
  - repeat (constructor; [by split|]). constructor.
  - split; [exact H1|exact H2].
Defined.

(** The 32-bit coprocessor encoding is that of the system instructions with op0 = 0, field by field. *)
Lemma cp15_32_sys64 op1 op2 crn crm :
  ESR_ELx_CP15_32_ISS_SYS_VAL op1 op2 crn crm = ESR_ELx_SYS64_ISS_SYS_VAL 0 op1 op2 crn crm /\
  ESR_ELx_CP15_32_ISS_SYS_MASK = Z.land ESR_ELx_SYS64_ISS_SYS_OP_MASK (Z.lnot ESR_ELx_SYS64_ISS_OP0_MASK).
Proof. unfold ESR_ELx_CP15_32_ISS_SYS_VAL, ESR_ELx_SYS64_ISS_SYS_VAL. by rewrite Z.shiftl_0_l, Z.lor_0_l. Qed.

(** The 64-bit one: direction, crm, two transfer registers, bit 15, op1, and the rest of the syndrome. *)
Definition cp15_64_fields : list field :=
  [Fld ESR_ELx_CP15_64_ISS_DIR_MASK 0 1; Fld ESR_ELx_CP15_64_ISS_CRM_MASK ESR_ELx_CP15_64_ISS_CRM_SHIFT 4;
   Fld ESR_ELx_CP15_64_ISS_RT_MASK ESR_ELx_CP15_64_ISS_RT_SHIFT 5; Fld ESR_ELx_CP15_64_ISS_RT2_MASK ESR_ELx_CP15_64_ISS_RT2_SHIFT 5;
   Fld (Z.shiftl 1 15) 15 1; Fld ESR_ELx_CP15_64_ISS_OP1_MASK ESR_ELx_CP15_64_ISS_OP1_SHIFT 4;
   Fld ESR_ELx_COND_MASK ESR_ELx_COND_SHIFT 4; Fld ESR_ELx_CV 24 1; Fld ESR_ELx_IL ESR_ELx_IL_SHIFT 1;
   Fld ESR_ELx_EC_MASK ESR_ELx_EC_SHIFT 6].

Lemma cp15_64_tiles : tiles 0 cp15_64_fields 32 = true.
Proof. reflexivity. Qed.

(** The templates of CNTVCT and CNTFRQ decode to the counter's registers. *)
Lemma cp15_templates :
  (fun f => get f ESR_ELx_CP15_64_ISS_SYS_CNTVCT) <$> cp15_64_fields = [1; 14; 0; 0; 0; 1; 0; 0; 0; 0] /\
  esr_cp15_to_sysreg (fun a b c d e => [a; b; c; d; e]) ESR_ELx_CP15_32_ISS_SYS_CNTFRQ = [3; 0; 14; 0; 0] /\
  esr_sys64_to_sysreg (fun a b c d e => [a; b; c; d; e]) ESR_ELx_SYS64_ISS_SYS_CNTVCT = [3; 3; 14; 0; 2] /\
  esr_sys64_to_sysreg (fun a b c d e => [a; b; c; d; e]) ESR_ELx_SYS64_ISS_SYS_CNTFRQ = [3; 3; 14; 0; 0].
Proof. by vm_compute. Qed.

(** ** Whole syndromes *)

(** The template of a trapped WFI: its class, and WFI rather than WFE in bit 0. *)
Definition wfx_fields : list field :=
  [Fld ESR_ELx_WFx_ISS_TI 0 1; Fld (Z.shiftl (2 ^ 24 - 1) 1) 1 24; Fld ESR_ELx_IL ESR_ELx_IL_SHIFT 1;
   Fld ESR_ELx_EC_MASK ESR_ELx_EC_SHIFT 6].

Lemma wfi_template e : 0 <= e < 2 ^ 32 ->
  Z.land e ESR_ELx_WFx_MASK = ESR_ELx_WFx_WFI_VAL <->
  ESR_ELx_EC e = ESR_ELx_EC_WFx /\ Z.land e ESR_ELx_WFx_ISS_TI = ESR_ELx_WFx_ISS_WFI.
Proof.
  intros He. rewrite (match_fields wfx_fields 32) by (done || (split; by vm_compute)). unfold wfx_fields.
  rewrite !Forall_cons_iff. cbn [mask shift]. keep_fields e. rewrite Z.land_0_r, !Z.shiftr_0_l, Z.shiftr_0_r.
  unfold ESR_ELx_EC. split; [intros (H1 & _ & _ & H2 & _); done|intros [H1 H2]; by repeat split].
Qed.

(** [ESR_ELx_VAL_BRK64] is not a 32-bit syndrome: all of its upper half is set. *)
Lemma brk64_sign_extended imm :
  Z.shiftr (ESR_ELx_VAL_BRK64 imm) 32 = 2 ^ 32 - 1 /\ u32 (ESR_ELx_VAL_BRK64 imm) = Z.lor 0xf2000000 (Z.land imm 0xffff).
Proof.
  unfold ESR_ELx_VAL_BRK64. change 0xffff with (2 ^ 16 - 1). rewrite land_ones_mod by lia. set (i := imm mod 2 ^ 16).
  assert (0 <= i < 2 ^ 16) as Hi by (apply Z.mod_pos_bound; lia).
  change (Z.lor (u64 _) ESR_ELx_IL) with (0xfffffffff200 * 2 ^ 16). change 0xf2000000 with (0xf200 * 2 ^ 16).
  rewrite !lor_disjoint_add by lia. split.
  - rewrite Z.shiftr_div_pow2 by lia. symmetry. apply Z.div_unique with (0xf200 * 2 ^ 16 + i); lia.
  - unfold u32. symmetry. apply Z.mod_unique with (2 ^ 32 - 1); lia.
Qed.

(** [DISR_EL1] and [ESR_ELx] share the bottom 13 bits. *)
Lemma disr_low_bits : Z.land DISR_EL1_ESR_MASK (2 ^ 13 - 1) = DISR_EL1_ESR_MASK /\ DISR_EL1_IDS = ESR_ELx_IDS.
Proof. done. Qed.

Lemma esr_is_data_abort_spec e : 0 <= e < 2 ^ 32 ->
  esr_is_data_abort e = true <-> ESR_ELx_EC e = 0x24 \/ ESR_ELx_EC e = 0x25.
Proof.
  intros He. unfold esr_is_data_abort. rewrite u32_small.
  - rewrite orb_true_iff, !Z.eqb_eq. done.
  - unfold ESR_ELx_EC. rewrite Z.shiftr_land. change (Z.shiftr ESR_ELx_EC_MASK ESR_ELx_EC_SHIFT) with (2 ^ 6 - 1).
    rewrite land_ones_mod by lia. pose proof (Z.mod_pos_bound (Z.shiftr e ESR_ELx_EC_SHIFT) (2 ^ 6)). lia.
Qed.

End Esr.
Export Esr.
