(* ===== verification/Gic.v ===== *)
(** * The interrupt controller and the timer

    [drivers/irqchips/gic_v2.c], [drivers/irqchips/irq.c], the part of
    [include/yios/arm-gic.h] they use, [mach-rpi4/timer.c] and [do_irq] of
    [core/traps.c]. Device registers are as in [Uart.v]: a read returns what the
    parameter [dev] gives for the history of accesses. *)

From S2P Require Import Prelude Base Printk Uart.

Module Gic.

Definition GIC_CPU_CTRL : Z := 0x00.
Definition GIC_CPU_PRIMASK : Z := 0x04.
Definition GIC_CPU_INTACK : Z := 0x0c.
Definition GIC_CPU_EOI : Z := 0x10.
Definition GICC_ENABLE : Z := 0x1.
Definition GICC_INT_PRI_THRESHOLD : Z := 0xf0.
Definition GICC_IAR_INT_ID_MASK : Z := 0x3ff.
Definition GIC_DIST_CTRL : Z := 0x000.
Definition GIC_DIST_CTR : Z := 0x004.
Definition GIC_DIST_ENABLE_SET : Z := 0x100.
Definition GIC_DIST_ENABLE_CLEAR : Z := 0x180.
Definition GIC_DIST_ACTIVE_CLEAR : Z := 0x380.
Definition GIC_DIST_PRI : Z := 0x400.
Definition GIC_DIST_TARGET : Z := 0x800.
Definition GIC_DIST_CONFIG : Z := 0xc00.
Definition GICD_ENABLE : Z := 0x1.
Definition GICD_DISABLE : Z := 0x0.
Definition GICD_INT_ACTLOW_LVLTRIG : Z := 0x0.
Definition GICD_INT_EN_CLR_X32 : Z := 0xffffffff.
Definition GICD_INT_EN_SET_SGI : Z := 0x0000ffff.
Definition ARM_GIC_MAX_NR : Z := 1.
Definition GENERIC_TIMER_IRQ : Z := 30.
Definition CNT_PNS_IRQ : Z := Z.shiftl 1 1.
Definition TIMER_CNTRL0 : Z := ARM_LOCAL_BASE + 0x40.

(** Without [domain] and [chips], which no code reads or writes. *)
Record gic_chip_data : Type := GicChipData {
  raw_dist_base : Z;
  raw_cpu_base : Z;
  gic_irqs : Z;
}.

(** The static [gic_data], the timer's system registers, the register accesses and the
    messages printed. *)
Record gst : Type := Gst {
  gic_data : list gic_chip_data;
  cntp_ctl : Z;
  cntp_tval : Z;
  cntfrq : Z;
  hist : list access;
  klog : list call;
}.
Definition gst_hist : lens gst (list access) :=
  Lens hist (fun h s => Gst (gic_data s) (cntp_ctl s) (cntp_tval s) (cntfrq s) h (klog s)).
Definition set_gic_data (l : list gic_chip_data) (s : gst) : gst :=
  Gst l (cntp_ctl s) (cntp_tval s) (cntfrq s) (hist s) (klog s).
Definition printk (fmt : string) (a : list varg) : M gst unit :=
  modify (fun s => Gst (gic_data s) (cntp_ctl s) (cntp_tval s) (cntfrq s) (hist s) (klog s ++ [(fmt, a)])).

(** [for (i = start; i < n; i += step)] over [u32]. *)
Definition for_body {S} (n step : Z) (f : Z -> M S unit) (i : Z) : M S (Z + unit) :=
  if i <? n then f i;; mret (inl (u32 (i + step))) else mret (inr tt).
Definition for_u32 {S} (start n step : Z) (f : Z -> M S unit) : M S unit :=
  loop (Datatypes.S (Z.to_nat n)) (for_body n step f) start.

Section Gic.
Context (dev : list access -> Z -> Z).

Definition readl (c : Z) : M gst Z := zoom gst_hist (Io.readl dev c).
Definition writel (v c : Z) : M gst unit := zoom gst_hist (Io.writel v c).

(** ** The timer *)

Definition val : Z := 62500000.
Definition generic_timer_init : M gst unit :=
  modify (fun s => Gst (gic_data s) 1 (cntp_tval s) (cntfrq s) (hist s) (klog s)).
Definition generic_timer_reset (val : Z) : M gst unit :=
  modify (fun s => Gst (gic_data s) (cntp_ctl s) val (cntfrq s) (hist s) (klog s)).
Definition enable_timer_interrupt : M gst unit := writel CNT_PNS_IRQ TIMER_CNTRL0.
(** [pr] is the [printk] of the message. *)
Definition handle_timer_irq_with (pr : string -> list varg -> M gst unit) : M gst unit :=
  generic_timer_reset val;;
  freq ← gets cntfrq;
  pr ("Core0 timer interrupt, freq=%u" +:+ nl) [VNum freq].
Definition handle_timer_irq : M gst unit := handle_timer_irq_with printk.

(** ** The controller *)

Definition gic_get_dist_base : M gst Z :=
  l ← gets gic_data; gic ← of_option (arr_get l 0); mret (raw_dist_base gic).
Definition gic_get_cpu_base : M gst Z :=
  l ← gets gic_data; gic ← of_option (arr_get l 0); mret (raw_cpu_base gic).

Definition gic_set_irq (irq offset : Z) : M gst unit :=
  let mask := u32 (Z.shiftl 1 (irq mod 32)) in
  base ← gic_get_dist_base;
  writel mask (u64 (base + offset + irq / 32 * 4)).
Definition gicv2_mask_irq (irq : Z) : M gst unit := gic_set_irq irq GIC_DIST_ENABLE_CLEAR.
Definition gicv2_unmask_irq (irq : Z) : M gst unit := gic_set_irq irq GIC_DIST_ENABLE_SET.
Definition gicv2_eoi_irq (irq : Z) : M gst unit :=
  base ← gic_get_cpu_base;
  writel irq (u64 (base + GIC_CPU_EOI)).

Definition get_cpumask_body (base : Z) (im : Z * Z) : M gst (Z * Z + Z) :=
  let '(i, mask) := im in
  if i <? 32 then
    mask ← readl (u64 (base + GIC_DIST_TARGET + i));
    let mask := Z.lor mask (Z.shiftr mask 16) in
    let mask := Z.lor mask (Z.shiftr mask 8) in
    mret (if negb (mask =? 0) then inr mask else inl (i + 4, mask))
  else mret (inr mask).
(** Eight words, and the test that ends the loop. *)
Definition gic_get_cpumask (gic : gic_chip_data) : M gst Z :=
  loop 9 (get_cpumask_body (raw_dist_base gic)) (0, 0).

Definition replicate_mask (cpumask : Z) : Z :=
  let cpumask := Z.lor cpumask (u32 (Z.shiftl cpumask 8)) in
  Z.lor cpumask (u32 (Z.shiftl cpumask 16)).

Definition gic_dist_init (gic : gic_chip_data) : M gst unit :=
  let base := raw_dist_base gic in
  writel GICD_DISABLE (u64 (base + GIC_DIST_CTRL));;
  cpumask ← gic_get_cpumask gic;
  let cpumask := replicate_mask cpumask in
  for_u32 32 (gic_irqs gic) 4 (fun i => writel cpumask (u64 (base + GIC_DIST_TARGET + u32 (i * 4) / 4)));;
  for_u32 32 (gic_irqs gic) 16 (fun i => writel GICD_INT_ACTLOW_LVLTRIG (u64 (base + GIC_DIST_CONFIG + i / 4)));;
  for_u32 0 (gic_irqs gic) 32 (fun i =>
    writel GICD_INT_EN_CLR_X32 (u64 (base + GIC_DIST_ACTIVE_CLEAR + i / 8));;
    writel GICD_INT_EN_CLR_X32 (u64 (base + GIC_DIST_ENABLE_CLEAR + i / 8)));;
  writel GICD_INT_EN_SET_SGI (u64 (base + GIC_DIST_ENABLE_SET));;
  writel GICD_ENABLE (u64 (base + GIC_DIST_CTRL)).

Definition gic_cpu_init (gic : gic_chip_data) : M gst unit :=
  let base := raw_cpu_base gic in
  let dist_base := raw_dist_base gic in
  for_u32 0 32 4 (fun i => writel 0xa0a0a0a0 (u64 (dist_base + GIC_DIST_PRI + i * 4 / 4)));;
  writel GICC_INT_PRI_THRESHOLD (u64 (base + GIC_CPU_PRIMASK));;
  writel GICC_ENABLE (u64 (base + GIC_CPU_CTRL)).

Definition gic_handle_irq_with (pr : string -> list varg -> M gst unit) : M gst unit :=
  base ← gic_get_cpu_base;
  irqstat ← readl (u64 (base + GIC_CPU_INTACK));
  let irqnr := Z.land irqstat GICC_IAR_INT_ID_MASK in
  (if irqnr =? GENERIC_TIMER_IRQ then handle_timer_irq_with pr else mret tt);;
  gicv2_eoi_irq irqnr.
Definition gic_handle_irq : M gst unit := gic_handle_irq_with printk.

Definition irq_handle : M gst unit := gic_handle_irq.
Definition do_irq : M gst unit := gic_handle_irq.

(** The structure is filled in place, the number of interrupts last. [pr] is the [printk] of the one message. *)
Definition gic_init_with (pr : string -> list varg -> M gst unit) (chip dist_base cpu_base : Z) : M gst Z :=
  l ← gets gic_data;
  gic ← of_option (arr_get l chip);
  let gic := GicChipData dist_base cpu_base (gic_irqs gic) in
  l ← of_option (arr_set l chip gic);
  modify (set_gic_data l);;
  v ← readl (u64 (dist_base + GIC_DIST_CTR));
  let irqs := (Z.land v 0x1f + 1) * 32 in
  let irqs := if 1020 <? irqs then 1020 else irqs in
  let gic := GicChipData dist_base cpu_base irqs in
  l ← of_option (arr_set l chip gic);
  modify (set_gic_data l);;
  pr ("%s: cpu_base:0x%0x, dist_base:0x%0x, gic_irqs:%d" +:+ nl)
    [VStr "gic_init"; VNum cpu_base; VNum dist_base; VNum irqs];;
  gic_dist_init gic;;
  gic_cpu_init gic;;
  mret 0.
Definition gic_init : Z -> Z -> Z -> M gst Z := gic_init_with printk.

Definition timer_init : M gst unit :=
  generic_timer_init;;
  generic_timer_reset val;;
  gicv2_unmask_irq GENERIC_TIMER_IRQ;;
  enable_timer_interrupt.

End Gic.
(** ** Specification of the controller *)

Lemma wp_for {S} (P : Z -> S -> Prop) start n step (f : Z -> M S unit) s Q :
  0 < step -> 0 <= start -> n + step < 2 ^ 32 -> P start s ->
  (forall i s, P i s -> start <= i < n -> wp (f i) s (fun _ s' => P (i + step) s')) ->
  (forall i s, P i s -> n <= i -> Q tt s) ->
  wp (for_u32 start n step f) s Q.
Proof.
  intros Hst Hs Hn Hp Hf Hq. unfold for_u32.
  apply (wp_loop (fun i s => start <= i /\ P i s) (fun i => Z.to_nat (n - i))); [|split; [lia|done]|lia].
  intros i s0 [Hi HP]. unfold for_body. destruct (Z.ltb_spec i n) as [Hlt|Hge]; wp_step; [|by eapply Hq].
  eapply wp_mono; [by apply Hf|]. intros [] s1 H1. wp_step. rewrite u32_small by lia. split; [split; [lia|done]|lia].
Qed.

(** What the registers hold: the last value written. *)
Definition reg (h : list access) (r : Z) : option Z :=
  fold_left (fun acc a => match a with Wr r' v => if r' =? r then Some v else acc | Rd _ _ => acc end) h None.

Section Distributor.
(** The interrupts enabled at reset, and where the distributor is. *)
Context (e0 : Z -> bool) (base : Z).

(** Whether an interrupt is enabled: writing a one bit to a set-enable register enables
    it, to a clear-enable register disables it, a zero bit has no effect. *)
Definition enable_step (irq : Z) (e : bool) (a : access) : bool :=
  match a with
  | Rd _ _ => e
  | Wr r v =>
      if (r =? base + 0x100 + irq / 32 * 4) && Z.testbit v (irq mod 32) then true
      else if (r =? base + 0x180 + irq / 32 * 4) && Z.testbit v (irq mod 32) then false
      else e
  end.
Definition enabled (h : list access) (irq : Z) : bool := fold_left (enable_step irq) h (e0 irq).

Lemma reg_snoc h a v r : reg (h ++ [Wr a v]) r = if a =? r then Some v else reg h r.
Proof. unfold reg. by rewrite fold_left_app. Qed.

Lemma reg_rd h a v r : reg (h ++ [Rd a v]) r = reg h r.
Proof. unfold reg. by rewrite fold_left_app. Qed.

Lemma enabled_snoc h a irq : enabled (h ++ [a]) irq = enable_step irq (enabled h irq) a.
Proof. unfold enabled. by rewrite fold_left_app. Qed.

Lemma word_range j : 0 <= j < 1024 -> 0 <= j / 32 * 4 < 128.
Proof.
  intros H. pose proof (Z.div_pos j 32). assert (j / 32 < 32) by (apply Z.div_lt_upper_bound; lia). lia.
Qed.

Lemma enable_step_other j e a v :
  0 <= j < 1024 -> ~ base + 0x100 <= a < base + 0x200 -> enable_step j e (Wr a v) = e.
Proof.
  intros Hj Ha. pose proof (word_range j Hj). unfold enable_step.
  by rewrite !(proj2 (Z.eqb_neq a _)) by lia.
Qed.

(** The rest of the state does not change, and accesses are only added. *)
Definition same (s s' : gst) : Prop :=
  gic_data s' = gic_data s /\ cntp_ctl s' = cntp_ctl s /\ cntp_tval s' = cntp_tval s /\
  cntfrq s' = cntfrq s /\ klog s' = klog s /\ hist s `prefix_of` hist s'.
(** A step that writes registers of a window only. *)
Definition frame (lo hi : Z) (s s' : gst) : Prop :=
  same s s' /\ forall r, ~ lo <= r < hi -> reg (hist s') r = reg (hist s) r.
Definition quiet (s s' : gst) : Prop :=
  forall j, 0 <= j < 1024 -> enabled (hist s') j = enabled (hist s) j.

Lemma frame_refl lo hi s : frame lo hi s s.
Proof. split; [|done]. by do 5 (split; [done|]). Qed.

Lemma same_trans s1 s2 s3 : same s1 s2 -> same s2 s3 -> same s1 s3.
Proof.
  intros (A1 & A2 & A3 & A4 & A5 & A6) (B1 & B2 & B3 & B4 & B5 & B6).
  do 5 (split; [congruence|]). by etrans.
Qed.

Lemma frame_trans lo hi s1 s2 s3 : frame lo hi s1 s2 -> frame lo hi s2 s3 -> frame lo hi s1 s3.
Proof.
  intros [S1 R1] [S2 R2]. split; [by eapply same_trans|]. intros r Hr. by rewrite R2, R1.
Qed.

Lemma frame_mono lo hi lo' hi' s s' :
  (lo' <= lo /\ hi <= hi') \/ hi <= lo -> frame lo hi s s' -> frame lo' hi' s s'.
Proof. intros H1 [HS HR]. split; [done|]. intros r Hr. apply HR. lia. Qed.

Lemma quiet_trans s1 s2 s3 : quiet s1 s2 -> quiet s2 s3 -> quiet s1 s3.
Proof. intros H1 H2 j Hj. by rewrite H2, H1. Qed.

Lemma writel_spec v a s (Q : unit -> gst -> Prop) :
  (forall s', hist s' = hist s ++ [Wr a (u32 v)] -> same s s' -> Q tt s') -> wp (writel v a) s Q.
Proof. intros H. unfold writel. wp_steps. unfold Io.writel. wp_step. apply H; [done|].
  do 5 (split; [done|]). by apply prefix_app_r. Qed.

(** A loop that writes one value to a run of registers. *)
Lemma fill_loop start n step v (addr : Z -> Z) lo hi s :
  0 < step -> 0 <= start -> n + step < 2 ^ 32 -> 0 <= lo -> hi < 2 ^ 64 ->
  (forall i, start <= i < n -> lo <= addr i < hi) ->
  hi <= base + 0x100 \/ base + 0x200 <= lo ->
  wp (for_u32 start n step (fun i => writel v (u64 (addr i)))) s (fun _ s' =>
    frame lo hi s s' /\ quiet s s' /\
    forall m, 0 <= m -> start + m * step < n -> reg (hist s') (addr (start + m * step)) = Some (u32 v)).
Proof.
  intros Hst Hs Hn Hlo Hhi Haddr Hen.
  apply (wp_for (fun i s' => frame lo hi s s' /\ quiet s s' /\ (exists m, i = start + m * step) /\
    forall m, 0 <= m -> start + m * step < i -> start + m * step < n ->
      reg (hist s') (addr (start + m * step)) = Some (u32 v))); try done.
  - split; [apply frame_refl|]. split; [done|]. split; [by exists 0; lia|]. intros m Hm Hlt _. nia.
  - intros i s1 (Hf & Hq & [m0 Ei] & Hr) Hi. pose proof (Haddr i Hi) as Ha.
    apply writel_spec. intros s2 Eh Hsame. rewrite u64_small in Eh by lia. split; [|split; [|split]].
    + apply (frame_trans lo hi s s1 s2); [done|]. split; [done|]. intros r Hr'.
      rewrite Eh, reg_snoc, (proj2 (Z.eqb_neq _ _)) by lia. done.
    + eapply quiet_trans; [exact Hq|]. intros j Hj. rewrite Eh, enabled_snoc. apply enable_step_other; [done|]. lia.
    + exists (m0 + 1). lia.
    + intros m Hm Hlt Hlt'. rewrite Eh, reg_snoc. destruct (Z.eqb_spec (addr i) (addr (start + m * step))); [done|].
      apply Hr; [done| |done]. destruct (decide (start + m * step < i)); [done|].
      subst i. assert (m < m0 + 1) by nia. assert (m0 <= m) by nia. assert (m = m0) as -> by lia. done.
  - intros i s1 (Hf & Hq & _ & Hr) Hi. split; [done|]. split; [done|]. intros m Hm Hlt. apply Hr; lia.
Qed.

(** The number of the first of the target words that is not zero decides the CPUs. *)
Definition smear (v : Z) : Z :=
  let m := Z.lor v (Z.shiftr v 16) in Z.lor m (Z.shiftr m 8).

Lemma smear_0 v : 0 <= v -> smear v = 0 -> v = 0.
Proof. intros Hv E. unfold smear in E. apply Z.lor_eq_0_iff in E as [E _]. by apply Z.lor_eq_0_iff in E as [E _]. Qed.

Lemma testbit_shiftl x s n :
  0 <= s -> 0 <= n < 32 -> Z.testbit (u32 (Z.shiftl x s)) n = (s <=? n) && Z.testbit x (n - s).
Proof.
  intros Hs Hn. unfold u32. rewrite Z.mod_pow2_bits_low, Z.shiftl_spec by lia.
  destruct (Z.leb_spec s n); [done|]. by rewrite Z.testbit_neg_r by lia.
Qed.

(** Every byte of the word written to the target registers is the union of the four
    bytes of the word read. *)
Lemma replicate_bits v i :
  0 <= v < 2 ^ 32 -> 0 <= i < 32 ->
  Z.testbit (replicate_mask (smear v)) i =
  Z.testbit v (i mod 8) || Z.testbit v (i mod 8 + 8) || Z.testbit v (i mod 8 + 16) || Z.testbit v (i mod 8 + 24).
Proof.
  intros Hv Hi. assert (forall c, 32 <= c -> Z.testbit v c = false) as Hhi.
  { intros c Hc. rewrite <-(Z.mod_small v (2 ^ 32)) by lia. by rewrite Z.mod_pow2_bits_high by lia. }
  unfold replicate_mask, smear.
  assert (exists k, i = Z.of_nat k /\ (k < 32)%nat) as (k & -> & Hk) by (exists (Z.to_nat i); lia).
  do 32 (destruct k as [|k];
    [repeat first [progress cbv -[Z.testbit Z.shiftl Z.shiftr Z.lor u32 orb]
                  | rewrite Z.lor_spec | rewrite testbit_shiftl by lia | rewrite Z.shiftr_spec by lia];
     repeat match goal with |- context [Z.testbit v ?c] => rewrite (Hhi c) by lia end;
     repeat case (Z.testbit v _); reflexivity|]). lia.
Qed.

Context (dev : list access -> Z -> Z).

Lemma readl_spec a s (Q : Z -> gst -> Prop) :
  (forall s', hist s' = hist s ++ [Rd a (u32 (dev (hist s) a))] -> same s s' ->
     Q (u32 (dev (hist s) a)) s') -> wp (readl dev a) s Q.
Proof. intros H. apply H; [done|]. do 5 (split; [done|]). by apply prefix_app_r. Qed.

Lemma read_frame s s' a v : hist s' = hist s ++ [Rd a v] -> same s s' -> frame 0 0 s s' /\ quiet s s'.
Proof.
  intros E HS. split; [split; [done|]|].
  - intros r _. by rewrite E, reg_rd.
  - intros j _. by rewrite E, enabled_snoc.
Qed.

Definition mask_read (v : Z) (k : Z) (s : gst) : Prop :=
  0 <= k < 8 /\ 0 <= v < 2 ^ 32 /\ In (Rd (base + 0x800 + 4 * k) v) (hist s) /\ (v = 0 -> k = 7).

Lemma get_cpumask_spec gic s :
  raw_dist_base gic = base -> 0 <= base -> base + 0x1000 < 2 ^ 64 ->
  wp (gic_get_cpumask dev gic) s (fun m s' => frame 0 0 s s' /\ quiet s s' /\
    exists v k, mask_read v k s' /\ m = smear v).
Proof.
  intros Eb Hb Hb2. unfold gic_get_cpumask. rewrite Eb.
  apply (wp_loop (fun im s' => frame 0 0 s s' /\ quiet s s' /\ exists k, 0 <= k <= 8 /\ im = (4 * k, 0) /\
    (0 < k -> In (Rd (base + 0x800 + 4 * (k - 1)) 0) (hist s'))) (fun im => Z.to_nat (8 - im.1 / 4))).
  2: { split; [apply frame_refl|]. split; [done|]. exists 0. split; [lia|]. split; [done|lia]. }
  2: { by apply Nat2Z.inj_lt. }
  assert (forall k, 4 * k / 4 = k) as H4 by (intros k; rewrite Z.mul_comm; by apply Z.div_mul).
  intros im s1 (Hf & Hq & k & Hk & -> & Hin). unfold get_cpumask_body.
  destruct (Z.ltb_spec (4 * k) 32) as [Hlt|Hge].
  - wp_step. apply readl_spec. intros s2 Eh Hsame. destruct (read_frame s1 s2 _ _ Eh Hsame) as [F2 Q2].
    rewrite u64_small in Eh |- * by (unfold GIC_DIST_TARGET; lia). unfold GIC_DIST_TARGET in Eh |- *.
    set (v := u32 (dev (hist s1) (base + 0x800 + 4 * k))) in Eh |- *.
    assert (0 <= v < 2 ^ 32) as Hv by apply u32_range.
    assert (In (Rd (base + 0x800 + 4 * k) v) (hist s2)) as Hin2 by (rewrite Eh; apply in_or_app; right; by left).
    wp_step. fold (smear v). destruct (Z.eqb_spec (smear v) 0) as [E0|E0]; cbn [negb].
    + apply smear_0 in E0; [|lia]. split; [|cbn [fst]; replace (4 * k + 4) with (4 * (k + 1)) by lia; rewrite !H4; lia].
      split; [by eapply frame_trans|]. split; [by eapply quiet_trans|]. exists (k + 1). split; [lia|].
      rewrite E0. split; [f_equal; lia|]. intros _. replace (k + 1 - 1) with k by lia. by rewrite E0 in Hin2.
    + split; [by eapply frame_trans|]. split; [by eapply quiet_trans|]. exists v, k. split; [|done].
      split; [lia|]. split; [done|]. split; [done|]. intros ->. by cbn in E0.
  - assert (k = 8) as -> by lia. wp_step. split; [done|]. split; [done|]. exists 0, 7.
    split; [|done]. split; [lia|]. split; [lia|]. split; [apply Hin; lia|done].
Qed.

(** The loop that deactivates and disables everything. *)
Lemma clear_loop n s :
  0 <= n <= 1024 -> 0 <= base -> base + 0x1000 < 2 ^ 64 ->
  wp (for_u32 0 n 32 (fun i =>
        writel GICD_INT_EN_CLR_X32 (u64 (base + GIC_DIST_ACTIVE_CLEAR + i / 8));;
        writel GICD_INT_EN_CLR_X32 (u64 (base + GIC_DIST_ENABLE_CLEAR + i / 8)))) s (fun _ s' =>
    frame (base + 0x180) (base + 0x400) s s' /\
    forall j, 0 <= j < 1024 -> j < n -> enabled (hist s') j = false).
Proof.
  intros Hn Hb Hb2.
  apply (wp_for (fun i s' => frame (base + 0x180) (base + 0x400) s s' /\ (exists m, 0 <= m /\ i = m * 32) /\
    forall j, 0 <= j < 1024 -> j < i -> enabled (hist s') j = false)); try lia.
  - split; [apply frame_refl|]. split; [by exists 0|]. lia.
  - intros i s1 (Hf & (m & Hm & ->) & He) Hi.
    replace (m * 32 / 8) with (m * 4) by (replace (m * 32) with (m * 4 * 8) by lia; by rewrite Z.div_mul).
    unfold GIC_DIST_ACTIVE_CLEAR, GIC_DIST_ENABLE_CLEAR. rewrite !u64_small by lia.
    wp_step. apply writel_spec. intros s2 E2 S2. apply writel_spec. intros s3 E3 S3.
    rewrite E2, <-app_assoc in E3. cbn [app] in E3. split; [|split].
    + apply (frame_trans _ _ s s1 s3); [done|]. split; [by eapply same_trans|]. intros r Hr.
      rewrite E3. change [Wr ?a ?v; ?w] with ([Wr a v] ++ [w]).
      rewrite app_assoc, !reg_snoc, !(proj2 (Z.eqb_neq _ r)) by lia. done.
    + exists (m + 1). lia.
    + intros j Hj Hlt. rewrite E3. change [Wr ?a ?v; ?w] with ([Wr a v] ++ [w]).
      rewrite app_assoc, !enabled_snoc, (enable_step_other j _ (base + 0x380 + _)) by lia.
      pose proof (word_range j Hj). pose proof (Z.div_mod j 32). pose proof (Z.mod_pos_bound j 32).
      unfold enable_step. rewrite (proj2 (Z.eqb_neq _ (base + 0x100 + _))) by lia. cbn [andb].
      destruct (Z.eqb_spec (base + 0x180 + m * 4) (base + 0x180 + j / 32 * 4)) as [E|E].
      * change (u32 GICD_INT_EN_CLR_X32) with (Z.ones 32). by rewrite Z.ones_spec_low by lia.
      * apply He; [done|]. lia.
  - intros i s1 (Hf & _ & He) Hi. split; [done|]. intros j Hj Hlt. apply He; lia.
Qed.

Lemma mask_read_prefix v k s s' : hist s `prefix_of` hist s' -> mask_read v k s -> mask_read v k s'.
Proof.
  intros [l E] (H1 & H2 & H3 & H4). split; [done|]. split; [done|]. split; [|done].
  rewrite E. apply in_or_app. by left.
Qed.

Lemma frame_prefix lo hi s s' : frame lo hi s s' -> hist s `prefix_of` hist s'.
Proof. intros [(_ & _ & _ & _ & _ & H) _]. done. Qed.

(** One write outside the enable registers. *)
Lemma write_frame v a lo hi s s' :
  lo <= a < hi -> hist s' = hist s ++ [Wr a v] -> same s s' -> frame lo hi s s'.
Proof.
  intros Ha E HS. split; [done|]. intros r Hr. rewrite E, reg_snoc. by rewrite (proj2 (Z.eqb_neq a r)) by lia.
Qed.

(** Writing the bits of the sixteen software interrupts to the first set-enable register. *)
Lemma enable_sgi h j :
  0 <= j < 1024 ->
  enabled (h ++ [Wr (base + 0x100) (u32 GICD_INT_EN_SET_SGI)]) j = (j <? 16) || enabled h j.
Proof.
  intros Hj. rewrite enabled_snoc. unfold enable_step. pose proof (word_range j Hj).
  rewrite (proj2 (Z.eqb_neq _ (base + 0x180 + _))) by lia. cbn [andb].
  change (u32 GICD_INT_EN_SET_SGI) with (Z.ones 16). pose proof (Z.div_mod j 32). pose proof (Z.mod_pos_bound j 32).
  destruct (Z.eqb_spec (base + 0x100) (base + 0x100 + j / 32 * 4)) as [E|E]; cbn [andb].
  - replace (j mod 32) with j by lia.
    destruct (Z.ltb_spec j 16); [by rewrite Z.ones_spec_low by lia|by rewrite Z.ones_spec_high by lia].
  - by rewrite (proj2 (Z.ltb_ge j 16)) by lia.
Qed.

(** The word of a mask that addresses the CPUs of [v]. *)
Definition targets (s : gst) (n : Z) : Prop :=
  exists v k, mask_read v k s /\
    forall m, 0 <= m -> 32 + m * 4 < n -> reg (hist s) (base + 0x800 + (32 + m * 4)) = Some (u32 (replicate_mask (smear v))).

Lemma dist_init_spec gic s :
  raw_dist_base gic = base -> 32 <= gic_irqs gic <= 1020 -> 0 <= base -> base + 0x1000 < 2 ^ 64 ->
  wp (gic_dist_init dev gic) s (fun _ s' =>
    frame base (base + 0x1000) s s' /\ reg (hist s') base = Some 1 /\ targets s' (gic_irqs gic) /\
    forall j, 0 <= j < gic_irqs gic -> enabled (hist s') j = (j <? 16)).
Proof.
  intros Eb Hn Hb Hb2. unfold gic_dist_init. rewrite Eb. set (n := gic_irqs gic) in *.
  wp_step. apply writel_spec. intros s1 E1 S1. rewrite u64_small in E1 by (unfold GIC_DIST_CTRL; lia).
  apply (write_frame _ _ base (base + 0x1000)) in E1 as F1; [|unfold GIC_DIST_CTRL; lia|done].
  wp_step. eapply wp_mono; [by apply get_cpumask_spec|]. intros m s2 (F2 & Q2 & v & k & Hv & ->).
  wp_step. eapply wp_mono.
  { apply (fill_loop 32 n 4 _ (fun i => base + GIC_DIST_TARGET + u32 (i * 4) / 4) (base + 0x800) (base + 0xc00)); try lia.
    intros i Hi. rewrite u32_small, Z.div_mul by lia. unfold GIC_DIST_TARGET. lia. }
  intros [] s3 (F3 & Q3 & T3). wp_step. eapply wp_mono.
  { apply (fill_loop 32 n 16 _ (fun i => base + GIC_DIST_CONFIG + i / 4) (base + 0xc00) (base + 0xd00)); try lia.
    intros i Hi. pose proof (Z.div_pos i 4). assert (i / 4 < 256) by (apply Z.div_lt_upper_bound; lia).
    unfold GIC_DIST_CONFIG. lia. }
  intros [] s4 (F4 & Q4 & _). wp_step. eapply wp_mono; [apply clear_loop; lia|].
  intros [] s5 (F5 & C5). wp_step. apply writel_spec. intros s6 E6 S6. apply writel_spec. intros s7 E7 S7.
  rewrite u64_small in E6, E7 by (unfold GIC_DIST_ENABLE_SET, GIC_DIST_CTRL; lia).
  unfold GIC_DIST_ENABLE_SET, GIC_DIST_CTRL in E6, E7. rewrite Z.add_0_r in E7.
  apply (write_frame _ _ (base + 0x100) (base + 0x200)) in E6 as F6; [|lia|done].
  apply (write_frame _ _ base (base + 0x100)) in E7 as F7; [|lia|done].
  split; [|split; [|split]].
  - do 6 (eapply frame_trans; [eapply frame_mono; [|eassumption]; lia|]).
    eapply frame_mono; [|eassumption]; lia.
  - by rewrite E7, reg_snoc, Z.eqb_refl.
  - exists v, k. split.
    + apply (mask_read_prefix v k s2); [|done].
      etrans; [by eapply frame_prefix|]. etrans; [by eapply frame_prefix|]. etrans; [by eapply frame_prefix|].
      etrans; by eapply frame_prefix.
    + intros i Hi Hin. specialize (T3 i Hi Hin). rewrite u32_small, Z.div_mul in T3 by lia. unfold GIC_DIST_TARGET in T3.
      rewrite (proj2 F7), (proj2 F6), (proj2 F5), (proj2 F4) by lia. done.
  - intros j Hj. rewrite E7, enabled_snoc, enable_step_other by lia. rewrite E6, enable_sgi by lia.
    rewrite C5 by lia. by rewrite orb_false_r.
Qed.

Lemma cpu_init_spec gic s cpu :
  raw_dist_base gic = base -> raw_cpu_base gic = cpu -> 0 <= base -> base + 0x1000 <= cpu -> cpu + 0x1000 < 2 ^ 64 ->
  wp (gic_cpu_init gic) s (fun _ s' =>
    same s s' /\ quiet s s' /\
    (forall r, ~ base + 0x400 <= r < base + 0x420 -> ~ cpu <= r < cpu + 0x1000 -> reg (hist s') r = reg (hist s) r) /\
    (forall m, 0 <= m < 8 -> reg (hist s') (base + 0x400 + 4 * m) = Some 0xa0a0a0a0) /\
    reg (hist s') (cpu + 4) = Some 0xf0 /\ reg (hist s') cpu = Some 1).
Proof.
  intros Eb Ec Hb Hc Hc2. unfold gic_cpu_init. rewrite Eb, Ec.
  wp_step. eapply wp_mono.
  { apply (fill_loop 0 32 4 _ (fun i => base + GIC_DIST_PRI + i * 4 / 4) (base + 0x400) (base + 0x420)); try lia.
    intros i Hi. rewrite Z.div_mul by lia. unfold GIC_DIST_PRI. lia. }
  intros [] s1 (F1 & Q1 & T1). wp_step. apply writel_spec. intros s2 E2 S2. apply writel_spec. intros s3 E3 S3.
  rewrite u64_small in E2, E3 by (unfold GIC_CPU_PRIMASK, GIC_CPU_CTRL; lia).
  unfold GIC_CPU_PRIMASK, GIC_CPU_CTRL in E2, E3. rewrite Z.add_0_r in E3.
  apply (write_frame _ _ cpu (cpu + 0x1000)) in E2 as F2; [|lia|done].
  apply (write_frame _ _ cpu (cpu + 4)) in E3 as F3; [|lia|done].
  split; [|split; [|split; [|split; [|split]]]].
  - eapply same_trans; [apply F1|]. by eapply same_trans.
  - eapply quiet_trans; [exact Q1|]. intros j Hj.
    rewrite E3, E2, !enabled_snoc, !enable_step_other by lia. done.
  - intros r Hr1 Hr2. rewrite (proj2 F3), (proj2 F2), (proj2 F1) by lia. done.
  - intros m Hm. rewrite (proj2 F3), (proj2 F2) by lia. specialize (T1 m). rewrite Z.div_mul in T1 by lia.
    unfold GIC_DIST_PRI in T1. replace (4 * m) with (0 + m * 4) by lia. rewrite T1 by lia. done.
  - rewrite (proj2 F3), E2, reg_snoc, Z.eqb_refl by lia. done.
  - by rewrite E3, reg_snoc, Z.eqb_refl.
Qed.

End Distributor.

(** ** Properties *)

Section Properties.
Context (dev : list access -> Z -> Z) (e0 : Z -> bool).

(** The controller as the driver leaves it. *)
Record ready (dist cpu irqs : Z) (s : gst) : Prop := Ready {
  ready_data : gic_data s = [GicChipData dist cpu irqs];
  ready_enabled : forall j, 0 <= j < irqs -> enabled e0 dist (hist s) j = (j <? 16);
  ready_targets : exists v k, mask_read dist v k s /\
    forall m, 0 <= m -> 32 + m * 4 < irqs -> exists t, reg (hist s) (dist + 0x800 + (32 + m * 4)) = Some t /\
      forall i, 0 <= i < 32 -> Z.testbit t i =
        Z.testbit v (i mod 8) || Z.testbit v (i mod 8 + 8) || Z.testbit v (i mod 8 + 16) || Z.testbit v (i mod 8 + 24);
  ready_priorities : forall m, 0 <= m < 8 -> reg (hist s) (dist + 0x400 + 4 * m) = Some 0xa0a0a0a0;
  ready_on : reg (hist s) dist = Some 1 /\ reg (hist s) (cpu + 4) = Some 0xf0 /\ reg (hist s) cpu = Some 1;
}.

Definition irqs_of (v : Z) : Z := Z.min 1020 ((v mod 32 + 1) * 32).

(** The message of [gic_init]. *)
Definition gic_message (dist cpu n : Z) : call :=
  ("%s: cpu_base:0x%0x, dist_base:0x%0x, gic_irqs:%d" +:+ nl, [VStr "gic_init"; VNum cpu; VNum dist; VNum n]).

Lemma gic_message_printable dist cpu n : Printk.printable (gic_message dist cpu n).
Proof.
  apply (Printk.printable_segs _ [Printk.Str "gic_init"; Printk.Text (Printk.bytes ": cpu_base:0x");
    Printk.Num true 0 Printk.Qint Printk.Kx cpu; Printk.Text (Printk.bytes ", dist_base:0x");
    Printk.Num true 0 Printk.Qint Printk.Kx dist; Printk.Text (Printk.bytes ", gic_irqs:");
    Printk.Num false 0 Printk.Qint Printk.Kd n; Printk.Text [10]] []);
    [reflexivity|by apply Printk.seg_okb_ok|by apply Nat.ltb_lt].
Qed.

(** A [printk] keeps the call and leaves the driver's data alone. *)
Definition says (pr : string -> list varg -> M gst unit) (c : call) : Prop :=
  forall s, wp (pr c.1 c.2) s (fun _ s' => gic_data s' = gic_data s /\ klog s' = klog s ++ [c]).

Lemma printk_says c : says printk c.
Proof. intros s. unfold printk. wp_step. by destruct c. Qed.

Lemma gic_init_run pr dist cpu s old :
  gic_data s = [old] -> 0 <= dist -> dist + 0x1000 <= cpu -> cpu + 0x1000 < 2 ^ 64 ->
  let n := irqs_of (u32 (dev (hist s) (dist + 4))) in says pr (gic_message dist cpu n) ->
  wp (gic_init_with dev pr 0 dist cpu) s (fun r s' => r = 0 /\
    ready dist cpu n s' /\ klog s' = klog s ++ [gic_message dist cpu n]).
Proof.
  intros Ed Hd Hdc Hc n Hpr. unfold gic_init_with. wp_steps. rewrite Ed. eapply wp_of_option; [reflexivity|]. wp_step.
  eapply wp_of_option; [reflexivity|]. wp_step. wp_step. wp_step. apply readl_spec. intros s1 E1 S1.
  cbn [hist set_gic_data] in E1 |- *. rewrite u64_small in E1 |- * by (unfold GIC_DIST_CTR; lia).
  unfold GIC_DIST_CTR in E1 |- *. set (v := u32 (dev (hist s) (dist + 4))) in *. wp_step.
  eapply wp_of_option; [reflexivity|]. wp_step. wp_step. wp_step.
  assert ((if 1020 <? (Z.land v 0x1f + 1) * 32 then 1020 else (Z.land v 0x1f + 1) * 32) = irqs_of v) as ->.
  { change 0x1f with (2 ^ 5 - 1). rewrite land_ones_mod by lia. unfold irqs_of. change (2 ^ 5) with 32.
    destruct (Z.ltb_spec 1020 ((v mod 32 + 1) * 32)); lia. }
  assert (32 <= irqs_of v <= 1020) as Hi.
  { unfold irqs_of. pose proof (Z.mod_pos_bound v 32). lia. }
  eapply wp_mono; [apply Hpr|]. cbn [gic_data klog set_gic_data]. intros [] s2 [G2 K2]. wp_step.
  eapply wp_mono; [apply (dist_init_spec e0 dist dev (GicChipData dist cpu (irqs_of v))); (done || lia)|].
  intros [] s3 (F3 & R3 & T3 & En3). wp_step.
  eapply wp_mono; [apply (cpu_init_spec e0 dist (GicChipData dist cpu (irqs_of v)) s3 cpu); (done || lia)|].
  intros [] s4 (S4 & Q4 & R4 & P4 & M4 & C4). wp_step. split; [done|].
  destruct F3 as [(A1 & A2 & A3 & A4 & A5 & A6) F3]. destruct S4 as (B1 & B2 & B3 & B4 & B5 & B6).
  destruct S1 as (D1 & D2 & D3 & D4 & D5 & D6).
  split; [|rewrite B5, A5, K2; by rewrite D5].
  split.
  - by rewrite B1, A1, G2.
  - intros j Hj. rewrite Q4 by lia. by apply En3.
  - destruct T3 as (w & k & Hw & T3). exists w, k. split; [by eapply mask_read_prefix|].
    intros m Hm Hlt. cbn [gic_irqs] in T3. exists (u32 (replicate_mask (smear w))). split; [rewrite R4 by lia; by apply T3|].
    intros i Hi'. unfold u32. rewrite Z.mod_pow2_bits_low by lia. apply replicate_bits; [apply Hw|done].
  - done.
  - split; [|done]. rewrite R4 by lia. done.
Qed.

(** C22: Bringing up the controller: [gic_init] returns 0 for chip 0 and then, whatever was
    enabled before, exactly the sixteen software interrupts are enabled among those the
    controller has, every shared interrupt is sent to the CPUs that the first
    non-zero target word names, the private interrupts have priority 0xa0, and the
    distributor and the CPU interface are on with the threshold 0xf0. Another chip
    number is outside [gic_data]. *)
Theorem gic_init_spec chip dist cpu s old :
  gic_data s = [old] -> 0 <= dist -> dist + 0x1000 <= cpu -> cpu + 0x1000 < 2 ^ 64 ->
  if chip =? 0
  then exists s', gic_init dev chip dist cpu s = Ret (0, s') /\
         ready dist cpu (irqs_of (u32 (dev (hist s) (dist + 4)))) s'
  else gic_init dev chip dist cpu s = Undef.
Proof.
  intros Ed Hd Hdc Hc. destruct (Z.eqb_spec chip 0) as [->|Hn].
  - destruct (wp_elim _ _ _ (gic_init_run printk dist cpu s old Ed Hd Hdc Hc (printk_says _))) as (r & s' & E & -> & H & _). eauto.
  - unfold gic_init, gic_init_with, mbind, M_bind, gets. rewrite Ed.
    assert (arr_get [old] chip = None) as ->; [|done]. unfold arr_get. destruct (decide (0 <= chip)); [|done].
    apply lookup_ge_None_2. simpl. lia.
Qed.

(** The set and clear registers are written at the word and bit of the interrupt. *)
Lemma gic_set_irq_run irq offset s c :
  gic_data s = [c] -> 0 <= raw_dist_base c -> raw_dist_base c + 0x1000 < 2 ^ 64 -> 0 <= irq < 1024 -> 0 <= offset < 0x800 ->
  wp (gic_set_irq irq offset) s (fun _ s' => same s s' /\
    hist s' = hist s ++ [Wr (raw_dist_base c + offset + irq / 32 * 4) (2 ^ (irq mod 32))]).
Proof.
  intros Ed Hb Hb2 Hi Ho. unfold gic_set_irq, gic_get_dist_base. wp_steps. rewrite Ed.
  eapply wp_of_option; [reflexivity|]. wp_step. apply writel_spec. intros s' E HS. split; [done|].
  rewrite E. pose proof (word_range irq Hi). pose proof (Z.mod_pos_bound irq 32).
  assert (0 < 2 ^ (irq mod 32) < 2 ^ 32) by (split; [apply Z.pow_pos_nonneg|apply Z.pow_lt_mono_r]; lia).
  rewrite Z.shiftl_1_l, !u64_small by lia. by rewrite !u32_small by (rewrite ?u32_small; lia).
Qed.

Lemma same_bit irq j :
  0 <= irq < 1024 -> 0 <= j < 1024 ->
  (irq / 32 * 4 =? j / 32 * 4) && Z.testbit (2 ^ (irq mod 32)) (j mod 32) = (j =? irq).
Proof.
  intros Hi Hj. pose proof (Z.mod_pos_bound irq 32). pose proof (Z.mod_pos_bound j 32).
  rewrite Z.pow2_bits_eqb by lia. pose proof (Z.div_mod irq 32). pose proof (Z.div_mod j 32).
  destruct (Z.eqb_spec j irq) as [->|Hne]; [by rewrite !Z.eqb_refl|].
  destruct (Z.eqb_spec (irq / 32 * 4) (j / 32 * 4)), (Z.eqb_spec (irq mod 32) (j mod 32)); try done. lia.
Qed.

Lemma enabled_set dist h irq j :
  0 <= irq < 1024 -> 0 <= j < 1024 ->
  enabled e0 dist (h ++ [Wr (dist + GIC_DIST_ENABLE_SET + irq / 32 * 4) (2 ^ (irq mod 32))]) j =
  (j =? irq) || enabled e0 dist h j.
Proof.
  intros Hi Hj. rewrite enabled_snoc, <-(same_bit irq j) by done. unfold enable_step, GIC_DIST_ENABLE_SET.
  pose proof (word_range irq Hi). pose proof (word_range j Hj).
  rewrite (proj2 (Z.eqb_neq _ (dist + 0x180 + _))) by lia.
  replace (dist + 256 + irq / 32 * 4 =? dist + 0x100 + j / 32 * 4) with (irq / 32 * 4 =? j / 32 * 4)
    by (destruct (Z.eqb_spec (irq / 32 * 4) (j / 32 * 4)), (Z.eqb_spec (dist + 256 + irq / 32 * 4) (dist + 0x100 + j / 32 * 4)); lia).
  by destruct (_ && _).
Qed.

Lemma enabled_clear dist h irq j :
  0 <= irq < 1024 -> 0 <= j < 1024 ->
  enabled e0 dist (h ++ [Wr (dist + GIC_DIST_ENABLE_CLEAR + irq / 32 * 4) (2 ^ (irq mod 32))]) j =
  negb (j =? irq) && enabled e0 dist h j.
Proof.
  intros Hi Hj. rewrite enabled_snoc, <-(same_bit irq j) by done. unfold enable_step, GIC_DIST_ENABLE_CLEAR.
  pose proof (word_range irq Hi). pose proof (word_range j Hj).
  rewrite (proj2 (Z.eqb_neq _ (dist + 0x100 + _))) by lia. cbn [andb].
  replace (dist + 384 + irq / 32 * 4 =? dist + 0x180 + j / 32 * 4) with (irq / 32 * 4 =? j / 32 * 4)
    by (destruct (Z.eqb_spec (irq / 32 * 4) (j / 32 * 4)), (Z.eqb_spec (dist + 384 + irq / 32 * 4) (dist + 0x180 + j / 32 * 4)); lia).
  by destruct (_ && _).
Qed.

(** Masking and unmasking one interrupt changes that interrupt and no other. *)
Theorem mask_unmask_spec irq s c :
  gic_data s = [c] -> 0 <= raw_dist_base c -> raw_dist_base c + 0x1000 < 2 ^ 64 -> 0 <= irq < 1024 ->
  wp (gicv2_unmask_irq irq) s (fun _ s' => same s s' /\ forall j, 0 <= j < 1024 ->
    enabled e0 (raw_dist_base c) (hist s') j = (j =? irq) || enabled e0 (raw_dist_base c) (hist s) j) /\
  wp (gicv2_mask_irq irq) s (fun _ s' => same s s' /\ forall j, 0 <= j < 1024 ->
    enabled e0 (raw_dist_base c) (hist s') j = negb (j =? irq) && enabled e0 (raw_dist_base c) (hist s) j).
Proof.
  intros Ed Hb Hb2 Hi. split; (eapply wp_mono; [by apply (gic_set_irq_run irq _ s c)|]); intros [] s' [HS E];
    (split; [done|]); intros j Hj; rewrite E; [by apply enabled_set|by apply enabled_clear].
Qed.

Lemma timer_init_run pr s old :
  gic_data s = [old] ->
  let c := gic_message GIC_V2_DISTRIBUTOR_BASE GIC_V2_CPU_INTERFACE_BASE
    (irqs_of (u32 (dev (hist s) (GIC_V2_DISTRIBUTOR_BASE + 4)))) in
  says pr c ->
  wp (gic_init_with dev pr 0 GIC_V2_DISTRIBUTOR_BASE GIC_V2_CPU_INTERFACE_BASE;; timer_init) s (fun _ s' =>
    cntp_ctl s' = 1 /\ cntp_tval s' = 62500000 /\
    reg (hist s') TIMER_CNTRL0 = Some 2 /\
    (forall j, 0 <= j < irqs_of (u32 (dev (hist s) (GIC_V2_DISTRIBUTOR_BASE + 4))) ->
      enabled e0 GIC_V2_DISTRIBUTOR_BASE (hist s') j = (j =? GENERIC_TIMER_IRQ) || (j <? 16)) /\
    klog s' = klog s ++ [c] /\
    gic_data s' = [GicChipData GIC_V2_DISTRIBUTOR_BASE GIC_V2_CPU_INTERFACE_BASE
      (irqs_of (u32 (dev (hist s) (GIC_V2_DISTRIBUTOR_BASE + 4))))]).
Proof.
  intros Ed c Hpr. subst c. set (dist := GIC_V2_DISTRIBUTOR_BASE) in *. wp_step.
  eapply wp_mono; [apply (gic_init_run pr dist _ s old); try done; by vm_compute|].
  intros r s1 (_ & Hr & K1). destruct Hr as [Hd He _ _ _]. unfold timer_init, generic_timer_init, generic_timer_reset.
  do 4 wp_step.
  eapply wp_bind, wp_mono; [eapply (gic_set_irq_run GENERIC_TIMER_IRQ); [exact Hd|by vm_compute..]|].
  intros [] s2 [(B1 & B2 & B3 & _ & B5 & _) E2]. unfold enable_timer_interrupt. apply writel_spec. intros s3 E3 (C1 & C2 & C3 & _ & C5 & _).
  split; [by rewrite C2, B2|]. split; [by rewrite C3, B3|]. split; [by rewrite E3, reg_snoc, Z.eqb_refl|].
  split; [|split; [by rewrite C5, B5|by rewrite C1, B1]].
  intros j Hj. assert (irqs_of (u32 (dev (hist s) (dist + 4))) <= 1020) by (unfold irqs_of; lia).
  rewrite E3, enabled_snoc, enable_step_other by (lia || (intros [Hx _]; by apply Hx)).
  rewrite E2, enabled_set by (unfold GENERIC_TIMER_IRQ; lia). cbn [hist raw_dist_base]. by rewrite (He j Hj).
Qed.

(** The boot sequence [gic_init], [timer_init] on the board: the timer runs with the
    period 62500000, and the only interrupts that reach the CPU are the sixteen software
    interrupts and the timer's, number 30. *)
Theorem timer_init_spec s old :
  gic_data s = [old] ->
  wp (gic_init dev 0 GIC_V2_DISTRIBUTOR_BASE GIC_V2_CPU_INTERFACE_BASE;; timer_init) s (fun _ s' =>
    cntp_ctl s' = 1 /\ cntp_tval s' = 62500000 /\
    reg (hist s') TIMER_CNTRL0 = Some 2 /\
    forall j, 0 <= j < irqs_of (u32 (dev (hist s) (GIC_V2_DISTRIBUTOR_BASE + 4))) ->
      enabled e0 GIC_V2_DISTRIBUTOR_BASE (hist s') j = (j =? GENERIC_TIMER_IRQ) || (j <? 16)).
Proof. intros Ed. eapply wp_mono; [eapply (timer_init_run printk), printk_says; exact Ed|]. intros [] s' (H1 & H2 & H3 & H4 & _). auto. Qed.

Definition timer_message (freq : Z) : call := ("Core0 timer interrupt, freq=%u" +:+ nl, [VNum freq]).

Lemma timer_message_printable f : Printk.printable (timer_message f).
Proof.
  apply (Printk.printable_segs _ [Printk.Text (Printk.bytes "Core0 timer interrupt, freq=");
    Printk.Num false 0 Printk.Qint Printk.Ku f; Printk.Text [10]] []);
    [reflexivity|by apply Printk.seg_okb_ok|by apply Nat.ltb_lt].
Qed.

(** The accesses [h] added to the history. *)
Definition accessed (h : list access) (s : gst) : gst := lset gst_hist (hist s ++ h) s.
Definition rearmed (s : gst) : gst := Gst (gic_data s) (cntp_ctl s) val (cntfrq s) (hist s) (klog s).

(** Taking an interrupt, with any [printk] for the message of the timer. *)
Lemma gic_handle_irq_with_run pr s c (Q : unit -> gst -> Prop) :
  gic_data s = [c] -> 0 <= raw_cpu_base c -> raw_cpu_base c + 0x1000 < 2 ^ 64 ->
  let stat := u32 (dev (hist s) (raw_cpu_base c + 0xc)) in
  let irq := stat mod 1024 in
  let s1 := accessed [Rd (raw_cpu_base c + 0xc) stat] s in
  let done_ := accessed [Wr (raw_cpu_base c + 0x10) irq] in
  (if decide (irq = 30) then
     let m := timer_message (cntfrq s) in
     wp (pr m.1 m.2) (rearmed s1) (fun _ s2 => gic_data s2 = [c] /\ Q tt (done_ s2))
   else Q tt (done_ s1)) ->
  wp (gic_handle_irq_with dev pr) s Q.
Proof.
  intros Ed Hb Hb2 stat irq s1 done_ H.
  unfold gic_handle_irq_with, gic_get_cpu_base. wp_steps. rewrite Ed. eapply wp_of_option; [reflexivity|]. wp_step. wp_step.
  unfold GIC_CPU_INTACK. rewrite u64_small by lia. apply (wp_intro _ _ stat s1); [reflexivity|].
  change GICC_IAR_INT_ID_MASK with (2 ^ 10 - 1). rewrite land_ones_mod by lia. change (stat mod 2 ^ 10) with irq.
  assert (0 <= irq < 1024) as Hi by (apply Z.mod_pos_bound; lia). change GENERIC_TIMER_IRQ with 30.
  assert (forall s2, gic_data s2 = [c] -> Q tt (done_ s2) -> wp (gicv2_eoi_irq irq) s2 Q) as Heoi.
  { intros s2 E2 HQ. unfold gicv2_eoi_irq, gic_get_cpu_base. wp_steps. rewrite E2.
    eapply wp_of_option; [reflexivity|]. wp_step. unfold GIC_CPU_EOI. rewrite u64_small by lia.
    eapply wp_intro; [|exact HQ]. unfold writel, zoom, Io.writel, modify. by rewrite u32_small by lia. }
  wp_step. destruct (Z.eqb_spec irq 30) as [E|E].
  - rewrite decide_True in H by done. unfold handle_timer_irq_with, generic_timer_reset. do 4 wp_step.
    eapply wp_mono; [exact H|]. intros [] s2 [E2 HQ]. by apply Heoi.
  - rewrite decide_False in H by done. wp_step. by apply Heoi.
Qed.

Lemma gic_handle_irq_run s c :
  gic_data s = [c] -> 0 <= raw_cpu_base c -> raw_cpu_base c + 0x1000 < 2 ^ 64 ->
  let stat := u32 (dev (hist s) (raw_cpu_base c + 0xc)) in
  let irq := stat mod 1024 in
  wp (gic_handle_irq dev) s (fun _ s' =>
    hist s' = hist s ++ [Rd (raw_cpu_base c + 0xc) stat; Wr (raw_cpu_base c + 0x10) irq] /\
    (irq <> 30 -> cntp_tval s' = cntp_tval s /\ klog s' = klog s) /\
    (irq = 30 -> cntp_tval s' = 62500000 /\ exists call, klog s' = klog s ++ [call] /\ Printk.printable call)).
Proof.
  intros Ed Hb Hb2 stat irq. apply (gic_handle_irq_with_run printk s c); [done..|]. fold stat. fold irq. case_decide as E.
  - unfold printk. wp_step. split; [exact Ed|]. cbn. rewrite <-app_assoc. split; [done|]. split; [done|]. intros _.
    split; [done|]. eexists. split; [done|]. apply timer_message_printable.
  - cbn. rewrite <-app_assoc. by split.
Qed.

(** Taking an interrupt: the acknowledge register is read once, the timer's interrupt re-arms
    the timer and prints a message that is defined and fits the
    print buffer, any other changes nothing,
    and the end of the interrupt is signalled with the number acknowledged. *)
Theorem gic_handle_irq_spec s c :
  gic_data s = [c] -> 0 <= raw_cpu_base c -> raw_cpu_base c + 0x1000 < 2 ^ 64 ->
  let stat := u32 (dev (hist s) (raw_cpu_base c + 0xc)) in
  let irq := stat mod 1024 in
  exists s', gic_handle_irq dev s = Ret (tt, s') /\
    hist s' = hist s ++ [Rd (raw_cpu_base c + 0xc) stat; Wr (raw_cpu_base c + 0x10) irq] /\
    (irq <> 30 -> cntp_tval s' = cntp_tval s /\ klog s' = klog s) /\
    (irq = 30 -> cntp_tval s' = 62500000 /\ exists call, klog s' = klog s ++ [call] /\ Printk.printable call).
Proof. intros Ed Hb Hb2 stat irq. apply wp_elim_unit. by apply gic_handle_irq_run. Qed.

End Properties.

(** ** Witnesses *)

(** A controller with 256 interrupts whose first target word names CPU 0, and the timer's
    interrupt pending. *)
Definition test_gic (h : list access) (r : Z) : Z :=
  if r =? GIC_V2_DISTRIBUTOR_BASE + 4 then 0xfc67
  else if r =? GIC_V2_DISTRIBUTOR_BASE + 0x800 then 0x01010101
  else if r =? GIC_V2_CPU_INTERFACE_BASE + 0xc then 30 else 0.

Definition test_state : gst := Gst [GicChipData 0 0 0] 0 0 54000000 [] [].
Definition test_ready : gst :=
  Gst [GicChipData GIC_V2_DISTRIBUTOR_BASE GIC_V2_CPU_INTERFACE_BASE 256] 0 0 54000000 [] [].

Lemma gic_init_spec_witness :
  exists s', gic_init test_gic 0 GIC_V2_DISTRIBUTOR_BASE GIC_V2_CPU_INTERFACE_BASE test_state = Ret (0, s') /\
    ready (fun _ => true) GIC_V2_DISTRIBUTOR_BASE GIC_V2_CPU_INTERFACE_BASE 256 s'.
Proof.
  exact (gic_init_spec test_gic (fun _ => true) 0 GIC_V2_DISTRIBUTOR_BASE GIC_V2_CPU_INTERFACE_BASE
    test_state (GicChipData 0 0 0) eq_refl ltac:(by vm_compute) ltac:(by vm_compute) ltac:(by vm_compute)).
Defined.

Lemma mask_unmask_spec_witness :
  wp (gicv2_unmask_irq 97) test_ready (fun _ s' => same test_ready s' /\ forall j, 0 <= j < 1024 ->
    enabled (fun _ => false) GIC_V2_DISTRIBUTOR_BASE (hist s') j = (j =? 97) || false).
Proof.
  exact (proj1 (mask_unmask_spec (fun _ => false) 97 test_ready
    (GicChipData GIC_V2_DISTRIBUTOR_BASE GIC_V2_CPU_INTERFACE_BASE 256) eq_refl
    ltac:(by vm_compute) ltac:(by vm_compute) ltac:(by vm_compute))).
Defined.

Lemma timer_init_spec_witness :
  wp (gic_init test_gic 0 GIC_V2_DISTRIBUTOR_BASE GIC_V2_CPU_INTERFACE_BASE;; timer_init) test_state (fun _ s' =>
    cntp_ctl s' = 1 /\ cntp_tval s' = 62500000 /\ reg (hist s') TIMER_CNTRL0 = Some 2 /\
    forall j, 0 <= j < 256 ->
      enabled (fun _ => true) GIC_V2_DISTRIBUTOR_BASE (hist s') j = (j =? GENERIC_TIMER_IRQ) || (j <? 16)).
Proof. exact (timer_init_spec test_gic (fun _ => true) test_state (GicChipData 0 0 0) eq_refl). Defined.

Lemma gic_handle_irq_spec_witness :
  exists s', gic_handle_irq test_gic test_ready = Ret (tt, s') /\ cntp_tval s' = 62500000.
Proof.
  destruct (gic_handle_irq_spec test_gic test_ready
    (GicChipData GIC_V2_DISTRIBUTOR_BASE GIC_V2_CPU_INTERFACE_BASE 256) eq_refl
    ltac:(by vm_compute) ltac:(by vm_compute)) as (s' & E & _ & _ & H).
  exists s'. split; [exact E|]. exact (proj1 (H eq_refl)).
Defined.

End Gic.
