(* ===== verification/CoreTimer.v ===== *)
(** * The timer driver that is not built

    [arch/arm64/core/timer.c], which no Makefile names: a copy of [mach-rpi4/timer.c], which is modelled in [Gic].
    Should it be built in place of the other, nothing changes. *)

From S2P Require Import Prelude Base Uart Gic.

Module CoreTimer.

Definition HZ : Z := 250.
Definition NSEC_PER_SEC : Z := 1000000000.
Definition val : Z := 62500000.

Definition generic_timer_init : M Gic.gst unit :=
  modify (fun s => Gic.Gst (Gic.gic_data s) 1 (Gic.cntp_tval s) (Gic.cntfrq s) (Gic.hist s) (Gic.klog s)).

Definition generic_timer_reset (val : Z) : M Gic.gst unit :=
  modify (fun s => Gic.Gst (Gic.gic_data s) (Gic.cntp_ctl s) val (Gic.cntfrq s) (Gic.hist s) (Gic.klog s)).

Definition enable_timer_interrupt : M Gic.gst unit := Gic.writel Gic.CNT_PNS_IRQ Gic.TIMER_CNTRL0.

Definition timer_init : M Gic.gst unit :=
  generic_timer_init;;
  generic_timer_reset val;;
  Gic.gicv2_unmask_irq Gic.GENERIC_TIMER_IRQ;;
  enable_timer_interrupt.

Definition handle_timer_irq : M Gic.gst unit :=
  generic_timer_reset val;;
  freq ← gets Gic.cntfrq;
  Gic.printk ("Core0 timer interrupt, freq=%u" +:+ nl) [VNum freq].

(** The two drivers do the same, and the value loaded is not the period that the commented line computes. *)
Lemma same_driver :
  timer_init = Gic.timer_init /\ handle_timer_irq = Gic.handle_timer_irq /\ val <> NSEC_PER_SEC / HZ.
Proof. done. Qed.

End CoreTimer.
