(* ===== verification/Devices.v ===== *)
(** * Device registers

    The rest of the register maps of [include/yios/arm-gic.h], [include/asm/arm_local_reg.h] and
    [include/asm/irq.h], and where the drivers reach: whatever the devices answer, every access of the
    serial port, the interrupt controller and the timer is an aligned word of the device window that
    [create_mmio_mapping] maps. *)

From S2P Require Import Prelude Base Fields Printk Uart Gic.

Module Devices.

(** ** arm-gic.h, beyond what the driver uses *)

Definition GIC_CPU_BINPOINT : Z := 0x08.
Definition GIC_CPU_RUNNINGPRI : Z := 0x14.
Definition GIC_CPU_HIGHPRI : Z := 0x18.
Definition GIC_CPU_ALIAS_BINPOINT : Z := 0x1c.
Definition GIC_CPU_ACTIVEPRIO : Z := 0xd0.
Definition GIC_CPU_IDENT : Z := 0xfc.
Definition GICC_INT_SPURIOUS : Z := 1023.
Definition GICC_DIS_BYPASS_MASK : Z := 0x1e0.
Definition GIC_DIST_IGROUP : Z := 0x080.
Definition GIC_DIST_PENDING_SET : Z := 0x200.
Definition GIC_DIST_PENDING_CLEAR : Z := 0x280.
Definition GIC_DIST_ACTIVE_SET : Z := 0x300.
Definition GIC_DIST_SOFTINT : Z := 0xf00.
Definition GIC_DIST_SGI_PENDING_CLEAR : Z := 0xf10.
Definition GIC_DIST_SGI_PENDING_SET : Z := 0xf20.
Definition GICD_INT_EN_CLR_PPI : Z := 0xffff0000.
Definition GICD_INT_DEF_PRI : Z := 0xa0.
(** In C an [int]: the shift by 24 does not fit, and wraps. *)
Definition GICD_INT_DEF_PRI_X4 : Z :=
  Z.lor (Z.lor (Z.lor (s32 (Z.shiftl GICD_INT_DEF_PRI 24)) (Z.shiftl GICD_INT_DEF_PRI 16)) (Z.shiftl GICD_INT_DEF_PRI 8))
    GICD_INT_DEF_PRI.
Definition GICH_HCR : Z := 0x0.
Definition GICH_VTR : Z := 0x4.
Definition GICH_VMCR : Z := 0x8.
Definition GICH_MISR : Z := 0x10.
Definition GICH_EISR0 : Z := 0x20.
Definition GICH_EISR1 : Z := 0x24.
Definition GICH_ELRSR0 : Z := 0x30.
Definition GICH_ELRSR1 : Z := 0x34.
Definition GICH_APR : Z := 0xf0.
Definition GICH_LR0 : Z := 0x100.
Definition GICH_HCR_EN : Z := Z.shiftl 1 0.
Definition GICH_HCR_UIE : Z := Z.shiftl 1 1.
Definition GICH_LR_VIRTUALID : Z := Z.shiftl 0x3ff 0.
Definition GICH_LR_PHYSID_CPUID_SHIFT : Z := 10.
Definition GICH_LR_PHYSID_CPUID : Z := Z.shiftl 7 GICH_LR_PHYSID_CPUID_SHIFT.
Definition GICH_LR_STATE : Z := Z.shiftl 3 28.
Definition GICH_LR_PENDING_BIT : Z := Z.shiftl 1 28.
Definition GICH_LR_ACTIVE_BIT : Z := Z.shiftl 1 29.
Definition GICH_LR_EOI : Z := Z.shiftl 1 19.
Definition GICH_VMCR_CTRL_SHIFT : Z := 0.
Definition GICH_VMCR_CTRL_MASK : Z := Z.shiftl 0x21f GICH_VMCR_CTRL_SHIFT.
Definition GICH_VMCR_PRIMASK_SHIFT : Z := 27.
(** An [int], which wraps. *)
Definition GICH_VMCR_PRIMASK_MASK : Z := s32 (Z.shiftl 0x1f GICH_VMCR_PRIMASK_SHIFT).
Definition GICH_VMCR_BINPOINT_SHIFT : Z := 21.
Definition GICH_VMCR_BINPOINT_MASK : Z := Z.shiftl 0x7 GICH_VMCR_BINPOINT_SHIFT.
Definition GICH_VMCR_ALIAS_BINPOINT_SHIFT : Z := 18.
Definition GICH_VMCR_ALIAS_BINPOINT_MASK : Z := Z.shiftl 0x7 GICH_VMCR_ALIAS_BINPOINT_SHIFT.
Definition GICH_MISR_EOI : Z := Z.shiftl 1 0.
Definition GICH_MISR_U : Z := Z.shiftl 1 1.

(** ** arm_local_reg.h *)

Definition ARM_CONTROL : Z := ARM_LOCAL_BASE + 0x0.
Definition CORE_IRQ_CONTROL : Z := ARM_LOCAL_BASE + 0xc.
Definition PMU_CONTROL_SET : Z := ARM_LOCAL_BASE + 0x10.
Definition PMU_CONTROL_CLR : Z := ARM_LOCAL_BASE + 0x14.
Definition PERI_IRQ_ROUTE0 : Z := ARM_LOCAL_BASE + 0x24.
Definition AXI_QUIET_TIME : Z := ARM_LOCAL_BASE + 0x30.
Definition LOCAL_TIMER_CONTROL : Z := ARM_LOCAL_BASE + 0x34.
Definition LOCAL_TIMER_IRQ : Z := ARM_LOCAL_BASE + 0x38.
Definition TIMER_CNTRL1 : Z := ARM_LOCAL_BASE + 0x44.
Definition TIMER_CNTRL2 : Z := ARM_LOCAL_BASE + 0x48.
Definition TIMER_CNTRL3 : Z := ARM_LOCAL_BASE + 0x4c.
Definition CNT_PS_IRQ : Z := Z.shiftl 1 0.
Definition CNT_HP_IRQ : Z := Z.shiftl 1 2.
Definition CNT_V_IRQ : Z := Z.shiftl 1 3.
Definition CNT_PS_IRQ_FIQ : Z := Z.shiftl 1 4.
Definition CNT_PNS_IRQ_FIQ : Z := Z.shiftl 1 5.
Definition CNT_HP_IRQ_FIQ : Z := Z.shiftl 1 6.
Definition CNT_V_IRQ_FIQ : Z := Z.shiftl 1 7.
Definition ARM_LOCAL_IRQ_SOURCE0 : Z := ARM_LOCAL_BASE + 0x60.
Definition ARM_LOCAL_IRQ_SOURCE1 : Z := ARM_LOCAL_BASE + 0x64.
Definition ARM_LOCAL_IRQ_SOURCE2 : Z := ARM_LOCAL_BASE + 0x68.
Definition ARM_LOCAL_IRQ_SOURCE3 : Z := ARM_LOCAL_BASE + 0x6c.
Definition MAILBOX_IRQ_SHIFT : Z := 4.
Definition CORE_IRQ : Z := Z.shiftl 1 8.
Definition PMU_IRQ : Z := Z.shiftl 1 9.
Definition AXI_QUIET : Z := Z.shiftl 1 10.
Definition TIMER_IRQ : Z := Z.shiftl 1 11.
Definition AXI_IRQ : Z := Z.shiftl 1 30.
Definition ARM_LOCAL_FRQ_SOURCE0 : Z := ARM_LOCAL_BASE + 0x70.
Definition ARM_LOCAL_FRQ_SOURCE1 : Z := ARM_LOCAL_BASE + 0x74.
Definition ARM_LOCAL_FRQ_SOURCE2 : Z := ARM_LOCAL_BASE + 0x78.
Definition ARM_LOCAL_FRQ_SOURCE3 : Z := ARM_LOCAL_BASE + 0x7c.

(** ** irq.h and gpio.h; [CORE0_INT_CTR] and [CORE0_INT_SOURCE] name a base that is not defined *)

Definition IRQ_BASIC_PENDING : Z := PBASE + 0x0000B200.
Definition IRQ_PENDING_1 : Z := PBASE + 0x0000B204.
Definition IRQ_PENDING_2 : Z := PBASE + 0x0000B208.
Definition FIQ_CONTROL : Z := PBASE + 0x0000B20C.
Definition ENABLE_IRQS_1 : Z := PBASE + 0x0000B210.
Definition ENABLE_IRQS_2 : Z := PBASE + 0x0000B214.
Definition ENABLE_BASIC_IRQS : Z := PBASE + 0x0000B218.
Definition DISABLE_IRQS_1 : Z := PBASE + 0x0000B21C.
Definition DISABLE_IRQS_2 : Z := PBASE + 0x0000B220.
Definition DISABLE_BASIC_IRQS : Z := PBASE + 0x0000B224.
Definition SYSTEM_TIMER_IRQ_0 : Z := Z.shiftl 1 0.
Definition SYSTEM_TIMER_IRQ_1 : Z := Z.shiftl 1 1.
Definition SYSTEM_TIMER_IRQ_2 : Z := Z.shiftl 1 2.
Definition SYSTEM_TIMER_IRQ_3 : Z := Z.shiftl 1 3.
Definition ARM_TIMER_IRQ : Z := Z.shiftl 1 0.
Definition LOCAL_TIMER_INT : Z := Z.shiftl 1 11.
Definition CNTPNSIRQ_Int : Z := Z.shiftl 1 1.
Definition GPSET0 : Z := PBASE + 0x0020001C.
Definition GPCLR0 : Z := PBASE + 0x00200028.
Definition GPPUD : Z := PBASE + 0x00200094.
Definition GPPUDCLK0 : Z := PBASE + 0x00200098.

(** ** Partial correctness *)

(** If [m] returns from a state of [P], the result and state satisfy [Q]. What the devices
    answer may make a run end early or not at all; the accesses it made are what counts. *)
Definition triple {S A} (P : S -> Prop) (m : M S A) (Q : A -> S -> Prop) : Prop :=
  forall s, P s -> match m s with Ret (a, s') => Q a s' | _ => True end.

(** [m] keeps [P]. *)
Definition keeps {S A} (P : S -> Prop) (m : M S A) : Prop := triple P m (fun _ => P).

Section Triple.
Context {S : Type}.

Lemma triple_bind {A B} (P : S -> Prop) (m : M S A) (f : A -> M S B) (R : A -> S -> Prop) (Q : B -> S -> Prop) :
  triple P m R -> (forall a, triple (R a) (f a) Q) -> triple P (m ≫= f) Q.
Proof.
  intros Hm Hf s Hs. specialize (Hm s Hs). unfold mbind, M_bind. destruct (m s) as [[a s']| |]; [|done|done].
  by apply (Hf a).
Qed.

Lemma triple_conseq {A} (P P' : S -> Prop) (m : M S A) (Q Q' : A -> S -> Prop) :
  triple P m Q -> (forall s, P' s -> P s) -> (forall a s, Q a s -> Q' a s) -> triple P' m Q'.
Proof. intros H HP HQ s Hs. specialize (H s (HP s Hs)). destruct (m s) as [[a s']| |]; auto. Qed.

Lemma triple_use {A} (P : S -> Prop) (m : M S A) (Q : A -> S -> Prop) s a s' :
  triple P m Q -> P s -> m s = Ret (a, s') -> Q a s'.
Proof. intros H Hs E. specialize (H s Hs). by rewrite E in H. Qed.

Lemma keeps_use {A} (P : S -> Prop) (m : M S A) s a s' : keeps P m -> P s -> m s = Ret (a, s') -> P s'.
Proof. apply triple_use. Qed.

(** A run that is known to return also satisfies its triples. *)
Lemma wp_triple {A} (P : S -> Prop) (m : M S A) (R : A -> S -> Prop) s Q :
  triple P m R -> P s -> wp m s Q -> wp m s (fun a s' => Q a s' /\ R a s').
Proof. intros H Hs. specialize (H s Hs). unfold wp. by destruct (m s) as [[a s']| |]. Qed.

Context (P : S -> Prop).

Lemma keeps_ret {A} (a : A) : keeps P (mret a).
Proof. by intros s Hs. Qed.
Lemma keeps_bind {A B} (m : M S A) (f : A -> M S B) : keeps P m -> (forall a, keeps P (f a)) -> keeps P (m ≫= f).
Proof. intros Hm Hf. by eapply triple_bind. Qed.
Lemma keeps_gets {A} (f : S -> A) : keeps P (gets f).
Proof. by intros s Hs. Qed.
Lemma keeps_modify (f : S -> S) : (forall s, P s -> P (f s)) -> keeps P (modify f).
Proof. intros H s Hs. by apply H. Qed.
Lemma keeps_of_option {A} (o : option A) : keeps P (of_option o).
Proof. intros s Hs. by destruct o. Qed.
Lemma keeps_undef {A} : keeps (A := A) P undef.
Proof. done. Qed.
Lemma keeps_loop {A B} (I : A -> Prop) (body : A -> M S (A + B)) :
  (forall a, I a -> triple P (body a) (fun r s => P s /\ match r with inl a' => I a' | inr _ => True end)) ->
  forall fuel a, I a -> keeps P (loop fuel body a).
Proof.
  intros Hb. induction fuel as [|fuel IH]; intros a Ha s Hs; [done|]. rewrite loop_unfold. revert s Hs.
  eapply triple_bind; [by apply Hb|]. intros [a'|b] s [Hs Hi]; [by apply IH|done].
Qed.
Lemma keeps_loop_any {A B} (body : A -> M S (A + B)) :
  (forall a, keeps P (body a)) -> forall fuel a, keeps P (loop fuel body a).
Proof.
  intros Hb fuel a. apply (keeps_loop (fun _ => True)); [|done]. intros a' _.
  eapply triple_conseq; [apply Hb|done|]. intros [|] s Hs; done.
Qed.
Lemma keeps_zoom {T A} (l : lens S T) (R : T -> Prop) (m : M T A) :
  (forall s, P s -> R (lget l s)) -> (forall s t, P s -> R t -> P (lset l t s)) -> keeps R m -> keeps P (zoom l m).
Proof.
  intros H1 H2 Hm s Hs. unfold zoom. specialize (Hm _ (H1 s Hs)). destruct (m (lget l s)) as [[a t]| |]; [|done|done].
  by apply H2.
Qed.
End Triple.

Create HintDb keeps.
#[export] Hint Resolve keeps_ret keeps_gets keeps_of_option keeps_undef : keeps.
#[export] Hint Extern 2 (keeps _ (_ ≫= _)) => eapply keeps_bind : keeps.
#[export] Hint Extern 2 (keeps _ (if ?b then _ else _)) => destruct b : keeps.
#[export] Hint Extern 2 (keeps _ (match ?x with _ => _ end)) => destruct x : keeps.

(** ** The device window *)

Definition access_reg (a : access) : Z := match a with Rd r _ | Wr r _ => r end.
Definition device_word (r : Z) : bool := (r mod 4 =? 0) && (PBASE <=? r) && (r <? PBASE + DEVICE_SIZE).
Definition in_window (h : list access) : Prop := Forall (fun a => device_word (access_reg a) = true) h.

Lemma in_window_snoc h a : device_word (access_reg a) = true -> in_window h -> in_window (h ++ [a]).
Proof. intros Ha Hh. apply Forall_app. split; [done|]. by apply Forall_singleton. Qed.

Lemma device_wordI r : r mod 4 = 0 -> PBASE <= r < PBASE + DEVICE_SIZE -> device_word r = true.
Proof. intros H1 H2. unfold device_word. rewrite H1, Z.eqb_refl, (proj2 (Z.leb_le _ _)), (proj2 (Z.ltb_lt _ _)) by lia. done. Qed.

Section Access.
Context (dev : list access -> Z -> Z).

(** A property of the accesses so far that the serial port keeps when it sends and receives. *)
Class Heard (P : list access -> Prop) : Prop :=
  heard : forall h a, access_reg a = Uart.U_FR_REG \/ access_reg a = Uart.U_DATA_REG -> P h -> P (h ++ [a]).

#[global] Instance true_heard : Heard (fun _ => True).
Proof. done. Qed.

#[global] Instance in_window_heard : Heard in_window.
Proof. intros h a Ha Hh. apply in_window_snoc; [|done]. by destruct Ha as [-> | ->]. Qed.

(** ** The serial port *)

Section Port.
Context (patience : nat) (P : list access -> Prop) {HP : Heard P}.

Lemma read_fr_keeps : keeps P (Io.readl dev Uart.U_FR_REG).
Proof. intros h Hh. apply heard; [by left|done]. Qed.
Lemma read_data_keeps : keeps P (Io.readl dev Uart.U_DATA_REG).
Proof. intros h Hh. apply heard; [by right|done]. Qed.
Lemma write_data_keeps v : keeps P (Io.writel v Uart.U_DATA_REG).
Proof. intros h Hh. apply heard; [by right|done]. Qed.
#[local] Hint Resolve read_fr_keeps read_data_keeps write_data_keeps : keeps.

Lemma poll_keeps n : keeps P (Uart.poll dev patience n).
Proof. apply keeps_loop_any. intros a. unfold Uart.poll_body. auto with keeps. Qed.
#[local] Hint Resolve poll_keeps : keeps.

Lemma uart_send_keeps c : keeps P (Uart.uart_send dev patience c).
Proof. unfold Uart.uart_send. auto with keeps. Qed.
#[local] Hint Resolve uart_send_keeps : keeps.

Lemma uart_recv_keeps : keeps P (Uart.uart_recv dev patience).
Proof. unfold Uart.uart_recv. auto with keeps. Qed.

Lemma putchar_keeps c : keeps P (Uart.putchar dev patience c).
Proof. unfold Uart.putchar. auto with keeps. Qed.
#[local] Hint Resolve putchar_keeps : keeps.

Lemma printk_keeps fmt a : keeps P (Printk.printk (Uart.putchar dev patience) fmt a).
Proof.
  unfold Printk.printk. apply keeps_bind; [auto with keeps|]. intros text. destruct (_ <? _); [|auto with keeps].
  apply keeps_bind; [|auto with keeps]. apply keeps_loop_any. intros i. unfold Printk.printk_body. auto 8 with keeps.
Qed.
End Port.

(** What the interrupt controller has enabled, say. *)
#[global] Instance enabled_heard e0 (f : Z -> bool) :
  Heard (fun h => forall j, 0 <= j < 32 -> Gic.enabled e0 GIC_V2_DISTRIBUTOR_BASE h j = f j).
Proof.
  intros h a Ha Hh j Hj. rewrite Gic.enabled_snoc, Hh by done. destruct a as [r v|r v]; [done|]. cbn [access_reg] in Ha.
  apply Gic.enable_step_other; [lia|]. destruct Ha as [-> | ->]; intros [Hx _]; by apply Hx.
Qed.

(** A word of the window other than the data register of the port. *)
Definition quiet_word (r : Z) : bool := device_word r && negb (r =? Uart.U_DATA_REG).

(** A property of the accesses so far that holds on when such words are accessed. *)
Class Unheard (P : list access -> Prop) : Prop :=
  unheard : forall h a, quiet_word (access_reg a) = true -> P h -> P (h ++ [a]).

#[global] Instance in_window_unheard : Unheard in_window.
Proof. intros h a Ha Hh. apply in_window_snoc; [|done]. by apply andb_prop in Ha as [? _]. Qed.

(** What was sent so far, each character after a poll that saw room for it. *)
Definition serial (text : list Z) (h : list access) : Prop := in_window h /\ Uart.sends_ok h /\ Uart.sent h = text.

#[global] Instance serial_unheard text : Unheard (serial text).
Proof.
  intros h a Ha (Hw & Hs & Ht). split; [by apply unheard|]. apply andb_prop in Ha as [_ Ha%negb_true_iff%Z.eqb_neq].
  split; [by apply Uart.sends_ok_other|]. by rewrite Uart.sent_app, Uart.sent_other, app_nil_r.
Qed.

Section Quiet.
Context (P : list access -> Prop) `{!Unheard P}.

Lemma readl_unheard r : quiet_word r = true -> keeps P (Io.readl dev r).
Proof. intros Hr h Hh. by apply unheard. Qed.
Lemma writel_unheard v r : quiet_word r = true -> keeps P (Io.writel v r).
Proof. intros Hr h Hh. by apply unheard. Qed.
#[local] Hint Resolve readl_unheard writel_unheard : keeps.
#[local] Hint Extern 1 (quiet_word _ = true) => reflexivity : keeps.

Lemma uart_init_keeps : keeps P (Uart.uart_init dev).
Proof. unfold Uart.uart_init. auto 30 with keeps. Qed.

(** ** The interrupt controller and the timer *)

(** [P] holds of the accesses so far, and the driver's data is [d]. *)
Definition gwindow (d : list Gic.gic_chip_data) (g : Gic.gst) : Prop := P (Gic.hist g) /\ Gic.gic_data g = d.

Lemma gic_readl_keeps d r : quiet_word r = true -> keeps (gwindow d) (Gic.readl dev r).
Proof. intros Hr. apply (keeps_zoom _ _ P); [by intros g [H _]|by intros g h [_ H]|]. by apply readl_unheard. Qed.
Lemma gic_writel_keeps d v r : quiet_word r = true -> keeps (gwindow d) (Gic.writel v r).
Proof. intros Hr. apply (keeps_zoom _ _ P); [by intros g [H _]|by intros g h [_ H]|]. by apply writel_unheard. Qed.

Lemma for_keeps {S} (R : S -> Prop) start n step (f : Z -> M S unit) :
  0 <= start -> 0 < step -> n + step < 2 ^ 32 ->
  (forall i, start <= i < n -> (i - start) mod step = 0 -> keeps R (f i)) -> keeps R (Gic.for_u32 start n step f).
Proof.
  intros Hs Hst Hn Hf. apply (keeps_loop _ (fun i => start <= i /\ (i - start) mod step = 0)).
  - intros i [Hi Hm]. unfold Gic.for_body. destruct (Z.ltb_spec i n); [|by intros s H'].
    eapply triple_bind; [by apply Hf|]. intros [] s0 H0. split; [done|]. rewrite u32_small by lia. split; [lia|].
    replace (i + step - start) with (i - start + 1 * step) by lia. by rewrite Z.mod_add by lia.
  - split; [lia|]. by rewrite Z.sub_diag, Z.mod_0_l by lia.
Qed.

(** A register at a small offset from one of the two bases. *)
Lemma quiet_wordI r : r mod 4 = 0 -> Uart.U_DATA_REG < r < PBASE + DEVICE_SIZE -> quiet_word r = true.
Proof.
  intros H1 H2. change Uart.U_DATA_REG with 0xfe201000 in H2. unfold quiet_word.
  rewrite device_wordI by (unfold PBASE in *; lia). change Uart.U_DATA_REG with 0xfe201000.
  by rewrite (proj2 (Z.eqb_neq _ _)) by lia.
Qed.
Lemma dist_word off : 0 <= off < 0x1000 -> off mod 4 = 0 -> quiet_word (u64 (GIC_V2_DISTRIBUTOR_BASE + off)) = true.
Proof.
  intros H1 H2. change GIC_V2_DISTRIBUTOR_BASE with 0xff841000. rewrite u64_small by lia.
  apply quiet_wordI; [|change Uart.U_DATA_REG with 0xfe201000; unfold PBASE, DEVICE_SIZE; lia].
  rewrite <-Zplus_mod_idemp_l, Z.add_0_l. done.
Qed.
Lemma cpu_word off : 0 <= off < 0x1000 -> off mod 4 = 0 -> quiet_word (u64 (GIC_V2_CPU_INTERFACE_BASE + off)) = true.
Proof.
  intros H1 H2. change GIC_V2_CPU_INTERFACE_BASE with 0xff842000. rewrite u64_small by lia.
  apply quiet_wordI; [|change Uart.U_DATA_REG with 0xfe201000; unfold PBASE, DEVICE_SIZE; lia].
  rewrite <-Zplus_mod_idemp_l, Z.add_0_l. done.
Qed.

Lemma get_cpumask_keeps d gic :
  Gic.raw_dist_base gic = GIC_V2_DISTRIBUTOR_BASE -> keeps (gwindow d) (Gic.gic_get_cpumask dev gic).
Proof.
  intros Eb. unfold Gic.gic_get_cpumask. rewrite Eb.
  apply (keeps_loop _ (fun im : Z * Z => 0 <= im.1 /\ im.1 mod 4 = 0)); [|done]. intros [i m] [Hi Hm]. cbn [fst] in *.
  unfold Gic.get_cpumask_body. destruct (Z.ltb_spec i 32); [|by intros s Hs].
  eapply triple_bind; [apply gic_readl_keeps|].
  - unfold Gic.GIC_DIST_TARGET. rewrite <-Z.add_assoc. apply dist_word; [lia|]. rewrite <-Zplus_mod_idemp_l. done.
  - intros v s Hs. cbn [mret M_ret]. split; [done|]. destruct (negb _); [done|]. cbn [fst]. split; [lia|].
    rewrite <-Zplus_mod_idemp_l, Hm. done.
Qed.

(** [i / k] is a multiple of 4 when [i] is one of [4 * k]. *)
Lemma div_word i k : 0 < k -> i mod (4 * k) = 0 -> (i / k) mod 4 = 0.
Proof.
  intros Hk Hi. rewrite (Z.div_mod i (4 * k)), Hi, Z.add_0_r by lia.
  replace (4 * k * (i / (4 * k))) with ((4 * (i / (4 * k))) * k) by ring. rewrite Z.div_mul by lia.
  by rewrite Z.mul_comm, Z.mod_mul.
Qed.

Lemma gic_dist_init_keeps d gic :
  Gic.raw_dist_base gic = GIC_V2_DISTRIBUTOR_BASE -> 0 <= Gic.gic_irqs gic <= 1020 -> keeps (gwindow d) (Gic.gic_dist_init dev gic).
Proof.
  intros Eb Hn. unfold Gic.gic_dist_init. rewrite Eb.
  apply keeps_bind; [by apply gic_writel_keeps|intros _]. apply keeps_bind; [by apply get_cpumask_keeps|intros mask].
  apply keeps_bind; [apply for_keeps; [lia..|]|intros _].
  { intros i Hi Hm. apply gic_writel_keeps. rewrite u32_small, Z.div_mul by lia. unfold Gic.GIC_DIST_TARGET. rewrite <-Z.add_assoc.
    apply dist_word; [lia|]. replace (0x800 + i) with (i - 32 + 520 * 4) by lia. by rewrite Z.mod_add by lia. }
  apply keeps_bind; [apply for_keeps; [lia..|]|intros _].
  { intros i Hi Hm. apply gic_writel_keeps. unfold Gic.GIC_DIST_CONFIG. rewrite <-Z.add_assoc.
    assert (0 <= i / 4 < 255) by (split; [apply Z.div_pos; lia|apply Z.div_lt_upper_bound; lia]).
    apply dist_word; [lia|]. rewrite <-Zplus_mod_idemp_l. apply div_word; [lia|].
    replace i with (i - 32 + 2 * (4 * 4)) by lia. by rewrite Z.mod_add by lia. }
  apply keeps_bind; [apply for_keeps; [lia..|]|intros _].
  { intros i Hi Hm. rewrite Z.sub_0_r in Hm.
    assert (0 <= i / 8 < 128) by (split; [apply Z.div_pos; lia|apply Z.div_lt_upper_bound; lia]).
    pose proof (div_word i 8 ltac:(lia) Hm).
    apply keeps_bind; [|intros _]; apply gic_writel_keeps; unfold Gic.GIC_DIST_ACTIVE_CLEAR, Gic.GIC_DIST_ENABLE_CLEAR;
      rewrite <-Z.add_assoc; (apply dist_word; [lia|]); by rewrite <-Zplus_mod_idemp_l. }
  apply keeps_bind; [by apply gic_writel_keeps|intros _]. by apply gic_writel_keeps.
Qed.

Lemma gic_cpu_init_keeps d gic :
  Gic.raw_dist_base gic = GIC_V2_DISTRIBUTOR_BASE -> Gic.raw_cpu_base gic = GIC_V2_CPU_INTERFACE_BASE ->
  keeps (gwindow d) (Gic.gic_cpu_init gic).
Proof.
  intros Eb Ec. unfold Gic.gic_cpu_init. rewrite Eb, Ec. apply keeps_bind; [apply for_keeps; [lia..|]|intros _].
  { intros i Hi Hm. apply gic_writel_keeps. rewrite Z.div_mul by lia. unfold Gic.GIC_DIST_PRI. rewrite <-Z.add_assoc.
    rewrite Z.sub_0_r in Hm. apply dist_word; [lia|]. by rewrite <-Zplus_mod_idemp_l. }
  apply keeps_bind; [by apply gic_writel_keeps|intros _]. by apply gic_writel_keeps.
Qed.

End Quiet.

Definition chip (n : Z) : Gic.gic_chip_data := Gic.GicChipData GIC_V2_DISTRIBUTOR_BASE GIC_V2_CPU_INTERFACE_BASE n.

(** [gic_init] with a [printk] after which [P'] holds in place of [P]. *)
Lemma gic_init_window P P' {UP : Unheard P} {UP' : forall n, Unheard (P' n)} pr old :
  (forall n d, let c := Gic.gic_message GIC_V2_DISTRIBUTOR_BASE GIC_V2_CPU_INTERFACE_BASE n in
     triple (gwindow P d) (pr c.1 c.2) (fun _ => gwindow (P' n) d)) ->
  triple (gwindow P [old]) (Gic.gic_init_with dev pr 0 GIC_V2_DISTRIBUTOR_BASE GIC_V2_CPU_INTERFACE_BASE)
    (fun _ g => exists n, gwindow (P' n) [chip n] g).
Proof.
  intros Hpr. set (d1 := [Gic.GicChipData GIC_V2_DISTRIBUTOR_BASE GIC_V2_CPU_INTERFACE_BASE (Gic.gic_irqs old)]).
  enough (triple (gwindow P d1)
    (v ← Gic.readl dev (u64 (GIC_V2_DISTRIBUTOR_BASE + Gic.GIC_DIST_CTR));
     let irqs := (Z.land v 0x1f + 1) * 32 in
     let irqs := if 1020 <? irqs then 1020 else irqs in
     let gic := chip irqs in
     l ← of_option (arr_set d1 0 gic);
     modify (Gic.set_gic_data l);;
     pr ("%s: cpu_base:0x%0x, dist_base:0x%0x, gic_irqs:%d" +:+ nl)
       [VStr "gic_init"; VNum GIC_V2_CPU_INTERFACE_BASE; VNum GIC_V2_DISTRIBUTOR_BASE; VNum irqs];;
     Gic.gic_dist_init dev gic;;
     Gic.gic_cpu_init gic;;
     mret 0) (fun _ g => exists n, gwindow (P' n) [chip n] g)) as H.
  { intros g [Hw Hd]. unfold Gic.gic_init_with. unfold mbind at 1, M_bind at 1, gets. rewrite Hd.
    exact (H (Gic.set_gic_data d1 g) (conj Hw eq_refl)). }
  eapply triple_bind; [by apply gic_readl_keeps|]. intros v. cbn zeta. set (n := if _ <? _ then _ else _).
  assert (0 <= n <= 1020) as Hn.
  { unfold n. change 0x1f with (2 ^ 5 - 1). rewrite land_ones_mod by lia. pose proof (Z.mod_pos_bound v (2 ^ 5)).
    destruct (Z.ltb_spec 1020 ((v mod 2 ^ 5 + 1) * 32)); lia. }
  eapply (triple_conseq _ _ _ (fun _ => gwindow (P' n) [chip n])); [|done|intros a g H; by exists n].
  eapply (triple_bind _ _ _ (fun l g => l = [chip n] /\ P (Gic.hist g))); [by intros g [H _]|]. intros l.
  eapply (triple_bind _ _ _ (fun _ => gwindow P [chip n])); [intros g [El H]; rewrite El; by split|]. intros _.
  eapply (triple_bind _ _ _ (fun _ => gwindow (P' n) [chip n])); [apply (Hpr n)|intros _]. apply keeps_bind; [by apply gic_dist_init_keeps|intros _].
  apply keeps_bind; [by apply gic_cpu_init_keeps|intros _]. apply keeps_ret.
Qed.

(** What the driver does once it knows its registers. *)
Section Ready.
Context (P : list access -> Prop) `{!Unheard P} (n : Z).

Lemma dist_base_keeps : triple (gwindow P [chip n]) Gic.gic_get_dist_base
  (fun b g => b = GIC_V2_DISTRIBUTOR_BASE /\ gwindow P [chip n] g).
Proof. intros g [H E]. unfold Gic.gic_get_dist_base, gets, of_option, mbind, M_bind. rewrite E. done. Qed.
Lemma cpu_base_keeps : triple (gwindow P [chip n]) Gic.gic_get_cpu_base
  (fun b g => b = GIC_V2_CPU_INTERFACE_BASE /\ gwindow P [chip n] g).
Proof. intros g [H E]. unfold Gic.gic_get_cpu_base, gets, of_option, mbind, M_bind. rewrite E. done. Qed.

Lemma gic_set_irq_keeps irq off :
  0 <= irq < 1024 -> off = Gic.GIC_DIST_ENABLE_SET \/ off = Gic.GIC_DIST_ENABLE_CLEAR ->
  keeps (gwindow P [chip n]) (Gic.gic_set_irq irq off).
Proof.
  intros Hi Ho. unfold Gic.gic_set_irq. eapply triple_bind; [apply dist_base_keeps|]. intros b g [-> H]. revert g H.
  apply (gic_writel_keeps P). assert (0 <= irq / 32 < 32) by (split; [apply Z.div_pos; lia|apply Z.div_lt_upper_bound; lia]).
  rewrite <-Z.add_assoc. apply dist_word; [destruct Ho as [-> | ->]; unfold Gic.GIC_DIST_ENABLE_SET, Gic.GIC_DIST_ENABLE_CLEAR; lia|].
  rewrite Z.mod_add by lia. by destruct Ho as [-> | ->].
Qed.

Lemma timer_init_keeps : keeps (gwindow P [chip n]) Gic.timer_init.
Proof.
  unfold Gic.timer_init. apply keeps_bind; [by intros g H|intros _]. apply keeps_bind; [by intros g H|intros _].
  apply keeps_bind; [apply gic_set_irq_keeps; [done|by left]|intros _]. by apply (gic_writel_keeps P).
Qed.

(** An interrupt: acknowledged, handled and completed. *)
Lemma gic_handle_irq_keeps : keeps (gwindow P [chip n]) (Gic.gic_handle_irq dev).
Proof.
  unfold Gic.gic_handle_irq, Gic.gic_handle_irq_with, Gic.gicv2_eoi_irq. eapply triple_bind; [apply cpu_base_keeps|]. intros b g [-> H]. revert g H.
  apply keeps_bind; [by apply (gic_readl_keeps P)|intros v]. apply keeps_bind.
  - destruct (_ =? _); [|apply keeps_ret]. by intros g H.
  - intros _. eapply triple_bind; [apply cpu_base_keeps|]. intros b g [-> H]. revert g H. by apply (gic_writel_keeps P).
Qed.
End Ready.

Lemma gic_timer_window P P' {UP : Unheard P} {UP' : forall n, Unheard (P' n)} pr old :
  (forall n d, let c := Gic.gic_message GIC_V2_DISTRIBUTOR_BASE GIC_V2_CPU_INTERFACE_BASE n in
     triple (gwindow P d) (pr c.1 c.2) (fun _ => gwindow (P' n) d)) ->
  triple (gwindow P [old]) (Gic.gic_init_with dev pr 0 GIC_V2_DISTRIBUTOR_BASE GIC_V2_CPU_INTERFACE_BASE;; Gic.timer_init)
    (fun _ g => exists n, gwindow (P' n) [chip n] g).
Proof.
  intros Hpr. eapply (triple_bind _ _ _ (fun _ g => exists n, gwindow (P' n) [chip n] g)); [by apply gic_init_window|].
  intros _ g [n Hg]. revert g Hg.
  eapply triple_conseq; [apply (timer_init_keeps (P' n) n)|done|intros a g H; by exists n].
Qed.

(** The frequency of the timer is read only. *)
Section Frequency.
Context (f : Z).
Abbreviation has_freq := (fun g : Gic.gst => Gic.cntfrq g = f).

Lemma gst_hist_freq {A} (m : M (list access) A) : keeps has_freq (zoom Gic.gst_hist m).
Proof. intros g Hg. unfold zoom. by destruct (m _) as [[a h]| |]. Qed.
Lemma readl_freq r : keeps has_freq (Gic.readl dev r).
Proof. apply gst_hist_freq. Qed.
Lemma writel_freq w r : keeps has_freq (Gic.writel w r).
Proof. apply gst_hist_freq. Qed.
Lemma for_freq start n step (b : Z -> M Gic.gst unit) : (forall i, keeps has_freq (b i)) -> keeps has_freq (Gic.for_u32 start n step b).
Proof. intros Hb. apply keeps_loop_any. intros i. unfold Gic.for_body. auto with keeps. Qed.
#[local] Hint Resolve readl_freq writel_freq for_freq : keeps.

Lemma gic_timer_freq pr chip dist cpu :
  (forall fmt a, keeps has_freq (pr fmt a)) -> keeps has_freq (Gic.gic_init_with dev pr chip dist cpu;; Gic.timer_init).
Proof.
  intros Hpr. assert (forall gic, keeps has_freq (Gic.gic_dist_init dev gic)) as H1.
  { intros gic. unfold Gic.gic_dist_init. apply keeps_bind; [auto with keeps|intros _].
    apply keeps_bind; [|auto 10 with keeps]. apply keeps_loop_any. intros [i m]. unfold Gic.get_cpumask_body. auto with keeps. }
  assert (forall gic, keeps has_freq (Gic.gic_cpu_init gic)) as H2 by (intros gic; unfold Gic.gic_cpu_init; auto with keeps).
  apply keeps_bind; [|intros _].
  - unfold Gic.gic_init_with. apply keeps_bind; [auto with keeps|intros l].
    do 2 (apply keeps_bind; [auto with keeps|intros ?]). apply keeps_bind; [by apply keeps_modify|intros _].
    do 2 (apply keeps_bind; [auto with keeps|intros ?]). apply keeps_bind; [by apply keeps_modify|intros _].
    apply keeps_bind; [apply Hpr|intros _]. apply keeps_bind; [apply H1|intros _]. apply keeps_bind; [apply H2|intros _]. auto with keeps.
  - unfold Gic.timer_init, Gic.gicv2_unmask_irq, Gic.gic_set_irq, Gic.gic_get_dist_base, Gic.enable_timer_interrupt.
    do 2 (apply keeps_bind; [by apply keeps_modify|intros _]). auto 10 with keeps.
Qed.
End Frequency.

End Access.

(** ** The register maps *)

(** The banks of the distributor, with the bits they have for each interrupt. *)
Definition dist_banks : list (Z * Z) :=
  [(GIC_DIST_IGROUP, 1); (Gic.GIC_DIST_ENABLE_SET, 1); (Gic.GIC_DIST_ENABLE_CLEAR, 1); (GIC_DIST_PENDING_SET, 1);
   (GIC_DIST_PENDING_CLEAR, 1); (GIC_DIST_ACTIVE_SET, 1); (Gic.GIC_DIST_ACTIVE_CLEAR, 1); (Gic.GIC_DIST_PRI, 8);
   (Gic.GIC_DIST_TARGET, 8); (Gic.GIC_DIST_CONFIG, 2); (GIC_DIST_SOFTINT, 0)].

(** The bank of every interrupt up to 1020 ends before the next bank begins. *)
Fixpoint apart (n : Z) (bs : list (Z * Z)) : bool :=
  match bs with
  | (a, w) :: (((b, _) :: _) as bs) => (a + (n * w + 7) / 8 <=? b) && apart n bs
  | _ => true
  end.

Lemma dist_banks_apart : apart 1020 dist_banks = true.
Proof. reflexivity. Qed.

(** A list register of the hypervisor interface, and its control register. *)
Definition gich_lr_fields : list Fields.field :=
  [Fields.Fld GICH_LR_VIRTUALID 0 10; Fields.Fld GICH_LR_PHYSID_CPUID GICH_LR_PHYSID_CPUID_SHIFT 3;
   Fields.Fld (Z.shiftl 0x3f 13) 13 6; Fields.Fld GICH_LR_EOI 19 1; Fields.Fld (Z.shiftl 0xff 20) 20 8;
   Fields.Fld GICH_LR_STATE 28 2; Fields.Fld (Z.shiftl 3 30) 30 2].

Lemma gich_lr_tiles : Fields.tiles 0 gich_lr_fields 32 = true /\ Z.lor GICH_LR_PENDING_BIT GICH_LR_ACTIVE_BIT = GICH_LR_STATE.
Proof. done. Qed.

Lemma gich_vmcr_apart :
  Forall (fun m => Z.land m.1 m.2 = 0)
    [(GICH_VMCR_CTRL_MASK, GICH_VMCR_ALIAS_BINPOINT_MASK); (GICH_VMCR_ALIAS_BINPOINT_MASK, GICH_VMCR_BINPOINT_MASK);
     (GICH_VMCR_BINPOINT_MASK, GICH_VMCR_PRIMASK_MASK)] /\
  Z.land (Z.land GICH_HCR_EN GICH_HCR_UIE) (Z.land GICH_MISR_EOI GICH_MISR_U) = 0.
Proof. split; repeat constructor. Qed.

(** The priorities written by [gic_cpu_init] are the header's default. *)
Lemma def_pri : u32 GICD_INT_DEF_PRI_X4 = 0xa0a0a0a0.
Proof. reflexivity. Qed.

(** Software and private interrupts are the two halves of the first enable register. *)
Lemma sgi_ppi : Z.lor Gic.GICD_INT_EN_SET_SGI GICD_INT_EN_CLR_PPI = Gic.GICD_INT_EN_CLR_X32 /\
  Z.land Gic.GICD_INT_EN_SET_SGI GICD_INT_EN_CLR_PPI = 0.
Proof. done. Qed.

(** Every register of the maps, the ones of the ARM-local block per core. *)
Definition registers : list Z :=
  [ARM_CONTROL; CORE_IRQ_CONTROL; PMU_CONTROL_SET; PMU_CONTROL_CLR; PERI_IRQ_ROUTE0; AXI_QUIET_TIME; LOCAL_TIMER_CONTROL;
   LOCAL_TIMER_IRQ; Gic.TIMER_CNTRL0; TIMER_CNTRL1; TIMER_CNTRL2; TIMER_CNTRL3;
   ARM_LOCAL_IRQ_SOURCE0; ARM_LOCAL_IRQ_SOURCE1; ARM_LOCAL_IRQ_SOURCE2; ARM_LOCAL_IRQ_SOURCE3;
   ARM_LOCAL_FRQ_SOURCE0; ARM_LOCAL_FRQ_SOURCE1; ARM_LOCAL_FRQ_SOURCE2; ARM_LOCAL_FRQ_SOURCE3] ++
  ((fun o => GIC_V2_CPU_INTERFACE_BASE + o) <$>
    [Gic.GIC_CPU_CTRL; Gic.GIC_CPU_PRIMASK; GIC_CPU_BINPOINT; Gic.GIC_CPU_INTACK; Gic.GIC_CPU_EOI; GIC_CPU_RUNNINGPRI;
     GIC_CPU_HIGHPRI; GIC_CPU_ALIAS_BINPOINT; GIC_CPU_ACTIVEPRIO; GIC_CPU_IDENT]) ++
  ((fun o => GIC_V2_DISTRIBUTOR_BASE + o) <$>
    [Gic.GIC_DIST_CTRL; Gic.GIC_DIST_CTR; GIC_DIST_SOFTINT; GIC_DIST_SGI_PENDING_CLEAR; GIC_DIST_SGI_PENDING_SET] ++ dist_banks.*1) ++
  [IRQ_BASIC_PENDING; IRQ_PENDING_1; IRQ_PENDING_2; FIQ_CONTROL; ENABLE_IRQS_1; ENABLE_IRQS_2; ENABLE_BASIC_IRQS;
   DISABLE_IRQS_1; DISABLE_IRQS_2; DISABLE_BASIC_IRQS] ++
  [Uart.GPFSEL1; GPSET0; GPCLR0; GPPUD; GPPUDCLK0; Uart.GPIO_PUP_PDN_CNTRL_REG0] ++
  [Uart.U_DATA_REG; Uart.U_FR_REG; Uart.U_IBRD_REG; Uart.U_FBRD_REG; Uart.U_LCRH_REG; Uart.U_CR_REG; Uart.U_IMSC_REG].

Lemma registers_mapped : Forall (fun r => device_word r = true) registers.
Proof. apply (bool_decide_unpack _). vm_compute. exact I. Qed.

(** The events of a core's timer control register are distinct bits, and the one the kernel enables is among them. *)
Definition timer_events : list Z :=
  [CNT_PS_IRQ; Gic.CNT_PNS_IRQ; CNT_HP_IRQ; CNT_V_IRQ; CNT_PS_IRQ_FIQ; CNT_PNS_IRQ_FIQ; CNT_HP_IRQ_FIQ; CNT_V_IRQ_FIQ].

Lemma timer_events_bits : timer_events = (fun i => 2 ^ i) <$> seqZ 0 8 /\ CNTPNSIRQ_Int = Gic.CNT_PNS_IRQ /\ LOCAL_TIMER_INT = TIMER_IRQ.
Proof. done. Qed.

End Devices.
