(* ===== verification/Stacks.v ===== *)
(** * What a switch of tasks does to the stacks

    Which task runs, who called [__schedule] on the stack of each other task, and the saved context of every task, through the
    functions of [kernel/sched.c]: a scheduling decision changes them for the task that it leaves, and for no
    other. [Live] and [Preempt] rest on it. *)

From S2P Require Import Prelude Base Printk Klist Sched SchedInv Devices.
Import Klist Sched SchedInv Devices.

Module Stacks.

Section Stacks.
Context (rq_head init_task ret_from_fork switch_return : Z).

Definition stacks (K : gmap Z caller) (C : Z -> cpu_context) (c : Z) (s : ks) : Prop :=
  kstack s = K /\ cur s = c /\ forall p, context (task s p) = C p.

Section Keep.
Context (K : gmap Z caller) (C : Z -> cpu_context) (c : Z).

Lemma update_stacks p f : (forall t, context (f t) = context t) -> keeps (stacks K C c) (update p f).
Proof.
  intros Hf s (Hk & Hc & HC). split; [done|]. split; [done|]. intros q. rewrite task_upd.
  case_decide; [subst; by rewrite Hf|done].
Qed.
Lemma lists_stacks {A} (m : M nodes A) : keeps (stacks K C c) (zoom lists_lens m).
Proof. intros s Hs. unfold zoom. by destruct (m _) as [[a l]| |]. Qed.
Lemma irq_stacks b : keeps (stacks K C c) (set_irq b).
Proof. by intros s Hs. Qed.
Lemma field_stacks {A} p (f : task_struct -> A) : keeps (stacks K C c) (field p f).
Proof. apply keeps_gets. Qed.
Lemma running_stacks f : keeps (stacks K C c) (set_nr_running f).
Proof. by intros s Hs. Qed.
Lemma printk_stacks f a : keeps (stacks K C c) (printk f a).
Proof. by intros s Hs. Qed.
Lemma for_each_stacks {A} fuel head (body : Z -> A -> M ks A) a :
  (forall p a, keeps (stacks K C c) (body p a)) -> keeps (stacks K C c) (list_for_each lists_lens head body fuel a).
Proof.
  intros Hb. unfold list_for_each. apply keeps_bind; [apply keeps_gets|intros h]. apply keeps_loop_any. intros [p a'].
  unfold list_for_each_body. auto 6 with keeps.
Qed.
#[local] Hint Resolve lists_stacks irq_stacks field_stacks running_stacks printk_stacks for_each_stacks : keeps.
#[local] Hint Extern 1 (keeps _ (update _ _)) => apply update_stacks; done : keeps.

Lemma dequeue_stacks p : keeps (stacks K C c) (dequeue_task rq_head init_task p).
Proof.
  change (keeps (stacks K C c) (dequeue_task_simple p)). unfold dequeue_task_simple. auto with keeps.
Qed.

Lemma pick_stacks p : keeps (stacks K C c) (pick_next_task rq_head init_task p).
Proof.
  change (keeps (stacks K C c) (pick_next_task_simple rq_head init_task p)). unfold pick_next_task_simple.
  apply keeps_bind; [|auto with keeps]. apply keeps_loop_any. intros next. unfold pick_body.
  apply keeps_bind; [apply for_each_stacks; intros q a; unfold pick_scan; auto with keeps|]. intros cn.
  assert (keeps (stacks K C c) (reset_score init_task)) as Hr.
  { apply keeps_loop_any. intros q. unfold for_each_task_body, new_score. auto 8 with keeps. }
  destruct (_ =? _); auto with keeps.
Qed.

Lemma count_stacks f : (forall t, context (f t) = context t) -> keeps (stacks K C c) (c' ← current; update c' f).
Proof. intros Hf. apply keeps_bind; [apply keeps_gets|]. intros p. by apply update_stacks. Qed.

Lemma tick_stacks : keeps (stacks K C c) (tick_handle_periodic rq_head init_task).
Proof.
  change (keeps (stacks K C c) (p ← current; task_tick_simple p)). apply keeps_bind; [apply keeps_gets|intros p].
  unfold task_tick_simple. auto 8 with keeps.
Qed.

Lemma debug_stacks p : keeps (stacks K C c) (schedule_debug p).
Proof.
  intros s Hs. unfold schedule_debug, in_atomic_preempt_off, current, field, gets, mbind, M_bind, mret, M_ret.
  by destruct (negb _).
Qed.
End Keep.

(** The contexts once that of [c] was saved in a call of [switch_to]. *)
Definition saved (C : Z -> cpu_context) (c : Z) (x : cpu_context) (p : Z) : cpu_context :=
  if decide (p = c) then x else C p.

(** How a task with the context [x] and the caller [w] goes on. *)
Definition returns (w : option caller) (x : cpu_context) (r : resumed) : Prop :=
  match r with
  | After who => w = Some who
  | Started f a => pc x = ret_from_fork /\ x19 x = f /\ f <> 0
  | BadExit => pc x = ret_from_fork /\ x19 x = 0
  end.

(** The task [c] called on behalf of [who]. Either it goes on; or its context is saved, its stack says [who], and
    the task that runs now returns to what its own stack and context say. *)
Definition left_by (K : gmap Z caller) (C : Z -> cpu_context) (c : Z) (who : caller) (r : resumed) (s : ks) : Prop :=
  (r = After who /\ stacks K C c s) \/
  exists x, pc x = switch_return /\ stacks (<[c := who]> K) (saved C c x) (cur s) s /\ cur s <> c /\
    returns (K !! cur s) (C (cur s)) r.

Lemma resume_stacks K C c last x :
  triple (fun s => stacks K C c s /\ regs (cpu s) = x) (resume ret_from_fork switch_return last)
    (fun r s => stacks K C c s /\ returns (K !! c) x r).
Proof.
  intros s [(Hk & Hc & HC) Hx]. unfold resume, gets, mbind, M_bind. rewrite Hx. destruct (Z.eqb_spec (pc x) ret_from_fork) as [E|E].
  - cbn. split; [done|]. destruct (Z.eqb_spec (x19 x) 0); done.
  - destruct (_ =? switch_return); [|done]. unfold current, gets, modify.
    assert (forall s1, exists s2, (if last =? 0 then mret tt else schedule_tail) s1 = Ret (tt, s2) /\
      kstack s2 = kstack s1 /\ cur s2 = cur s1 /\ tasks s2 = tasks s1) as Hm.
    { intros s1. by destruct (last =? 0); eexists. }
    destruct (Hm (with_rq s (RunQueue (nr_running (g_rq s)) (u64 (nr_switches (g_rq s) + 1)) (sp_el0 (cpu s))))) as (s2 & -> & E1 & E2 & E3).
    unfold of_option. rewrite E1. cbn [kstack with_rq]. rewrite Hk. change (sp_el0 (cpu s)) with (cur s). rewrite Hc.
    destruct (K !! c) as [w|] eqn:Ew; [|done]. split; [|done].
    split; [by rewrite E1|]. split; [by rewrite E2|]. intros p. unfold task. rewrite E3. apply HC.
Qed.

Lemma cpu_switch_stacks K C c next :
  next <> c ->
  triple (stacks K C c) (cpu_switch_to switch_return c next) (fun _ s => regs (cpu s) = C next /\
    exists x, pc x = switch_return /\ stacks K (saved C c x) next s).
Proof.
  intros Hne s (Hk & Hc & HC). unfold cpu_switch_to, update, field, gets, modify, mbind, M_bind.
  set (s1 := with_cpu s _). split.
  - cbn [regs cpu with_cpu]. rewrite task_upd, decide_False by done. apply HC.
  - exists (regs (cpu s1)). split; [done|]. split; [done|]. split; [done|]. intros p.
    change (task (with_cpu ?s _) p) with (task s p). unfold saved. rewrite task_upd. case_decide as E.
    + subst p. by rewrite decide_True.
    + rewrite decide_False by congruence. apply HC.
Qed.

Lemma __schedule_stacks K C c who :
  triple (stacks K C c) (__schedule rq_head init_task ret_from_fork switch_return who) (left_by K C c who).
Proof.
  unfold __schedule. eapply (triple_bind _ _ _ (fun p s => p = c /\ stacks K C c s)); [by intros s (Hk & Hc & HC)|].
  intros p s [-> Hs]. revert s Hs.
  eapply triple_bind; [apply (debug_stacks K C c)|intros ?].
  eapply triple_bind; [apply (irq_stacks K C c)|intros ?]. eapply triple_bind; [apply field_stacks|intros st].
  eapply (triple_bind _ _ _ (fun _ => stacks K C c)); [destruct (negb _); [apply dequeue_stacks|apply keeps_ret]|intros _].
  eapply triple_bind; [apply pick_stacks|intros next]. eapply triple_bind; [by apply update_stacks|intros ?].
  destruct (Z.eqb_spec next c) as [->|Hne]; cbn [negb]; [by intros s Hs; left|].
  eapply (triple_bind _ _ _ (fun _ => stacks (<[c := who]> K) C c)); [intros s (Hk & Hc & HC); by split; [cbn; rewrite Hk|]|intros _].
  unfold switch_to. rewrite (proj2 (Z.eqb_neq _ _)) by congruence.
  eapply (triple_bind _ _ _ (fun b s => b = true /\ regs (cpu s) = C next /\
    exists x, pc x = switch_return /\ stacks (<[c := who]> K) (saved C c x) next s)).
  { eapply triple_bind; [by apply cpu_switch_stacks|]. by intros ? s Hs. }
  intros b s (-> & Hr & x & Hx & Hs). pose proof (resume_stacks _ _ _ c _ s (conj Hs Hr)) as H. destruct (resume _ _ _ s) as [[r s']| |]; [|done|done].
  destruct H as [Hs' Hw]. right. exists x. pose proof Hs' as (_ & Hc & _). rewrite Hc. split; [done|]. split; [done|]. split; [done|].
  by rewrite lookup_insert_ne in Hw.
Qed.

Lemma epilogue_stacks K C c who r0 : triple (left_by K C c who r0) (epilogue r0) (left_by K C c who).
Proof.
  assert (forall f, (forall t, context (f t) = context t) -> keeps (left_by K C c who r0) (c' ← current; update c' f)) as Hu.
  { intros f Hf s [[Hr Hs]|(x & Hx & Hs & Hr)]; unfold current, gets, mbind, M_bind; unfold triple, update, modify.
    - left. split; [done|]. exact (count_stacks K C c f Hf s Hs).
    - right. exists x. split; [done|]. split; [|done]. exact (count_stacks _ _ _ f Hf s Hs). }
  destruct r0 as [[]| |]; [|..].
  - eapply triple_bind; [by apply Hu|]. by intros ? s Hs.
  - eapply (triple_bind _ _ _ (fun _ => left_by K C c who (After FromPreempt))); [by intros s Hs|intros ?].
    eapply triple_bind; [by apply Hu|]. by intros ? s Hs.
  - by intros s Hs.
  - by intros s Hs.
Qed.

Lemma schedule_stacks K C c :
  triple (stacks K C c) (schedule rq_head init_task ret_from_fork switch_return) (left_by K C c FromSchedule).
Proof.
  unfold schedule. eapply triple_bind; [by apply (count_stacks K C c)|intros ?].
  eapply triple_bind; [apply __schedule_stacks|intros r]. apply epilogue_stacks.
Qed.

Lemma preempt_schedule_irq_stacks K C c :
  triple (stacks K C c) (preempt_schedule_irq rq_head init_task ret_from_fork switch_return) (left_by K C c FromPreempt).
Proof.
  unfold preempt_schedule_irq. eapply triple_bind; [apply (keeps_gets (stacks K C c))|intros p].
  eapply triple_bind; [apply field_stacks|intros n].
  eapply (triple_bind _ _ _ (fun _ => stacks K C c)); [by destruct (negb _); intros s Hs|intros _].
  eapply triple_bind; [by apply (count_stacks K C c)|intros ?]. eapply triple_bind; [apply irq_stacks|intros ?].
  eapply triple_bind; [apply __schedule_stacks|intros r]. apply epilogue_stacks.
Qed.

End Stacks.

End Stacks.
