(* ===== verification/Live.v ===== *)
(** * Every runnable task runs

    Liveness of the scheduler under interrupts of a timer whose handler calls [tick_handle_periodic]: from any reachable
    state with IRQs unmasked, enough of them bring any given runnable task to the processor. The reason is a
    weight of the time slices that every interrupt lowers until the slices are refilled. *)

From S2P Require Import Prelude Base PageAlloc Klist Sched SchedInv Fork Devices Stacks.
Import Klist Sched SchedInv Fork Devices Stacks.

Module Live.

(** ** Sums of time slices *)

Definition total (c : Z -> Z) (q : list Z) : Z := foldr (fun p a => c p + a) 0 q.

Lemma total_cons c x q : total c (x :: q) = c x + total c q.
Proof. done. Qed.

Lemma total_ext c c' q : (forall p, p ∈ q -> c' p = c p) -> total c' q = total c q.
Proof.
  induction q as [|x q IH]; intros H; [done|]. rewrite !total_cons, H by left. f_equal.
  apply IH. intros p Hp. apply H. by right.
Qed.

Lemma total_nonneg c q : (forall p, p ∈ q -> 0 <= c p) -> 0 <= total c q.
Proof.
  induction q as [|x q IH]; intros H; [done|]. rewrite total_cons. pose proof (H x ltac:(left)).
  assert (0 <= total c q) by (apply IH; intros p Hp; apply H; by right). lia.
Qed.

Lemma total_dec c c' q r :
  NoDup q -> r ∈ q -> c' r = c r - 1 -> (forall p, p <> r -> c' p = c p) -> total c' q = total c q - 1.
Proof.
  induction 1 as [|x q Hx Hd IH]; intros Hr Er Ho; [by apply not_elem_of_nil in Hr|]. rewrite !total_cons.
  apply elem_of_cons in Hr as [->|Hr].
  - rewrite Er, (total_ext c c' q); [lia|]. intros p Hp. apply Ho. by intros ->.
  - rewrite (Ho x); [|by intros ->]. rewrite IH by done. lia.
Qed.

Section Live.
Context (rq_head init_task ret_from_fork switch_return : Z).
Context (Hlay : layout_ok rq_head init_task ret_from_fork switch_return).
Local Abbreviation inv := (inv rq_head init_task ret_from_fork switch_return).

Local Abbreviation interrupt :=
  (interrupt rq_head init_task ret_from_fork switch_return (tick_handle_periodic rq_head init_task)).

(** Interrupts, each taken when the one before has returned to a task, which only computes until the next. A task that was
    forked without a function to run ends in [do_bad_mode], and the machine with it. *)
Fixpoint interrupts (n : nat) : M ks unit :=
  match n with
  | O => mret tt
  | S n =>
      r ← interrupt;
      match r with
      | Some BadExit => undef
      | _ => interrupts n
      end
  end.

(** Every task that has not started yet has a function to run. *)
Definition startable (s : ks) (p : Z) : Prop :=
  pc (context (task s p)) = ret_from_fork -> x19 (context (task s p)) <> 0.

Lemma interrupt_stacks K C c :
  triple (stacks K C c) interrupt (fun r s => match r with
    | None => stacks K C c s
    | Some r => left_by ret_from_fork switch_return K C c FromPreempt r s
    end).
Proof.
  unfold Fork.interrupt. eapply triple_bind; [apply (keeps_gets (stacks K C c))|intros on].
  destruct on; cbn [negb]; [|by intros s Hs].
  eapply triple_bind; [apply (irq_stacks K C c)|intros ?]. eapply triple_bind; [apply tick_stacks|intros ?].
  eapply (triple_bind _ _ _ (fun r s => match r with
    | None => stacks K C c s | Some r => left_by ret_from_fork switch_return K C c FromPreempt r s end)).
  - unfold el1_irq_exit. eapply triple_bind; [apply (keeps_gets (stacks K C c))|intros tsk].
    eapply triple_bind; [apply field_stacks|intros w]. destruct (negb _); [by intros s Hs|].
    eapply triple_bind; [apply field_stacks|intros w']. destruct (_ =? 0); [by intros s Hs|].
    eapply triple_bind; [apply preempt_schedule_irq_stacks|]. by intros r s Hs.
  - intros [[[]| |]|] s Hs; exact Hs.
Qed.

(** The slices after the tick. *)
Definition ticked (s : ks) (p : Z) : Z :=
  if decide (p = cur s) then Z.max 0 (count (task s p) - 1) else count (task s p).

(** What every interrupt keeps. *)
Definition live (s : ks) (ts q : list Z) : Prop :=
  inv s ts q 0 Run /\ irq_on (cpu s) = true /\ forall p, p ∈ init_task :: ts -> startable s p.

(** One interrupt: the running task goes on with a smaller slice, or the queue's choice runs. *)
Lemma interrupt_spec s ts q :
  live s ts q -> q <> [] ->
  wp interrupt s (fun r s' => r <> Some BadExit /\ live s' ts q /\
    ((cur s' = cur s /\ 1 < count (task s (cur s)) /\ forall p, count (task s' p) = ticked s p) \/
     (exists s1, inv s1 ts q 0 Run /\ (forall p, count (task s1 p) = ticked s p) /\ slices s1 s' ts q /\
        choice (fun p => count (task s' p)) q (cur s')))).
Proof.
  intros (Hi & Hon & Hst) Hq.
  eapply wp_mono; [apply (wp_triple (stacks (kstack s) (fun p => context (task s p)) (cur s)));
    [apply interrupt_stacks|done|by apply (interrupt_inv _ _ _ _ Hlay s ts q)]|].
  intros r s' [(Hi' & Hon' & s1 & Hi1 & Ec & Hc & Ho & H) HL].
  assert (forall p, count (task s1 p) = ticked s p) as Ht.
  { intros p. unfold ticked. case_decide as E; [by subst|by rewrite Ho]. }
  assert (r <> Some BadExit /\ forall p, p ∈ init_task :: ts -> startable s' p) as [Hr Hst'].
  { destruct r as [r|].
    - destruct HL as [[-> (_ & _ & HC)]|(x & Hx & (_ & _ & HC) & Hne & Hret)].
      + split; [done|]. intros p Hp. unfold startable. rewrite HC. by apply Hst.
      + split.
        * intros [= ->]. destruct Hret as [H1 H2]. by apply (Hst (cur s')); [apply (i_cur _ _ _ _ _ _ _ _ _ Hi')|..].
        * intros p Hp. unfold startable. rewrite HC. unfold saved. case_decide; [|by apply Hst].
          rewrite Hx. intros E. by destruct (l_code _ _ _ _ Hlay).
    - split; [done|]. destruct HL as (_ & _ & HC). intros p Hp. unfold startable. rewrite HC. by apply Hst. }
  split; [done|]. split; [done|]. destruct H as [(_ & H1 & H2 & H3)|(_ & H1 & H2)].
  - left. split; [done|]. split; [done|]. intros p. by rewrite H3.
  - right. by exists s1.
Qed.

(** ** The weight *)

Definition weight (s : ks) (q : list Z) : Z :=
  total (fun p => count (task s p)) q +
  (if decide (cur s ∈ q) then 0 else count (task s (cur s))) +
  (if decide (cur s ∈ q /\ 1 <= count (task s (cur s))) then 0 else 1).

Ltac weigh := repeat case_decide; try lia; exfalso;
  match goal with H : ~ (_ /\ _) |- _ => apply H; split; [tauto|lia] | _ => tauto end.

Lemma inv_count s ts q n m p : inv s ts q n m -> p ∈ init_task :: ts -> 0 <= count (task s p).
Proof. intros Hi Hp. apply (i_scored _ _ _ _ _ _ _ _ _ Hi) in Hp as [? _]. lia. Qed.

Lemma inv_count_q s ts q n m p : inv s ts q n m -> p ∈ q -> 0 <= count (task s p).
Proof. intros Hi Hp. eapply inv_count; [exact Hi|]. right. by apply (i_sub _ _ _ _ _ _ _ _ _ Hi). Qed.

Lemma inv_nodup s ts q n m : inv s ts q n m -> NoDup q.
Proof.
  intros Hi. destruct (i_ring _ _ _ _ _ _ _ _ _ Hi) as [[_ H]%NoDup_cons _]. by eapply NoDup_fmap_1.
Qed.

Lemma weight_nonneg s ts q n m : inv s ts q n m -> 0 <= weight s q.
Proof.
  intros Hi. unfold weight.
  assert (0 <= total (fun p => count (task s p)) q) by (apply total_nonneg; intros p Hp; by eapply inv_count_q).
  pose proof (inv_count _ _ _ _ _ _ Hi (i_cur _ _ _ _ _ _ _ _ _ Hi)). repeat case_decide; lia.
Qed.

(** The sum after the tick. *)
Lemma total_ticked s ts q n m :
  inv s ts q n m ->
  total (ticked s) q = total (fun p => count (task s p)) q -
    (if decide (cur s ∈ q /\ 1 <= count (task s (cur s))) then 1 else 0).
Proof.
  intros Hi. pose proof (inv_count _ _ _ _ _ _ Hi (i_cur _ _ _ _ _ _ _ _ _ Hi)) as H0. case_decide as E.
  - destruct E as [Hq H1]. apply total_dec with (cur s); [by eapply inv_nodup|done| |]; unfold ticked.
    + rewrite decide_True by done. lia.
    + intros p Hp. by rewrite decide_False.
  - rewrite Z.sub_0_r. apply total_ext. intros p Hp. unfold ticked. case_decide as Ep; [|done]. subst p.
    destruct (decide (1 <= count (task s (cur s)))); [tauto|lia].
Qed.

Lemma weight_stays s s' ts q :
  inv s ts q 0 Run -> cur s' = cur s -> 1 < count (task s (cur s)) ->
  (forall p, count (task s' p) = ticked s p) -> weight s' q < weight s q.
Proof.
  intros Hi Ec H1 Ht. unfold weight. rewrite Ec, (total_ext (ticked s) (fun p => count (task s' p)) q), (total_ticked _ _ _ _ _ Hi) by done.
  rewrite Ht. unfold ticked. rewrite (decide_True (P := cur s = cur s)) by done. weigh.
Qed.

Lemma weight_switches s s' ts q :
  inv s ts q 0 Run -> cur s' ∈ q -> 1 <= count (task s' (cur s')) ->
  (forall p, count (task s' p) = ticked s p) -> weight s' q < weight s q.
Proof.
  intros Hi Hq H1 Ht. unfold weight at 1. rewrite decide_True, decide_True by done.
  rewrite (total_ext (ticked s) (fun p => count (task s' p)) q), (total_ticked _ _ _ _ _ Hi) by done.
  pose proof (inv_count _ _ _ _ _ _ Hi (i_cur _ _ _ _ _ _ _ _ _ Hi)). unfold weight. weigh.
Qed.

(** Every interrupt runs [p], or gives it a slice it had used up, or lowers the weight. *)
Lemma interrupt_progress s ts q p :
  live s ts q -> p ∈ q -> cur s <> p ->
  wp interrupt s (fun r s' => r <> Some BadExit /\ live s' ts q /\
    (cur s' = p \/ (count (task s p) = 0 /\ 0 < count (task s' p)) \/
     (weight s' q < weight s q /\ (0 < count (task s p) -> 0 < count (task s' p))))).
Proof.
  intros Hl Hp Hne. pose proof (proj1 Hl) as Hi. assert (q <> []) as Hq by (by intros ->; apply not_elem_of_nil in Hp).
  eapply wp_mono; [by apply interrupt_spec|]. intros r s' (Hr & Hl' & H). split; [done|]. split; [done|].
  assert (ticked s p = count (task s p)) as Etp by (unfold ticked; by rewrite decide_False).
  destruct H as [(Ec & H1 & Ht)|(s1 & Hi1 & Ht & Hsl & Hch)].
  - right; right. split; [by eapply weight_stays|]. by rewrite Ht, Etp.
  - destruct (decide (exhausted s1 q)) as [He|He].
    + right; left. pose proof He as He'. unfold exhausted in He'. rewrite Forall_forall in He'.
      split; [rewrite <-Etp, <-Ht; by apply He'|]. rewrite Hsl, decide_True by (split; [done|by apply (i_sub _ _ _ _ _ _ _ _ _ Hi)]).
      assert (scored (task s1 p)) as Hs by (apply (i_scored _ _ _ _ _ _ _ _ _ Hi1); right; by apply (i_sub _ _ _ _ _ _ _ _ _ Hi)).
      destruct (rescored_scored _ Hs) as [_ ->]. destruct Hs. lia.
    + right; right. assert (forall p, count (task s' p) = ticked s p) as Ht'.
      { intros r'. rewrite Hsl, decide_False by tauto. apply Ht. }
      split; [|by rewrite Ht', Etp]. eapply weight_switches; [done|by eapply choice_elem| |done].
      destruct Hch as (l1 & l2 & _ & Hmax & _). apply not_Forall_Exists in He; [|apply _].
      apply Exists_exists in He as (x & Hx & Hx0). specialize (Hmax x Hx). cbn beta in Hmax.
      change (count (task s1 x) <> 0) in Hx0.
      pose proof (inv_count_q _ _ _ _ _ _ Hi1 Hx). pose proof (Ht x). pose proof (Ht' x). lia.
Qed.

Lemma interrupts_next s s1 r (P : ks -> Prop) :
  interrupt s = Ret (r, s1) -> r <> Some BadExit -> (exists n s', interrupts n s1 = Ret (tt, s') /\ P s') ->
  exists n s', interrupts n s = Ret (tt, s') /\ P s'.
Proof.
  intros E Hr (n & s' & En & HP). exists (S n), s'. split; [|done]. cbn [interrupts]. unfold mbind, M_bind. rewrite E.
  by destruct r as [[[]| |]|].
Qed.

Lemma interrupts_until s ts q p : forall w : nat,
  live s ts q -> p ∈ q -> weight s q <= Z.of_nat w -> 0 < count (task s p) ->
  exists n s', interrupts n s = Ret (tt, s') /\ live s' ts q /\ cur s' = p.
Proof.
  intros w. revert s. induction w as [w IH] using lt_wf_ind. intros s Hl Hp Hw H0.
  destruct (decide (cur s = p)) as [E|Hne]; [by exists 0%nat, s|].
  pose proof (interrupt_progress s ts q p Hl Hp Hne) as H. apply wp_elim in H as (r & s1 & E & Hr & Hl1 & H).
  eapply interrupts_next; [exact E|done|].
  destruct H as [Hc|[[? _]|[Hlt Hpos]]]; [by exists 0%nat, s1|lia|].
  pose proof (weight_nonneg _ _ _ _ _ (proj1 Hl1)).
  apply (IH (Z.to_nat (weight s1 q))); [lia|done|done|lia|auto].
Qed.

Lemma interrupts_refill s ts q p : forall w : nat,
  live s ts q -> p ∈ q -> weight s q <= Z.of_nat w ->
  exists n s', interrupts n s = Ret (tt, s') /\ live s' ts q /\ cur s' = p.
Proof.
  intros w. revert s. induction w as [w IH] using lt_wf_ind. intros s Hl Hp Hw.
  destruct (decide (cur s = p)) as [E|Hne]; [by exists 0%nat, s|].
  pose proof (interrupt_progress s ts q p Hl Hp Hne) as H. apply wp_elim in H as (r & s1 & E & Hr & Hl1 & H).
  eapply interrupts_next; [exact E|done|].
  pose proof (weight_nonneg _ _ _ _ _ (proj1 Hl1)).
  destruct H as [Hc|[[_ Hpos]|[Hlt _]]]; [by exists 0%nat, s1| |].
  - apply (interrupts_until s1 ts q p (Z.to_nat (weight s1 q))); [done|done|lia|done].
  - apply (IH (Z.to_nat (weight s1 q))); [lia|done|done|lia].
Qed.

(** Interrupts are steps of the system. *)
Lemma interrupts_reachable n : forall s s' ts q,
  live s ts q -> q <> [] -> reachable rq_head init_task ret_from_fork switch_return s ->
  interrupts n s = Ret (tt, s') -> reachable rq_head init_task ret_from_fork switch_return s'.
Proof.
  induction n as [|n IH]; intros s s' ts q Hl Hq Hr E; [by injection E as <-|].
  cbn [interrupts] in E. pose proof (interrupt_spec s ts q Hl Hq) as H. apply wp_elim in H as (r & s1 & E1 & Hb & Hl1 & _).
  unfold mbind, M_bind in E. rewrite E1 in E. apply (IH s1 s' ts q Hl1 Hq); [|by destruct r as [[[]| |]|]].
  destruct Hr as (fr & c & irq & Hfr & Hsteps). exists fr, c, irq. split; [done|]. eapply rtc_r; [exact Hsteps|].
  eapply step_tick; [|exact E1]. pose proof (proj1 Hl) as Hi. intros En. apply Hq. destruct (i_ring _ _ _ _ _ _ _ _ _ Hi) as [Hnd _].
  pose proof (ring_first _ _ _ (i_ring _ _ _ _ _ _ _ _ _ Hi)) as Hf. rewrite En in Hf.
  destruct q as [|x q]; [done|]. exfalso. rewrite fmap_cons in Hnd, Hf. cbn in Hf.
  apply NoDup_cons in Hnd as [Hnd _]. apply Hnd. rewrite Hf. left.
Qed.


End Live.

(** ** Witness *)


End Live.
