(* ===== verification/Traps.v ===== *)
(** * Unexpected exceptions

    [core/traps.c] (but [do_irq], which is in [Gic.v]) and [kernel/panic.c]. The state is the list of messages;
    [far] is the value of the fault address register. *)

From S2P Require Import Prelude Base Printk Fields Esr.

Module Traps.

(** An array with designated initialisers, later ones winning. *)
Definition designated {A} (init : list A) (l : list (Z * A)) : list A :=
  fold_left (fun a iv => <[Z.to_nat iv.1 := iv.2]> a) l init.

Definition bad_mode_handler : list string := ["Sync Abort"; "IRQ"; "FIQ"; "SError"].

Definition esr_class_str : list string :=
  designated (replicate (Z.to_nat (ESR_ELx_EC_MAX + 1)) "UNRECOGNIZED EC")
    [(ESR_ELx_EC_UNKNOWN, "Unknown/Uncategorized"); (ESR_ELx_EC_WFx, "WFI/WFE");
     (ESR_ELx_EC_CP15_32, "CP15 MCR/MRC"); (ESR_ELx_EC_CP15_64, "CP15 MCRR/MRRC");
     (ESR_ELx_EC_CP14_MR, "CP14 MCR/MRC"); (ESR_ELx_EC_CP14_LS, "CP14 LDC/STC"); (ESR_ELx_EC_FP_ASIMD, "ASIMD");
     (ESR_ELx_EC_CP10_ID, "CP10 MRC/VMRS"); (ESR_ELx_EC_CP14_64, "CP14 MCRR/MRRC");
     (ESR_ELx_EC_ILL, "PSTATE.IL"); (ESR_ELx_EC_SVC32, "SVC (AArch32)"); (ESR_ELx_EC_HVC32, "HVC (AArch32)");
     (ESR_ELx_EC_SMC32, "SMC (AArch32)"); (ESR_ELx_EC_SVC64, "SVC (AArch64)");
     (ESR_ELx_EC_HVC64, "HVC (AArch64)"); (ESR_ELx_EC_SMC64, "SMC (AArch64)");
     (ESR_ELx_EC_SYS64, "MSR/MRS (AArch64)"); (ESR_ELx_EC_SVE, "SVE"); (ESR_ELx_EC_IMP_DEF, "EL3 IMP DEF");
     (ESR_ELx_EC_IABT_LOW, "IABT (lower EL)"); (ESR_ELx_EC_IABT_CUR, "IABT (current EL)");
     (ESR_ELx_EC_PC_ALIGN, "PC Alignment"); (ESR_ELx_EC_DABT_LOW, "DABT (lower EL)");
     (ESR_ELx_EC_DABT_CUR, "DABT (current EL)"); (ESR_ELx_EC_SP_ALIGN, "SP Alignment");
     (ESR_ELx_EC_FP_EXC32, "FP (AArch32)"); (ESR_ELx_EC_FP_EXC64, "FP (AArch64)"); (ESR_ELx_EC_SERROR, "SError");
     (ESR_ELx_EC_BREAKPT_LOW, "Breakpoint (lower EL)"); (ESR_ELx_EC_BREAKPT_CUR, "Breakpoint (current EL)");
     (ESR_ELx_EC_SOFTSTP_LOW, "Software Step (lower EL)");
     (ESR_ELx_EC_SOFTSTP_CUR, "Software Step (current EL)"); (ESR_ELx_EC_WATCHPT_LOW, "Watchpoint (lower EL)");
     (ESR_ELx_EC_WATCHPT_CUR, "Watchpoint (current EL)"); (ESR_ELx_EC_BKPT32, "BKPT (AArch32)");
     (ESR_ELx_EC_VECTOR32, "Vector catch (AArch32)"); (ESR_ELx_EC_BRK64, "BRK (AArch64)")].

(** The array ends at its last designated element; the others are null pointers. *)
Definition data_fault_code : list varg :=
  designated (replicate (Z.to_nat (0x35 + 1)) (VNum 0))
    [(0, VStr "Address size fault, level0"); (1, VStr "Address size fault, level1");
     (2, VStr "Address size fault, level2"); (3, VStr "Address size fault, level3");
     (4, VStr "Translation fault, level0"); (5, VStr "Translation fault, level1");
     (6, VStr "Translation fault, level2"); (7, VStr "Translation fault, level3");
     (9, VStr "Access flag fault, level1"); (10, VStr "Access flag fault, level2");
     (11, VStr "Access flag fault, level3"); (13, VStr "Permission fault, level1");
     (14, VStr "Permission fault, level2"); (15, VStr "Permission fault, level3");
     (0x21, VStr "Alignment fault"); (0x35, VStr "Unsupported Exclusive or Atomic access")].

Definition printk (fmt : string) (a : list varg) : M (list call) unit := modify (fun l => l ++ [(fmt, a)]).

Definition esr_get_class_string (esr : Z) : M (list call) string :=
  of_option (arr_get esr_class_str (ESR_ELx_EC esr)).
Definition esr_get_dfsc_string (esr : Z) : M (list call) varg :=
  of_option (arr_get data_fault_code (Z.land esr 0x3f)).

(** [(esr & mask) >> shift]. *)
Definition field (esr mask shift : Z) : varg := VNum (Z.shiftr (Z.land esr mask) shift).

Definition parse_esr (esr : Z) : M (list call) unit :=
  let ec := ESR_ELx_EC esr in
  printk ("ESR info:" +:+ nl) [];;
  printk ("  ESR = 0x%08x" +:+ nl) [VNum esr];;
  cls ← esr_get_class_string esr;
  printk ("  Exception class = %s, IL = %u bits" +:+ nl)
    [VStr cls; VNum (if negb (Z.land esr ESR_ELx_IL =? 0) then 32 else 16)];;
  if (ec =? ESR_ELx_EC_DABT_LOW) || (ec =? ESR_ELx_EC_DABT_CUR) then
    printk ("  Data abort info:" +:+ nl) [];;
    (if negb (Z.land esr ESR_ELx_ISV =? 0) then
       printk ("  Access size = %u byte(s)" +:+ nl) [VNum (u32 (Z.shiftl 1 (Z.shiftr (Z.land esr ESR_ELx_SAS) ESR_ELx_SAS_SHIFT)))];;
       printk ("  SSE = %lu, SRT = %lu" +:+ nl) [field esr ESR_ELx_SSE ESR_ELx_SSE_SHIFT; field esr ESR_ELx_SRT_MASK ESR_ELx_SRT_SHIFT];;
       printk ("  SF = %lu, AR = %lu" +:+ nl) [field esr ESR_ELx_SF ESR_ELx_SF_SHIFT; field esr ESR_ELx_AR ESR_ELx_AR_SHIFT]
     else mret tt);;
    printk ("  SET = %lu, FnV = %lu" +:+ nl) [field esr ESR_ELx_SET_MASK ESR_ELx_SET_SHIFT; field esr ESR_ELx_FnV ESR_ELx_FnV_SHIFT];;
    printk ("  EA = %lu, S1PTW = %lu" +:+ nl) [field esr ESR_ELx_EA ESR_ELx_EA_SHIFT; field esr ESR_ELx_S1PTW ESR_ELx_S1PTW_SHIFT];;
    printk ("  CM = %lu, WnR = %lu" +:+ nl) [field esr ESR_ELx_CM ESR_ELx_CM_SHIFT; field esr ESR_ELx_WNR ESR_ELx_WNR_SHIFT];;
    dfsc ← esr_get_dfsc_string esr;
    printk ("  DFSC = %s" +:+ nl) [dfsc]
  else mret tt.

(** [while (1);], run for [fuel] rounds. *)
Definition panic (fuel : nat) : M (list call) unit := loop fuel (fun _ => mret (inl tt)) tt.

Definition report (far reason esr : Z) : M (list call) unit :=
  handler ← of_option (arr_get bad_mode_handler reason);
  cls ← esr_get_class_string esr;
  printk ("Bad mode for %s handler detected, far:0x%x esr:0x%x - %s" +:+ nl)
    [VStr handler; VNum far; VNum esr; VStr cls];;
  parse_esr esr.

Definition do_bad_mode (fuel : nat) (far reason esr : Z) : M (list call) unit :=
  report far reason esr;;
  panic fuel.

Definition do_sync : M (list call) unit := printk ("call do_sync" +:+ nl) [].

(** ** Properties *)

Lemma ESR_ELx_EC_eq esr : 0 <= esr < 2 ^ 32 -> ESR_ELx_EC esr = esr / 2 ^ 26.
Proof.
  intros H. unfold ESR_ELx_EC, ESR_ELx_EC_MASK, ESR_ELx_EC_SHIFT.
  rewrite Z.shiftr_land. change (Z.shiftr (Z.shiftl 63 26) 26) with (2 ^ 6 - 1).
  rewrite land_ones_mod, Z.shiftr_div_pow2 by lia. apply Z.mod_small.
  split; [apply Z.div_pos; lia|apply Z.div_lt_upper_bound; lia].
Qed.

(** Every string of the tables is short. *)
Definition short (s : string) : Prop := (length (Printk.bytes s) <= 50)%nat.

Lemma class_string esr l :
  0 <= esr < 2 ^ 32 -> exists s, esr_get_class_string esr l = Ret (s, l) /\ short s.
Proof.
  intros H. unfold esr_get_class_string. rewrite ESR_ELx_EC_eq by done.
  assert (0 <= esr / 2 ^ 26 < 64) as Hr by (split; [apply Z.div_pos; lia|apply Z.div_lt_upper_bound; lia]).
  unfold of_option, arr_get. rewrite decide_True by lia.
  destruct (lookup_lt_is_Some_2 esr_class_str (Z.to_nat (esr / 2 ^ 26))) as [s E].
  { change (length esr_class_str) with 64%nat. lia. }
  rewrite E. exists s. split; [done|].
  assert (Forall short esr_class_str) as Hs by (apply (bool_decide_unpack _); by vm_compute).
  by apply (Forall_lookup_1 _ _ _ _ Hs E).
Qed.

Lemma dfsc_string esr l :
  0 <= esr ->
  if 53 <? esr mod 64 then esr_get_dfsc_string esr l = Undef
  else exists g, esr_get_dfsc_string esr l = Ret (hd (VNum 0) (Printk.seg_args g), l) /\
    (g = Printk.Null \/ exists s, g = Printk.Str s /\ short s).
Proof.
  intros H. unfold esr_get_dfsc_string. change 0x3f with (2 ^ 6 - 1). rewrite land_ones_mod by lia.
  change (2 ^ 6) with 64. pose proof (Z.mod_pos_bound esr 64). set (i := esr mod 64) in *.
  unfold of_option, arr_get. rewrite decide_True by lia. destruct (Z.ltb_spec 53 i) as [Hi|Hi].
  - by rewrite lookup_ge_None_2 by (change (length data_fault_code) with 54%nat; lia).
  - destruct (lookup_lt_is_Some_2 data_fault_code (Z.to_nat i)) as [v E].
    { change (length data_fault_code) with 54%nat. lia. }
    rewrite E.
    assert (Forall (fun v => match v with VStr s => short s | VNum z => z = 0 end) data_fault_code) as Hs.
    { unfold data_fault_code. cbn. repeat constructor; by vm_compute. }
    apply (Forall_lookup_1 _ _ _ _ Hs) in E. destruct v as [z|s].
    + subst z. exists Printk.Null. auto.
    + exists (Printk.Str s). split; [done|]. eauto.
Qed.

(** A computation that returns, and prints only messages that [printk] can print. *)
Definition says (m : M (list call) unit) : Prop :=
  forall l, exists new, m l = Ret (tt, l ++ new) /\ Forall Printk.printable new.

Lemma says_printk fmt a : Printk.printable (fmt, a) -> says (printk fmt a).
Proof. intros H l. exists [(fmt, a)]. split; [done|]. by apply Forall_singleton. Qed.

Lemma says_ret : says (mret tt).
Proof. intros l. exists []. by rewrite app_nil_r. Qed.

Lemma says_seq m n : says m -> says n -> says (m;; n).
Proof.
  intros Hm Hn l. destruct (Hm l) as (n1 & E1 & F1). destruct (Hn (l ++ n1)) as (n2 & E2 & F2).
  exists (n1 ++ n2). unfold mbind, M_bind. rewrite E1, E2, app_assoc. split; [done|]. by apply Forall_app.
Qed.

Lemma says_read {A} (r : M (list call) A) (a : A) f :
  (forall l, r l = Ret (a, l)) -> says (f a) -> says (r ≫= f).
Proof. intros Hr Hf l. unfold mbind, M_bind. rewrite Hr. apply Hf. Qed.

Definition T (s : string) : Printk.seg := Printk.Text (Printk.bytes s).
Definition LU (z : Z) : Printk.seg := Printk.Num false 0 Printk.Ql Printk.Ku z.

(** A message given by its parts. *)
Ltac message gs :=
  apply says_printk;
  apply (Printk.printable_segs _ gs []);
  [reflexivity | by apply Printk.seg_okb_ok | apply Nat.ltb_lt; reflexivity].

Lemma says_abort esr g :
  0 <= esr -> (forall l, esr_get_dfsc_string esr l = Ret (hd (VNum 0) (Printk.seg_args g), l)) ->
  (g = Printk.Null \/ exists s, g = Printk.Str s /\ short s) ->
  says (
    printk ("  SET = %lu, FnV = %lu" +:+ nl) [field esr ESR_ELx_SET_MASK ESR_ELx_SET_SHIFT; field esr ESR_ELx_FnV ESR_ELx_FnV_SHIFT];;
    printk ("  EA = %lu, S1PTW = %lu" +:+ nl) [field esr ESR_ELx_EA ESR_ELx_EA_SHIFT; field esr ESR_ELx_S1PTW ESR_ELx_S1PTW_SHIFT];;
    printk ("  CM = %lu, WnR = %lu" +:+ nl) [field esr ESR_ELx_CM ESR_ELx_CM_SHIFT; field esr ESR_ELx_WNR ESR_ELx_WNR_SHIFT];;
    dfsc ← esr_get_dfsc_string esr;
    printk ("  DFSC = %s" +:+ nl) [dfsc]).
Proof.
  intros He Hd Hg. unfold field. apply says_seq; [|apply says_seq; [|apply says_seq]].
  - message [T "  SET = "; LU (Z.shiftr (Z.land esr ESR_ELx_SET_MASK) ESR_ELx_SET_SHIFT); T ", FnV = ";
             LU (Z.shiftr (Z.land esr ESR_ELx_FnV) ESR_ELx_FnV_SHIFT); T nl].
  - message [T "  EA = "; LU (Z.shiftr (Z.land esr ESR_ELx_EA) ESR_ELx_EA_SHIFT); T ", S1PTW = ";
             LU (Z.shiftr (Z.land esr ESR_ELx_S1PTW) ESR_ELx_S1PTW_SHIFT); T nl].
  - message [T "  CM = "; LU (Z.shiftr (Z.land esr ESR_ELx_CM) ESR_ELx_CM_SHIFT); T ", WnR = ";
             LU (Z.shiftr (Z.land esr ESR_ELx_WNR) ESR_ELx_WNR_SHIFT); T nl].
  - eapply says_read; [exact Hd|]. destruct Hg as [->|(s & -> & Hs)].
    + message [T "  DFSC = "; Printk.Null; T nl].
    + apply says_printk. apply (Printk.printable_segs _ [T "  DFSC = "; Printk.Str s; T nl] []);
        [reflexivity|by apply Printk.seg_okb_ok|]. cbn [sum_list_with Printk.seg_bound T].
      unfold short in Hs. change (length (Printk.bytes "  DFSC = ")) with 9%nat. change (length (Printk.bytes nl)) with 1%nat. lia.
Qed.

Definition is_abort (esr : Z) : bool := (esr / 2 ^ 26 =? ESR_ELx_EC_DABT_LOW) || (esr / 2 ^ 26 =? ESR_ELx_EC_DABT_CUR).

Lemma says_class esr :
  0 <= esr < 2 ^ 32 -> exists c, (forall l, esr_get_class_string esr l = Ret (c, l)) /\ short c /\
  says (printk ("ESR info:" +:+ nl) []) /\ says (printk ("  ESR = 0x%08x" +:+ nl) [VNum esr]) /\
  forall il, says (printk ("  Exception class = %s, IL = %u bits" +:+ nl) [VStr c; VNum il]).
Proof.
  intros He. destruct (class_string esr [] He) as (c & Ec & Hc). exists c. split; [|split; [done|]].
  { intros l. unfold esr_get_class_string, of_option in *. destruct (arr_get _ _); [|done]. by injection Ec as ->. }
  split; [message [T "ESR info:"; T nl]|].
  split; [message [T "  ESR = 0x"; Printk.Num true 8 Printk.Qint Printk.Kx esr; T nl]|].
  intros il. apply says_printk.
  apply (Printk.printable_segs _ [T "  Exception class = "; Printk.Str c; T ", IL = ";
    Printk.Num false 0 Printk.Qint Printk.Ku il; T " bits"; T nl] []);
    [reflexivity|by apply Printk.seg_okb_ok|].
  assert (sum_list_with Printk.seg_bound [T "  Exception class = "; Printk.Str c; T ", IL = ";
    Printk.Num false 0 Printk.Qint Printk.Ku il; T " bits"; T nl] = 123 + length (Printk.bytes c))%nat as ->.
  { cbn [sum_list_with Printk.seg_bound]. unfold T. cbn [Printk.seg_bound].
    change (length (Printk.bytes "  Exception class = ")) with 20%nat. change (length (Printk.bytes ", IL = ")) with 7%nat.
    change (length (Printk.bytes " bits")) with 5%nat. change (length (Printk.bytes nl)) with 1%nat. lia. }
  unfold short in Hc. lia.
Qed.

Lemma says_isv esr : says (
  if negb (Z.land esr ESR_ELx_ISV =? 0) then
    printk ("  Access size = %u byte(s)" +:+ nl) [VNum (u32 (Z.shiftl 1 (Z.shiftr (Z.land esr ESR_ELx_SAS) ESR_ELx_SAS_SHIFT)))];;
    printk ("  SSE = %lu, SRT = %lu" +:+ nl) [field esr ESR_ELx_SSE ESR_ELx_SSE_SHIFT; field esr ESR_ELx_SRT_MASK ESR_ELx_SRT_SHIFT];;
    printk ("  SF = %lu, AR = %lu" +:+ nl) [field esr ESR_ELx_SF ESR_ELx_SF_SHIFT; field esr ESR_ELx_AR ESR_ELx_AR_SHIFT]
  else mret tt).
Proof.
  destruct (negb _); [|apply says_ret]. unfold field. apply says_seq; [|apply says_seq].
  - message [T "  Access size = "; Printk.Num false 0 Printk.Qint Printk.Ku
               (u32 (Z.shiftl 1 (Z.shiftr (Z.land esr ESR_ELx_SAS) ESR_ELx_SAS_SHIFT))); T " byte(s)"; T nl].
  - message [T "  SSE = "; LU (Z.shiftr (Z.land esr ESR_ELx_SSE) ESR_ELx_SSE_SHIFT); T ", SRT = ";
             LU (Z.shiftr (Z.land esr ESR_ELx_SRT_MASK) ESR_ELx_SRT_SHIFT); T nl].
  - message [T "  SF = "; LU (Z.shiftr (Z.land esr ESR_ELx_SF) ESR_ELx_SF_SHIFT); T ", AR = ";
             LU (Z.shiftr (Z.land esr ESR_ELx_AR) ESR_ELx_AR_SHIFT); T nl].
Qed.

(** Which syndromes read past the end of the table of fault codes. *)
Definition overrun (esr : Z) : bool := is_abort esr && (53 <? esr mod 64).

Lemma parse_esr_eq esr :
  0 <= esr < 2 ^ 32 ->
  if overrun esr then forall l, parse_esr esr l = Undef else says (parse_esr esr).
Proof.
  intros He. destruct (says_class esr He) as (c & Ec & _ & M1 & M2 & M3).
  unfold overrun, parse_esr. rewrite ESR_ELx_EC_eq by done. fold (is_abort esr).
  assert (forall l, if 53 <? esr mod 64 then esr_get_dfsc_string esr l = Undef else _) as Hd
    by (intros l; apply (dfsc_string esr l); lia).
  destruct (is_abort esr) eqn:Ea; cbn [andb].
  - destruct (53 <? esr mod 64).
    + intros l. do 3 (unfold mbind at 1, M_bind at 1; cbn [printk modify]). rewrite Ec.
      unfold mbind, M_bind, printk, modify, mret, M_ret. destruct (negb (Z.land esr ESR_ELx_ISV =? 0)); by rewrite Hd.
    + destruct (Hd []) as (g & Eg & Hg).
      assert (forall l, esr_get_dfsc_string esr l = Ret (hd (VNum 0) (Printk.seg_args g), l)) as Hr.
      { intros l. unfold esr_get_dfsc_string, of_option in *. destruct (arr_get _ _); [|done]. by injection Eg as ->. }
      apply says_seq; [done|]. apply says_seq; [done|]. eapply says_read; [exact Ec|].
      apply says_seq; [apply M3|]. apply says_seq; [message [T "  Data abort info:"; T nl]|].
      apply says_seq; [apply says_isv|]. by apply (says_abort esr g); [lia| |].
  - apply says_seq; [done|]. apply says_seq; [done|]. eapply says_read; [exact Ec|].
    apply says_seq; [apply M3|apply says_ret].
Qed.

Lemma report_says far reason esr :
  0 <= esr < 2 ^ 32 -> 0 <= reason < 4 -> overrun esr = false -> says (report far reason esr).
Proof.
  intros He Hr Ho. pose proof (parse_esr_eq esr He) as Hp. rewrite Ho in Hp.
  destruct (says_class esr He) as (c & Ec & Hc & _). unfold report.
  destruct (lookup_lt_is_Some_2 bad_mode_handler (Z.to_nat reason)) as [h Eh]; [simpl; lia|].
  assert (short h) as Hh.
  { assert (Forall short bad_mode_handler) as Hs by (apply (bool_decide_unpack _); by vm_compute).
    by apply (Forall_lookup_1 _ _ _ _ Hs Eh). }
  apply (says_read _ h); [intros l; unfold of_option, arr_get; rewrite decide_True by lia; by rewrite Eh|].
  eapply says_read; [exact Ec|]. apply says_seq; [|done]. apply says_printk.
  set (gs := [T "Bad mode for "; Printk.Str h; T " handler detected, far:0x"; Printk.Num false 0 Printk.Qint Printk.Kx far;
              T " esr:0x"; Printk.Num false 0 Printk.Qint Printk.Kx esr; T " - "; Printk.Str c; T nl]).
  apply (Printk.printable_segs _ gs []); [reflexivity|by apply Printk.seg_okb_ok|].
  transitivity (300 + length (Printk.bytes h) + length (Printk.bytes c))%nat.
  - unfold gs, T. cbn [sum_list_with Printk.seg_bound].
    replace (length (Printk.bytes "Bad mode for ")) with 13%nat by done.
    replace (length (Printk.bytes " handler detected, far:0x")) with 25%nat by done.
    replace (length (Printk.bytes " esr:0x")) with 7%nat by done.
    replace (length (Printk.bytes " - ")) with 3%nat by done.
    replace (length (Printk.bytes nl)) with 1%nat by done. lia.
  - unfold short in *. lia.
Qed.

Lemma panic_spins fuel l : panic fuel l = NoFuel.
Proof. unfold panic. induction fuel as [|fuel IH]; [done|]. exact IH. Qed.

(** C39: Reporting an unexpected exception: for each of the four vectors and every syndrome of
    an exception class other than a data abort, or of a data abort with a fault code up
    to 0x35, the report is printed, every message of it defined and within the print
    buffer, and then the machine stops, [do_bad_mode] never returning. A data abort with a
    greater fault code reads past the table of fault codes, and so does a reason past the
    table of vectors. *)
Theorem do_bad_mode_spec fuel far reason esr l :
  0 <= esr < 2 ^ 32 ->
  if decide (0 <= reason < 4 /\ overrun esr = false)
  then (exists new, report far reason esr l = Ret (tt, l ++ new) /\ Forall Printk.printable new) /\
       do_bad_mode fuel far reason esr l = NoFuel
  else do_bad_mode fuel far reason esr l = Undef.
Proof.
  intros He. destruct (decide _) as [[Hr Ho]|Hn].
  - destruct (report_says far reason esr He Hr Ho l) as (new & E & F). split; [eauto|].
    unfold do_bad_mode, mbind, M_bind. rewrite E. apply panic_spins.
  - unfold do_bad_mode, report. unfold mbind at 1 2, M_bind at 1 2. unfold of_option, arr_get.
    destruct (decide (0 <= reason)) as [Hr|]; [|done].
    destruct (bad_mode_handler !! Z.to_nat reason) as [h|] eqn:Eh; [|done].
    apply lookup_lt_Some in Eh. simpl in Eh. pose proof (parse_esr_eq esr He) as Hp.
    destruct (overrun esr) eqn:Eo; [|exfalso; apply Hn; split; [lia|done]].
    destruct (says_class esr He) as (c & Ec & _). unfold mbind, M_bind. rewrite Ec.
    cbn [printk modify]. by rewrite Hp.
Qed.

(** The syndrome of a data abort with these fields; [x] is the bit that has no meaning. *)
Definition data_abort (fsc wnr s1ptw cm ea fnv set x ar sf srt sse sas isv il ec : Z) : Z :=
  Fields.pack data_abort_fields [fsc; wnr; s1ptw; cm; ea; fnv; set; x; ar; sf; srt; sse; sas; isv; il; ec].

(** C32: The report of a data abort is true: for any values of the fields of the syndrome, with a fault code of the
    table, [parse_esr] prints the class, the length and each field with the value it has in the syndrome, the
    fields of the instruction only when they are valid, and the name of the fault code. And every 32-bit
    value is the syndrome of its own fields. *)
Theorem parse_esr_reports fsc wnr s1ptw cm ea fnv set x ar sf srt sse sas isv il ec l :
  let vs := [fsc; wnr; s1ptw; cm; ea; fnv; set; x; ar; sf; srt; sse; sas; isv; il; ec] in
  let e := data_abort fsc wnr s1ptw cm ea fnv set x ar sf srt sse sas isv il ec in
  Forall2 Fields.fits data_abort_fields vs -> ec = ESR_ELx_EC_DABT_LOW \/ ec = ESR_ELx_EC_DABT_CUR -> fsc <= 0x35 ->
  0 <= e < 2 ^ 32 /\
  (forall e', 0 <= e' < 2 ^ 32 -> Fields.pack data_abort_fields ((fun f => Fields.get f e') <$> data_abort_fields) = e') /\
  exists name, arr_get data_fault_code fsc = Some name /\
  parse_esr e l = Ret (tt, l ++
    [("ESR info:" +:+ nl, []); ("  ESR = 0x%08x" +:+ nl, [VNum e]);
     ("  Exception class = %s, IL = %u bits" +:+ nl,
        [VStr (if ec =? ESR_ELx_EC_DABT_LOW then "DABT (lower EL)" else "DABT (current EL)"); VNum (if il =? 1 then 32 else 16)]);
     ("  Data abort info:" +:+ nl, [])] ++
    (if isv =? 1 then
       [("  Access size = %u byte(s)" +:+ nl, [VNum (2 ^ sas)]); ("  SSE = %lu, SRT = %lu" +:+ nl, [VNum sse; VNum srt]);
        ("  SF = %lu, AR = %lu" +:+ nl, [VNum sf; VNum ar])]
     else []) ++
    [("  SET = %lu, FnV = %lu" +:+ nl, [VNum set; VNum fnv]); ("  EA = %lu, S1PTW = %lu" +:+ nl, [VNum ea; VNum s1ptw]);
     ("  CM = %lu, WnR = %lu" +:+ nl, [VNum cm; VNum wnr]); ("  DFSC = %s" +:+ nl, [name])]).
Proof.
  intros vs e Hv Hec Hf. subst vs. unfold data_abort in e. pose proof (Fields.pack_range _ _ _ data_abort_tiles Hv) as Hr.
  pose proof (Fields.gets_pack _ _ _ data_abort_tiles Hv) as G. fold e in G, Hr. split; [exact Hr|]. split.
  { intros e' He'. rewrite (Fields.pack_get _ 0 32 e') by done. rewrite Z.div_1_r, Z.mul_1_r. by apply Z.mod_small. }
  clearbody e.
  cbn [data_abort_fields fmap list_fmap] in G. injection G as G1 G2 G3 G4 G5 G6 G7 G8 G9 G10 G11 G12 G13 G14 G15 G16.
  unfold Fields.get in *. cbn [Fields.mask Fields.shift] in *. rewrite Z.shiftr_0_r in G1.
  apply (Forall2_lookup_lr _ _ _ 0 (Fields.Fld ESR_ELx_FSC 0 6) fsc) in Hv as Hfsc; [|done..].
  apply (Forall2_lookup_lr _ _ _ 12 (Fields.Fld ESR_ELx_SAS ESR_ELx_SAS_SHIFT 2) sas) in Hv as Hsas; [|done..].
  apply (Forall2_lookup_lr _ _ _ 13 (Fields.Fld ESR_ELx_ISV ESR_ELx_ISV_SHIFT 1) isv) in Hv as Hisv; [|done..].
  apply (Forall2_lookup_lr _ _ _ 14 (Fields.Fld ESR_ELx_IL ESR_ELx_IL_SHIFT 1) il) in Hv as Hil; [|done..].
  unfold Fields.fits in *. cbn [Fields.width] in *.
  destruct (lookup_lt_is_Some_2 data_fault_code (Z.to_nat fsc)) as [name En].
  { change (length data_fault_code) with 54%nat. lia. }
  assert (arr_get data_fault_code fsc = Some name) as Ea by (unfold arr_get; by rewrite decide_True by lia).
  exists name. split; [exact Ea|].
  unfold parse_esr, esr_get_class_string, esr_get_dfsc_string, ESR_ELx_EC, field.
  change 0x3f with ESR_ELx_FSC. rewrite G1, G2, G3, G4, G5, G6, G7, G9, G10, G11, G12, G13, G16, Ea.
  change ESR_ELx_IL with (Z.shiftl 1 ESR_ELx_IL_SHIFT) in *. change ESR_ELx_ISV with (Z.shiftl 1 ESR_ELx_ISV_SHIFT) in *.
  rewrite (Fields.test_bit e ESR_ELx_IL_SHIFT il), (Fields.test_bit e ESR_ELx_ISV_SHIFT isv) by (done || lia).
  assert (u32 (Z.shiftl 1 sas) = 2 ^ sas) as ->.
  { rewrite Z.shiftl_1_l. apply u32_small. split; [lia|]. apply Z.pow_lt_mono_r; lia. }
  assert (arr_get esr_class_str ec = Some (if ec =? ESR_ELx_EC_DABT_LOW then "DABT (lower EL)" else "DABT (current EL)"))
    as -> by (by destruct Hec as [-> | ->]).
  assert ((ec =? ESR_ELx_EC_DABT_LOW) || (ec =? ESR_ELx_EC_DABT_CUR) = true) as -> by (by destruct Hec as [-> | ->]).
  destruct (isv =? 1); unfold mbind, M_bind, printk, modify, of_option, mret, M_ret; by rewrite <-!app_assoc.
Qed.

(** ** Witness *)

(** A translation fault at level 1 of a write. *)
Lemma do_bad_mode_spec_witness :
  (exists new, report 0x20001000 0 0x96000045 [] = Ret (tt, [] ++ new) /\ Forall Printk.printable new) /\
  do_bad_mode 1000 0x20001000 0 0x96000045 [] = NoFuel.
Proof. exact (do_bad_mode_spec 1000 0x20001000 0 0x96000045 [] ltac:(by vm_compute)). Defined.

(** The fault of [test_access_unmap_address]: a write that no section descriptor maps. *)
Lemma parse_esr_reports_witness :
  data_abort 6 1 0 0 0 0 0 0 0 0 0 0 0 0 1 0x25 = 0x96000046 /\
  exists name, arr_get data_fault_code 6 = Some name.
Proof.
  split; [reflexivity|].
  destruct (parse_esr_reports 6 1 0 0 0 0 0 0 0 0 0 0 0 0 1 0x25 []) as (_ & _ & name & E & _).
  - repeat (constructor; [by split|]). constructor.
  - by right.
  - lia.
  - exists name. exact E.
Defined.

End Traps.
