(* ===== verification/MainTests.v ===== *)
(** * The threads and tests of [init/main.c]

    [delay], [kernel_thread], [kernel_thread1], [kernel_thread2], and the accesses of
    [test_mmu] through the page tables that [paging_init] builds. A store that the tables do not
    allow is a fault, a value of the left type of a sum. *)

From S2P Require Import Prelude Base Mem Printk PageAlloc Pgtable Mmu PtWalk MmuMap MmuBoot Traps.
Import Mmu Walk MmuMap.

Module MainTests.

(** ** Threads *)

(** [while (n--);] on an [int]. *)
Definition delay_body {S} (n : Z) : M S (Z + unit) :=
  if n =? 0 then mret (inr tt) else mret (inl (s32 (n - 1))).
Definition delay {S} (n : Z) : M S unit := loop (Datatypes.S (Z.to_nat n)) delay_body n.

Definition printk (fmt : string) (a : list varg) : M (list call) unit := modify (fun l => l ++ [(fmt, a)]).

(** One round of the loop of each thread; [count] is an [u64]. *)
Definition kernel_thread_body (_ : unit) : M (list call) (unit + unit) :=
  delay 10000000;;
  printk ("%s: %s" +:+ nl) [VStr "kernel_thread"; VStr "12345"];;
  mret (inl tt).
Definition kernel_thread (fuel : nat) : M (list call) unit := loop fuel kernel_thread_body tt.

Definition kernel_thread1_body (args : string) (count : Z) : M (list call) (Z + unit) :=
  delay 80000;;
  printk ("%s: %s count=%ld" +:+ nl) [VStr "kernel_thread1"; VStr args; VNum count];;
  mret (inl (u64 (count + 1))).
Definition kernel_thread1 (fuel : nat) (args : string) : M (list call) unit :=
  loop fuel (kernel_thread1_body args) 0.

Definition kernel_thread2_body (args : string) (count : Z) : M (list call) (Z + unit) :=
  delay 50000;;
  printk ("%s: %s count=%d" +:+ nl) [VStr "kernel_thread2"; VStr args; VNum count];;
  mret (inl (u64 (count + 1))).
Definition kernel_thread2 (fuel : nat) (args : string) : M (list call) unit :=
  loop fuel (kernel_thread2_body args) 0.

Lemma delay_returns {S} k (s : S) : forall n,
  n = Z.of_nat k -> n < 2 ^ 31 -> loop (Datatypes.S k) delay_body n s = Ret (tt, s).
Proof.
  induction k as [|k IH]; intros n -> Hn; [done|]. rewrite loop_unfold.
  unfold mbind, M_bind, delay_body at 1. rewrite (proj2 (Z.eqb_neq _ _)) by lia. cbn.
  rewrite s32_small by lia. replace (Z.of_nat (Datatypes.S k) - 1) with (Z.of_nat k) by lia. by apply IH; [|lia].
Qed.

Lemma delay_eq {S} n (s : S) : 0 <= n < 2 ^ 31 -> delay n s = Ret (tt, s).
Proof. intros H. unfold delay. apply delay_returns; lia. Qed.

(** A body that prints the message of its counter and adds one to it prints the
    counters in order, for as many rounds as it is given. *)
Lemma counts (body : Z -> M (list call) (Z + unit)) (msg : Z -> call) :
  (forall c l, body c l = Ret (inl (u64 (c + 1)), l ++ [msg c])) ->
  forall k fuel c l, 0 <= c -> c + Z.of_nat k < 2 ^ 64 ->
  loop (k + fuel) body c l = loop fuel body (c + Z.of_nat k) (l ++ (msg <$> seqZ c (Z.of_nat k))).
Proof.
  intros Hb k fuel. induction k as [|k IH]; intros c l Hc Hk.
  - cbn. by rewrite Z.add_0_r, app_nil_r.
  - cbn [Nat.add]. rewrite loop_unfold. unfold mbind, M_bind. rewrite Hb, u64_small by lia.
    rewrite IH by lia. rewrite (seqZ_cons c) by lia. cbn [fmap list_fmap].
    rewrite <-app_assoc. cbn [app].
    replace (Z.pred (Z.of_nat (Datatypes.S k))) with (Z.of_nat k) by lia.
    by replace (c + Z.of_nat (Datatypes.S k)) with (c + 1 + Z.of_nat k) by lia.
Qed.

Definition message1 (args : string) (c : Z) : call :=
  ("%s: %s count=%ld" +:+ nl, [VStr "kernel_thread1"; VStr args; VNum c]).
Definition message2 (args : string) (c : Z) : call :=
  ("%s: %s count=%d" +:+ nl, [VStr "kernel_thread2"; VStr args; VNum c]).

(** What the two threads print in [k] rounds: the counters 0 to [k - 1], in order. *)
Lemma threads_count args k fuel l : Z.of_nat k < 2 ^ 64 ->
  loop (k + fuel) (kernel_thread1_body args) 0 l =
    loop fuel (kernel_thread1_body args) (Z.of_nat k) (l ++ (message1 args <$> seqZ 0 (Z.of_nat k))) /\
  loop (k + fuel) (kernel_thread2_body args) 0 l =
    loop fuel (kernel_thread2_body args) (Z.of_nat k) (l ++ (message2 args <$> seqZ 0 (Z.of_nat k))).
Proof.
  intros Hk. split; apply counts; try lia; intros c l'.
  - unfold kernel_thread1_body, mbind, M_bind. by rewrite delay_eq by lia.
  - unfold kernel_thread2_body, mbind, M_bind. by rewrite delay_eq by lia.
Qed.

(** The counter of [kernel_thread2] has 64 bits and its conversion shows 32 of them. *)
Lemma kernel_thread2_wraps :
  Printk.format (message2 "abcde" (2 ^ 32)).1 (message2 "abcde" (2 ^ 32)).2 =
  Printk.format (message2 "abcde" 0).1 (message2 "abcde" 0).2 /\
  Printk.format (message1 "12345" (2 ^ 32)).1 (message1 "12345" (2 ^ 32)).2 =
  Some (Printk.bytes ("kernel_thread1: 12345 count=4294967296" +:+ nl)).
Proof. split; by vm_compute. Qed.

(** ** Accesses through the page tables *)

(** The MMU enable bit, [SCTLR_EL1.M], as last written. *)
Fixpoint mmu_on (t : list sysev) : bool :=
  match t with
  | [] => false
  | MSR r v :: t => if String.eqb r "sctlr_el1" then Z.testbit v 0 else mmu_on t
  | SYS _ :: t => mmu_on t
  end.

(** A store of eight bytes, all in one page. With the MMU on it is a fault if the address is not mapped or is
    mapped read-only; with the MMU off it goes to the physical address. *)
Definition vstore64 (root va v : Z) : M mach (Z + unit) :=
  on ← gets (fun s : mach => mmu_on (trace s));
  r ← gets (fun s : mach => if (on : bool) then translate (ram s) root va else Some (va, 0));
  match r with
  | Some (pa, attrs) =>
      if negb (Z.land attrs PTE_RDONLY =? 0) then mret (inl va)
      else write pa v;; mret (inr tt)
  | None => mret (inl va)
  end.

(** The level of the descriptor that stops a walk, 0 to 3 from the root. *)
Fixpoint fault_level (m : mem) (n : nat) (e va : Z) : option Z :=
  let here := Some (3 - Z.of_nat n) in
  match n with
  | O => if e mod 4 =? 3 then None else here
  | S n' =>
      if e mod 4 =? 3 then fault_level m n' (load64 m (Z.land e PTE_ADDR_MASK + 8 * Walk.idx n' va)) va
      else if (e mod 4 =? 1) && bool_decide (n' < 2)%nat then None
      else here
  end.

Section Tests.
Context (im : image).

Definition test_access_map_address : M mach (Z + Z) :=
  let address := TOTAL_MEMORY - 4096 in
  r ← vstore64 (idmap_pg_dir im) address 0x55;
  match r with
  | inl f => mret (inl f)
  | inr _ => Mmu.printk ("%s access 0x%x done" +:+ nl) [VStr "test_access_map_address"; VNum address];; mret (inr 0)
  end.

Definition test_access_unmap_address : M mach (Z + Z) :=
  let address := TOTAL_MEMORY + 4096 in
  r ← vstore64 (idmap_pg_dir im) address 0x55;
  match r with
  | inl f => mret (inl f)
  | inr _ => Mmu.printk ("%s access 0x%x done" +:+ nl) [VStr "test_access_unmap_address"; VNum address];; mret (inr 0)
  end.

Definition test_mmu : M mach (Z + unit) :=
  r ← test_access_map_address;
  match r with
  | inl f => mret (inl f)
  | inr _ => r ← test_access_unmap_address; mret (match r with inl f => inl f | inr _ => inr tt end)
  end.

(** The fault of a walk and its level agree with the translation. *)
Lemma fault_level_walk m n : forall e va,
  fault_level m n e va = None <-> is_Some (Walk.walk_entry m n e va).
Proof.
  induction n as [|n IH]; intros e va; cbn [fault_level Walk.walk_entry].
  - destruct (e mod 4 =? 3); split; intros H; try done; by destruct H.
  - destruct (e mod 4 =? 3); [apply IH|].
    destruct ((e mod 4 =? 1) && bool_decide (n < 2)%nat); split; intros H; try done; by destruct H.
Qed.

(** [paging_init] turns the MMU on exactly on a CPU with 4 KB granules. *)
Lemma paging_init_on s :
  MmuBoot.image_ok im -> PageAlloc.wf (frames s) -> (1024 <= PageAlloc.free_frames (frames s))%nat ->
  mmu_on (trace s) = false ->
  exists s1, paging_init im s = Ret (tt, s1) /\ mmu_on (trace s1) = MmuBoot.has_4k_granule (mmfr0 s) /\
    forall va, 0 <= va < 2 ^ 48 -> translate (ram s1) (idmap_pg_dir im) va = MmuBoot.boot_map im va.
Proof.
  intros Him Hwf Hav Hoff. assert (1024 <= MmuBoot.bavail s) as H by (unfold avail, ta_avail; simpl; lia).
  apply (MmuBoot.paging_init_eq im s Him Hwf) in H. apply wp_elim in H as ([] & s1 & E & _ & M1 & _ & n & T).
  exists s1. split; [exact E|]. split; [|exact M1]. rewrite T.
  destruct (MmuBoot.has_4k_granule (mmfr0 s)); [done|]. cbn. clear -Hoff. by induction n.
Qed.

Lemma boot_map_last : MmuBoot.image_ok im -> MmuBoot.boot_map im 0x1ffff000 = Some (0x1ffff000, attrs PAGE_KERNEL).
Proof.
  intros Him. destruct (MmuBoot.BALIGN_etext im Him) as (Eb & He & Hm & _). pose proof (MmuBoot.im_text _ Him) as Ht.
  unfold MmuBoot.boot_map. rewrite Eb. change TOTAL_MEMORY with 0x20000000 in *.
  pose proof (Z.div_mod (req_hi 0 (_etext im)) 4096).
  rewrite decide_False by lia. by rewrite decide_True by lia.
Qed.

Lemma boot_map_beyond : MmuBoot.image_ok im -> MmuBoot.boot_map im 0x20001000 = None.
Proof.
  intros Him. destruct (MmuBoot.BALIGN_etext im Him) as (Eb & He & _).
  unfold MmuBoot.boot_map. rewrite Eb. change TOTAL_MEMORY with 0x20000000 in *.
  rewrite decide_False by lia. rewrite decide_False by lia. by rewrite decide_False by (unfold PBASE; lia).
Qed.

(** C40: The two accesses of [test_mmu] after [paging_init], for any image and free memory. The store to the last
    page of memory is done and reported. The store past the page after it faults, changes
    nothing and is not reported, on a CPU where [enable_mmu] succeeds; where it fails the MMU is off and this
    store too reaches memory. *)
Theorem test_accesses s :
  MmuBoot.image_ok im -> PageAlloc.wf (frames s) -> (1024 <= PageAlloc.free_frames (frames s))%nat ->
  mmu_on (trace s) = false ->
  exists s1, paging_init im s = Ret (tt, s1) /\
    exists s2, test_access_map_address s1 = Ret (inr 0, s2) /\
      ram s2 = store64 (ram s1) (TOTAL_MEMORY - 4096) 0x55 /\
      klog s2 = klog s1 ++ [("%s access 0x%x done" +:+ nl, [VStr "test_access_map_address"; VNum 0x1ffff000])] /\
      (if MmuBoot.has_4k_granule (mmfr0 s) then test_access_unmap_address s1 = Ret (inl (TOTAL_MEMORY + 4096), s1)
       else exists s3, test_access_unmap_address s1 = Ret (inr 0, s3) /\
              ram s3 = store64 (ram s1) (TOTAL_MEMORY + 4096) 0x55).
Proof.
  intros Him Hwf Hav Hoff. destruct (paging_init_on s Him Hwf Hav Hoff) as (s1 & E & On & M1).
  exists s1. split; [exact E|].
  pose proof (M1 0x1ffff000) as T1. pose proof (M1 0x20001000) as T2.
  rewrite boot_map_last in T1 by done. rewrite boot_map_beyond in T2 by done.
  unfold test_access_map_address, test_access_unmap_address, vstore64, gets, mbind, M_bind.
  change (TOTAL_MEMORY - 4096) with 0x1ffff000. change (TOTAL_MEMORY + 4096) with 0x20001000.
  rewrite On, T1, T2 by lia. destruct (MmuBoot.has_4k_granule (mmfr0 s)).
  - change (Z.land (attrs PAGE_KERNEL) PTE_RDONLY) with 0. eexists. split; [reflexivity|]. split; [reflexivity|]. split; reflexivity.
  - eexists. split; [reflexivity|]. split; [reflexivity|]. split; [reflexivity|]. eexists. split; reflexivity.
Qed.
End Tests.

Lemma test_accesses_witness :
  exists s1, paging_init MmuBoot.yios_image (MmuBoot.boot_state 0x1124) = Ret (tt, s1) /\
    test_access_unmap_address MmuBoot.yios_image s1 = Ret (inl 0x20001000, s1).
Proof.
  destruct (test_accesses MmuBoot.yios_image (MmuBoot.boot_state 0x1124) MmuBoot.yios_image_ok PageAlloc.wf_init
    (MmuBoot.boot_state_free 0x1124)) as (s1 & E & s2 & _ & _ & _ & H); [reflexivity|].
  exists s1. split; [exact E|exact H].
Defined.

(** The walk of the faulting store, on the image of [MmuBoot]: it stops at level 2, the level of the missing
    section descriptor, and the report of such a fault says so. *)
Example test_mmu_run :
  (match (paging_init MmuBoot.yios_image;; test_mmu MmuBoot.yios_image) (MmuBoot.boot_state 0x1124) with
   | Ret (inl f, s) => Some (f, fault_level (ram s) 3 (load64 (ram s) (0x88000 + 8 * idx 3 f)) f)
   | _ => None
   end) = Some (0x20001000, Some 2) /\
  arr_get Traps.data_fault_code (4 + 2) = Some (VStr "Translation fault, level2").
Proof. split; by vm_compute. Qed.

End MainTests.
