(* ===== verification/Entry.v ===== *)
(** * Exception entry and context switch, instruction by instruction

    [core/entry.S]: the vector table, the saving and restoring of the registers, the
    handlers, [ret_from_fork] and [cpu_switch_to], over the processor of [Arm] and the
    offsets of [Layout]. The compiled code of the C functions it calls is a parameter that
    keeps the procedure call standard, the class [Callee]. *)

From S2P Require Import Prelude Base Mem Uart Klist Sched Layout Arm Traps.
Import Arm Layout.

Module Entry.

Definition BAD_SYNC : Z := 0.
Definition BAD_IRQ : Z := 1.
Definition BAD_FIQ : Z := 2.
Definition BAD_ERROR : Z := 3.

(** ** The macros *)

(** The arguments of [do_bad_mode], to which the code branches. *)
Definition invalid (reason : Z) : M machine unit :=
  mov (X 0) SP;;
  movi (X 1) reason;;
  mrs (X 2) "esr_el1".

Definition trap_entry : M machine unit :=
  sub SP SP STACK_FRAME_SIZE;;
  stp (X 0) (X 1) SP (16 * 0);;
  stp (X 2) (X 3) SP (16 * 1);;
  stp (X 4) (X 5) SP (16 * 2);;
  stp (X 6) (X 7) SP (16 * 3);;
  stp (X 8) (X 9) SP (16 * 4);;
  stp (X 10) (X 11) SP (16 * 5);;
  stp (X 12) (X 13) SP (16 * 6);;
  stp (X 14) (X 15) SP (16 * 7);;
  stp (X 16) (X 17) SP (16 * 8);;
  stp (X 18) (X 19) SP (16 * 9);;
  stp (X 20) (X 21) SP (16 * 10);;
  stp (X 22) (X 23) SP (16 * 11);;
  stp (X 24) (X 25) SP (16 * 12);;
  stp (X 26) (X 27) SP (16 * 13);;
  stp (X 28) (X 29) SP (16 * 14);;
  add (X 21) SP STACK_FRAME_SIZE;;
  mrs (X 22) "elr_el1";;
  mrs (X 23) "spsr_el1";;
  stp LR (X 21) SP S_LR;;
  stp (X 22) (X 23) SP S_PC.

Definition trap_exit : M machine unit :=
  ldp (X 21) (X 22) SP S_PC;;
  msr "elr_el1" (X 21);;
  msr "spsr_el1" (X 22);;
  ldp (X 0) (X 1) SP (16 * 0);;
  ldp (X 2) (X 3) SP (16 * 1);;
  ldp (X 4) (X 5) SP (16 * 2);;
  ldp (X 6) (X 7) SP (16 * 3);;
  ldp (X 8) (X 9) SP (16 * 4);;
  ldp (X 10) (X 11) SP (16 * 5);;
  ldp (X 12) (X 13) SP (16 * 6);;
  ldp (X 14) (X 15) SP (16 * 7);;
  ldp (X 16) (X 17) SP (16 * 8);;
  ldp (X 18) (X 19) SP (16 * 9);;
  ldp (X 20) (X 21) SP (16 * 10);;
  ldp (X 22) (X 23) SP (16 * 11);;
  ldp (X 24) (X 25) SP (16 * 12);;
  ldp (X 26) (X 27) SP (16 * 13);;
  ldp (X 28) (X 29) SP (16 * 14);;
  ldr LR SP S_LR;;
  add SP SP STACK_FRAME_SIZE.

(** ** The vector table *)

Inductive label : Type :=
  | el1_sync_invalid | el1_irq_invalid | el1_fiq_invalid | el1_error_invalid
  | el0_sync_invalid | el0_irq_invalid | el0_fiq_invalid | el0_error_invalid
  | el1_irq | el0_sync | el0_irq.

(** [ventry]: a branch at the next multiple of 128. *)
Fixpoint ventries (off : Z) (ls : list label) : list (Z * label) :=
  match ls with
  | [] => []
  | l :: ls => let o := align_up off (2 ^ 7) in (o, l) :: ventries (o + 4) ls
  end.

Definition vector_table : list (Z * label) := ventries 0
  [el1_sync_invalid; el1_irq_invalid; el1_fiq_invalid; el1_error_invalid;
   el1_sync_invalid; el1_irq; el1_fiq_invalid; el1_error_invalid;
   el0_sync; el0_irq; el0_fiq_invalid; el0_error_invalid;
   el0_sync_invalid; el0_irq_invalid; el0_fiq_invalid; el0_error_invalid].

(** What the architecture says of an exception taken to EL1: where it comes from and its
    kind fix the entry it starts at, with all interrupts masked on the stack of EL1. The
    stack pointers are banked: with bit 0 of the processor state clear, at EL0 always, the
    current one is [sp_el0] and that of EL1 is out of reach, so taking the exception puts the current one
    away in [sp_el0] and makes [sp_el1] current, and the [eret] to such a state does the
    reverse. Code at EL1 on its own stack sees [sp_el0] as a plain system register. *)
Inductive source : Type := CurrentSP0 | CurrentSPx | Lower64 | Lower32.
Inductive kind : Type := Synchronous | Irq | Fiq | SError.

Definition source_no (e : source) : Z :=
  match e with CurrentSP0 => 0 | CurrentSPx => 1 | Lower64 => 2 | Lower32 => 3 end.
Definition kind_no (k : kind) : Z :=
  match k with Synchronous => 0 | Irq => 1 | Fiq => 2 | SError => 3 end.
Definition entry_offset (e : source) (k : kind) : Z := 0x200 * source_no e + 0x80 * kind_no k.

(** The exception level and stack that the mode bits of the processor state name; none for
    EL2 and EL3, from which no exception goes to EL1. *)
Definition source_of (ps : Z) : option source :=
  if Z.testbit ps 4 then Some Lower32
  else match Z.land ps 0xf with
       | 0 => Some Lower64 | 4 => Some CurrentSP0 | 5 => Some CurrentSPx | _ => None
       end.

Definition own_stack (ps : Z) : bool := Z.testbit ps 0.

Definition to_sp_el1 (s : machine) : machine :=
  if own_stack (pstate s) then s
  else with_sp (with_sys s (<["sp_el0" := sp s]> (sys s))) (sysreg s "sp_el1").

Definition from_sp_el1 (s : machine) : machine :=
  if own_stack (pstate s) then s
  else with_sp (with_sys s (<["sp_el1" := sp s]> (sys s))) (sysreg s "sp_el0").

Definition MASKED_EL1h : Z := 0x3c5.
Definition take_exception (e : source) (k : kind) : M machine unit := modify (fun s0 =>
  let s := to_sp_el1 s0 in
  with_pstate (with_pc
    (with_sys s (<["spsr_el1" := pstate s]> (<["elr_el1" := pc s]> (sys s))))
    (u64 (sysreg s "vbar_el1" + entry_offset e k))) MASKED_EL1h).

(** [eret] at EL1. *)
Definition eret_el1 : M machine unit := eret "elr_el1" "spsr_el1";; modify from_sp_el1.

(** The branch found there. *)
Definition vector (e : source) (k : kind) : option label :=
  snd <$> List.find (fun v => v.1 =? entry_offset e k) vector_table.

(** ** The handlers *)

Inductive ending : Type := Returned | BadMode.

Section Handlers.
(** The compiled C functions, and the return address of each [bl]. *)
Context (do_sync do_irq preempt_schedule_irq schedule_tail : M machine unit) (here : nat -> Z).

Definition return_from_trap : M machine unit := trap_exit;; eret_el1.

(** No entry of the table leads to it. *)
Definition el1_sync : M machine unit :=
  trap_entry;; mov (X 0) SP;; bl (here 0) do_sync;; return_from_trap.

(** The macro of [asm/assembler.h]. *)
Definition get_thread_info (rd : reg) : M machine unit := mrs rd "sp_el0".

(** The test whether to preempt the interrupted task; [tsk] is x28. *)
Definition preempt_test : M machine bool :=
  get_thread_info (X 28);;
  ldr_w (X 24) (X 28) TI_PREEMPT;;
  w24 ← rd (X 24);
  if negb (w24 =? 0) then mret false
  else
    ldr_w (X 0) (X 28) NEED_RESCHED;;
    w0 ← rd (X 0);
    mret (negb (w0 =? 0)).

(** The address it returns to. *)
Definition el1_preempt : M machine Z :=
  mov (X 24) LR;; bl (here 1) preempt_schedule_irq;; rd (X 24).

Definition el1_irq_code : M machine unit :=
  trap_entry;; mov (X 0) SP;; bl (here 2) do_irq;;
  b ← preempt_test;
  (if b : bool then r ← bl (here 3) el1_preempt; if r =? here 3 then mret tt else undef
   else mret tt);;
  return_from_trap.

Definition el0_sync_code : M machine unit :=
  trap_entry;; mov (X 0) SP;; bl (here 4) do_sync;; return_from_trap.

Definition el0_irq_code : M machine unit :=
  trap_entry;; mov (X 0) SP;; bl (here 5) do_irq;; return_from_trap.

Definition handler (l : label) : M machine ending :=
  match l with
  | el1_sync_invalid | el0_sync_invalid => invalid BAD_SYNC;; mret BadMode
  | el1_irq_invalid | el0_irq_invalid => invalid BAD_IRQ;; mret BadMode
  | el1_fiq_invalid | el0_fiq_invalid => invalid BAD_FIQ;; mret BadMode
  | el1_error_invalid | el0_error_invalid => invalid BAD_ERROR;; mret BadMode
  | el1_irq => el1_irq_code;; mret Returned
  | el0_sync => el0_sync_code;; mret Returned
  | el0_irq => el0_irq_code;; mret Returned
  end.

(** An exception from the interrupted instruction to the next one. *)
Definition exception (e : source) (k : kind) : M machine ending :=
  take_exception e k;;
  l ← of_option (vector e k);
  handler l.

(** ** ret_from_fork *)

(** Where it goes: to the thread with its argument, or to [ret_to_user]. *)
Definition ret_to_user : M machine ending := invalid BAD_ERROR;; mret BadMode.
Definition ret_from_fork : M machine (option (Z * Z)) :=
  bl (here 6) schedule_tail;;
  f ← rd (X 19);
  if f =? 0 then ret_to_user;; mret None
  else mov (X 0) (X 20);; a ← rd (X 0); mret (Some (f, a)).

End Handlers.

(** [traigger_alignment]: a load of eight bytes from an address that is no multiple of 8. *)
Definition traigger_alignment : M machine unit := movi (X 0) 0x80002;; ldr (X 1) (X 0) 0.

(** ** cpu_switch_to *)

Definition cpu_switch_to : M machine unit :=
  add (X 8) (X 0) THREAD_CPU_CONTEXT;;
  mov (X 9) SP;;
  stp_post (X 19) (X 20) (X 8) 16;;
  stp_post (X 21) (X 22) (X 8) 16;;
  stp_post (X 23) (X 24) (X 8) 16;;
  stp_post (X 25) (X 26) (X 8) 16;;
  stp_post (X 27) (X 28) (X 8) 16;;
  stp_post (X 29) (X 9) (X 8) 16;;
  str LR (X 8) 0;;
  add (X 8) (X 1) THREAD_CPU_CONTEXT;;
  ldp_post (X 19) (X 20) (X 8) 16;;
  ldp_post (X 21) (X 22) (X 8) 16;;
  ldp_post (X 23) (X 24) (X 8) 16;;
  ldp_post (X 25) (X 26) (X 8) 16;;
  ldp_post (X 27) (X 28) (X 8) 16;;
  ldp_post (X 29) (X 9) (X 8) 16;;
  ldr LR (X 8) 0;;
  mov SP (X 9);;
  msr "sp_el0" (X 1);;
  r ← rd LR;
  modify (fun s => with_pc s r).

(** ** The frame *)

(** The state after [trap_entry]: the frame holds the thirty-one registers, the stack pointer
    and the saved address and state. *)
Definition frame_of (s : machine) : list Z :=
  x s ++ [sp s; sysreg s "elr_el1"; sysreg s "spsr_el1"].

Definition entered (s : machine) : machine :=
  Mc (<[23%nat := sysreg s "spsr_el1"]> (<[22%nat := sysreg s "elr_el1"]> (<[21%nat := sp s]> (x s))))
     (sp s - 272) (pc s) (pstate s) (sys s) (store64s (ram s) (sp s - 272) (frame_of s)) (hist s).

Ltac run_code :=
  cbv beta iota zeta delta [stp ldp str ldr ldr_w add sub mov movi mrs msr stp_post ldp_post rd wr gets modify
    mbind M_bind xreg sysreg setx with_x with_sp with_sys with_ram x sp pc pstate sys ram hist nth insert list_insert
    store64s app].

Lemma trap_entry_eq s :
  wf s -> 272 <= sp s -> trap_entry s = Ret (tt, entered s).
Proof.
  destruct s as [l p c ps sy m h]. intros (Hl & _ & Hp & _) Hsp. cbn [x sp] in *. unfold is64 in Hp.
  regs_of l Hl. unfold trap_entry, entered, frame_of.
  destruct asm_offset_values as (-> & -> & _ & -> & _). run_code.
  rewrite (u64_small (p - 272)) by lia. repeat rewrite u64_small by lia.
  repeat (f_equal; try lia).
Qed.

(** The state after [trap_exit], from the frame at the stack pointer. *)
Definition left_to (s : machine) : machine :=
  Mc (load64s (ram s) (sp s) 31) (sp s + 272) (pc s) (pstate s)
     (<["spsr_el1" := load64 (ram s) (sp s + 264)]> (<["elr_el1" := load64 (ram s) (sp s + 256)]> (sys s)))
     (ram s) (hist s).

Lemma trap_exit_eq s :
  wf s -> sp s + 272 < 2 ^ 64 -> trap_exit s = Ret (tt, left_to s).
Proof.
  destruct s as [l p c ps sy m h]. intros (Hl & _ & Hp & _) Hsp. cbn [x sp] in *. unfold is64 in Hp.
  regs_of l Hl. unfold trap_exit, left_to.
  destruct asm_offset_values as (-> & -> & _ & -> & _). run_code.
  repeat rewrite u64_small by lia. unfold load64s. cbn [fmap list_fmap seqZ].
  repeat (f_equal; try lia).
Qed.

(** ** What a called C function keeps *)

(** The procedure call standard, as far as the callers here rely on it: the callee returns,
    with the stack pointer and the callee-saved registers as they were, and writes no
    byte of the frame at the stack pointer, as the C functions called here do not write through their
    [struct pt_regs] pointer. *)
Record kept (s s' : machine) : Prop := Kept {
  kept_wf : wf s';
  kept_sp : sp s' = sp s;
  kept_regs : forall n, (19 <= n <= 29)%nat -> xreg s' n = xreg s n;
  kept_frame : forall a, sp s <= a < sp s + 272 -> load8 (ram s') a = load8 (ram s) a;
}.

Class Callee (f : M machine unit) : Prop :=
  callee_ok : forall s, wf s -> wp f s (fun _ s' => kept s s').

(** Between entry and exit the stack pointer and the frame stay. *)
Record intact (s0 s : machine) : Prop := Intact {
  intact_wf : wf s;
  intact_sp : sp s = sp s0;
  intact_frame : forall a, sp s0 <= a < sp s0 + 272 -> load8 (ram s) a = load8 (ram s0) a;
}.

Lemma intact_refl s : wf s -> intact s s.
Proof. by constructor. Qed.

Lemma intact_kept s0 s s' : intact s0 s -> kept s s' -> intact s0 s'.
Proof.
  intros [H1 H2 H3] [K1 K2 _ K4]. constructor; [done|congruence|].
  intros a Ha. rewrite K4 by congruence. by apply H3.
Qed.

Lemma intact_x s0 s n v : intact s0 s -> is64 v -> intact s0 (setx n v s).
Proof. intros [H1 H2 H3] Hv. constructor; [by apply wf_x|done|done]. Qed.

#[local] Hint Resolve intact_x intact_wf : arm.

Lemma wp_mov_x d n s (Q : unit -> machine -> Prop) :
  Q tt (setx d (xreg s n) s) -> wp (mov (X d) (X n)) s Q.
Proof. done. Qed.

Lemma wf_entered s : wf s -> 272 <= sp s -> wf (entered s).
Proof.
  intros (Hl & Hx & Hs & Hp & Hq & H) H0. unfold wf, entered. cbn [x sp pc pstate].
  split; [by rewrite !length_insert|]. split; [|split; [unfold is64 in *; lia|done]].
  by do 3 (apply Forall_insert; [|apply H || done]).
Qed.

(** Leaving with the frame of an entry untouched restores everything. *)
Lemma left_entered s s' :
  wf s -> 272 <= sp s -> intact (entered s) s' ->
  x (left_to s') = x s /\ sp (left_to s') = sp s /\
  sysreg (left_to s') "elr_el1" = sysreg s "elr_el1" /\ sysreg (left_to s') "spsr_el1" = sysreg s "spsr_el1".
Proof.
  intros (Hl & Hx & Hs & _ & _ & H) H0 [_ E Hf]. cbn [entered sp ram] in E, Hf.
  assert (Forall is64 (frame_of s)) as HF by (apply Forall_app; split; [done|by repeat constructor; try apply H; try apply Hs]).
  assert (length (frame_of s) = 34%nat) as HL by (unfold frame_of; rewrite length_app, Hl; done).
  assert (load64s (ram s') (sp s') 34 = frame_of s) as EF.
  { rewrite <-(load64s_store64s (ram s) (sp s - 272) (frame_of s) HF), HL, E.
    apply load64s_ext. intros b Hb. apply Hf. lia. }
  change 34%nat with (31 + 3)%nat in EF. rewrite load64s_app in EF. unfold frame_of in EF.
  apply app_inj_1 in EF as [EF1 EF2]; [|by rewrite length_load64s].
  cbn [left_to x sp]. split; [done|]. split; [lia|].
  injection EF2 as _ E2 E3. unfold sysreg at 1 3. cbn [left_to sys].
  rewrite lookup_insert_ne, !lookup_insert_eq by done.
  replace (sp s' + 256) with (sp s' + 8 * Z.of_nat 31 + 8 * 1) by lia.
  replace (sp s' + 264) with (sp s' + 8 * Z.of_nat 31 + 8 * 2) by lia. auto.
Qed.

(** The handler each exception is meant for. *)
Definition expected (e : source) (k : kind) : label :=
  match e, k with
  | CurrentSPx, Irq => el1_irq
  | Lower64, Synchronous => el0_sync
  | Lower64, Irq => el0_irq
  | (CurrentSP0 | CurrentSPx), Synchronous => el1_sync_invalid
  | CurrentSP0, Irq => el1_irq_invalid
  | (CurrentSP0 | CurrentSPx), Fiq => el1_fiq_invalid
  | (CurrentSP0 | CurrentSPx), SError => el1_error_invalid
  | Lower32, Synchronous => el0_sync_invalid
  | Lower32, Irq => el0_irq_invalid
  | (Lower64 | Lower32), Fiq => el0_fiq_invalid
  | (Lower64 | Lower32), SError => el0_error_invalid
  end.

Lemma vector_expected e k : vector e k = Some (expected e k).
Proof. by destruct e, k. Qed.

Section Transparent.
Context (do_sync do_irq preempt_schedule_irq : M machine unit) (here : nat -> Z).
Context `{!Callee do_sync, !Callee do_irq, !Callee preempt_schedule_irq} (Hhere : forall n, is64 (here n)).

(** The stack pointer of EL1, current or not. *)
Definition kernel_sp (s : machine) : Z := if own_stack (pstate s) then sp s else sysreg s "sp_el1".

(** The interrupted code at [s] goes on at its instruction with its registers and processor
    state, and the stack of EL1 is as deep as before. *)
Definition resumes (s s' : machine) : Prop :=
  x s' = x s /\ pc s' = pc s /\ pstate s' = pstate s /\ kernel_sp s' = kernel_sp s.

(** The state in which the handler starts. *)
Definition taken (e : source) (k : kind) (s0 : machine) : machine :=
  let s := to_sp_el1 s0 in
  with_pstate (with_pc
    (with_sys s (<["spsr_el1" := pstate s]> (<["elr_el1" := pc s]> (sys s))))
    (u64 (sysreg s "vbar_el1" + entry_offset e k))) MASKED_EL1h.

Lemma to_sp_el1_same s :
  x (to_sp_el1 s) = x s /\ pc (to_sp_el1 s) = pc s /\ pstate (to_sp_el1 s) = pstate s /\
  sp (to_sp_el1 s) = kernel_sp s /\ ram (to_sp_el1 s) = ram s /\ hist (to_sp_el1 s) = hist s /\
  forall r, r <> "sp_el0" -> sysreg (to_sp_el1 s) r = sysreg s r.
Proof.
  unfold to_sp_el1, kernel_sp. destruct (own_stack (pstate s)); [done|]. do 6 (split; [done|]).
  intros r Hr. unfold sysreg. cbn [sys with_sp with_sys]. by rewrite lookup_insert_ne.
Qed.

Lemma to_sp_el1_wf s : wf s -> wf (to_sp_el1 s).
Proof.
  intros Hw. unfold to_sp_el1. destruct (own_stack (pstate s)); [done|].
  destruct (wf_sys s "sp_el0" (sp s) Hw ltac:(apply Hw)) as (? & ? & _ & ? & ? & ?).
  do 2 (split; [done|]). split; [apply Hw|done].
Qed.

Lemma taken_wf e k s : wf s -> wf (taken e k s).
Proof.
  intros Hw. pose proof (to_sp_el1_wf s Hw) as Hs. unfold taken. set (t := to_sp_el1 s) in *. clearbody t.
  destruct Hs as (Hl & Hx & Hs & Hp & Hq & H).
  destruct (wf_sys _ "spsr_el1" (pstate t) (wf_sys t "elr_el1" (pc t) (conj Hl (conj Hx (conj Hs (conj Hp (conj Hq H))))) Hp) Hq)
    as (_ & _ & _ & _ & _ & H').
  split; [done|]. split; [done|]. split; [done|]. split; [apply u64_is64|]. split; [done|]. exact H'.
Qed.

Lemma taken_sp e k s : sp (taken e k s) = kernel_sp s.
Proof. apply to_sp_el1_same. Qed.

(** A saved system register, when none but the two of the exception are written after it. *)
Lemma taken_sys e k s r : r <> "elr_el1" -> r <> "spsr_el1" -> sysreg (taken e k s) r = sysreg (to_sp_el1 s) r.
Proof. intros H1 H2. unfold taken, sysreg. cbn [sys with_pstate with_pc with_sys]. by rewrite !lookup_insert_ne. Qed.

(** The end of every handler, whatever ran since the entry: the interrupted code goes on,
    with the register [sp_el0] as its stack pointer if it had that one. *)
Lemma return_from_trap_resumes e k s s' :
  wf s -> 272 <= kernel_sp s -> intact (entered (taken e k s)) s' ->
  wp return_from_trap s' (fun _ s'' => resumes s s'' /\
    (own_stack (pstate s) = false -> sp s'' = sysreg s' "sp_el0")).
Proof.
  intros Hw H0 Hi. pose proof (taken_wf e k s Hw) as Hw'. rewrite <-(taken_sp e k) in H0.
  destruct (left_entered _ _ Hw' H0 Hi) as (E1 & E2 & E3 & E4).
  pose proof (to_sp_el1_same s) as (X1 & X2 & X3 & _).
  assert (sysreg (taken e k s) "elr_el1" = pc s) as EP.
  { unfold sysreg, taken. cbn [sys with_pstate with_pc with_sys]. rewrite lookup_insert_ne by done. by rewrite lookup_insert_eq, X2. }
  assert (sysreg (taken e k s) "spsr_el1" = pstate s) as ES.
  { unfold sysreg, taken. cbn [sys with_pstate with_pc with_sys]. by rewrite lookup_insert_eq, X3. }
  rewrite EP in E3. rewrite ES in E4. change (x (taken e k s)) with (x (to_sp_el1 s)) in E1. rewrite X1 in E1.
  rewrite taken_sp in E2. unfold return_from_trap. wp_step. eapply wp_intro.
  - apply trap_exit_eq; [apply Hi|]. rewrite (intact_sp _ _ Hi). cbn [entered sp].
    destruct Hw' as (_ & _ & Hs & _). unfold is64 in Hs. lia.
  - unfold eret_el1, eret. do 2 wp_step. wp_step. unfold resumes, from_sp_el1. cbn [pstate with_pc with_pstate].
    rewrite E4. unfold kernel_sp in *. destruct (own_stack (pstate s)) eqn:EO;
      cbn [x sp pc pstate with_pc with_pstate with_sp with_sys]; rewrite ?E4, ?EO, ?E1, ?E3; unfold sysreg in *;
      cbn [sys with_pc with_pstate with_sp with_sys left_to sp] in *; rewrite ?lookup_insert_eq.
    + done.
    + by rewrite !lookup_insert_ne.
Qed.

Lemma call_intact (R : Z -> Z -> Prop) f r s0 s (Q : unit -> machine -> Prop) :
  Callee f -> is64 r -> intact s0 s ->
  (forall t, wf t -> wp f t (fun _ t' => R (sysreg t "sp_el0") (sysreg t' "sp_el0"))) ->
  (forall s', intact s0 s' -> R (sysreg s "sp_el0") (sysreg s' "sp_el0") -> Q tt s') -> wp (bl r f) s Q.
Proof.
  intros Hf Hr Hi HR HQ. unfold bl, wr. do 2 wp_step. set (s1 := setx 30 r s).
  assert (wf s1) as Hw by (unfold s1; eauto with arm).
  pose proof (Hf s1 Hw) as H1. pose proof (HR s1 Hw) as H2. unfold wp in *.
  destruct (f s1) as [[[] s']| |]; [|done|done]. apply HQ; [|exact H2].
  eapply intact_kept; [|exact H1]. unfold s1. eauto with arm.
Qed.

(** The stack pointer that is current, from the mode bits. *)
Lemma source_stack ps e :
  source_of ps = Some e ->
  (e = CurrentSPx -> own_stack ps = true) /\ (e = Lower64 -> own_stack ps = false).
Proof.
  unfold source_of, own_stack. intros H.
  replace (Z.testbit ps 0) with (Z.testbit (Z.land ps 0xf) 0) by (rewrite Z.land_spec; apply andb_true_r).
  destruct (Z.testbit ps 4); [injection H as <-; by split|].
  destruct (Z.land ps 0xf) as [|[[[]|[]|]|[[]|[]|]|]|]; try discriminate H; injection H as <-; by split.
Qed.

Lemma preempt_test_intact s0 s : intact s0 s -> wp preempt_test s (fun _ s' => intact s0 s').
Proof.
  intros Hi. unfold preempt_test, get_thread_info, mrs, ldr_w, wr, rd. wp_steps.
  assert (is64 (sysreg s "sp_el0")) as H1 by apply Hi.
  destruct (negb _); wp_steps; eauto 8 with arm.
Qed.

Lemma el1_preempt_returns r s0 s (Q : Z -> machine -> Prop) :
  is64 r -> intact s0 s -> (forall s', intact s0 s' -> Q r s') ->
  wp (bl r (el1_preempt preempt_schedule_irq here)) s Q.
Proof.
  intros Hr Hi HQ. unfold bl, el1_preempt, mov, wr, rd, bl. wp_steps.
  set (s1 := setx _ _ s). set (s2 := setx _ _ s1). unfold wr. wp_step. set (s3 := setx _ _ s2).
  assert (wf s) as Hw by apply Hi. assert (wf s1) as Hw1 by eauto with arm.
  assert (xreg s1 30 = r) as E1 by (apply xreg_eq; [done|lia]).
  assert (wf s2) as Hw2 by eauto with arm.
  eapply wp_mono; [apply callee_ok; eauto with arm|]. intros [] s' Hk. wp_steps.
  replace (xreg s' 24) with r.
  - apply HQ. eapply intact_kept; [|exact Hk]. unfold s3, s2, s1. eauto 8 with arm.
  - rewrite (kept_regs _ _ Hk) by lia. unfold s3. rewrite xreg_ne by lia. unfold s2.
    rewrite xreg_eq by (done || lia). done.
Qed.

Lemma entry_intact s (rest : M machine unit) (Q : unit -> machine -> Prop) :
  wf s -> 272 <= sp s ->
  (forall s', intact (entered s) s' -> sysreg s' "sp_el0" = sysreg s "sp_el0" -> wp rest s' Q) ->
  wp (trap_entry;; mov (X 0) SP;; rest) s Q.
Proof.
  intros Hw H0 HQ. wp_step. eapply wp_intro; [by apply trap_entry_eq|].
  pose proof (wf_entered s Hw H0) as Hw'. unfold mov, wr, rd. wp_steps. apply HQ; [|done].
  apply intact_x; [by apply intact_refl|]. apply Hw'.
Qed.

(** The exceptions that the code handles. *)
Definition handled (e : source) (k : kind) : bool :=
  match e, k with CurrentSPx, Irq | Lower64, Synchronous | Lower64, Irq => true | _, _ => false end.

(** The C function that the entry from user code calls. *)
Definition user_handler (k : kind) : M machine unit :=
  match k with Synchronous => do_sync | _ => do_irq end.

(** C11: An interrupt of the kernel, and a synchronous exception or interrupt of user code:
    whatever the C handler does, whether or not the task is preempted in between, and
    whatever happens to [elr_el1] and [spsr_el1] meanwhile, the handler returns to the interrupted
    instruction with all thirty-one registers and the processor state as they were and
    the stack of EL1 at its old depth, which is the stack pointer of the interrupted code if that is the
    kernel's, provided that stack has room for the frame. User code runs on
    [sp_el0], which the frame does not hold: its stack pointer comes back related to the old one as the C handler
    relates the register [sp_el0] after it to before it, by any relation [R] it keeps: equal
    if the handler leaves the register alone, and the next task's address if it switches tasks. *)
Theorem exception_transparent (R : Z -> Z -> Prop) e k s :
  handled e k = true -> source_of (pstate s) = Some e -> wf s -> 272 <= kernel_sp s ->
  (e = Lower64 ->
     forall t, wf t -> wp (user_handler k) t (fun _ t' => R (sysreg t "sp_el0") (sysreg t' "sp_el0"))) ->
  wp (exception do_sync do_irq preempt_schedule_irq here e k) s (fun r s' => r = Returned /\ resumes s s' /\
    (e = CurrentSPx -> sp s' = sp s) /\ (e = Lower64 -> R (sp s) (sp s'))).
Proof.
  intros Hk He Hw H0 HR. destruct (source_stack _ _ He) as [HO1 HO2].
  unfold exception. wp_step. unfold take_exception. wp_step. fold (taken e k s).
  pose proof (taken_wf e k s Hw) as Hw'. pose proof H0 as H1. rewrite <-(taken_sp e k) in H1.
  set (Q := fun r s' => r = Returned /\ resumes s s' /\ (e = CurrentSPx -> sp s' = sp s) /\ (e = Lower64 -> R (sp s) (sp s'))).
  assert (forall s', intact (entered (taken e k s)) s' -> (e = Lower64 -> R (sp s) (sysreg s' "sp_el0")) ->
    wp return_from_trap s' (fun _ s'' => wp (mret Returned) s'' Q)) as Hend.
  { intros s' Hi Hs. eapply wp_mono; [by apply (return_from_trap_resumes e k s s')|].
    intros [] s'' [Hr Hq]. wp_step. split; [done|]. split; [done|]. split; intros ->.
    - destruct Hr as (_ & _ & Ep & Ek). unfold kernel_sp in Ek. by rewrite Ep, HO1 in Ek.
    - rewrite Hq by auto. auto. }
  assert (e = Lower64 -> sysreg (taken e k s) "sp_el0" = sp s) as HS.
  { intros ->. rewrite taken_sys by done. unfold to_sp_el1, sysreg. rewrite HO2 by done.
    cbn [sys with_sp with_sys]. by rewrite lookup_insert_eq. }
  destruct e, k; try discriminate Hk; wp_step; (eapply wp_of_option; [apply vector_expected|]); cbn [handler expected]; wp_step;
    (apply entry_intact; [exact Hw'|exact H1|]); intros s1 I1 ES; wp_step.
  2,3: (eapply (call_intact R); [exact _|done|exact I1|by apply HR|]); intros s2 I2 HR2;
    apply Hend; [done|]; intros _; rewrite ES, HS in HR2; auto.
  apply (call_intact (fun _ _ => True) _ _ (entered (taken CurrentSPx Irq s))); [exact _|done|exact I1| |].
  { intros t Ht. eapply wp_mono; [by apply callee_ok|]. done. }
  intros s2 I2 _. wp_step. eapply wp_mono; [by apply (preempt_test_intact _ s2 I2)|]. intros b s3 I3. wp_step.
  destruct b; [|wp_step; by apply Hend]. wp_step.
  eapply el1_preempt_returns; [done|exact I3|]. intros s4 I4. rewrite Z.eqb_refl. wp_step. by apply Hend.
Qed.

End Transparent.

(** ** The context switch against the scheduler's model *)

(** The callee-saved registers as [struct cpu_context] orders them. *)
Definition context_regs (s : machine) : list Z :=
  ((fun n => xreg s n) <$> seq 19 11) ++ [sp s; xreg s 30].

Definition context_list (l : list Z) : Sched.cpu_context :=
  let r n := nth n l 0 in
  Sched.CpuContext (r 0%nat) (r 1%nat) (r 2%nat) (r 3%nat) (r 4%nat) (r 5%nat) (r 6%nat) (r 7%nat) (r 8%nat)
    (r 9%nat) (r 10%nat) (r 11%nat) (r 12%nat).

(** The [struct task_struct] in memory at [p]. *)
Definition off (f : string) : Z := default 0 (offsetof task_struct_members f).

Definition task_at (m : mem) (p : Z) : Sched.task_struct :=
  let int f := s32 (load32 m (p + off f)) in
  Sched.Task (int "state") (int "flags") (s64 (load64 m (p + off "count"))) (int "priority") (int "pid")
    (context_list (load64s m (p + off "cpu_context") 13))
    (int "need_resched") (int "preempt_count")
    (load64 m (p + off "next_task")) (load64 m (p + off "prev_task")).

(** A processor state and a state of the scheduler's model that agree on the running
    registers, the current task, the interrupt mask and every task. *)
Record sim (s : machine) (k : Sched.ks) : Prop := Sim {
  sim_wf : wf s;
  sim_regs : context_list (context_regs s) = Sched.regs (Sched.cpu k);
  sim_cur : sysreg s "sp_el0" = Sched.sp_el0 (Sched.cpu k);
  sim_irq : negb (Z.testbit (pstate s) 7) = Sched.irq_on (Sched.cpu k);
  sim_tasks : forall p t, Sched.tasks k !! p = Some t -> task_at (ram s) p = t;
}.

(** Tasks are objects: inside the address space and disjoint. *)
Definition tasks_apart (k : Sched.ks) : Prop :=
  (forall p, is_Some (Sched.tasks k !! p) -> 0 <= p /\ p + 168 < 2 ^ 64) /\
  (forall p q, is_Some (Sched.tasks k !! p) -> is_Some (Sched.tasks k !! q) -> p <> q ->
     p + 168 <= q \/ q + 168 <= p).

Lemma off_values :
  off "state" = 0 /\ off "flags" = 4 /\ off "count" = 8 /\ off "priority" = 16 /\ off "pid" = 20 /\
  off "cpu_context" = 24 /\ off "need_resched" = 144 /\ off "preempt_count" = 148 /\
  off "next_task" = 152 /\ off "prev_task" = 160.
Proof. by vm_compute. Qed.

Lemma load32_ext m m' a :
  (forall b, a <= b < a + 4 -> load8 m' b = load8 m b) -> load32 m' a = load32 m a.
Proof. intros H. unfold load32. f_equal. apply load_bytes_ext. intros; apply H; lia. Qed.

(** Only the saved context changes when the bytes around it stay. *)
Lemma task_at_context m m' p :
  (forall b, p <= b < p + 24 \/ p + 128 <= b < p + 168 -> load8 m' b = load8 m b) ->
  task_at m' p = Sched.set_context (context_list (load64s m' (p + 24) 13)) (task_at m p).
Proof.
  intros H. unfold task_at, Sched.set_context.
  cbn [Sched.state Sched.flags Sched.count Sched.priority Sched.pid Sched.context
    Sched.need_resched Sched.preempt_count Sched.next_task Sched.prev_task].
  destruct off_values as (-> & -> & -> & -> & -> & -> & -> & -> & -> & ->).
  f_equal; try (apply load64_ext; intros; apply H; lia);
    f_equal; (apply load32_ext || apply load64_ext); intros; apply H; lia.
Qed.

Lemma task_at_ext m m' p :
  (forall b, p <= b < p + 168 -> load8 m' b = load8 m b) -> task_at m' p = task_at m p.
Proof.
  intros H. rewrite (task_at_context m m') by (intros; apply H; lia).
  unfold Sched.set_context, task_at.
  cbn [Sched.state Sched.flags Sched.count Sched.priority Sched.pid Sched.context
    Sched.need_resched Sched.preempt_count Sched.next_task Sched.prev_task].
  destruct off_values as (_ & _ & _ & _ & _ & -> & _).
  f_equal. f_equal. apply load64s_ext. intros; apply H; lia.
Qed.

Lemma context_regs_is64 s : wf s -> Forall is64 (context_regs s).
Proof.
  intros Hw. apply Forall_app. split.
  - apply Forall_fmap, Forall_true. intros n. by apply xreg_is64.
  - repeat constructor; try apply Hw; by apply xreg_is64.
Qed.

(** What the instructions do. *)
Definition switched (s : machine) : machine :=
  let m := store64s (ram s) (xreg s 0 + 24) (context_regs s) in
  let r i := load64 m (xreg s 1 + 24 + 8 * i) in
  Mc (take 8 (x s) ++ [xreg s 1 + 120; r 11] ++ take 9 (drop 10 (x s)) ++
      [r 0; r 1; r 2; r 3; r 4; r 5; r 6; r 7; r 8; r 9; r 10; r 12])
     (r 11) (r 12) (pstate s) (<["sp_el0" := xreg s 1]> (sys s)) m (hist s).

(** Sums that do not wrap, from the inside out. *)
Ltac no_wrap := repeat match goal with
  | |- context [u64 ?e] => lazymatch e with context [u64 _] => fail | _ => rewrite (u64_small e) by lia end
  end.

Lemma cpu_switch_to_eq s :
  wf s -> xreg s 0 + 168 < 2 ^ 64 -> xreg s 1 + 168 < 2 ^ 64 -> cpu_switch_to s = Ret (tt, switched s).
Proof.
  intros Hw Hp Hq. pose proof (xreg_is64 s 0 Hw) as H0. pose proof (xreg_is64 s 1 Hw) as H1.
  destruct s as [l p c ps sy m h]. destruct Hw as (Hl & _). cbn [x] in *.
  regs_of l Hl. unfold xreg in *. cbn [x nth] in *. unfold is64 in H0, H1.
  unfold cpu_switch_to; destruct asm_offset_values as (_ & _ & _ & _ & _ & -> & _).
  unfold switched, context_regs. cbn [seq fmap list_fmap take drop app xreg x nth].
  run_code. no_wrap. unfold with_pc; cbn [x sp pstate sys ram hist].
  repeat (f_equal; try lia).
Qed.

Lemma switched_ok s :
  wf s -> xreg s 1 + 168 < 2 ^ 64 -> wf (switched s) /\
  context_regs (switched s) = load64s (ram (switched s)) (xreg s 1 + 24) 13 /\
  xreg (switched s) 0 = xreg s 0 /\ sysreg (switched s) "sp_el0" = xreg s 1 /\
  pc (switched s) = xreg (switched s) 30.
Proof.
  intros Hw Hq. pose proof (xreg_is64 s 1 Hw) as H1. unfold is64 in H1.
  assert (forall r, is64 (sysreg (switched s) r)) as Hs.
  { apply (wf_sys s "sp_el0" (xreg s 1) Hw). exact H1. }
  destruct s as [l p c ps sy m h]. destruct Hw as (Hl & Hx & Hsp & Hpc & Hps & _). cbn [x sp pc pstate] in *.
  unfold switched in *. set (m' := store64s _ _ _) in *. clearbody m'.
  regs_of l Hl. split; [|repeat split; try done; unfold sysreg; cbn [sys]; by rewrite lookup_insert_eq].
  split; [done|]. split.
  - cbn [x take drop app]. rewrite !Forall_cons in Hx. unfold xreg in *. cbn [x nth] in *.
    rewrite !Forall_cons. unfold is64 at 9. intuition (auto using load64_is64; lia).
  - split; [apply load64_is64|]. split; [apply load64_is64|]. split; [done|exact Hs].
Qed.

(** The tasks after the switch: the context of [p] is the running one, nothing else changes. *)
Lemma tasks_switched s k p :
  sim s k -> tasks_apart k -> is_Some (Sched.tasks k !! p) ->
  forall q t, Sched.tasks k !! q = Some t ->
  task_at (store64s (ram s) (p + 24) (context_regs s)) q =
  if decide (q = p) then Sched.set_context (context_list (context_regs s)) t else t.
Proof.
  intros [Hw _ _ _ Ht] [Hr Ha] Hp q t E.
  assert (length (context_regs s) = 13%nat) as HL by done.
  assert (forall b, ~ p + 24 <= b < p + 128 ->
    load8 (store64s (ram s) (p + 24) (context_regs s)) b = load8 (ram s) b) as Hf.
  { intros b Hb. apply load8_store64s_ne. rewrite HL. lia. }
  case_decide as Hqp.
  - subst q. rewrite (task_at_context (ram s)) by (intros; apply Hf; lia).
    rewrite (Ht p t E). do 2 f_equal. rewrite <-HL. apply load64s_store64s, context_regs_is64, Hw.
  - rewrite (task_at_ext (ram s)); [by apply Ht|]. intros b Hb. apply Hf.
    destruct (Ha p q Hp (mk_is_Some _ _ E)); [done|lia|lia].
Qed.

(** [bl] before the switch: the return address is the saved [pc] of the model. *)
Definition linked (r : Z) (k : Sched.ks) : Sched.ks :=
  Sched.with_cpu k (Sched.Cpu
    (let c := Sched.regs (Sched.cpu k) in
     Sched.CpuContext (Sched.x19 c) (Sched.x20 c) (Sched.x21 c) (Sched.x22 c) (Sched.x23 c) (Sched.x24 c) (Sched.x25 c)
       (Sched.x26 c) (Sched.x27 c) (Sched.x28 c) (Sched.fp c) (Sched.sp c) r)
    (Sched.sp_el0 (Sched.cpu k)) (Sched.irq_on (Sched.cpu k))).

Lemma sim_linked s k r :
  sim s k -> is64 r -> sim (setx 30 r s) (linked r k).
Proof.
  intros [Hw Hc Hs Hi Ht] Hr. constructor; [by apply wf_x| |exact Hs|exact Hi|exact Ht].
  unfold linked. cbn [Sched.cpu Sched.regs Sched.with_cpu]. rewrite <-Hc. unfold context_regs. cbn [seq fmap list_fmap app].
  rewrite !(xreg_ne s 30) by lia. rewrite xreg_eq by (done || lia). done.
Qed.

(** The model after the contexts are exchanged. *)
Definition stored (prev : Z) (k : Sched.ks) : Sched.ks :=
  Sched.upd k prev (Sched.set_context (Sched.regs (Sched.cpu k))).

Lemma sim_stored s k prev m :
  sim s k -> tasks_apart k -> is_Some (Sched.tasks k !! prev) ->
  m = store64s (ram s) (prev + 24) (context_regs s) ->
  forall q t, Sched.tasks (stored prev k) !! q = Some t -> task_at m q = t.
Proof.
  intros Hs Ha Hp -> q t. pose proof (tasks_switched s k prev Hs Ha Hp q) as HT. rewrite (sim_regs _ _ Hs) in HT.
  unfold stored, Sched.upd. cbn [Sched.tasks Sched.with_tasks]. destruct (decide (q = prev)) as [->|Hne].
  - rewrite lookup_insert_eq. intros [= <-]. destruct Hp as [t0 E]. unfold Sched.task. by rewrite (HT _ E), E.
  - rewrite lookup_insert_ne by done. apply HT.
Qed.

Lemma stored_dom prev k q : is_Some (Sched.tasks k !! q) -> is_Some (Sched.tasks (stored prev k) !! q).
Proof.
  intros H. unfold stored, Sched.upd. cbn [Sched.tasks Sched.with_tasks].
  destruct (decide (q = prev)) as [->|Hne]; [by rewrite lookup_insert_eq|by rewrite lookup_insert_ne].
Qed.

(** C12: The call [bl cpu_switch_to] implements the switch of the scheduler's model: from a
    processor state that agrees with a state of the model, the instructions save the
    thirteen registers into [prev] and nothing else, load those of [next], make it the current
    task and continue at its saved address, the new states agree again, and x0,
    the value the call returns, is [prev]. *)
Theorem cpu_switch_to_refines switch_return s k prev next :
  sim s k -> tasks_apart k -> is64 switch_return ->
  is_Some (Sched.tasks k !! prev) -> is_Some (Sched.tasks k !! next) ->
  xreg s 0 = prev -> xreg s 1 = next ->
  exists s' k', bl switch_return cpu_switch_to s = Ret (tt, s') /\
    Sched.cpu_switch_to switch_return prev next k = Ret (tt, k') /\
    sim s' k' /\ xreg s' 0 = prev /\ pc s' = Sched.pc (Sched.regs (Sched.cpu k')).
Proof.
  intros Hs Ha Hr Hp Hn E0 E1. pose proof (sim_linked s k switch_return Hs Hr) as H1.
  set (s1 := setx 30 switch_return s) in *. set (k1 := linked switch_return k) in *.
  pose proof (sim_wf _ _ H1) as Hw.
  assert (xreg s1 0 = prev) as X0 by (unfold s1; by rewrite xreg_ne).
  assert (xreg s1 1 = next) as X1 by (unfold s1; by rewrite xreg_ne).
  pose proof (proj1 Ha _ Hp). pose proof (proj1 Ha _ Hn).
  destruct (switched_ok s1 Hw ltac:(lia)) as (Hw2 & C2 & X2 & S2 & P2). rewrite X1 in C2, S2.
  assert (forall q t, Sched.tasks (stored prev k1) !! q = Some t -> task_at (ram (switched s1)) q = t) as HT.
  { apply (sim_stored s1 k1 prev); [done|done|done|]. by rewrite <-X0. }
  exists (switched s1), (Sched.with_cpu (stored prev k1)
    (Sched.Cpu (Sched.context (Sched.task (stored prev k1) next)) next (Sched.irq_on (Sched.cpu k)))).
  assert (context_list (context_regs (switched s1)) = Sched.context (Sched.task (stored prev k1) next)) as HC.
  { destruct (stored_dom prev k1 next Hn) as [t E]. rewrite C2. unfold Sched.task. by rewrite E, <-(HT _ _ E). }
  split; [change (bl switch_return cpu_switch_to s) with (cpu_switch_to s1); apply cpu_switch_to_eq; [done|lia|lia]|].
  split; [done|]. split; [|split; [congruence|]].
  - constructor; [done|exact HC|exact S2|exact (sim_irq _ _ H1)|exact HT].
  - cbn [Sched.cpu Sched.regs Sched.with_cpu]. rewrite <-HC, P2. done.
Qed.

Lemma s32_eqb_0 v : 0 <= v < 2 ^ 32 -> (s32 v =? 0) = (v =? 0).
Proof.
  intros H. unfold s32. destruct (Z.eqb_spec v 0) as [->|Hne]; [done|]. apply Z.eqb_neq.
  pose proof (Z.div_mod (v + 2 ^ 31) (2 ^ 32)). pose proof (Z.mod_pos_bound (v + 2 ^ 31) (2 ^ 32)). lia.
Qed.

(** C28: The test at the end of [el1_irq] takes the decision of the scheduler's model: it
    changes no memory, and it leads to [preempt_schedule_irq] in exactly the states
    in which the model calls it. *)
Theorem preempt_test_refines rq_head init_task ret_from_fork switch_return s k :
  sim s k -> tasks_apart k -> is_Some (Sched.tasks k !! Sched.sp_el0 (Sched.cpu k)) ->
  exists b s', preempt_test s = Ret (b, s') /\ ram s' = ram s /\
    Sched.el1_irq_exit rq_head init_task ret_from_fork switch_return k =
    if b then (r ← Sched.preempt_schedule_irq rq_head init_task ret_from_fork switch_return; mret (Some r)) k
    else Ret (None, k).
Proof.
  intros [Hw _ Hc _ Ht] [Ha _] Hcur. destruct (Ha _ Hcur) as [H0 H1]. destruct Hcur as [t E].
  pose proof (Ht _ _ E) as HT. set (tsk := Sched.sp_el0 (Sched.cpu k)) in *.
  pose proof (load32_range (ram s) (tsk + 148)) as R1. pose proof (load32_range (ram s) (tsk + 144)) as R2.
  assert (Sched.preempt_count t = s32 (load32 (ram s) (tsk + 148))) as E1 by (by rewrite <-HT).
  assert (Sched.need_resched t = s32 (load32 (ram s) (tsk + 144))) as E2 by (by rewrite <-HT).
  unfold preempt_test, get_thread_info, mrs, ldr_w, wr, rd, gets, modify, mbind, M_bind.
  destruct asm_offset_values as (_ & _ & _ & _ & _ & _ & -> & ->). rewrite Hc.
  set (s1 := setx 28 tsk s).
  assert (is64 tsk) as H64 by (unfold is64; lia). assert (wf s1) as Hw1 by (by apply wf_x).
  assert (xreg s1 28 = tsk) as -> by (apply xreg_eq; [done|lia]).
  rewrite (u64_small (tsk + 148)) by lia. change (ram s1) with (ram s).
  set (s2 := setx 24 _ s1). assert (wf s2) as Hw2 by (apply wf_x; auto with arm).
  assert (xreg s2 24 = load32 (ram s) (tsk + 148)) as -> by (apply xreg_eq; [done|lia]).
  unfold Sched.el1_irq_exit, Sched.current, Sched.field, gets, mbind, M_bind, Sched.task. fold tsk. rewrite E. cbn [from_option id].
  rewrite E1, s32_eqb_0 by done.
  destruct (load32 (ram s) (tsk + 148) =? 0); cbn [negb]; [|by do 2 eexists].
  assert (xreg s2 28 = tsk) as -> by (unfold s2; rewrite xreg_ne by lia; apply xreg_eq; [done|lia]).
  rewrite (u64_small (tsk + 144)) by lia. change (ram s2) with (ram s).
  set (s3 := setx 0 _ s2).
  assert (xreg s3 0 = load32 (ram s) (tsk + 144)) as -> by (apply xreg_eq; [done|lia]).
  do 2 eexists. split; [reflexivity|]. split; [done|].
  fold tsk. rewrite E. cbn [from_option id]. rewrite E2, s32_eqb_0 by done. by destruct (load32 (ram s) (tsk + 144) =? 0).
Qed.

(** [ret_from_fork] ends the switch for a new task: with [schedule_tail] compiled to code
    that keeps the procedure call standard, it calls the thread whose address and argument
    [copy_thread] left in the context, or stops when there is none, as in the model. *)
Lemma ret_from_fork_refines schedule_tail here fork_addr switch_return last s k :
  Callee schedule_tail -> (forall n, is64 (here n)) -> sim s k ->
  Sched.pc (Sched.regs (Sched.cpu k)) = fork_addr ->
  wp (ret_from_fork schedule_tail here) s (fun r _ => exists k',
    Sched.resume fork_addr switch_return last k =
      Ret (match r with Some (f, a) => Sched.Started f a | None => Sched.BadExit end, k') /\
    Sched.irq_on (Sched.cpu k') = true).
Proof.
  intros Hf Hh [Hw Hc _ _ _] Hpc. unfold ret_from_fork, bl, wr, rd, mov. do 3 wp_step.
  eapply wp_mono; [apply Hf; auto with arm|]. intros [] s' Hk.
  assert (xreg s' 19 = Sched.x19 (Sched.regs (Sched.cpu k))) as E1.
  { rewrite (kept_regs _ _ Hk), xreg_ne by lia. by rewrite <-Hc. }
  assert (xreg s' 20 = Sched.x20 (Sched.regs (Sched.cpu k))) as E2.
  { rewrite (kept_regs _ _ Hk), xreg_ne by lia. by rewrite <-Hc. }
  do 2 wp_step. rewrite E1.
  assert (forall b : bool, exists k', Sched.resume fork_addr switch_return last k =
    Ret (if Sched.x19 (Sched.regs (Sched.cpu k)) =? 0 then Sched.BadExit
         else Sched.Started (Sched.x19 (Sched.regs (Sched.cpu k))) (Sched.x20 (Sched.regs (Sched.cpu k))), k') /\
    Sched.irq_on (Sched.cpu k') = true) as HR.
  { intros _. unfold Sched.resume, gets, mbind, M_bind. rewrite Hpc, Z.eqb_refl. eexists. split; [reflexivity|done]. }
  destruct (HR true) as (k' & E & Hi). destruct (Sched.x19 _ =? 0).
  - unfold ret_to_user, invalid, mov, movi, mrs, wr, rd. wp_steps. by exists k'.
  - unfold wr, rd. wp_steps. exists k'. split; [|done]. rewrite E, xreg_eq by (apply Hk || lia). by rewrite E2.
Qed.

(** The way to [do_bad_mode]. *)
Lemma bad_exception_run do_sync do_irq preempt_schedule_irq here e k s :
  handled e k = false -> wf s ->
  exists s', exception do_sync do_irq preempt_schedule_irq here e k s = Ret (BadMode, s') /\
    xreg s' 0 = kernel_sp s /\ xreg s' 1 = kind_no k /\ xreg s' 2 = sysreg s "esr_el1" /\
    ram s' = ram s /\ sp s' = kernel_sp s /\ pstate s' = MASKED_EL1h /\
    arr_get Traps.bad_mode_handler (xreg s' 1) =
      Some match k with Synchronous => "Sync Abort" | Irq => "IRQ" | Fiq => "FIQ" | SError => "SError" end /\
    hist s' = hist s /\ sysreg s' "far_el1" = sysreg s "far_el1".
Proof.
  intros Hk Hw. assert (exception do_sync do_irq preempt_schedule_irq here e k s =
    (invalid (kind_no k);; mret BadMode) (taken e k s)) as ->.
  { unfold exception, take_exception, modify, mbind, M_bind, of_option. rewrite vector_expected.
    by destruct e, k. }
  destruct (to_sp_el1_same s) as (_ & _ & _ & <- & <- & <- & HS). pose proof (to_sp_el1_wf s Hw) as Hw'.
  rewrite <-!HS by done. unfold taken. set (t := to_sp_el1 s) in *. clearbody t.
  destruct t as [l p c ps sy m h]. destruct Hw' as (Hl & _). cbn [x] in Hl. regs_of l Hl.
  unfold invalid, mov, movi, mrs, wr, rd, gets, modify, mbind, M_bind. eexists. split; [reflexivity|].
  split; [done|]. split; [by destruct k|]. split; [|split; [done|split; [done|split; [done|split; [by destruct k|split; [done|]]]]]];
    unfold xreg, sysreg; cbn [x sys setx with_x with_pstate with_pc with_sys insert list_insert nth]; by rewrite !lookup_insert_ne.
Qed.

(** Every exception that is not handled, a synchronous exception of the kernel itself among
    them, stops in [do_bad_mode] with the number that [bad_mode_handler] names it by, the
    syndrome, and a register pointer that is just the stack pointer of EL1: no frame is saved, and the
    code up to there writes no memory. *)
Theorem bad_exception do_sync do_irq preempt_schedule_irq here e k s :
  handled e k = false -> wf s ->
  exists s', exception do_sync do_irq preempt_schedule_irq here e k s = Ret (BadMode, s') /\
    xreg s' 0 = kernel_sp s /\ xreg s' 1 = kind_no k /\ xreg s' 2 = sysreg s "esr_el1" /\
    ram s' = ram s /\ sp s' = kernel_sp s /\ pstate s' = MASKED_EL1h /\
    arr_get Traps.bad_mode_handler (xreg s' 1) =
      Some match k with Synchronous => "Sync Abort" | Irq => "IRQ" | Fiq => "FIQ" | SError => "SError" end.
Proof.
  intros Hk Hw. destruct (bad_exception_run do_sync do_irq preempt_schedule_irq here e k s Hk Hw)
    as (s' & E & H0 & H1 & H2 & H3 & H4 & H5 & H6 & _). by exists s'.
Qed.
(** ** Witnesses *)

(** Code that uses every register it may, overwrites [elr_el1] and writes below the stack. *)
Definition clobber : M machine unit :=
  movi (X 0) 7;; movi (X 18) 8;; movi LR 9;; msr "elr_el1" (X 0);; str (X 0) SP (-8).

#[local] Instance clobber_callee : Callee clobber.
Proof.
  intros s Hw. unfold clobber, movi, wr, msr, str, rd. wp_steps. cbn beta iota.
  set (s1 := setx _ _ (setx _ _ (setx _ _ s))).
  assert (wf s1) as Hw1 by (unfold s1; repeat apply wf_x; (done || apply u64_is64)).
  set (s2 := with_sys s1 _).
  assert (wf s2) as Hw2 by (apply wf_sys; [done|by apply xreg_is64]).
  constructor; [exact Hw2|done| |].
  - intros n Hn. change (xreg s1 n = xreg s n). unfold s1. by rewrite !xreg_ne by lia.
  - intros a Ha. cbn [ram with_ram]. change (ram s2) with (ram s). apply load8_store64_ne.
    destruct Hw as (_ & _ & Hs & _). change (sp s2) with (sp s). unfold is64, u64 in *.
    destruct (decide (8 <= sp s)).
    + rewrite Z.mod_small by lia. lia.
    + rewrite <-(Z_mod_plus_full _ 1), Z.mod_small by lia. lia.
Qed.

Definition running : machine :=
  Mc (<[0%nat := 0x1000000]> (<[1%nat := 0x1001000]> (seqZ 100 31))) 0x1000f00 0x80100 5
     {["sp_el0" := 0x1000000; "esr_el1" := 0x96000004]} ∅ [].

Lemma running_wf : wf running.
Proof.
  split; [done|]. split; [apply (bool_decide_unpack _); by vm_compute|]. do 3 (split; [done|]).
  intros r. unfold sysreg, running. cbn [sys].
  destruct (decide (r = "sp_el0")) as [->|H1]; [done|]. rewrite lookup_insert_ne by done.
  destruct (decide (r = "esr_el1")) as [->|H2]; [done|]. by rewrite lookup_singleton_ne by done.
Qed.

(** User code, with the stack of EL1 out of reach. *)
Definition user_running : machine :=
  Mc (seqZ 100 31) 0x7ff0 0x40 0 {["sp_el1" := 0x1001000]} ∅ [].

Lemma user_running_wf : wf user_running.
Proof.
  split; [done|]. split; [apply (bool_decide_unpack _); by vm_compute|]. do 3 (split; [done|]).
  intros r. unfold sysreg, user_running. cbn [sys].
  destruct (decide (r = "sp_el1")) as [->|H1]; [done|]. by rewrite lookup_singleton_ne by done.
Qed.

(** Code that makes another task current, as [cpu_switch_to] does. *)
Definition becomes (v : Z) : M machine unit := movi (X 1) v;; msr "sp_el0" (X 1).

#[local] Instance becomes_callee v : Callee (becomes v).
Proof.
  intros s Hw. unfold becomes, movi, wr, msr, rd. wp_steps. cbn beta iota. set (s1 := setx _ _ s).
  assert (wf s1) as Hw1 by (apply wf_x; [done|apply u64_is64]).
  constructor; [apply wf_sys; [done|by apply xreg_is64]|done| |done].
  intros n Hn. change (xreg s1 n = xreg s n). unfold s1. by rewrite xreg_ne by lia.
Qed.

Definition two_tasks : Sched.ks :=
  Sched.Ks ∅ {[0x1000000 := Sched.zero_task; 0x1001000 := Sched.zero_task]} ∅ (Sched.RunQueue 0 0 0) [] []
    (Sched.Cpu (context_list (context_regs running)) 0x1000000 true) ∅ [].

Lemma two_tasks_dom p : is_Some (Sched.tasks two_tasks !! p) -> p = 0x1000000 \/ p = 0x1001000.
Proof.
  cbn [two_tasks Sched.tasks]. rewrite lookup_insert_is_Some. intros [->|[_ H]]; [by left|right].
  destruct (decide (p = 0x1001000)); [done|]. rewrite lookup_singleton_ne in H by done. by destruct H.
Qed.

Lemma two_tasks_apart : tasks_apart two_tasks.
Proof.
  split.
  - intros p H. apply two_tasks_dom in H. lia.
  - intros p q H1 H2 Hne. apply two_tasks_dom in H1. apply two_tasks_dom in H2. lia.
Qed.

Lemma two_tasks_sim : sim running two_tasks.
Proof.
  constructor; [exact running_wf|done|done|done|]. intros p t E.
  assert (t = Sched.zero_task) as ->.
  { cbn [two_tasks Sched.tasks] in E. apply lookup_insert_Some in E as [[_ <-]|[_ E]]; [done|].
    by apply lookup_singleton_Some in E as [_ <-]. }
  destruct (two_tasks_dom p (mk_is_Some _ _ E)) as [-> | ->]; by vm_compute.
Qed.

Definition some_address (n : nat) : Z := 0x80000 + 4 * Z.of_nat n mod 64.

Lemma some_address_is64 n : is64 (some_address n).
Proof. pose proof (Z.mod_pos_bound (4 * Z.of_nat n) 64). unfold is64, some_address. lia. Qed.

(** The kernel is interrupted; user code is, by a handler that leaves [sp_el0] alone; and by one that
    does not, after which the user code has the other task as its stack pointer. *)
Lemma exception_transparent_witness :
  wp (exception clobber clobber clobber some_address CurrentSPx Irq) running
    (fun r s' => r = Returned /\ resumes running s' /\ sp s' = 0x1000f00) /\
  wp (exception clobber clobber clobber some_address Lower64 Irq) user_running
    (fun r s' => r = Returned /\ resumes user_running s' /\ sp s' = 0x7ff0) /\
  wp (exception clobber (becomes 0x1001000) clobber some_address Lower64 Irq) user_running
    (fun r s' => r = Returned /\ resumes user_running s' /\ sp s' = 0x1001000).
Proof.
  split; [|split].
  - eapply wp_mono; [apply (exception_transparent clobber clobber clobber some_address some_address_is64 (fun _ _ => True) CurrentSPx Irq);
      [done|done|exact running_wf|unfold kernel_sp; cbn [sp running]; vm_compute; congruence|done]|].
    intros r s' (H1 & H2 & H3 & _). auto.
  - eapply wp_mono; [apply (exception_transparent clobber clobber clobber some_address some_address_is64 (fun v v' => v' = v) Lower64 Irq);
      [done|done|exact user_running_wf|vm_compute; congruence|]|].
    + intros _ t Ht. unfold user_handler, clobber, movi, wr, msr, str, rd. wp_steps. cbn beta iota.
      unfold sysreg. cbn [sys with_ram with_sys]. by rewrite lookup_insert_ne.
    + intros r s' (H1 & H2 & _ & H3). auto.
  - eapply wp_mono; [apply (exception_transparent clobber (becomes 0x1001000) clobber some_address some_address_is64 (fun _ v' => v' = 0x1001000) Lower64 Irq);
      [done|done|exact user_running_wf|vm_compute; congruence|]|].
    + intros _ t Ht. unfold user_handler, becomes, movi, wr, msr, rd. wp_steps. cbn beta iota.
      unfold sysreg at 1. cbn [sys with_sys]. rewrite lookup_insert_eq. cbn [default from_option id].
      rewrite xreg_eq by (done || lia). done.
    + intros r s' (H1 & H2 & _ & H3). auto.
Defined.

Lemma cpu_switch_to_refines_witness :
  exists s' k', bl 0x80200 cpu_switch_to running = Ret (tt, s') /\
    Sched.cpu_switch_to 0x80200 0x1000000 0x1001000 two_tasks = Ret (tt, k') /\
    sim s' k' /\ xreg s' 0 = 0x1000000 /\ pc s' = Sched.pc (Sched.regs (Sched.cpu k')).
Proof.
  apply cpu_switch_to_refines; [exact two_tasks_sim|exact two_tasks_apart|done|by eexists|by eexists|done|done].
Defined.

Lemma preempt_test_refines_witness :
  exists b s', preempt_test running = Ret (b, s') /\ ram s' = ram running /\
    Sched.el1_irq_exit 1 2 3 4 two_tasks =
    if b then (r ← Sched.preempt_schedule_irq 1 2 3 4; mret (Some r)) two_tasks else Ret (None, two_tasks).
Proof. apply preempt_test_refines; [exact two_tasks_sim|exact two_tasks_apart|by eexists]. Defined.

Lemma bad_exception_witness :
  exists s', exception clobber clobber clobber (fun _ => 0) CurrentSPx Synchronous running = Ret (BadMode, s') /\
    xreg s' 0 = 0x1000f00 /\ xreg s' 1 = 0 /\ xreg s' 2 = 0x96000004.
Proof.
  destruct (bad_exception clobber clobber clobber (fun _ => 0) CurrentSPx Synchronous running eq_refl running_wf)
    as (s' & E & H0 & H1 & H2 & _).
  exists s'. split; [exact E|]. split; [exact H0|]. split; [exact H1|exact H2].
Defined.

End Entry.
