(* ===== verification/Boot.v ===== *)
(** * The boot code

    [core/start.S] and [core/early_uart.S], instruction by instruction over the processor
    of [Arm]: from reset to the call of [kernel_main]. The addresses the linker assigns are the record
    [links]. A call [call r f] is [bl] at the instruction before address [r]: it goes on after
    the call only if [f] ends with [r] in x30, which is where its [ret] goes. *)

From S2P Require Import Prelude Base Mem Printk Uart Devices Arm.
Import Arm.

Module Boot.

(** ** sysreg.h *)

Definition HCR_RW : Z := Z.shiftl 1 31.
Definition HCR_HOST_NVHE_FLAGS : Z := HCR_RW.
Definition SCTLR_EE_LITTLE_ENDIAN : Z := Z.shiftl 0 25.
Definition SCTLR_EOE_LITTLE_ENDIAN : Z := Z.shiftl 0 24.
Definition SCTLR_MMU_DISABLED : Z := Z.shiftl 0 0.
Definition SCTLR_VALUE_MMU_DISABLED : Z :=
  Z.lor (Z.lor SCTLR_MMU_DISABLED SCTLR_EE_LITTLE_ENDIAN) SCTLR_EOE_LITTLE_ENDIAN.
Definition SPSR_MASK_ALL : Z := Z.shiftl 7 6.
Definition SPSR_EL1h : Z := Z.shiftl 5 0.
Definition SPSR_EL2h : Z := Z.shiftl 9 0.
Definition SPSR_EL1 : Z := Z.lor SPSR_MASK_ALL SPSR_EL1h.
Definition SPSR_EL2 : Z := Z.lor SPSR_MASK_ALL SPSR_EL2h.
Definition CurrentEL_EL1 : Z := Z.shiftl 1 2.
Definition CurrentEL_EL2 : Z := Z.shiftl 2 2.
Definition CurrentEL_EL3 : Z := Z.shiftl 3 2.

(** ** Instructions that depend on the exception level *)

(** [CurrentEL]: the level, in bits 2 and 3, as in the saved state. *)
Definition current_el (s : machine) : Z := Z.land (pstate s) 12.
Definition mrs_el (d : reg) : M machine unit := v ← gets current_el; wr d v.

(** A register of EL2 is undefined below EL2. *)
Definition msr_el2 (r : string) (a : reg) : M machine unit :=
  e ← gets current_el;
  if e <? CurrentEL_EL2 then undef else msr r a.

Definition daifset (v : Z) : M machine unit :=
  modify (fun s => with_pstate s (Z.lor (pstate s) (Z.shiftl v 6))).

Definition call (r : Z) (f : M machine unit) : M machine unit :=
  wr LR r;; f;;
  v ← rd LR;
  if v =? r then mret tt else undef.

(** [adrp] and [add ... :lo12:]: the page of one symbol and the offset of another. *)
Definition adrp_lo12 (d : reg) (page_of off_of : Z) : M machine unit :=
  wr d (page_of / 4096 * 4096);; add d d (off_of mod 4096).

Record links : Type := Links {
  el_string1 : Z;
  boot_string : Z;
  el1_entry_addr : Z;
  vector_table_addr : Z;
  bss : Z;
  ebss : Z;
  init_task : Z;
}.

Definition el_text : list Z := Printk.bytes "Booting at EL".
Definition boot_text : list Z := Printk.bytes "- Switch to EL1 -".

Section Boot.
Context (dev : list access -> Z -> Z).
(** The rounds of a polling loop, of the loop over a string and of the last loop. *)
Context (patience fuel idle : nat).
Context (lk : links) (ret : nat -> Z).

(** ** early_uart.S *)

Definition init_uart : M machine unit :=
  movi (X 1) Uart.GPFSEL1;;
  ldr_io dev (X 0) (X 1);;
  and_w (X 0) (X 0) 0xffff8fff;;
  orr_w (X 0) (X 0) 0x4000;;
  and_w (X 0) (X 0) 0xfffc7fff;;
  orr_w (X 0) (X 0) 0x20000;;
  str_io (X 0) (X 1);;
  movi (X 1) Uart.U_CR_REG;;
  str_io XZR (X 1);;
  movi (X 1) Uart.U_IBRD_REG;;
  movi (X 2) 26;;
  str_io (X 2) (X 1);;
  movi (X 1) Uart.U_FBRD_REG;;
  movi (X 2) 3;;
  str_io (X 2) (X 1);;
  movi (X 1) Uart.U_LCRH_REG;;
  movi (X 2) 0x70;;
  str_io (X 2) (X 1);;
  movi (X 1) Uart.U_IMSC_REG;;
  str_io XZR (X 1);;
  movi (X 1) Uart.U_CR_REG;;
  movi (X 2) 0x301;;
  str_io (X 2) (X 1).

Definition put_uart_body (_ : unit) : M machine (unit + unit) :=
  ldr_io dev (X 2) (X 1);;
  and_w (X 2) (X 2) 0x20;;
  v ← rd (X 2);
  mret (if u32 v =? 0 then inr tt else inl tt).

Definition put_uart : M machine unit :=
  movi (X 1) Uart.U_FR_REG;;
  loop patience put_uart_body tt;;
  movi (X 1) Uart.U_DATA_REG;;
  str_io (X 0) (X 1).

Definition put_string_uart_body (_ : unit) : M machine (unit + unit) :=
  ldrb (X 0) (X 4);;
  call (ret 0) put_uart;;
  add (X 4) (X 4) 1;;
  v ← rd (X 0);
  mret (if u32 v =? 0 then inr tt else inl tt).

Definition put_string_uart : M machine unit :=
  mov (X 4) (X 0);;
  mov (X 6) LR;;
  loop fuel put_string_uart_body tt;;
  mov LR (X 6).

(** ** start.S *)

(** Where the boot code ends: in [kernel_main], or at an address an [eret] went to. *)
Inductive stage : Type := KernelMain | Jumped (a : Z).

Definition slave_hang : M machine stage := loop idle (fun _ => mret (inl tt)) tt.

Definition el1_entry : M machine stage :=
  adrp_lo12 (X 0) (el_string1 lk) (boot_string lk);;
  call (ret 1) put_string_uart;;
  movi (X 0) 10;;
  call (ret 2) put_uart;;
  movi (X 5) (vector_table_addr lk);;
  msr "vbar_el1" (X 5);;
  movi (X 0) (bss lk);;
  movi (X 1) (ebss lk);;
  sub_r (X 2) (X 1) (X 0);;
  mov (X 1) XZR;;
  x0 ← rd (X 0); x1 ← rd (X 1); x2 ← rd (X 2);
  _ ← zoom ram_lens (memset x0 x1 x2);
  movi (X 5) (init_task lk);;
  msr "sp_el0" (X 5);;
  movi SP LOW_MEMORY;;
  mret KernelMain.

Definition get_CurrentEL : M machine unit :=
  mov (X 10) LR;;
  adrp_lo12 (X 0) (el_string1 lk) (el_string1 lk);;
  call (ret 3) put_string_uart;;
  mrs_el (X 5);;
  lsr (X 2) (X 5) 2;;
  movi (X 0) 48;;
  add_r (X 0) (X 0) (X 2);;
  call (ret 4) put_uart;;
  movi (X 0) 10;;
  call (ret 5) put_uart;;
  mov LR (X 10).

(** Where the processor goes on after [eret]. *)
Definition after_eret : M machine stage :=
  p ← gets pc;
  if p =? el1_entry_addr lk then el1_entry else mret (Jumped p).

Definition el3_entry : M machine stage :=
  call (ret 6) get_CurrentEL;;
  eret "elr_el3" "spsr_el3";;
  after_eret.

Definition el2_entry : M machine stage :=
  call (ret 7) get_CurrentEL;;
  movi (X 0) HCR_HOST_NVHE_FLAGS;;
  msr_el2 "hcr_el2" (X 0);;
  movi (X 0) SCTLR_VALUE_MMU_DISABLED;;
  msr "sctlr_el1" (X 0);;
  mrs (X 6) "sctlr_el1";;
  movi (X 0) SPSR_EL1;;
  msr_el2 "spsr_el2" (X 0);;
  movi (X 0) (el1_entry_addr lk);;
  msr_el2 "elr_el2" (X 0);;
  eret "elr_el2" "spsr_el2";;
  after_eret.

Definition master : M machine stage :=
  call (ret 8) init_uart;;
  mrs_el (X 5);;
  e ← rd (X 5);
  if e =? CurrentEL_EL3 then el3_entry else el2_entry.

Definition _start : M machine stage :=
  daifset 2;;
  mrs (X 0) "mpidr_el1";;
  and_x (X 0) (X 0) 0xFF;;
  c ← rd (X 0);
  if c =? 0 then master else slave_hang.

(** ** What the routines leave alone *)

(** The registers not in [ns], the stack pointer, the program counter, the processor state,
    the system registers and memory are the same. *)
Record same (ns : list nat) (s s' : machine) : Prop := Same {
  same_x : forall n, n ∉ ns -> xreg s' n = xreg s n;
  same_len : length (x s') = length (x s);
  same_sp : sp s' = sp s;
  same_pc : pc s' = pc s;
  same_pstate : pstate s' = pstate s;
  same_sys : sys s' = sys s;
  same_ram : ram s' = ram s;
}.

Lemma same_refl ns s : same ns s s.
Proof. by constructor. Qed.

Lemma same_then ns1 ns2 ns s1 s2 s3 :
  ns1 ⊆ ns -> ns2 ⊆ ns -> same ns1 s1 s2 -> same ns2 s2 s3 -> same ns s1 s3.
Proof.
  intros H1 H2 [A1 A2 A3 A4 A5 A6 A7] [B1 B2 B3 B4 B5 B6 B7]. constructor; try congruence.
  intros n Hn. rewrite B1, A1; set_solver.
Qed.

Lemma same_wr ns s n v : n ∈ ns -> same ns s (setx n v s).
Proof.
  intros Hn. constructor; try done; cbn [x with_x setx].
  - intros k Hk. apply xreg_ne. set_solver.
  - by rewrite length_insert.
Qed.

Lemma same_hist ns s h : same ns s (with_hist s h).
Proof. by constructor. Qed.

(** Membership in a list of register numbers. *)
Ltac regs_in := first [apply (bool_decide_unpack _); vm_compute; exact I | clear; set_solver].

Lemma poll_loop n : forall s h,
  length (x s) = 31%nat -> xreg s 1 = Uart.U_FR_REG ->
  loop n (Uart.poll_body dev 5) tt (hist s) = Ret (tt, h) ->
  exists s', loop n put_uart_body tt s = Ret (tt, s') /\ hist s' = h /\ same [2%nat] s s'.
Proof.
  induction n as [|n IH]; intros s h Hl H1 E; [done|].
  rewrite loop_unfold in E. rewrite loop_unfold. unfold mbind at 1, M_bind at 1 in E. unfold mbind at 1, M_bind at 1.
  unfold Uart.poll_body at 1, mbind at 1, M_bind at 1, readl at 1, mret at 1, M_ret at 1 in E.
  unfold put_uart_body at 1, ldr_io, and_w, rd, wr, zoom, readl, gets, modify, mbind, M_bind, mret, M_ret.
  cbn [hist_lens lget lset]. rewrite H1. set (v := u32 (dev (hist s) Uart.U_FR_REG)) in *.
  set (s1 := with_hist s _). set (s2 := setx 2 v s1).
  assert (xreg s2 2 = v) as -> by (by apply xreg_set; [|lia]).
  rewrite (u32_small v) by apply u32_range.
  set (s3 := setx 2 (Z.land v 32) s2).
  assert (length (x s3) = 31%nat) as Hl3 by (unfold s3, s2; by rewrite !length_setx).
  assert (same [2%nat] s s3) as Hs.
  { eapply same_then; [reflexivity..|apply same_hist|]. eapply same_then; [reflexivity..| |]; apply same_wr; regs_in. }
  assert (xreg s3 2 = Z.land v 32) as -> by (apply xreg_set; [unfold s2; by rewrite !length_setx|lia]).
  assert (u32 (Z.land v 32) = Z.land v 32) as ->.
  { apply u32_small, land_range; [lia|apply u32_range]. }
  unfold Uart.flag_set in E. change (Z.shiftl 1 5) with 32 in E. destruct (Z.land v 32 =? 0); cbn [negb] in E.
  - injection E as <-. by exists s3.
  - destruct (IH s3 h) as (s' & E' & Hh & Hs'); [done| |exact E|].
    + rewrite (same_x _ _ _ Hs); [done|regs_in].
    + exists s'. split; [exact E'|]. split; [done|]. eapply same_then; [reflexivity..|exact Hs|exact Hs'].
Qed.

(** [put_uart] is [uart_send] for a character. *)
Lemma put_uart_eq s h :
  length (x s) = 31%nat -> 0 <= xreg s 0 < 256 ->
  Uart.uart_send dev patience (xreg s 0) (hist s) = Ret (tt, h) ->
  exists s', put_uart s = Ret (tt, s') /\ hist s' = h /\ same [1; 2]%nat s s'.
Proof.
  intros Hl H0 E. unfold Uart.uart_send, mbind, M_bind in E.
  destruct (Uart.poll dev patience 5 (hist s)) as [[[] h1]| |] eqn:E1; [|done|done].
  unfold writel, modify in E. injection E as <-.
  unfold put_uart. unfold mbind, M_bind, movi, wr, modify at 1.
  set (s1 := setx 1 _ s).
  assert (length (x s1) = 31%nat) as Hl1 by (unfold s1; by rewrite !length_setx).
  destruct (poll_loop patience s1 h1) as (s2 & -> & Hh & Hs2); [done|by apply xreg_set; [|lia]|exact E1|].
  unfold str_io, rd, gets, zoom, writel, modify, mbind, M_bind. cbn [hist_lens lget lset].
  set (s3 := setx 1 _ s2).
  assert (same [1; 2]%nat s s2) as Hs.
  { eapply same_then; [reflexivity| |apply (same_wr [1; 2]%nat)|exact Hs2]; regs_in. }
  assert (xreg s3 1 = Uart.U_DATA_REG) as -> by (apply xreg_set; [rewrite (same_len _ _ _ Hs2); done|lia]).
  assert (xreg s3 0 = xreg s 0) as ->.
  { unfold s3. rewrite xreg_ne by lia. apply (same_x _ _ _ Hs). regs_in. }
  eexists. split; [reflexivity|]. cbn [hist with_hist]. split.
  - change (hist s3) with (hist s2). rewrite Hh. do 3 f_equal.
    rewrite (u8_small (xreg s 0)) by lia. done.
  - eapply same_then; [reflexivity..|exact Hs|]. eapply same_then; [reflexivity..| |apply same_hist].
    apply same_wr. regs_in.
Qed.

(** ** What is sent *)

Context (Hport : Uart.clears dev patience 5).

(** Nothing is sent to a full FIFO, and all accesses are words of the device window. *)
Definition hist_ok (h : list access) : Prop := Uart.sends_ok h /\ Devices.in_window h.

(** From [s] to [s'] the text [t] was sent, each character when there was room, and
    only registers of [ns] changed. *)
Record says (ns : list nat) (t : list Z) (s s' : machine) : Prop := Says {
  says_same : same ns s s';
  says_ok : hist_ok (hist s');
  says_sent : Uart.sent (hist s') = Uart.sent (hist s) ++ t;
}.

Lemma says_trans ns1 ns2 ns t1 t2 s1 s2 s3 :
  ns1 ⊆ ns -> ns2 ⊆ ns -> says ns1 t1 s1 s2 -> says ns2 t2 s2 s3 -> says ns (t1 ++ t2) s1 s3.
Proof.
  intros H1 H2 [A1 A2 A3] [B1 B2 B3]. constructor; [eapply same_then; [exact H1|exact H2|done|done]|done|].
  by rewrite B3, A3, app_assoc.
Qed.

Lemma says_wr ns t s s' n v : n ∈ ns -> says ns t s s' -> says ns t s (setx n v s').
Proof.
  intros Hn [A1 A2 A3]. constructor; [|done|done]. eapply same_then; [reflexivity..|exact A1|by apply same_wr].
Qed.

Lemma says_refl ns s : hist_ok (hist s) -> says ns [] s s.
Proof. intros H. constructor; [apply same_refl|done|by rewrite app_nil_r]. Qed.

Lemma says_len ns t s s' : says ns t s s' -> length (x s) = 31%nat -> length (x s') = 31%nat.
Proof. intros H. by rewrite (same_len _ _ _ (says_same _ _ _ _ H)). Qed.

Lemma call_put r s :
  length (x s) = 31%nat -> 0 <= xreg s 0 < 256 -> hist_ok (hist s) ->
  wp (call r put_uart) s (fun _ s' => says [1; 2; 30]%nat [xreg s 0] s s').
Proof.
  intros Hl H0 Hh. unfold call, wr. do 2 wp_step. set (s1 := setx 30 r s).
  assert (xreg s1 0 = xreg s 0) as E0 by (by apply xreg_ne).
  assert (length (x s1) = 31%nat) as Hl1 by (unfold s1; by rewrite !length_setx).
  pose proof (Uart.uart_send_eq dev patience (xreg s1 0) (hist s1) Hport) as Hu.
  apply wp_elim_unit in Hu as (h & Eu & Hok & Hs). specialize (Hok (proj1 Hh)).
  destruct (put_uart_eq s1 h) as (s2 & E2 & Hh2 & Hs2); [done|by rewrite E0|exact Eu|].
  wp_step. eapply wp_intro; [exact E2|]. unfold rd. wp_steps.
  replace (xreg s2 30) with r.
  - rewrite Z.eqb_refl. wp_step. constructor.
    + eapply same_then; [| |apply (same_wr [1; 2; 30]%nat s 30 r)|exact Hs2]; regs_in.
    + rewrite Hh2. split; [done|]. exact (Devices.keeps_use _ _ _ _ _ (Devices.uart_send_keeps dev patience Devices.in_window _) (proj2 Hh) Eu).
    + rewrite Hh2, Hs, E0, u8_small by lia. done.
  - rewrite (same_x _ _ _ Hs2) by regs_in. symmetry. by apply xreg_set; [|lia].
Qed.

Lemma put_string_loop str : forall n s,
  length (x s) = 31%nat -> hist_ok (hist s) -> cstring_at (ram s) (xreg s 4) str ->
  0 <= xreg s 4 -> xreg s 4 + Z.of_nat (length str) + 1 < 2 ^ 64 -> (length str < n)%nat ->
  wp (loop n put_string_uart_body tt) s (fun _ s' => says [0; 1; 2; 4; 30]%nat (str ++ [0]) s s').
Proof.
  induction str as [|c str IH]; intros [|n] s Hl Hh Hc H4 Hb Hn; simpl in Hn, Hb; try lia;
    rewrite loop_unfold; wp_step; unfold put_string_uart_body at 1, ldrb, add, wr, rd; wp_steps;
    set (s1 := setx 0 (load8 (ram s) (xreg s 4)) s);
    pose proof (load8_range (ram s) (xreg s 4)) as Hr;
    (assert (xreg s1 0 = load8 (ram s) (xreg s 4)) as E1 by (by apply xreg_set; [|lia]));
    (assert (length (x s1) = 31%nat) as Hl1 by (unfold s1; by rewrite !length_setx));
    (assert (says [0; 1; 2; 4; 30]%nat [] s s1) as S1 by (apply says_wr; [regs_in|by apply says_refl]));
    (eapply wp_mono; [apply call_put; [done|rewrite E1; lia|done]|]); intros [] s2 S2; wp_steps;
    set (s3 := setx 4 (u64 (xreg s2 4 + 1)) s2);
    (assert (xreg s2 4 = xreg s 4) as E4 by (rewrite (same_x _ _ _ (says_same _ _ _ _ S2)) by regs_in; by apply xreg_ne));
    (assert (xreg s3 0 = load8 (ram s) (xreg s 4)) as -> by
       (unfold s3; rewrite xreg_ne by lia; rewrite (same_x _ _ _ (says_same _ _ _ _ S2)) by regs_in; done));
    rewrite (u32_small (load8 _ _)) by lia; rewrite E1 in S2;
    (assert (says [0; 1; 2; 4; 30]%nat [load8 (ram s) (xreg s 4)] s s3) as S3 by
       (apply says_wr; [regs_in|]; eapply (says_trans _ _ _ []); [reflexivity| |exact S1|exact S2]; regs_in)).
  - destruct Hc as [E _]. cbn in E. injection E as E. rewrite E in *. rewrite Z.eqb_refl. by wp_step.
  - apply cstring_at_cons in Hc as (E & Hne & Hc). rewrite E in *. rewrite (proj2 (Z.eqb_neq c 0)) by done. cbn beta iota.
    assert (xreg s3 4 = xreg s 4 + 1) as E5.
    { unfold s3. rewrite xreg_set; [rewrite E4; apply u64_small; lia|eapply says_len; [exact S2|done]|lia]. }
    eapply wp_mono; [apply IH|]; rewrite ?E5; try lia.
    + by eapply says_len; [exact S3|].
    + apply S3.
    + by rewrite (same_ram _ _ _ (says_same _ _ _ _ S3)).
    + intros [] s4 S4. eapply (says_trans _ _ _ [c] (str ++ [0])); [reflexivity..|exact S3|exact S4].
Qed.

Lemma call_put_string r s str :
  length (x s) = 31%nat -> hist_ok (hist s) -> cstring_at (ram s) (xreg s 0) str ->
  0 <= xreg s 0 -> xreg s 0 + Z.of_nat (length str) + 1 < 2 ^ 64 -> (length str < fuel)%nat ->
  wp (call r put_string_uart) s (fun _ s' => says [0; 1; 2; 4; 6; 30]%nat (str ++ [0]) s s').
Proof.
  intros Hl Hh Hc H0 Hb Hf. unfold call, put_string_uart, mov, wr, rd. wp_steps.
  set (s1 := setx _ _ s). set (s2 := setx _ _ s1). set (s3 := setx _ _ s2).
  assert (length (x s1) = 31%nat) as Hl1 by (unfold s1; by rewrite !length_setx).
  assert (length (x s2) = 31%nat) as Hl2 by (unfold s2; by rewrite !length_setx).
  assert (length (x s3) = 31%nat) as Hl3 by (unfold s3; by rewrite !length_setx).
  assert (xreg s3 4 = xreg s 0) as E4.
  { unfold s3. rewrite xreg_ne by lia. unfold s2. rewrite xreg_set by (done || lia). by apply xreg_ne. }
  assert (xreg s3 6 = r) as E6.
  { unfold s3. rewrite xreg_set by (done || lia). unfold s2. rewrite xreg_ne by lia. by apply xreg_set; [|lia]. }
  eapply wp_mono; [apply (put_string_loop str); rewrite ?E4; done|]. intros [] s4 S4. wp_steps.
  set (s5 := setx 30 (xreg s4 6) s4).
  replace (xreg s5 30) with r.
  - rewrite Z.eqb_refl. wp_step. apply says_wr; [regs_in|].
    assert (says [0; 1; 2; 4; 6; 30]%nat [] s s3) as S3.
    { do 3 (apply says_wr; [regs_in|]). by apply says_refl. }
    eapply (says_trans _ _ _ []); [reflexivity| |exact S3|exact S4]. regs_in.
  - unfold s5. rewrite xreg_set; [|by eapply says_len; [exact S4|]|lia].
    rewrite (same_x _ _ _ (says_same _ _ _ _ S4)) by regs_in. done.
Qed.

(** The two calls in a run that has sent [t] since [s0]. *)
Lemma put_then ns t s0 s r (Q : unit -> machine -> Prop) :
  says ns t s0 s -> length (x s0) = 31%nat -> [1; 2; 30]%nat ⊆ ns -> 0 <= xreg s 0 < 256 ->
  (forall s', says ns (t ++ [xreg s 0]) s0 s' -> (forall n, n ∉ [1; 2; 30]%nat -> xreg s' n = xreg s n) -> Q tt s') ->
  wp (call r put_uart) s Q.
Proof.
  intros S Hl Hn H0 HQ. eapply wp_mono; [apply call_put; [by eapply says_len|done|apply S]|].
  intros [] s' S'. apply HQ; [|apply S']. by eapply says_trans; [|exact Hn|exact S|exact S'].
Qed.

Lemma put_string_then ns t s0 s r str (Q : unit -> machine -> Prop) :
  says ns t s0 s -> length (x s0) = 31%nat -> [0; 1; 2; 4; 6; 30]%nat ⊆ ns ->
  cstring_at (ram s0) (xreg s 0) str -> 0 <= xreg s 0 -> xreg s 0 + Z.of_nat (length str) + 1 < 2 ^ 64 ->
  (length str < fuel)%nat ->
  (forall s', says ns (t ++ str ++ [0]) s0 s' ->
     (forall n, n ∉ [0; 1; 2; 4; 6; 30]%nat -> xreg s' n = xreg s n) -> Q tt s') ->
  wp (call r put_string_uart) s Q.
Proof.
  intros S Hl Hn Hc H0 Hb Hf HQ. eapply wp_mono; [apply (call_put_string r s str); try done|].
  - by eapply says_len.
  - apply S.
  - by rewrite (same_ram _ _ _ (says_same _ _ _ _ S)).
  - intros [] s' S'. apply HQ; [|apply S']. by eapply says_trans; [|exact Hn|exact S|exact S'].
Qed.

Lemma wp_adrp n a b s (Q : unit -> machine -> Prop) :
  length (x s) = 31%nat -> (n < 31)%nat -> a / 4096 = b / 4096 -> is64 b ->
  Q tt (setx n b (setx n (a / 4096 * 4096) s)) -> wp (adrp_lo12 (X n) a b) s Q.
Proof.
  intros Hl Hn E Hb HQ. unfold adrp_lo12, add, rd, wr. wp_steps. rewrite xreg_set, E by done.
  rewrite E in HQ. pose proof (Z.div_mod b 4096). unfold is64 in Hb.
  replace (u64 (b / 4096 * 4096 + b mod 4096)) with b; [done|]. rewrite u64_small; lia.
Qed.

Lemma wp_call r f s (Q : unit -> machine -> Prop) :
  wp f (setx 30 r s) (fun _ s' => xreg s' 30 = r /\ Q tt s') -> wp (call r f) s Q.
Proof.
  intros H. unfold call, wr. do 2 wp_step. wp_step. eapply wp_mono; [exact H|]. intros [] s' [E HQ].
  unfold rd. wp_steps. rewrite E, Z.eqb_refl. by wp_step.
Qed.

Definition digit (s : machine) : Z := 48 + Z.shiftr (current_el s) 2.

Lemma current_el_range s : 0 <= current_el s < 16.
Proof. unfold current_el. rewrite Z.land_comm. apply (land_range 4 12); lia. Qed.

Lemma digit_range s : 48 <= digit s < 52.
Proof.
  unfold digit. rewrite Z.shiftr_div_pow2 by lia. pose proof (current_el_range s).
  pose proof (Z.div_mod (current_el s) (2 ^ 2)). pose proof (Z.mod_pos_bound (current_el s) (2 ^ 2)). lia.
Qed.

Definition saved_by_get_CurrentEL : list nat := [0; 1; 2; 4; 5; 6; 10; 30]%nat.

(** Registers written in between. *)
Ltac says_steps := repeat (apply says_wr; [regs_in|]).

Lemma call_get_CurrentEL r s :
  length (x s) = 31%nat -> hist_ok (hist s) -> cstring_at (ram s) (el_string1 lk) el_text ->
  0 <= el_string1 lk < 2 ^ 63 -> (20 < fuel)%nat ->
  wp (call r get_CurrentEL) s (fun _ s' => says saved_by_get_CurrentEL (el_text ++ [0; digit s; 10]) s s').
Proof.
  intros Hl Hh Hc Ha Hf. apply wp_call. unfold get_CurrentEL, mov, wr, rd. wp_steps.
  apply wp_adrp; [by rewrite !length_setx|lia|done|unfold is64; lia|].
  set (s1 := setx _ _ (setx _ _ (setx _ _ (setx _ _ s)))).
  assert (says saved_by_get_CurrentEL [] s s1) as S1 by (says_steps; by apply says_refl).
  assert (xreg s1 0 = el_string1 lk) as E0 by (unfold s1; by xreg_simp).
  assert (xreg s1 10 = r) as E1 by (unfold s1; by xreg_simp).
  wp_step. eapply put_string_then; [exact S1|done|regs_in| | | | |]; rewrite ?E0; [exact Hc|lia|cbn; lia|cbn; lia|].
  intros s2 S2 K2. unfold mrs_el, lsr, movi, add_r, wr, rd. wp_steps.
  pose proof (says_len _ _ _ _ S2 Hl) as Hl2. pose proof (digit_range s) as Hd.
  set (s3 := setx 0 _ (setx 0 _ _)).
  assert (says saved_by_get_CurrentEL (el_text ++ [0]) s s3) as S3 by (says_steps; exact S2).
  assert (xreg s3 0 = digit s) as E3.
  { unfold s3. xreg_simp. unfold current_el. rewrite (same_pstate _ _ _ (says_same _ _ _ _ S2)).
    change (u64 48) with 48. fold (current_el s) (digit s). apply u64_small. lia. }
  assert (xreg s3 10 = r) as E310 by (unfold s3; xreg_simp; rewrite K2 by regs_in; done).
  eapply put_then; [exact S3|done|regs_in|rewrite E3; lia|]. rewrite E3. intros s4 S4 K4. wp_steps.
  pose proof (says_len _ _ _ _ S4 Hl) as Hl4. set (s5 := setx 0 _ s4).
  assert (says saved_by_get_CurrentEL ((el_text ++ [0]) ++ [digit s]) s s5) as S5 by (says_steps; exact S4).
  assert (xreg s5 0 = 10) as E5 by (unfold s5; by xreg_simp).
  eapply put_then; [exact S5|done|regs_in|rewrite E5; lia|]. rewrite E5. intros s6 S6 K6. wp_steps.
  pose proof (says_len _ _ _ _ S6 Hl) as Hl6. split.
  - xreg_simp. rewrite K6 by regs_in. unfold s5. xreg_simp. rewrite K4 by regs_in. done.
  - says_steps. exact S6.
Qed.

(** ** The set-up of the port *)

Definition not_pull (l : list access) : list access :=
  List.filter (fun a => negb (Devices.access_reg a =? Uart.GPIO_PUP_PDN_CNTRL_REG0)) l.

(** Accesses that send nothing. *)
Definition quiet (a : access) : bool := match a with Wr r _ => negb (r =? Uart.U_DATA_REG) | Rd _ _ => true end.

Lemma sends_ok_quiet h l : Uart.sends_ok h -> Forall (fun a => quiet a = true) l -> Uart.sends_ok (h ++ l).
Proof.
  intros Hh Hl h1 v h2 E. destruct (app_eq_app h l h1 _ E) as (k & [[E1 E2]|[E1 E2]]).
  - destruct k as [|a k].
    + cbn in E2. rewrite <-E2 in Hl. by apply Forall_cons in Hl as [Hq _].
    + injection E2 as <- _. by apply (Hh h1 v k).
  - subst l. apply Forall_app in Hl as [_ Hl]. by apply Forall_cons in Hl as [Hq _].
Qed.

Lemma sent_quiet l : Forall (fun a => quiet a = true) l -> Uart.sent l = [].
Proof.
  induction 1 as [|[r v|r v] l Hq _ IH]; [done|exact IH|]. cbn in Hq |- *. by destruct (r =? Uart.U_DATA_REG).
Qed.

Lemma not_pull_quiet l : forallb quiet l = true -> Forall (fun a => quiet a = true) (not_pull l).
Proof.
  unfold not_pull. induction l as [|a l IH]; cbn; [done|]. intros [Ha Hl]%andb_prop.
  destruct (negb _); [apply Forall_cons|]; auto.
Qed.

Lemma not_pull_sub (P : access -> Prop) l : Forall P l -> Forall P (not_pull l).
Proof. unfold not_pull. induction 1 as [|a l Ha _ IH]; cbn; [constructor|]. destruct (negb _); [by constructor|done]. Qed.

Lemma u32_land v m : 0 <= m < 2 ^ 32 -> u32 (Z.land v m) = Z.land v m.
Proof. intros Hm. apply u32_small. rewrite Z.land_comm. by apply (land_range 32); [lia|]. Qed.
Lemma u32_lor v m : 0 <= v < 2 ^ 32 -> 0 <= m < 2 ^ 32 -> u32 (Z.lor v m) = Z.lor v m.
Proof. intros Hv Hm. apply u32_small. apply (lor_range 32); lia. Qed.

Lemma init_uart_eq s :
  length (x s) = 31%nat ->
  exists s' l, init_uart s = Ret (tt, s') /\ same [0; 1; 2]%nat s s' /\
    Uart.uart_init dev (hist s) = Ret (tt, hist s ++ l) /\ hist s' = hist s ++ not_pull l /\
    forallb quiet l = true.
Proof.
  destruct s as [r p c ps sy m h]. intros Hl. cbn [x hist] in *. regs_of r Hl.
  cbv beta iota zeta delta [init_uart ldr_io str_io and_w orr_w movi rd wr zoom readl writel gets modify mbind M_bind
    hist_lens lget lset setx xreg with_x with_hist x sp pc pstate sys ram hist nth insert list_insert].
  change (u64 Uart.GPFSEL1) with Uart.GPFSEL1. set (v := u32 (dev h Uart.GPFSEL1)).
  rewrite (u32_small v) by apply u32_range. rewrite !u32_land by lia.
  rewrite !(u32_lor (Z.land _ _)) by first [lia|rewrite Z.land_comm; apply (land_range 32); lia].
  eexists _, _. split; [reflexivity|]. split; [|split; [|split]].
  - constructor; try done. intros n Hn. do 3 (destruct n as [|n]; [exfalso; apply Hn; regs_in|]). done.
  - unfold Uart.uart_init, mbind, M_bind, readl, writel, modify. rewrite <-!app_assoc. reflexivity.
  - cbn [hist]. rewrite <-!app_assoc. f_equal. fold v. change (not32 (Z.shiftl 7 12)) with 0xffff8fff.
    change (not32 (Z.shiftl 7 15)) with 0xfffc7fff. change (Z.shiftl 4 12) with 0x4000. change (Z.shiftl 4 15) with 0x20000.
    rewrite (u32_lor (Z.land _ 0xfffc7fff)); [reflexivity| |lia]. rewrite Z.land_comm. apply (land_range 32); lia.
  - reflexivity.
Qed.

Lemma call_init_uart r s :
  length (x s) = 31%nat -> hist_ok (hist s) ->
  wp (call r init_uart) s (fun _ s' => says [0; 1; 2; 30]%nat [] s s').
Proof.
  intros Hl Hh. apply wp_call. destruct (init_uart_eq (setx 30 r s)) as (s' & l & E & Hs & Eu & E' & Hq).
  { by rewrite length_setx. }
  apply not_pull_quiet in Hq. destruct Hh as [Hh Hw].
  pose proof (Devices.keeps_use _ _ _ _ _ (Devices.uart_init_keeps dev Devices.in_window) Hw Eu) as Hl'. apply Forall_app in Hl' as [_ Hl']. eapply wp_intro; [exact E|]. split.
  - rewrite (same_x _ _ _ Hs) by regs_in. by xreg_simp.
  - constructor.
    + eapply same_then; [| |apply (same_wr [30]%nat)|exact Hs]; regs_in.
    + rewrite E'. split; [by apply sends_ok_quiet|]. apply Forall_app. split; [done|]. by apply not_pull_sub.
    + by rewrite E', Uart.sent_app, (sent_quiet _ Hq).
Qed.

(** ** From reset to [kernel_main] *)

(** The image in memory: the two texts, on one page as [el1_entry] assumes, and [.bss]. *)
Record image_ok (m : mem) : Prop := ImageOk {
  io_el : cstring_at m (el_string1 lk) el_text;
  io_boot : cstring_at m (boot_string lk) boot_text;
  io_page : el_string1 lk / 4096 = boot_string lk / 4096;
  io_el_range : 0 <= el_string1 lk < 2 ^ 63;
  io_boot_range : 0 <= boot_string lk < 2 ^ 63;
  io_bss : 0 <= bss lk <= ebss lk;
  io_ebss : ebss lk < 2 ^ 62;
  io_addrs : is64 (el1_entry_addr lk) /\ is64 (vector_table_addr lk) /\ is64 (init_task lk);
}.

Context (Hfuel : (20 < fuel)%nat).

(** What [el1_entry] leaves for [kernel_main]. *)
Definition handed_over (s s' : machine) : Prop :=
  sp s' = LOW_MEMORY /\ pstate s' = pstate s /\
  sys s' = <["sp_el0" := init_task lk]> (<["vbar_el1" := vector_table_addr lk]> (sys s)) /\
  ram s' = fill (ram s) (bss lk) 0 (Z.to_nat (ebss lk - bss lk)) /\
  hist_ok (hist s') /\ Uart.sent (hist s') = Uart.sent (hist s) ++ boot_text ++ [0; 10].

Lemma wp_movi n v s (Q : unit -> machine -> Prop) : Q tt (setx n (u64 v) s) -> wp (movi (X n) v) s Q.
Proof. done. Qed.

(** The straight-line end of [el1_entry]. *)
Lemma el1_entry_end s :
  length (x s) = 31%nat -> image_ok (ram s) ->
  wp (movi (X 5) (vector_table_addr lk);;
      msr "vbar_el1" (X 5);;
      movi (X 0) (bss lk);;
      movi (X 1) (ebss lk);;
      sub_r (X 2) (X 1) (X 0);;
      mov (X 1) XZR;;
      x0 ← rd (X 0); x1 ← rd (X 1); x2 ← rd (X 2);
      _ ← zoom ram_lens (memset x0 x1 x2);
      movi (X 5) (init_task lk);;
      msr "sp_el0" (X 5);;
      movi SP LOW_MEMORY;;
      mret KernelMain) s (fun e s' => e = KernelMain /\ sp s' = LOW_MEMORY /\ pstate s' = pstate s /\
    sys s' = <["sp_el0" := init_task lk]> (<["vbar_el1" := vector_table_addr lk]> (sys s)) /\
    ram s' = fill (ram s) (bss lk) 0 (Z.to_nat (ebss lk - bss lk)) /\ hist s' = hist s).
Proof.
  intros Hl [_ _ _ _ _ Hz Hze (_ & Hv & Hi)]. unfold is64 in Hv, Hi.
  unfold movi, sub_r, mov, msr, wr, rd. wp_steps. change (ram_lens.(lget) ?s) with (ram s).
  set (s1 := with_sys (setx 5 _ s) _). assert (length (x s1) = 31%nat) as Hl1 by (by unfold s1; rewrite <-Hl, <-(length_setx 5 (u64 (vector_table_addr lk)) s)).
  set (s2 := setx 1 _ (setx 2 _ (setx 1 _ (setx 0 _ s1)))). assert (length (x s2) = 31%nat) as Hl2 by (unfold s2; by rewrite !length_setx).
  assert (xreg s2 0 = bss lk) as -> by (unfold s2; xreg_simp; apply u64_small; lia).
  assert (xreg s2 1 = 0) as -> by (unfold s2; by xreg_simp).
  assert (xreg s2 2 = ebss lk - bss lk) as ->.
  { unfold s2. xreg_simp. rewrite !u64_small by (rewrite ?u64_small; lia). done. }
  eapply wp_intro; [apply memset_eq; lia|]. wp_steps. split; [done|].
  cbn [sp with_sp pstate sys ram hist with_sys setx with_x]. split; [done|]. split; [done|]. split; [|done].
  rewrite xreg_set by (done || lia). rewrite !u64_small by lia.
  unfold s2, s1. cbn [sys ram with_sys setx with_x ram_lens lset with_ram].
  rewrite (xreg_set s) by (done || lia). by rewrite u64_small by lia.
Qed.

Lemma el1_entry_runs s :
  length (x s) = 31%nat -> hist_ok (hist s) -> image_ok (ram s) ->
  wp el1_entry s (fun e s' => e = KernelMain /\ handed_over s s').
Proof.
  intros Hl Hh Hok. pose proof Hok as [_ Hb Hp Hr1 Hr2 _ _ _]. unfold el1_entry. wp_step.
  apply wp_adrp; [done|lia|exact Hp|unfold is64; lia|]. set (s1 := setx _ _ (setx _ _ s)).
  assert (says [0; 1; 2; 4; 6; 30]%nat [] s s1) as S1 by (says_steps; by apply says_refl).
  assert (xreg s1 0 = boot_string lk) as E1 by (unfold s1; by xreg_simp).
  wp_step. eapply put_string_then; [exact S1|done|regs_in| | | | |]; rewrite ?E1; [exact Hb|lia|cbn; lia|cbn; lia|].
  intros s2 S2 _. pose proof (says_len _ _ _ _ S2 Hl) as Hl2. wp_step. apply wp_movi. wp_step. set (s3 := setx 0 _ s2).
  assert (says [0; 1; 2; 4; 6; 30]%nat (boot_text ++ [0]) s s3) as S3 by (says_steps; exact S2).
  assert (xreg s3 0 = 10) as E3 by (unfold s3; by xreg_simp).
  eapply put_then; [exact S3|done|regs_in|rewrite E3; lia|]. rewrite E3. intros s4 [M4 K4 T4] _.
  eapply wp_mono; [apply el1_entry_end|].
  - by rewrite (same_len _ _ _ M4).
  - by rewrite (same_ram _ _ _ M4).
  - intros e s' (He & H1 & H2 & H3 & H4 & H5). split; [done|]. unfold handed_over.
    rewrite H1, H2, H3, H4, H5, (same_pstate _ _ _ M4), (same_sys _ _ _ M4), (same_ram _ _ _ M4), T4, <-app_assoc. done.
Qed.

(** The system registers that [el2_entry] sets for EL1. *)
Definition el2_sys (m : gmap string Z) : gmap string Z :=
  <["elr_el2" := el1_entry_addr lk]> (<["spsr_el2" := SPSR_EL1]>
    (<["sctlr_el1" := SCTLR_VALUE_MMU_DISABLED]> (<["hcr_el2" := HCR_HOST_NVHE_FLAGS]> m))).

Lemma wp_msr_el2 r n s (Q : unit -> machine -> Prop) :
  CurrentEL_EL2 <= current_el s -> Q tt (with_sys s (<[r := xreg s n]> (sys s))) -> wp (msr_el2 r (X n)) s Q.
Proof.
  intros He HQ. unfold msr_el2, msr, rd. wp_steps. rewrite (proj2 (Z.ltb_ge _ _)) by done. by wp_steps.
Qed.

Lemma wp_msr r n s (Q : unit -> machine -> Prop) :
  Q tt (with_sys s (<[r := xreg s n]> (sys s))) -> wp (msr r (X n)) s Q.
Proof. done. Qed.
Lemma wp_mrs r n s (Q : unit -> machine -> Prop) : Q tt (setx n (sysreg s r) s) -> wp (mrs (X n) r) s Q.
Proof. done. Qed.

Lemma el2_entry_runs s :
  length (x s) = 31%nat -> hist_ok (hist s) -> image_ok (ram s) -> CurrentEL_EL2 <= current_el s ->
  wp el2_entry s (fun e s' => e = KernelMain /\ sp s' = LOW_MEMORY /\ pstate s' = SPSR_EL1 /\
    sys s' = <["sp_el0" := init_task lk]> (<["vbar_el1" := vector_table_addr lk]> (el2_sys (sys s))) /\
    ram s' = fill (ram s) (bss lk) 0 (Z.to_nat (ebss lk - bss lk)) /\ hist_ok (hist s') /\
    Uart.sent (hist s') = Uart.sent (hist s) ++ el_text ++ [0; digit s; 10] ++ boot_text ++ [0; 10]).
Proof.
  intros Hl Hh Hok He. pose proof Hok as [Hs _ _ Hr _ _ _ (Ha & _)]. unfold is64 in Ha.
  unfold el2_entry. wp_step. eapply wp_mono; [by apply call_get_CurrentEL|]. intros [] s1 [M1 K1 T1].
  pose proof (same_len _ _ _ M1) as Hl1. rewrite Hl in Hl1.
  assert (current_el s1 = current_el s) as Ec by (unfold current_el; by rewrite (same_pstate _ _ _ M1)).
  wp_step. apply wp_movi. wp_step. apply wp_msr_el2; [by rewrite <-Ec in He|].
  wp_step. apply wp_movi. wp_step. apply wp_msr. wp_step. apply wp_mrs.
  wp_step. apply wp_movi. wp_step. apply wp_msr_el2; [by rewrite <-Ec in He|].
  wp_step. apply wp_movi. wp_step. apply wp_msr_el2; [by rewrite <-Ec in He|].
  xreg_simp.
  set (s2 := with_sys _ _).
  assert (sys s2 = el2_sys (sys s)) as E2.
  { unfold s2, el2_sys. cbn [sys with_sys setx with_x]. by rewrite (same_sys _ _ _ M1), (u64_small (el1_entry_addr lk)) by done. }
  assert (length (x s2) = 31%nat) as Hl2.
  { unfold s2. regs_len. }
  assert (ram s2 = ram s) as R2 by apply (same_ram _ _ _ M1).
  assert (hist s2 = hist s1) as H2 by done. clearbody s2.
  assert (sysreg s2 "elr_el2" = el1_entry_addr lk) as A1 by (unfold sysreg, el2_sys in *; by rewrite E2, lookup_insert_eq).
  assert (sysreg s2 "spsr_el2" = SPSR_EL1) as A2 by (unfold sysreg, el2_sys in *; rewrite E2, lookup_insert_ne by done; by rewrite lookup_insert_eq).
  unfold eret, after_eret. wp_steps. rewrite A1, A2. cbn [pc with_pc]. rewrite Z.eqb_refl. set (s3 := with_pc _ _).
  eapply wp_mono; [apply (el1_entry_runs s3); [done|by rewrite <-H2 in K1|by change (image_ok (ram s2)); rewrite R2]|].
  intros e s' (He' & H1 & Hp & Hy & Hm & Hk & Ht). split; [done|]. split; [done|]. split; [by rewrite Hp|].
  split; [by rewrite Hy; cbn [s3 sys with_pc with_pstate]; rewrite E2|]. split; [by rewrite Hm; cbn [s3 ram with_pc with_pstate]; rewrite R2|].
  split; [done|]. rewrite Ht. cbn [s3 hist with_pc with_pstate]. rewrite H2, T1, <-!app_assoc. done.
Qed.

(** [master] up to the choice of the exception level. *)
Definition started (s s' : machine) : Prop :=
  length (x s') = 31%nat /\ pstate s' = Z.lor (pstate s) (Z.shiftl 2 6) /\ sys s' = sys s /\ ram s' = ram s /\
  hist_ok (hist s') /\ Uart.sent (hist s') = Uart.sent (hist s) /\ current_el s' = current_el s.

Definition enter (e : Z) : M machine stage := if e =? CurrentEL_EL3 then el3_entry else el2_entry.

Lemma start_master s :
  length (x s) = 31%nat -> hist_ok (hist s) -> Z.land (sysreg s "mpidr_el1") 0xFF = 0 ->
  exists s', started s s' /\ _start s = enter (current_el s) s'.
Proof.
  intros Hl Hh Hm. unfold _start, daifset, mrs, and_x, wr, rd, gets, modify, mbind, M_bind.
  set (s1 := with_pstate s _). assert (sysreg s1 "mpidr_el1" = sysreg s "mpidr_el1") as -> by done.
  set (s2 := setx 0 _ s1). assert (length (x s1) = 31%nat) as Hl1 by done.
  assert (xreg s2 0 = sysreg s "mpidr_el1") as -> by (unfold s2; by xreg_simp). rewrite Hm.
  set (s3 := setx 0 0 s2). assert (xreg s3 0 = 0) as -> by (unfold s3, s2; by xreg_simp).
  rewrite Z.eqb_refl. unfold master, mrs_el, wr, rd, gets, modify, mbind, M_bind.
  assert (length (x s3) = 31%nat) as Hl3 by (unfold s3, s2; regs_len).
  pose proof (call_init_uart (ret 8) s3 Hl3 Hh) as Hu. apply wp_elim_unit in Hu as (s4 & E4 & [M4 K4 T4]).
  rewrite E4. pose proof (same_len _ _ _ M4) as Hl4. rewrite Hl3 in Hl4.
  assert (current_el s4 = current_el s) as Ec.
  { unfold current_el. rewrite (same_pstate _ _ _ M4). cbn [s3 s2 s1 pstate setx with_x with_pstate].
    rewrite Z.land_lor_distr_l. change (Z.land (Z.shiftl 2 6) 12) with 0. by rewrite Z.lor_0_r. }
  exists (setx 5 (current_el s4) s4). rewrite (xreg_set s4 5 _ Hl4) by lia. rewrite Ec. split; [|done].
  unfold started. repeat apply conj.
  - by rewrite length_setx.
  - apply (same_pstate _ _ _ M4).
  - apply (same_sys _ _ _ M4).
  - apply (same_ram _ _ _ M4).
  - apply K4.
  - apply K4.
  - cbn [hist setx with_x]. rewrite T4. by rewrite app_nil_r.
  - exact Ec.
Qed.

Lemma start_runs s :
  length (x s) = 31%nat -> hist_ok (hist s) -> image_ok (ram s) ->
  Z.land (sysreg s "mpidr_el1") 0xFF = 0 -> current_el s = CurrentEL_EL2 ->
  wp _start s (fun e s' => e = KernelMain /\ sp s' = LOW_MEMORY /\ pstate s' = 0x1c5 /\
    (forall r, sysreg s' r =
       if decide (r = "sp_el0") then init_task lk
       else if decide (r = "vbar_el1") then vector_table_addr lk
       else if decide (r = "elr_el2") then el1_entry_addr lk
       else if decide (r = "spsr_el2") then 0x1c5
       else if decide (r = "sctlr_el1") then 0
       else if decide (r = "hcr_el2") then 2 ^ 31
       else sysreg s r) /\
    (forall b, load8 (ram s') b = if decide (bss lk <= b < ebss lk) then 0 else load8 (ram s) b) /\
    hist_ok (hist s') /\
    Uart.sent (hist s') = Uart.sent (hist s) ++ Printk.bytes "Booting at EL" ++ [0] ++ Printk.bytes "2" ++ [10] ++
      Printk.bytes "- Switch to EL1 -" ++ [0; 10]).
Proof.
  intros Hl Hh Hok Hm He. destruct (start_master s Hl Hh Hm) as (s1 & (Hl1 & Hp1 & Hy1 & Hr1 & Hk1 & Ht1 & Hc1) & E).
  eapply wp_run; [exact E|]. rewrite He. change (enter CurrentEL_EL2) with el2_entry.
  rewrite <-Hr1 in Hok. eapply wp_mono; [apply el2_entry_runs; [done|done|done|rewrite Hc1, He; done]|].
  intros e s' (-> & Hs & Hp & Hy & Hm' & Hk & Ht). split; [done|]. split; [done|]. split; [done|].
  split; [|split; [|split; [done|]]].
  - intros r. unfold sysreg. rewrite Hy, Hy1. unfold el2_sys.
    repeat (case_decide; [subst r; rewrite ?lookup_insert_ne by done; by rewrite lookup_insert_eq|];
            rewrite lookup_insert_ne by done). done.
  - intros b. rewrite Hm', load8_fill, Hr1. pose proof (io_bss _ Hok). rewrite Z2Nat.id by lia.
    replace (bss lk + (ebss lk - bss lk)) with (ebss lk) by lia. done.
  - rewrite Ht, Ht1. unfold digit. rewrite Hc1, He. done.
Qed.

(** C26: The first core, reset into EL2, reaches [kernel_main] at EL1 on the boot stack with
    asynchronous exceptions masked: EL1 is AArch64 with its MMU off, the vector table is
    installed, the current task is [init_task], [.bss] and nothing else in memory is cleared, and the
    port was told the level and the switch, each text with its terminating null character. No character
    was written to a full FIFO, and every register accessed is an aligned word of the device window. *)
Theorem start_boots s :
  length (x s) = 31%nat -> hist_ok (hist s) -> image_ok (ram s) ->
  Z.land (sysreg s "mpidr_el1") 0xFF = 0 -> current_el s = CurrentEL_EL2 ->
  wp _start s (fun e s' => e = KernelMain /\ sp s' = LOW_MEMORY /\ pstate s' = 0x1c5 /\
    (forall r, sysreg s' r =
       if decide (r = "sp_el0") then init_task lk
       else if decide (r = "vbar_el1") then vector_table_addr lk
       else if decide (r = "elr_el2") then el1_entry_addr lk
       else if decide (r = "spsr_el2") then 0x1c5
       else if decide (r = "sctlr_el1") then 0
       else if decide (r = "hcr_el2") then 2 ^ 31
       else sysreg s r) /\
    (forall b, load8 (ram s') b = if decide (bss lk <= b < ebss lk) then 0 else load8 (ram s) b) /\
    hist_ok (hist s') /\
    Uart.sent (hist s') = Uart.sent (hist s) ++ Printk.bytes "Booting at EL" ++ [0] ++ Printk.bytes "2" ++ [10] ++
      Printk.bytes "- Switch to EL1 -" ++ [0; 10]).
Proof. apply start_runs. Qed.

(** C33: Anything else does not get there: the other cores stay in a loop, code reset into EL1 is
    undefined at its first write of an EL2 register, and from EL3 the [eret] goes wherever [elr_el3]
    happened to point, with no register of EL1 or EL2 set up. *)
Theorem start_elsewhere s :
  length (x s) = 31%nat -> hist_ok (hist s) -> image_ok (ram s) ->
  (Z.land (sysreg s "mpidr_el1") 0xFF <> 0 -> _start s = NoFuel) /\
  (Z.land (sysreg s "mpidr_el1") 0xFF = 0 -> current_el s = CurrentEL_EL1 -> _start s = Undef) /\
  (Z.land (sysreg s "mpidr_el1") 0xFF = 0 -> current_el s = CurrentEL_EL3 -> sysreg s "elr_el3" <> el1_entry_addr lk ->
   exists s', _start s = Ret (Jumped (sysreg s "elr_el3"), s') /\ pstate s' = sysreg s "spsr_el3" /\ sys s' = sys s).
Proof.
  intros Hl Hh Hok. split; [|split].
  - intros Hm. unfold _start, daifset, mrs, and_x, wr, rd, gets, modify, mbind, M_bind.
    set (s1 := with_pstate s _). assert (sysreg s1 "mpidr_el1" = sysreg s "mpidr_el1") as -> by done.
    assert (length (x s1) = 31%nat) as Hl1 by done. xreg_simp. rewrite (proj2 (Z.eqb_neq _ _)) by done.
    unfold slave_hang. generalize (setx 0 (Z.land (sysreg s "mpidr_el1") 0xFF) (setx 0 (sysreg s "mpidr_el1") s1)).
    intros t. induction idle as [|n IH]; [done|exact IH].
  - intros Hm He. destruct (start_master s Hl Hh Hm) as (s1 & (Hl1 & Hp1 & Hy1 & Hr1 & Hk1 & Ht1 & Hc1) & ->).
    rewrite He. change (enter CurrentEL_EL1) with el2_entry. unfold el2_entry, mbind at 1, M_bind at 1.
    rewrite <-Hr1 in Hok. pose proof (call_get_CurrentEL (ret 7) s1 Hl1 Hk1 (io_el _ Hok) (io_el_range _ Hok) Hfuel) as Hg.
    apply wp_elim_unit in Hg as (s2 & -> & [M2 _ _]). unfold msr_el2, mbind, M_bind, gets, movi, wr, modify.
    replace (current_el (setx 0 _ s2)) with CurrentEL_EL1; [done|].
    change (CurrentEL_EL1 = current_el s2). rewrite <-He, <-Hc1. unfold current_el. by rewrite (same_pstate _ _ _ M2).
  - intros Hm He Hn. destruct (start_master s Hl Hh Hm) as (s1 & (Hl1 & Hp1 & Hy1 & Hr1 & Hk1 & Ht1 & Hc1) & ->).
    rewrite He. change (enter CurrentEL_EL3) with el3_entry. unfold el3_entry, mbind at 1, M_bind at 1.
    rewrite <-Hr1 in Hok. pose proof (call_get_CurrentEL (ret 6) s1 Hl1 Hk1 (io_el _ Hok) (io_el_range _ Hok) Hfuel) as Hg.
    apply wp_elim_unit in Hg as (s2 & -> & [M2 _ _]). unfold eret, after_eret, modify, mbind, M_bind, gets.
    assert (forall r, sysreg s2 r = sysreg s r) as Hr by (intros r; unfold sysreg; by rewrite (same_sys _ _ _ M2), Hy1).
    rewrite !Hr. cbn [pc with_pc]. rewrite (proj2 (Z.eqb_neq _ _)) by done. eexists. split; [reflexivity|]. split; [done|].
    cbn [sys with_pc with_pstate]. by rewrite (same_sys _ _ _ M2), Hy1.
Qed.

End Boot.
(** ** Witnesses *)

Lemma hist_ok_nil : hist_ok [].
Proof. split; [exact Uart.sends_ok_nil|constructor]. Qed.


Definition links0 : links := Links 0x90000 0x9000e 0x80040 0x82000 0xa0000 0xa0100 0x98000.
Definition ram0 : mem :=
  store_bytes (store_bytes ∅ 0x90000 (el_text ++ [0])) 0x9000e (boot_text ++ [0]).
Definition reset (el : Z) : machine := Mc (replicate 31 0) 0 0x80000 (0x3c1 + el) {["elr_el3" := 0x1234]} ram0 [].

Lemma image0 : image_ok links0 ram0.
Proof.
  constructor; try (cbn; unfold is64; lia).
  - split; [by vm_compute|apply (bool_decide_unpack _); by vm_compute].
  - split; [by vm_compute|apply (bool_decide_unpack _); by vm_compute].
  - done.
Qed.

Lemma start_boots_witness :
  wp (_start Uart.test_port 2 32 0 links0 (fun n => 0x80000 + 4 * Z.of_nat n)) (reset 8) (fun e s' =>
    e = KernelMain /\ sp s' = 0x400000).
Proof.
  eapply wp_mono; [apply (start_boots Uart.test_port 2 32 0 links0 (fun n => 0x80000 + 4 * Z.of_nat n)
    (Uart.test_port_clears 5 (or_intror eq_refl)) ltac:(lia) (reset 8)); try done|].
  - exact hist_ok_nil.
  - exact image0.
  - by intros e s' (-> & -> & _).
Defined.

Lemma start_elsewhere_witness :
  _start Uart.test_port 2 32 0 links0 (fun n => 0x80000 + 4 * Z.of_nat n) (reset 4) = Undef /\
  exists s', _start Uart.test_port 2 32 0 links0 (fun n => 0x80000 + 4 * Z.of_nat n) (reset 12) = Ret (Jumped 0x1234, s').
Proof.
  split.
  - apply (start_elsewhere Uart.test_port 2 32 0 links0 (fun n => 0x80000 + 4 * Z.of_nat n)
      (Uart.test_port_clears 5 (or_intror eq_refl)) ltac:(lia) (reset 4) eq_refl hist_ok_nil image0); done.
  - destruct (start_elsewhere Uart.test_port 2 32 0 links0 (fun n => 0x80000 + 4 * Z.of_nat n)
      (Uart.test_port_clears 5 (or_intror eq_refl)) ltac:(lia) (reset 12) eq_refl hist_ok_nil image0) as (_ & _ & H).
    destruct (H eq_refl eq_refl ltac:(done)) as (s' & E & _). exists s'. exact E.
Defined.

End Boot.
