(* ===== verification/Lds.v ===== *)
(** * The linker script

    [arch/arm64/lds/vmyios.lds.S]: where the linker puts the sections of the objects and the symbols that the
    code uses. The script runs down a location counter [dot]; an output section starts at the next address that its
    contents are aligned to. The objects are known by the size and the alignment of
    their sections. From this follows what the other files ask of the image. *)

From S2P Require Import Prelude Base Mem Mmu MmuMap MmuBoot SchedInv Layout Arm Boot.

Import Mem.

Module Lds.

(** The input sections of one name, put together. *)
Record input : Type := Input { size : Z; alignment : Z }.

(** The sections of the objects; [COMMON] and [.bss] are one. *)
Record objects : Type := Objects {
  o_text_boot : input;
  o_text : input;
  o_rodata : input;
  o_data : input;
  o_init_task : input;
  o_bss : input;
}.

Definition ALIGN (dot n : Z) : Z := (dot + n - 1) / n * n.

(** Where a section starts, and the location counter after it. *)
Definition at_ (dot : Z) (i : input) : Z := ALIGN dot (alignment i).
Definition after (dot : Z) (i : input) : Z := at_ dot i + size i.

Record map_file : Type := MapFile {
  _text_boot : Z; text_boot_at : Z; _etext_boot : Z;
  _text : Z; text_at : Z; _etext : Z;
  _rodata : Z; rodata_at : Z; _erodata : Z;
  _data : Z; data_at : Z;
  init_thread_union : Z; init_stack : Z;
  idmap_pg_dir : Z;
  _edata : Z;
  _bss : Z; bss_at : Z; _ebss : Z;
}.

Definition SECTIONS (o : objects) : map_file :=
  let dot := 0x80000 in
  let _text_boot := dot in
  let text_boot_at := at_ dot (o_text_boot o) in
  let dot := after dot (o_text_boot o) in
  let _etext_boot := dot in
  let _text := dot in
  let text_at := at_ dot (o_text o) in
  let dot := after dot (o_text o) in
  let _etext := dot in
  let dot := ALIGN dot 4096 in
  let _rodata := dot in
  let rodata_at := at_ dot (o_rodata o) in
  let dot := after dot (o_rodata o) in
  let _erodata := dot in
  let dot := ALIGN dot 0x8 in
  let _data := dot in
  let dot := ALIGN dot (Z.max (alignment (o_data o)) (alignment (o_init_task o))) in
  let data_at := at_ dot (o_data o) in
  let dot := after dot (o_data o) in
  let dot := ALIGN dot 4096 in
  let init_thread_union := dot in
  let init_stack := dot in
  let dot := after dot (o_init_task o) in
  let dot := ALIGN dot 4096 in
  let idmap_pg_dir := dot in
  let dot := dot + 4096 in
  let _edata := dot in
  let dot := ALIGN dot 0x8 in
  let _bss := dot in
  let bss_at := at_ dot (o_bss o) in
  let dot := after dot (o_bss o) in
  let _ebss := dot in
  MapFile _text_boot text_boot_at _etext_boot _text text_at _etext _rodata rodata_at _erodata _data data_at init_thread_union init_stack
    idmap_pg_dir _edata _bss bss_at _ebss.

(** ** Properties of the layout *)

Definition input_ok (i : input) : Prop := 0 <= size i /\ 0 < alignment i /\ (alignment i | 4096).

(** The sections fit below the memory that the allocator hands out, with room for alignment. *)
Record fits (o : objects) : Prop := Fits {
  f_inputs : Forall input_ok [o_text_boot o; o_text o; o_rodata o; o_data o; o_init_task o; o_bss o];
  f_code : 0 < size (o_text_boot o);
  f_total : size (o_text_boot o) + size (o_text o) + size (o_rodata o) + size (o_data o) + size (o_init_task o) +
            size (o_bss o) + 13 * 4096 <= LOW_MEMORY - 0x80000;
}.

Lemma ALIGN_spec dot n : 0 < n -> dot <= ALIGN dot n < dot + n /\ ALIGN dot n mod n = 0.
Proof.
  intros Hn. unfold ALIGN. pose proof (Z.div_mod (dot + n - 1) n). pose proof (Z.mod_pos_bound (dot + n - 1) n).
  split; [lia|]. apply Z.mod_mul. lia.
Qed.

Lemma after_spec dot i : 0 <= size i -> 0 < alignment i <= 4096 -> dot <= at_ dot i < dot + 4096 /\ at_ dot i mod alignment i = 0 /\
  after dot i = at_ dot i + size i.
Proof.
  intros Hs Ha. unfold after, at_. pose proof (ALIGN_spec dot (alignment i) ltac:(lia)) as H. split; [lia|].
  split; [apply H|done].
Qed.

(** The symbols are in the order of the script, the sections lie between theirs, and all is below [LOW_MEMORY]. *)
Record laid_out (o : objects) (m : map_file) : Prop := LaidOut {
  l_order : 0x80000 = _text_boot m /\ _text_boot m <= text_boot_at m /\ text_boot_at m + size (o_text_boot o) = _etext_boot m /\
    _etext_boot m <= _text m /\ _text m <= text_at m /\ text_at m + size (o_text o) = _etext m /\ _etext m <= _rodata m /\
    _rodata m <= rodata_at m /\ rodata_at m + size (o_rodata o) = _erodata m /\ _erodata m <= _data m /\
    _data m <= data_at m /\ data_at m + size (o_data o) <= init_stack m /\ init_stack m + size (o_init_task o) <= idmap_pg_dir m /\
    idmap_pg_dir m + 4096 = _edata m /\ _edata m <= _bss m /\ _bss m <= bss_at m /\ bss_at m + size (o_bss o) = _ebss m /\
    _ebss m <= LOW_MEMORY;
  l_pages : _rodata m mod 4096 = 0 /\ init_stack m mod 4096 = 0 /\ idmap_pg_dir m mod 4096 = 0 /\ _bss m mod 8 = 0;
  l_aligned : text_at m mod alignment (o_text o) = 0 /\ rodata_at m mod alignment (o_rodata o) = 0 /\ data_at m mod alignment (o_data o) = 0 /\
    bss_at m mod alignment (o_bss o) = 0;
}.

(** Names the location counter after each command, innermost first, with what the command does to it. *)
Ltac named p := lazymatch p with context [ALIGN _ _] => fail | context [after _ _] => fail | _ => idtac end.
Ltac commands := repeat match goal with
  | |- context [ALIGN ?p ?n] => named p; pose proof (ALIGN_spec p n ltac:(lia)); generalize dependent (ALIGN p n); intros
  | |- context [after ?p ?i] => named p; pose proof (after_spec p i ltac:(assumption) ltac:(assumption));
      generalize dependent (after p i); generalize dependent (at_ p i); intros
  end.

Lemma input_ok_le i : input_ok i -> 0 <= size i /\ 0 < alignment i <= 4096.
Proof. intros (Hs & Ha & Hd). apply Z.divide_pos_le in Hd; lia. Qed.

Lemma SECTIONS_laid_out o : fits o -> laid_out o (SECTIONS o).
Proof.
  intros [Hi Hc Ht]. repeat (apply Forall_cons in Hi as [[? ?]%input_ok_le Hi]). unfold LOW_MEMORY in Ht.
  unfold SECTIONS. commands. split; unfold LOW_MEMORY; cbn; lia.
Qed.

(** ** The image that the other files ask for *)

(** Where the objects have, in their sections, what the code refers to by name. [start.o] is the first
    object, so that its texts start [.rodata]. *)
Record offsets : Type := Offsets {
  at_el1_entry : Z;
  at_vector_table : Z;
  at_ret_from_fork : Z;
  at_switch_return : Z;
  at_init_task : Z;
  at_g_rq : Z;
}.

Definition within (off len : Z) (i : input) : Prop := 0 <= off /\ off + len <= size i.

Record placed (o : objects) (f : offsets) : Prop := Placed {
  p_el1 : within (at_el1_entry f) 4 (o_text_boot o);
  p_vectors : within (at_vector_table f) 2048 (o_text o);
  p_vectors_aligned : at_vector_table f mod 2048 = 0 /\ (2048 | alignment (o_text o));
  p_fork : within (at_ret_from_fork f) 4 (o_text o);
  p_return : within (at_switch_return f) 4 (o_text o);
  p_code : at_ret_from_fork f <> at_switch_return f;
  p_strings : within 0 32 (o_rodata o);
  p_init : within (at_init_task f) (Layout.sizeof Layout.task_struct_members) (o_data o);
  p_rq : within (at_g_rq f) (Layout.sizeof Layout.run_queue_members) (o_bss o);
}.

Section Linked.
Context (o : objects) (f : offsets).
Let m := SECTIONS o.

Definition image : Mmu.image := Mmu.Image (idmap_pg_dir m) (_text_boot m) (_etext m).
Definition vector_table : Z := text_at m + at_vector_table f.
Definition ret_from_fork : Z := text_at m + at_ret_from_fork f.
Definition switch_return : Z := text_at m + at_switch_return f.
Definition init_task : Z := data_at m + at_init_task f.
(** The first member of [g_rq]. *)
Definition rq_head : Z := bss_at m + at_g_rq f.
Definition el_string1 : Z := rodata_at m.
Definition boot_string : Z := rodata_at m + 14.
Definition links : Boot.links :=
  Boot.Links el_string1 boot_string (text_boot_at m + at_el1_entry f) vector_table (_bss m) (_ebss m) init_task.

Context (Hfits : fits o) (Hplaced : placed o f).

(** [.rodata] starts on a page, as its symbol does. *)
Lemma rodata_page : rodata_at m = _rodata m.
Proof.
  pose proof (SECTIONS_laid_out o Hfits) as [_ (Hp & _) _]. fold m in Hp.
  destruct Hfits as [Hi _ _]. repeat (apply Forall_cons in Hi as [? Hi]).
  match goal with H : input_ok (o_rodata o) |- _ => destruct H as (_ & Ha & [k Hk]) end.
  change (rodata_at m) with (ALIGN (_rodata m) (alignment (o_rodata o))).
  pose proof (ALIGN_spec (_rodata m) _ Ha) as [Hlo Hmod]. set (a := alignment (o_rodata o)) in *. set (r := _rodata m) in *.
  assert (r mod a = 0) as Hr.
  { apply Z.mod_divide; [lia|]. apply Z.divide_trans with 4096; [by exists k|]. apply Z.mod_divide; [lia|done]. }
  apply Z.mod_divide in Hmod as [x Hx]; [|lia]. apply Z.mod_divide in Hr as [y Hy]; [|lia].
  rewrite Hx, Hy in *. assert (x = y) as -> by nia. done.
Qed.

Lemma image_linked : MmuBoot.image_ok image.
Proof.
  pose proof (SECTIONS_laid_out o Hfits) as [Ho Hp _]. fold m in Ho, Hp. destruct Hfits as [Hi Hc _].
  repeat (apply Forall_cons in Hi as [?%input_ok_le Hi]). unfold image. clearbody m.
  split; cbn [Mmu.idmap_pg_dir Mmu._text_boot Mmu._etext]; unfold LOW_MEMORY in *; [lia|lia|].
  unfold MmuMap.req_hi, TOTAL_MEMORY. pose proof (Z.div_mod (0 + _etext m + 4095) 4096).
  pose proof (Z.mod_pos_bound (0 + _etext m + 4095) 4096). lia.
Qed.

Lemma layout_linked : SchedInv.layout_ok rq_head init_task ret_from_fork switch_return.
Proof.
  pose proof (SECTIONS_laid_out o Hfits) as [Ho Hp _]. fold m in Ho, Hp. destruct Hfits as [Hi Hc _], Hplaced.
  repeat (apply Forall_cons in Hi as [?%input_ok_le Hi]). unfold within in *.
  change (Layout.sizeof Layout.task_struct_members) with 168 in *. change (Layout.sizeof Layout.run_queue_members) with 40 in *.
  unfold rq_head, init_task, ret_from_fork, switch_return. split; unfold LOW_MEMORY in *; lia.
Qed.

Lemma links_linked ram :
  cstring_at ram el_string1 Boot.el_text -> cstring_at ram boot_string Boot.boot_text -> Boot.image_ok links ram.
Proof.
  intros Hel Hboot. pose proof (SECTIONS_laid_out o Hfits) as [Ho Hp _]. fold m in Ho, Hp. destruct Hfits as [Hi Hc _], Hplaced.
  repeat (apply Forall_cons in Hi as [?%input_ok_le Hi]). unfold within, LOW_MEMORY in *.
  change (Layout.sizeof Layout.task_struct_members) with 168 in *.
  split; unfold links, el_string1, boot_string, vector_table, init_task, Arm.is64;
    cbn [Boot.el_string1 Boot.boot_string Boot.bss Boot.ebss Boot.el1_entry_addr Boot.vector_table_addr Boot.init_task];
    [done|done| |lia|lia|lia|lia|lia].
  rewrite rodata_page. destruct Hp as [Hp _]. apply Z.mod_divide in Hp as [k ->]; [|lia].
  rewrite Z.add_comm, Z.div_add, Z.div_mul by lia. done.
Qed.

(** C27: What the linker script gives: whatever the sizes of the sections, as long as they fit below the memory of the page
    allocator, the symbols delimit their sections in order and without overlap, the root page table has a page of its own, the
    vector table is aligned as the architecture asks, and the hypotheses of the other files on the image, the
    static objects and the addresses of the boot code hold. *)
Theorem linked_image :
  laid_out o m /\ MmuBoot.image_ok image /\ SchedInv.layout_ok rq_head init_task ret_from_fork switch_return /\
  vector_table mod 2048 = 0 /\
  forall ram, cstring_at ram el_string1 Boot.el_text -> cstring_at ram boot_string Boot.boot_text -> Boot.image_ok links ram.
Proof.
  split; [by apply SECTIONS_laid_out|]. split; [apply image_linked|]. split; [apply layout_linked|]. split; [|apply links_linked].
  pose proof (SECTIONS_laid_out o Hfits) as [_ _ (Ha & _)]. fold m in Ha. destruct (p_vectors_aligned _ _ Hplaced) as [H1 H2].
  destruct Hfits as [Hi _ _]. repeat (apply Forall_cons in Hi as [(_ & ? & _) Hi]).
  unfold vector_table. apply Z.mod_divide; [lia|]. apply Z.divide_add_r; [|apply Z.mod_divide; [lia|done]].
  eapply Z.divide_trans; [exact H2|]. apply Z.mod_divide; [lia|done].
Qed.

End Linked.

(** ** Witness *)

Definition objects0 : objects :=
  Objects (Input 0x200 4) (Input 0x6000 2048) (Input 0x900 8) (Input 0x400 8) (Input 0 1) (Input 0x42000 8).
Definition offsets0 : offsets := Offsets 0x40 0x800 0x1200 0x3500 0x10 0x20.

Lemma fits0 : fits objects0.
Proof.
  split; [|by vm_compute|by vm_compute].
  repeat (apply Forall_cons; split; [split; [by vm_compute|]; split; [by vm_compute|by apply Z.mod_divide]|]). done.
Qed.

Lemma placed0 : placed objects0 offsets0.
Proof. split; try (split; by vm_compute); [|by vm_compute]. split; [by vm_compute|]. by apply Z.mod_divide. Qed.

Lemma linked_image_witness : MmuBoot.image_ok (image objects0) /\ vector_table objects0 offsets0 = 0x81000.
Proof. split; [apply (linked_image objects0 offsets0 fits0 placed0)|reflexivity]. Defined.

End Lds.
