(* ===== verification/Irq.v ===== *)
(** * Interrupts in the middle of an operation

    The operations of [Sched] as programs of atomic actions, each at most one access to
    memory that other code uses, and what happens when interrupts are taken between the actions. The
    interrupt is [el1_irq] of [core/entry.S]: IRQs are masked on entry, the handler runs, and the
    interrupted task may be preempted on the way out, by [preempt_schedule_irq], which unmasks IRQs and is a program of
    actions like the others: interrupts are taken in the middle of it, too. What runs with IRQs masked, the handler with the
    test after it and the part of [__schedule] from [raw_local_irq_disable] on, is one action, as nothing can happen in
    the middle of it. *)

From S2P Require Import Prelude Base Printk Uart PageAlloc Klist Sched SchedInv Fork Gic.
Import Klist Sched SchedInv.

Module Irq.

(** ** Programs of actions *)

Inductive prog (A : Type) : Type :=
  | Done (a : A)
  | Do {X : Type} (act : M ks X) (k : X -> prog A).
#[global] Arguments Done {A} a.
#[global] Arguments Do {A X} act k.

#[global] Instance prog_ret : MRet prog := fun A a => Done a.
#[global] Instance prog_bind : MBind prog := fun A B f =>
  fix go p := match p with Done a => f a | Do act k => Do act (fun x => go (k x)) end.

Definition atom {X} (act : M ks X) : prog X := Do act Done.

Fixpoint ploop {A B} (fuel : nat) (body : A -> prog (A + B)) (a : A) : prog B :=
  match fuel with
  | O => atom (fun _ => NoFuel)
  | S fuel => r ← body a; match r with inl a' => ploop fuel body a' | inr b => mret b end
  end.

(** Running a program without interrupts. *)
Fixpoint exec {A} (p : prog A) : M ks A :=
  match p with
  | Done a => mret a
  | Do act k => x ← act; exec (k x)
  end.

Lemma exec_bind {A B} (p : prog A) (f : A -> prog B) s :
  exec (p ≫= f) s = (x ← exec p; exec (f x)) s.
Proof.
  revert s. induction p as [a|X act k IH]; intros s; [done|].
  change ((x ← act; exec (k x ≫= f)) s = (x ← (x ← act; exec (k x)); exec (f x)) s).
  unfold mbind at 1 3 4, M_bind. destruct (act s) as [[x s']| |]; [|done|done]. apply IH.
Qed.

Lemma exec_atom {X} (act : M ks X) s : exec (atom act) s = act s.
Proof. cbn. unfold mbind, M_bind. by destruct (act s) as [[x s']| |]. Qed.

(** ** Stacks of interrupted programs *)

(** For every task the programs on its stack that were interrupted with a preemption, the innermost first. *)
Abbreviation pending := (gmap Z (list (prog (option resumed)))).
Definition stack_of (l : pending) (p : Z) : list (prog (option resumed)) := default [] (l !! p).
Definition push (p : Z) (prg : prog (option resumed)) (l : pending) : pending := <[p := prg :: stack_of l p]> l.
Definition pop (p : Z) (rest : list (prog (option resumed))) (l : pending) : pending :=
  match rest with [] => delete p l | _ => <[p := rest]> l end.

Lemma stack_push p prg l r : stack_of (push p prg l) r = if decide (r = p) then prg :: stack_of l p else stack_of l r.
Proof. unfold push, stack_of at 1. case_decide as E; [subst; by rewrite lookup_insert_eq|by rewrite lookup_insert_ne]. Qed.

Lemma stack_pop p rest l r : stack_of (pop p rest l) r = if decide (r = p) then rest else stack_of l r.
Proof.
  unfold pop, stack_of at 1. destruct rest; case_decide as E; subst; by rewrite ?lookup_delete_eq, ?lookup_insert_eq, ?lookup_delete_ne, ?lookup_insert_ne.
Qed.

(** ** The operations as programs *)

Section Code.
Context (rq_head init_task ret_from_fork switch_return : Z).

Definition get_frame (i : Z) : M ks Z := l ← gets frames; of_option (arr_get l i).
Definition set_frame (i v : Z) : M ks unit :=
  l ← gets frames; l ← of_option (arr_set l i v); modify (fun s => with_frames s l).

Definition get_free_page_body (i : Z) : prog (Z + Z) :=
  if i <? NR_PAGES then
    v ← atom (get_frame i);
    if v =? 0 then
      atom (set_frame i 1);;
      mret (inr (u64 (LOW_MEMORY + i * PAGE_SIZE)))
    else mret (inl (i + 1))
  else mret (inr 0).
Definition get_free_page : prog Z := ploop (S (Z.to_nat NR_PAGES)) get_free_page_body 0.

Definition find_empty_task_body (i : Z) : prog (Z + Z) :=
  if i <? NR_TASK then
    p ← atom (g ← gets g_task; of_option (arr_get g i));
    mret (if p =? 0 then inr i else inl (i + 1))
  else mret (inr (-1)).
Definition find_empty_task : prog Z := ploop (S (Z.to_nat NR_TASK)) find_empty_task_body 0.

Definition list_add (new head : Z) : prog unit :=
  n ← atom (gets (fun s => nxt (lists s) head));
  atom (zoom lists_lens (set_prev n new));;
  atom (zoom lists_lens (set_next new n));;
  atom (zoom lists_lens (set_prev new head));;
  atom (zoom lists_lens (set_next head new)).

Definition enqueue_task_simple (p : Z) : prog unit :=
  list_add (run_list p) rq_head;;
  n ← atom (gets (fun s => nr_running (g_rq s)));
  atom (set_nr_running (fun _ => n + 1)).

Definition wake_up_process (p : Z) : prog unit :=
  atom (update p (set_state TASK_RUNNING));;
  enqueue_task_simple p.

Definition SET_LINKS (p : Z) : prog unit :=
  atom (update p (set_next_task init_task));;
  q ← atom (field init_task prev_task);
  atom (update p (set_prev_task q));;
  q ← atom (field init_task prev_task);
  atom (update q (set_next_task p));;
  atom (update init_task (set_prev_task p)).

(** [copy_thread] writes to the new page only; it is one action. *)
Definition do_fork (clone_flags fn arg : Z) : prog Z :=
  p ← get_free_page;
  if p =? 0 then mret (-1)
  else
    pid ← find_empty_task;
    if pid <? 0 then mret (-1)
    else
      r ← atom (copy_thread ret_from_fork clone_flags p fn arg);
      if negb (r =? 0) then mret (-1)
      else
        atom (update p (set_state TASK_RUNNING));;
        atom (update p (set_pid pid));;
        cur ← atom current;
        c ← atom (field cur count);
        atom (update p (set_count (Z.shiftr (s64 (c + 1)) 1)));;
        c ← atom (field cur count);
        atom (update cur (set_count (Z.shiftr c 1)));;
        atom (update p (set_need_resched 0));;
        atom (update p (set_preempt_count 0));;
        atom (update p (set_priority 2));;
        atom (g ← gets g_task; g ← of_option (arr_set g pid p); modify (fun s => with_g_task s g));;
        SET_LINKS p;;
        wake_up_process p;;
        mret pid.

Definition add_preempt_count (d : Z) : prog unit :=
  p ← atom current;
  n ← atom (field p preempt_count);
  atom (update p (set_preempt_count (s32 (n + d)))).

Definition schedule_debug (p : Z) : prog unit :=
  c ← atom current;
  n ← atom (field c preempt_count);
  if negb (n =? 1) then
    i ← atom (field p pid);
    c ← atom current;
    n ← atom (field c preempt_count);
    atom (printk ("BUG: scheduling while atomic:%d, 0x%x" +:+ nl) [VNum i; VNum n])
  else mret tt.

(** [__schedule] from [raw_local_irq_disable] on. *)
Definition masked (who : caller) (prev : Z) : M ks resumed :=
  raw_local_irq_disable;;
  st ← field prev state;
  (if negb (st =? 0) then dequeue_task rq_head init_task prev else mret tt);;
  next ← pick_next_task rq_head init_task prev;
  clear_task_resched prev;;
  if negb (next =? prev) then
    modify (fun s => with_kstack s (<[prev := who]> (kstack s)));;
    switched ← switch_to switch_return prev next;
    if (switched : bool) then resume ret_from_fork switch_return prev
    else
      modify (fun s => with_rq s (RunQueue (nr_running (g_rq s)) (u64 (nr_switches (g_rq s) + 1)) (sp_el0 (cpu s))));;
      mret (After who)
  else mret (After who).

Definition epilogue (r : resumed) : prog resumed :=
  match r with
  | After FromSchedule => add_preempt_count (-1);; mret r
  | After FromPreempt => atom raw_local_irq_disable;; add_preempt_count (-1);; mret r
  | _ => mret r
  end.

Definition __schedule (who : caller) : prog resumed :=
  prev ← atom current;
  schedule_debug prev;;
  atom (masked who prev).

Definition schedule : prog resumed :=
  add_preempt_count 1;;
  r ← __schedule FromSchedule;
  epilogue r.

Definition preempt_schedule_irq : prog resumed :=
  c ← atom current; n ← atom (field c preempt_count);
  (if negb (n =? 0) then
     c ← atom current; n ← atom (field c preempt_count);
     atom (printk ("BUG: %s incorrect preempt count: 0x%x" +:+ nl) [VStr "preempt_schedule_irq"; VNum n])
   else mret tt);;
  add_preempt_count 1;;
  atom raw_local_irq_enable;;
  r ← __schedule FromPreempt;
  epilogue r.

(** The test of [el1_irq] whether to call it. *)
Definition preempt_test : M ks bool :=
  tsk ← current;
  w24 ← field tsk preempt_count;
  if negb (w24 =? 0) then mret false
  else w0 ← field tsk need_resched; mret (negb (w0 =? 0)).

(** ** Without interrupts the programs are the operations *)

Lemma bind_ext {S A B} (m1 m2 : M S A) (f1 f2 : A -> M S B) s :
  m1 s = m2 s -> (forall a s', f1 a s' = f2 a s') -> (m1 ≫= f1) s = (m2 ≫= f2) s.
Proof. intros Hm Hf. unfold mbind, M_bind. rewrite Hm. by destruct (m2 s) as [[a s']| |]. Qed.

Lemma zoom_frames_bind {A B} (m : M (list Z) A) (f : A -> M (list Z) B) s :
  zoom frames_lens (m ≫= f) s = (x ← zoom frames_lens m; zoom frames_lens (f x)) s.
Proof. unfold zoom, mbind, M_bind. by destruct (m (lget frames_lens s)) as [[x l]| |]. Qed.

Lemma exec_get_free_page_body i s :
  exec (get_free_page_body i) s = zoom frames_lens (PageAlloc.get_free_page_body i) s.
Proof.
  unfold get_free_page_body, PageAlloc.get_free_page_body, zoom. destruct (i <? NR_PAGES); [|by destruct s].
  cbn. unfold get_frame, mbind, M_bind, gets, of_option, get.
  destruct (arr_get (frames s) i) as [v|]; [|done]. destruct (v =? 0); [|by destruct s].
  cbn. unfold set_frame, mbind, M_bind, gets, of_option, modify, put. by destruct (arr_set (frames s) i 1).
Qed.

Lemma exec_get_free_page s : exec get_free_page s = zoom frames_lens PageAlloc.get_free_page s.
Proof.
  unfold get_free_page, PageAlloc.get_free_page. generalize (S (Z.to_nat NR_PAGES)), 0.
  intros fuel. revert s. induction fuel as [|fuel IH]; intros s i; [done|].
  cbn [ploop]. rewrite loop_unfold, exec_bind, zoom_frames_bind.
  apply bind_ext; [apply exec_get_free_page_body|]. intros [a|b] s'; [apply IH|by destruct s'].
Qed.

Lemma exec_find_empty_task s : exec find_empty_task s = Sched.find_empty_task s.
Proof.
  unfold find_empty_task, Sched.find_empty_task. generalize (S (Z.to_nat NR_TASK)), 0.
  intros fuel. revert s. induction fuel as [|fuel IH]; intros s i; [done|]. cbn [ploop]. rewrite loop_unfold, exec_bind.
  apply bind_ext; [|by intros [a|b] s'; [apply IH|]].
  unfold find_empty_task_body, Sched.find_empty_task_body. destruct (i <? NR_TASK); [|done].
  cbn. unfold mbind, M_bind, gets, of_option. by destruct (arr_get (g_task s) i).
Qed.

Lemma exec_wake_up_process p s : exec (wake_up_process p) s = Sched.wake_up_process rq_head init_task p s.
Proof. reflexivity. Qed.

Lemma exec_SET_LINKS p s : exec (SET_LINKS p) s = Sched.SET_LINKS init_task p s.
Proof. reflexivity. Qed.

Lemma exec_do {A X} (act : M ks X) (f : X -> prog A) s : exec (atom act ≫= f) s = (x ← act; exec (f x)) s.
Proof. reflexivity. Qed.

(** The same action on both sides. *)
Ltac same_action := rewrite exec_do; apply bind_ext; [reflexivity|intros ? ?].

Lemma exec_do_fork clone_flags fn arg s :
  exec (do_fork clone_flags fn arg) s = Sched.do_fork rq_head init_task ret_from_fork clone_flags fn arg s.
Proof.
  unfold do_fork, Sched.do_fork. rewrite exec_bind. apply bind_ext; [apply exec_get_free_page|].
  intros p s1. destruct (p =? 0); [done|]. rewrite exec_bind. apply bind_ext; [apply exec_find_empty_task|].
  intros pid s2. destruct (pid <? 0); [done|]. same_action. destruct (negb _); [done|].
  do 5 same_action. rename a2 into cur. transitivity ((update cur (fun t => set_count (Z.shiftr (count t) 1) t);;
    exec (atom (update p (set_need_resched 0));; atom (update p (set_preempt_count 0));; atom (update p (set_priority 2));;
      atom (g ← gets g_task; g ← of_option (arr_set g pid p); modify (fun s => with_g_task s g));;
      SET_LINKS p;; wake_up_process p;; mret pid)) s'4); [reflexivity|].
  apply bind_ext; [done|]. intros ? ?. do 3 same_action. rewrite exec_do, <-bind_assoc. apply bind_ext; [done|]. intros g s9.
  rewrite <-bind_assoc. apply bind_ext; [done|]. intros g' s10. apply bind_ext; [done|]. intros [] s11.
  rewrite exec_bind. apply bind_ext; [apply exec_SET_LINKS|]. intros [] s12.
  rewrite exec_bind. by apply bind_ext; [apply exec_wake_up_process|].
Qed.

Lemma exec_schedule_debug p s : exec (schedule_debug p) s = Sched.schedule_debug p s.
Proof.
  unfold schedule_debug, Sched.schedule_debug, in_atomic_preempt_off. rewrite exec_do, <-bind_assoc.
  apply bind_ext; [done|]. intros c s1. rewrite exec_do, <-bind_assoc. apply bind_ext; [done|]. intros n s2.
  unfold mbind at 4, M_bind at 4, mret at 2, M_ret. by destruct (negb (n =? 1)).
Qed.

Lemma exec_epilogue r s : exec (epilogue r) s = Sched.epilogue r s.
Proof. by destruct r as [[|]| |]. Qed.

Lemma exec___schedule who s :
  exec (__schedule who) s = Sched.__schedule rq_head init_task ret_from_fork switch_return who s.
Proof.
  unfold __schedule, Sched.__schedule. same_action. rewrite exec_bind.
  apply bind_ext; [apply exec_schedule_debug|]. intros [] s2. apply exec_atom.
Qed.

Lemma exec_schedule s :
  exec schedule s = Sched.schedule rq_head init_task ret_from_fork switch_return s.
Proof.
  unfold schedule, Sched.schedule. rewrite exec_bind. apply bind_ext; [reflexivity|]. intros [] s1.
  rewrite exec_bind. apply bind_ext; [apply exec___schedule|]. intros r s3. apply exec_epilogue.
Qed.

Lemma exec_preempt_schedule_irq s :
  exec preempt_schedule_irq s = Sched.preempt_schedule_irq rq_head init_task ret_from_fork switch_return s.
Proof.
  set (n := preempt_count (task s (cur s))).
  change (exec preempt_schedule_irq s) with (exec ((if negb (n =? 0) then
      c ← atom current; n ← atom (field c preempt_count);
      atom (printk ("BUG: %s incorrect preempt count: 0x%x" +:+ nl) [VStr "preempt_schedule_irq"; VNum n]) else mret tt);;
    add_preempt_count 1;; atom raw_local_irq_enable;; r ← __schedule FromPreempt; epilogue r) s).
  change (Sched.preempt_schedule_irq rq_head init_task ret_from_fork switch_return s) with (((if negb (n =? 0) then
      printk ("BUG: %s incorrect preempt count: 0x%x" +:+ nl) [VStr "preempt_schedule_irq"; VNum n] else mret tt);;
    preempt_disable;; raw_local_irq_enable;;
    r ← Sched.__schedule rq_head init_task ret_from_fork switch_return FromPreempt; Sched.epilogue r) s).
  rewrite exec_bind. apply bind_ext; [by destruct (negb _)|]. intros [] s1.
  rewrite exec_bind. apply bind_ext; [reflexivity|]. intros [] s2. same_action.
  rewrite exec_bind. apply bind_ext; [apply exec___schedule|]. intros r s3. apply exec_epilogue.
Qed.

(** The exit of [Sched] from an interrupt is the test and then the program, not interrupted. *)
Lemma el1_irq_exit_eq s :
  el1_irq_exit rq_head init_task ret_from_fork switch_return s =
  (b ← preempt_test; if (b : bool) then r ← exec preempt_schedule_irq; mret (Some r) else mret None) s.
Proof.
  unfold el1_irq_exit, preempt_test, current, field, gets, mbind, M_bind, mret, M_ret.
  destruct (negb (preempt_count _ =? 0)); [done|]. destruct (need_resched _ =? 0); [done|]. cbn [negb].
  by rewrite exec_preempt_schedule_irq.
Qed.

(** ** Interrupts *)

(** [el1_irq] up to the call of [preempt_schedule_irq]: exception entry masks IRQs. [true] is the way to that
    call, still masked; [false] the return to the interrupted code, which restores its processor state. *)
Definition el1_irq (handler : M ks unit) : M ks bool :=
  raw_local_irq_disable;;
  handler;;
  b ← preempt_test;
  if (b : bool) then mret true
  else raw_local_irq_enable;; mret false.

(** [el1_preempt]: the call, and what follows it on this stack or that of the task that runs then. *)
Definition el1_preempt : prog (option resumed) := r ← preempt_schedule_irq; mret (Some r).

(** What the running task can call. *)
Inductive op : Type :=
  | Fork (clone_flags fn arg : Z)
  | Schedule
  | Wait (st : Z)
  | Wake (p : Z).

(** The result is [None] when the caller goes on, or how the task that runs now goes on. *)
Definition code (o : op) : prog (option resumed) :=
  match o with
  | Fork clone_flags fn arg => do_fork clone_flags fn arg;; mret None
  | Schedule => r ← schedule; mret (Some r)
  | Wait st => c ← atom current; atom (update c (set_state st));; r ← schedule; mret (Some r)
  | Wake p => wake_up_process p;; mret None
  end.

(** As for the steps of [Fork.step]. *)
Definition allowed (o : op) (s : ks) : Prop :=
  match o with
  | Fork _ _ _ => True
  | Schedule => nxt (lists s) rq_head <> rq_head
  | Wait st => st <> 0 /\ cur s <> init_task /\ 2 <= nr_running (g_rq s)
  | Wake p => (exists i, g_task s !! i = Some p) /\ p <> 0 /\ p <> init_task /\ state (task s p) <> 0
  end.

(** The kernel's state, the rest of the operation that the running task is in, and the stacks. *)
Record conf : Type := Conf {
  st : ks;
  now : prog (option resumed);
  later : pending;
}.

(** How the running task goes on: a task that was preempted returns from its interrupt, with IRQs
    unmasked again. *)
Definition goes_on (r : option resumed) (s : ks) (l : pending) : option conf :=
  match r with
  | Some (After FromPreempt) =>
      match stack_of l (cur s) with
      | p :: rest => Some (Conf (with_cpu s (Cpu (regs (cpu s)) (sp_el0 (cpu s)) true)) p (pop (cur s) rest l))
      | [] => None
      end
  | _ => Some (Conf s (Done None) l)
  end.

(** Steps with these handlers, when the tasks make these calls. *)
Inductive cstep (handler : M ks unit -> Prop) (ops : op -> Prop) : conf -> conf -> Prop :=
  | c_act X (act : M ks X) k x s s' l :
      act s = Ret (x, s') -> cstep handler ops (Conf s (Do act k) l) (Conf s' (k x) l)
  | c_irq h s s' p l :
      handler h -> irq_on (cpu s) = true -> el1_irq h s = Ret (false, s') ->
      cstep handler ops (Conf s p l) (Conf s' p l)
  | c_preempt h s s' p l :
      handler h -> irq_on (cpu s) = true -> el1_irq h s = Ret (true, s') ->
      cstep handler ops (Conf s p l) (Conf s' el1_preempt (push (cur s) p l))
  | c_next r s l c :
      goes_on r s l = Some c -> cstep handler ops (Conf s (Done r) l) c
  | c_call o s l :
      ops o -> allowed o s -> cstep handler ops (Conf s (Done None) l) (Conf s (code o) l).

(** ** Handlers that only print *)

(** Two states that differ in the messages only. *)
Definition log_only (s s' : ks) : Prop := s' = with_klog s (klog s').

#[global] Instance log_only_equiv : Equivalence log_only.
Proof.
  split.
  - intros s. by destruct s.
  - intros s s' E. unfold log_only in *. rewrite E. by destruct s.
  - intros s1 s2 s3 E1 E2. unfold log_only in *. rewrite E2, E1. done.
Qed.

Lemma log_only_use (f : ks -> Prop) s s' : log_only s s' -> (forall l, f s -> f (with_klog s l)) -> f s -> f s'.
Proof. intros -> H. apply H. Qed.

(** No task is marked for rescheduling. *)
Definition quiet (s : ks) : Prop := forall p, need_resched (task s p) = 0.

(** The messages have no influence on the action, and it marks no task. *)
Definition act_ok {X} (act : M ks X) : Prop := forall s1 s2, log_only s1 s2 -> quiet s1 ->
  match act s1, act s2 with
  | Ret (x1, t1), Ret (x2, t2) => x1 = x2 /\ log_only t1 t2 /\ quiet t1
  | Undef, Undef | NoFuel, NoFuel => True
  | _, _ => False
  end.

Fixpoint prog_ok {A} (p : prog A) : Prop :=
  match p with
  | Done _ => True
  | Do act k => act_ok act /\ forall x, prog_ok (k x)
  end.

Lemma ok_ret {A} (a : A) : act_ok (mret a).
Proof. by intros s1 s2 H Hq. Qed.

Lemma ok_bind {A B} (m : M ks A) (f : A -> M ks B) : act_ok m -> (forall a, act_ok (f a)) -> act_ok (m ≫= f).
Proof.
  intros Hm Hf s1 s2 H Hq. specialize (Hm s1 s2 H Hq). unfold mbind, M_bind.
  destruct (m s1) as [[a t1]| |], (m s2) as [[b t2]| |]; try done. destruct Hm as (<- & Ht & Hq'). by apply Hf.
Qed.

Lemma ok_gets {A} (f : ks -> A) : (forall s l, f (with_klog s l) = f s) -> act_ok (gets f).
Proof. intros Hf s1 s2 H Hq. cbn. split; [|done]. rewrite H. by rewrite Hf. Qed.

Lemma ok_of_option {A} (o : option A) : act_ok (of_option o).
Proof. intros s1 s2 H Hq. unfold of_option. by destruct o. Qed.

Lemma ok_undef {A} : act_ok (undef : M ks A).
Proof. by intros s1 s2 H Hq. Qed.

Lemma ok_modify (f : ks -> ks) :
  (forall s l, exists l', f (with_klog s l) = with_klog (f s) l') -> (forall s, quiet s -> quiet (f s)) ->
  act_ok (modify f).
Proof.
  intros Hf Hg s1 s2 H Hq. cbn. split; [done|]. split; [|by apply Hg].
  unfold log_only in *. rewrite H. destruct (Hf s1 (klog s2)) as [l' ->]. done.
Qed.

Lemma ok_zoom {A T} (l : lens ks T) (m : M T A) :
  (forall s g, lget l (with_klog s g) = lget l s) ->
  (forall s g t, lset l t (with_klog s g) = with_klog (lset l t s) g) ->
  (forall s t, tasks (lset l t s) = tasks s) -> act_ok (zoom l m).
Proof.
  intros H1 H2 H3 s1 s2 H Hq. unfold zoom. rewrite H, H1.
  destruct (m (lget l s1)) as [[a t]| |]; [|done|done]. split; [done|]. split; [by rewrite H2|].
  intros p. unfold task. rewrite H3. apply Hq.
Qed.

Lemma ok_loop {A B} fuel (body : A -> M ks (A + B)) : (forall a, act_ok (body a)) -> forall a, act_ok (loop fuel body a).
Proof.
  intros Hb. induction fuel as [|fuel IH]; intros a; [by intros s1 s2 H Hq|].
  rewrite loop_unfold. apply ok_bind; [done|]. intros [a'|b]; [apply IH|apply ok_ret].
Qed.
Lemma ok_update p f :
  (forall t, need_resched t = 0 -> need_resched (f t) = 0) -> act_ok (update p f).
Proof.
  intros Hf. apply ok_modify.
  - intros s l. by exists l.
  - intros s Hq q. rewrite task_upd. case_decide; [apply Hf, Hq|apply Hq].
Qed.

Lemma ok_list_for_each {A} head (body : Z -> A -> M ks A) fuel a :
  (forall x a, act_ok (body x a)) -> act_ok (list_for_each lists_lens head body fuel a).
Proof.
  intros Hb. apply ok_bind; [by apply ok_gets|]. intros x. apply ok_loop. intros [pos acc].
  unfold list_for_each_body. destruct (pos =? head); [apply ok_ret|].
  apply ok_bind; [apply Hb|]. intros b. apply ok_bind; [by apply ok_gets|]. intros y. apply ok_ret.
Qed.

Lemma prog_ok_bind {A B} (p : prog A) (f : A -> prog B) :
  prog_ok p -> (forall a, prog_ok (f a)) -> prog_ok (p ≫= f).
Proof. intros Hp Hf. induction p as [a|X act k IH]; [apply Hf|]. destruct Hp as [Ha Hk]. split; [done|]. intros x. by apply IH. Qed.

Lemma prog_ok_atom {X} (act : M ks X) : act_ok act -> prog_ok (atom act).
Proof. by split. Qed.

Lemma prog_ok_ploop {A B} fuel (body : A -> prog (A + B)) :
  (forall a, prog_ok (body a)) -> forall a, prog_ok (ploop fuel body a).
Proof.
  intros Hb. induction fuel as [|fuel IH]; intros a; [by split|].
  apply prog_ok_bind; [done|]. intros [a'|b]; [apply IH|done].
Qed.

Ltac ok := repeat (intros; lazymatch goal with
  | |- act_ok (_ ≫= _) => apply ok_bind
  | |- act_ok (mret _) => apply ok_ret
  | |- act_ok (gets _) => by apply ok_gets
  | |- act_ok (of_option _) => apply ok_of_option
  | |- act_ok undef => apply ok_undef
  | |- act_ok (modify _) => apply ok_modify; [intros ? ?; eexists; reflexivity|intros ? H ?; apply H]
  | |- act_ok (zoom _ _) => by apply ok_zoom
  | |- act_ok (update _ _) => by apply ok_update
  | |- act_ok (loop _ _ _) => apply ok_loop
  | |- act_ok (list_for_each _ _ _ _ _) => apply ok_list_for_each
  | |- act_ok (match ?b with _ => _ end) => destruct b
  | |- prog_ok (_ ≫= _) => apply prog_ok_bind
  | |- prog_ok (atom _) => apply prog_ok_atom
  | |- prog_ok (ploop _ _ _) => apply prog_ok_ploop
  | |- prog_ok (match ?b with _ => _ end) => destruct b
  | |- prog_ok (mret _) => done
  end).

Lemma ok_set_irq b : act_ok (set_irq b).
Proof. unfold set_irq. ok. Qed.

Lemma ok_pick prev : act_ok (pick_next_task rq_head init_task prev).
Proof.
  change (act_ok (pick_next_task_simple rq_head init_task prev)). unfold pick_next_task_simple.
  ok. unfold pick_body. ok; unfold pick_scan, reset_score, for_each_task, field; ok. unfold for_each_task_body, new_score, field. ok.
Qed.

Lemma ok_dequeue p : act_ok (dequeue_task rq_head init_task p).
Proof. change (act_ok (dequeue_task_simple p)). unfold dequeue_task_simple, set_nr_running. ok. Qed.

Lemma ok_switch prev next : act_ok (switch_to switch_return prev next).
Proof. unfold switch_to, cpu_switch_to, field. ok. Qed.

Lemma ok_resume last : act_ok (resume ret_from_fork switch_return last).
Proof. unfold resume, current, schedule_tail, raw_local_irq_enable. ok; apply ok_set_irq. Qed.

Lemma ok_masked who prev : act_ok (masked who prev).
Proof.
  unfold masked, field, clear_task_resched, raw_local_irq_disable.
  ok; eauto using ok_set_irq, ok_dequeue, ok_pick, ok_switch, ok_resume.
Qed.

Lemma ok_copy_thread clone_flags p fn arg : act_ok (copy_thread ret_from_fork clone_flags p fn arg).
Proof. unfold copy_thread. ok. Qed.

Lemma ok_add_preempt_count d : prog_ok (add_preempt_count d).
Proof. unfold add_preempt_count, current, field. ok. Qed.

Lemma ok_epilogue r : prog_ok (epilogue r).
Proof. unfold epilogue. destruct r as [[|]| |]; ok; first [apply ok_add_preempt_count | apply ok_set_irq]. Qed.

Lemma ok_schedule : prog_ok schedule.
Proof.
  unfold schedule, __schedule, schedule_debug, current, field, printk.
  ok; first [apply ok_add_preempt_count | apply ok_masked | apply ok_epilogue].
Qed.

Lemma ok_do_fork clone_flags fn arg : prog_ok (do_fork clone_flags fn arg).
Proof.
  unfold do_fork, get_free_page, find_empty_task, SET_LINKS, wake_up_process, enqueue_task_simple, list_add,
    set_nr_running, current, field. ok; try apply ok_copy_thread.
  - unfold get_free_page_body, get_frame, set_frame. ok.
  - unfold find_empty_task_body. ok.
Qed.

Lemma ok_code o : prog_ok (code o).
Proof.
  destruct o; cbn [code].
  - apply prog_ok_bind; [apply ok_do_fork|done].
  - apply prog_ok_bind; [apply ok_schedule|done].
  - unfold current. ok. apply ok_schedule.
  - unfold wake_up_process, enqueue_task_simple, list_add, set_nr_running. ok.
Qed.

Lemma exec_ok {A} (p : prog A) : prog_ok p -> act_ok (exec p).
Proof. induction p as [a|X act k IH]; [intros _; apply ok_ret|]. intros [Ha Hk]. apply ok_bind; [done|]. intros x. by apply IH. Qed.

Definition only_prints (h : M ks unit) : Prop := forall s, exists l, h s = Ret (tt, with_klog s l).

Lemma el1_irq_prints h s :
  only_prints h -> quiet s -> irq_on (cpu s) = true ->
  exists s', el1_irq h s = Ret (false, s') /\ log_only s s'.
Proof.
  intros Hh Hq Hirq. unfold el1_irq, mbind, M_bind. change (raw_local_irq_disable s) with
    (Ret (tt, with_cpu s (Cpu (regs (cpu s)) (sp_el0 (cpu s)) false))). cbv beta iota.
  destruct (Hh (with_cpu s (Cpu (regs (cpu s)) (sp_el0 (cpu s)) false))) as [l ->].
  set (s1 := with_klog _ l).
  assert (preempt_test s1 = Ret (false, s1)) as ->.
  { unfold preempt_test, current, field, gets, mbind, M_bind, mret, M_ret. destruct (negb _); [done|].
    by rewrite (Hq (sp_el0 (cpu s1)) : need_resched (task s1 _) = 0). }
  eexists. split; [reflexivity|]. unfold s1. destruct s as [? ? ? ? ? ? [r p []] ? ?]; [done|discriminate].
Qed.

Context (Hlay : layout_ok rq_head init_task ret_from_fork switch_return).
Abbreviation reachable := (Fork.reachable rq_head init_task ret_from_fork switch_return).

Lemma reachable_step s s' : reachable s -> Fork.step rq_head init_task ret_from_fork switch_return s s' -> reachable s'.
Proof. intros (fr & r & irq & Hfr & Hr) H. exists fr, r, irq. split; [done|]. by eapply rtc_r. Qed.

(** A call from a reachable state returns, and the state is reachable again. *)
Lemma code_reachable o s :
  reachable s -> allowed o s -> exists r s', exec (code o) s = Ret (r, s') /\ reachable s'.
Proof.
  intros Hr Ha. pose proof (Fork.reachable_invs _ _ _ _ Hlay s Hr) as (ts & q & Hi).
  enough (exists r s', exec (code o) s = Ret (r, s') /\ Fork.step rq_head init_task ret_from_fork switch_return s s') as H.
  { destruct H as (r & s' & E & H). exists r, s'. split; [done|]. by eapply reachable_step. }
  destruct o; cbn [code allowed] in *.
  - pose proof (Fork.do_fork_inv _ _ _ _ Hlay s ts q 0 clone_flags fn arg Hi) as H.
    apply wp_elim in H as (r & s' & E & _). exists None, s'. split; [|by eapply Fork.step_fork].
    rewrite exec_bind. unfold mbind, M_bind. by rewrite exec_do_fork, E.
  - pose proof (schedule_inv _ _ _ _ Hlay s ts q q Run Hi ltac:(done) eq_refl (Fork.queue_nonempty _ _ _ _ _ _ _ _ _ Hi Ha)) as H.
    apply wp_elim in H as (r & s' & E & _). exists (Some r), s'. split; [|by eapply Fork.step_schedule].
    rewrite exec_bind. unfold mbind, M_bind. by rewrite exec_schedule, E.
  - destruct Ha as (H1 & H2 & H3). destruct (Fork.wait_inv _ _ _ _ Hlay s ts q st0 Hi H1 H2) as (q1 & q2 & _ & H).
    { rewrite (i_len _ _ _ _ _ _ _ _ _ Hi) in H3. lia. }
    apply wp_elim in H as (r & s' & E & _). exists (Some r), s'. split; [|by eapply Fork.step_wait].
    change ((exec (r ← schedule; mret (Some r))) (upd s (cur s) (set_state st0)) = Ret (Some r, s')).
    rewrite exec_bind. unfold mbind, M_bind. by rewrite exec_schedule, E.
  - destruct Ha as ((i & Hg) & H1 & H2 & H3).
    assert (p ∈ ts) as Hpt.
    { apply (i_slot _ _ _ _ _ _ _ _ _ Hi) in Hg; [|done]. by apply elem_of_cons in Hg as [?|?]. }
    pose proof (wake_inv _ _ _ _ Hlay s ts q 0 p Hi Hpt H3) as H. apply wp_elim in H as ([] & s' & E & _).
    exists None, s'. split; [|by eapply Fork.step_wake].
    rewrite exec_bind. unfold mbind, M_bind. by rewrite exec_wake_up_process, E.
Qed.

Lemma allowed_log o s s' : log_only s s' -> allowed o s' -> allowed o s.
Proof. intros ->. by destruct o. Qed.

Lemma boot_quiet fr r irq : quiet (Fork.boot rq_head init_task fr r irq).
Proof.
  intros p. unfold task, Fork.boot. cbn [tasks]. destruct (decide (p = init_task)) as [->|Hp].
  - by rewrite lookup_singleton_eq.
  - by rewrite lookup_singleton_ne.
Qed.

(** What holds of every configuration when the handlers only print. *)
Definition steady (c : conf) : Prop :=
  later c = ∅ /\ quiet (st c) /\ prog_ok (now c) /\
  exists r s' s0, exec (now c) (st c) = Ret (r, s') /\ log_only s0 s' /\ reachable s0.

Lemma steady_step handler ops c c' :
  (forall h, handler h -> only_prints h) -> steady c -> cstep handler ops c c' -> steady c'.
Proof.
  intros Hh (Hl & Hq & Hp & r & s' & s0 & E & H0 & Hr) Hst. destruct Hst as [X act k x s s1 l Ha|h s s1 p l Hx Hirq Ha
    |h s s1 p l Hx Hirq Ha|r1 s l c Hg|o s l _ Ha]; cbn [later st now] in *.
  - destruct Hp as [Hok Hk]. specialize (Hok s s ltac:(reflexivity) Hq). rewrite Ha in Hok.
    split; [done|]. split; [apply Hok|]. split; [apply Hk|]. exists r, s', s0. split; [|done].
    cbn in E. unfold mbind, M_bind in E. by rewrite Ha in E.
  - destruct (el1_irq_prints h s (Hh h Hx) Hq Hirq) as (s2 & E2 & H2). rewrite Ha in E2. injection E2 as <-.
    split; [done|]. split; [rewrite H2; exact Hq|]. split; [done|].
    pose proof (exec_ok p Hp s s1 H2 Hq) as H. rewrite E in H. destruct (exec p s1) as [[r1 s3]| |] eqn:E1; [|done|done].
    destruct H as (<- & H3 & _). exists r, s3, s0. split; [exact E1|]. split; [|done]. by transitivity s'.
  - destruct (el1_irq_prints h s (Hh h Hx) Hq Hirq) as (s2 & E2 & H2). congruence.
  - subst l. assert (c = Conf s (Done None) ∅) as ->.
    { unfold goes_on, stack_of in Hg. rewrite lookup_empty in Hg. destruct r1 as [[[|]| |]|]; cbn in Hg; congruence. }
    injection E as <- <-. split; [done|]. split; [done|]. split; [done|]. exists None, s, s0. done.
  - injection E as <- <-. destruct (code_reachable o s0 Hr (allowed_log o s0 s H0 Ha)) as (r1 & s1 & E1 & Hr1).
    split; [done|]. split; [done|]. split; [apply ok_code|].
    pose proof (exec_ok (code o) (ok_code o) s s0 (symmetry H0) Hq) as H. rewrite E1 in H.
    destruct (exec (code o) s) as [[r2 s2]| |] eqn:E2; [|done|done].
    destruct H as (-> & H1 & _). exists r1, s2, s1. split; [exact E2|]. split; [by symmetry|done].
Qed.

(** ** The handler of the code *)

(** [do_irq] with the interrupt controller and timer in the state [g], as the scheduler sees it. *)
Definition served (dev : list access -> Z -> Z) (g : Gic.gst) : M ks unit := fun s =>
  match Gic.do_irq dev (Gic.Gst (Gic.gic_data g) (Gic.cntp_ctl g) (Gic.cntp_tval g) (Gic.cntfrq g) (Gic.hist g) (klog s)) with
  | Ret (_, g') => Ret (tt, with_klog s (Gic.klog g'))
  | Undef => Undef
  | NoFuel => NoFuel
  end.

Lemma served_prints dev g c :
  Gic.gic_data g = [c] -> 0 <= Gic.raw_cpu_base c -> Gic.raw_cpu_base c + 0x1000 < 2 ^ 64 -> only_prints (served dev g).
Proof.
  intros Ed Hb Hb2 s. unfold served. set (g1 := Gic.Gst _ _ _ _ _ _).
  pose proof (Gic.gic_handle_irq_run dev g1 c Ed Hb Hb2) as H. apply wp_elim_unit in H as (g' & E & _).
  change (Gic.do_irq dev g1) with (Gic.gic_handle_irq dev g1). rewrite E. by exists (Gic.klog g').
Qed.

(** ** Properties *)

(** C7: Interrupts are harmless to the scheduler. Let interrupts be taken at any point at which
    they are unmasked, between any two accesses of a fork, a call of [schedule], a wait or a wake-up, and served by [do_irq].
    Then no task is ever preempted, an interrupt changes nothing but the messages printed, and the operation in progress, run
    to its end, returns in a state that the system reaches when its operations are not interrupted
    at all, but for the messages. *)
Theorem interrupts_harmless dev c fr r irq s p l :
  PageAlloc.wf fr -> 0 <= Gic.raw_cpu_base c -> Gic.raw_cpu_base c + 0x1000 < 2 ^ 64 ->
  let handler h := exists g, Gic.gic_data g = [c] /\ h = served dev g in
  rtc (cstep handler (fun _ => True)) (Conf (Fork.boot rq_head init_task fr r irq) (Done None) ∅) (Conf s p l) ->
  l = ∅ /\
  (forall h, handler h -> irq_on (cpu s) = true -> exists s', el1_irq h s = Ret (false, s') /\ log_only s s') /\
  exists res s' s0, exec p s = Ret (res, s') /\ log_only s0 s' /\ reachable s0.
Proof.
  intros Hfr Hb Hb2 handler Hst.
  assert (forall h, handler h -> only_prints h) as Hh by (intros h (g & Eg & ->); by eapply served_prints).
  assert (steady (Conf s p l)) as (Hl & Hq & _ & H).
  { assert (steady (Conf (Fork.boot rq_head init_task fr r irq) (Done None) ∅)) as H0.
    { split; [done|]. split; [apply boot_quiet|]. split; [done|]. eexists _, _, _. split; [reflexivity|].
      split; [reflexivity|]. exists fr, r, irq. split; [done|apply rtc_refl]. }
    clear -Hh H0 Hst Hlay. remember (Conf s p l) as c1 eqn:E1. clear E1. induction Hst as [|x y z Hxy _ IH]; [done|].
    by apply IH, (steady_step handler (fun _ => True) x). }
  split; [done|]. split; [|done]. intros h Hx Hirq. by apply el1_irq_prints; [apply Hh| |].
Qed.

End Code.
(** ** Preemption in the middle of a fork *)

(** The first [n] actions of a program. *)
Fixpoint drive {A} (n : nat) (p : prog A) (s : ks) : outcome (prog A * ks) :=
  match n, p with
  | S n, Do act k => match act s with Ret (x, s') => drive n (k x) s' | Undef => Undef | NoFuel => NoFuel end
  | _, _ => Ret (p, s)
  end.

Section Race.
Import Fork.
Abbreviation cstep0 := (cstep head0 init0 fork0 return0).
Abbreviation code0 := (code head0 init0 fork0 return0).

Lemma drive_steps handler ops n p s p' s' l :
  drive n p s = Ret (p', s') -> rtc (cstep0 handler ops) (Conf s p l) (Conf s' p' l).
Proof.
  revert p s. induction n as [|n IH]; intros p s E; [by injection E as <- <-; apply rtc_refl|].
  destruct p as [a|X act k]; [injection E as <- <-; apply rtc_refl|]. cbn in E.
  destruct (act s) as [[x s1]| |] eqn:Ea; [|done|done]. eapply rtc_l; [by apply c_act|]. by apply IH.
Qed.

Lemma exec_steps handler ops p s r s' l :
  exec p s = Ret (r, s') -> rtc (cstep0 handler ops) (Conf s p l) (Conf s' (Done r) l).
Proof.
  revert s. induction p as [a|X act k IH]; intros s E; [injection E as <- <-; apply rtc_refl|].
  cbn in E. unfold mbind, M_bind in E. destruct (act s) as [[x s1]| |] eqn:Ea; [|done|done].
  eapply rtc_l; [by apply c_act|]. by apply IH.
Qed.

(** [t1] runs with one tick left; [t2] has none and is a new thread. *)
Definition race_start : ks :=
  with_tasks two (<[t1 := set_count 1 (task two t1)]> (<[t2 := set_count 0 (set_context
    (CpuContext 0x6000 8 0 0 0 0 0 0 0 0 0 0 fork0) (task two t2))]> (tasks two))).

Definition page : Z := PageAlloc.page_of 2.

(** [t1] is interrupted in [do_fork], between the test and the store of [mem_map]; the tick uses up its
    slice and [t2] starts, forks and calls [schedule], which goes back to [t1]. *)
Definition race (Q : ks -> bool) : bool :=
  match drive 3 (code0 (Fork PF_KTHREAD 0x5000 7)) race_start with
  | Ret (p1, s1) =>
    match el1_irq (tick_handle_periodic head0 init0) s1 with
    | Ret (true, s0) =>
     match exec (el1_preempt head0 init0 fork0 return0) s0 with
     | Ret (Some (Started fn arg), s2) =>
      match exec (code0 (Fork PF_KTHREAD 0x6000 8)) s2 with
      | Ret (None, s3) =>
        match exec (code0 Schedule) s3 with
        | Ret (Some (After FromPreempt), s4) =>
          match exec p1 (with_cpu s4 (Cpu (regs (cpu s4)) (sp_el0 (cpu s4)) true)) with
          | Ret (None, s5) =>
            irq_on (cpu s1) && (cur s1 =? t1) && (cur s4 =? t1) && bool_decide (nxt (lists s3) head0 <> head0) && Q s5
          | _ => false
          end
        | _ => false
        end
      | _ => false
      end
     | _ => false
     end
    | _ => false
    end
  | _ => false
  end.

Lemma race_steps Q :
  race Q = true -> exists s, Q s = true /\
    rtc (cstep0 (eq (tick_handle_periodic head0 init0)) (fun _ => True)) (Conf race_start (Done None) ∅) (Conf s (Done None) ∅).
Proof.
  unfold race. intros H. destruct (drive _ _ _) as [[p1 s1]| |] eqn:E1; [|done|done].
  destruct (el1_irq _ s1) as [[[|] s0]| |] eqn:E0; try done.
  destruct (exec _ s0) as [[[[|fn arg|]|] s2]| |] eqn:E2; try done.
  destruct (exec _ s2) as [[[r|] s3]| |] eqn:E3; try done.
  destruct (exec _ s3) as [[[[[|]| |]|] s4]| |] eqn:E4; try done.
  destruct (exec p1 _) as [[[r|] s5]| |] eqn:E5; try done.
  apply andb_prop in H as [[[[H1 H2%Z.eqb_eq]%andb_prop H3%Z.eqb_eq]%andb_prop H4%bool_decide_eq_true]%andb_prop HQ].
  exists s5. split; [done|]. eapply rtc_l; [by eapply c_call with (o := Fork PF_KTHREAD 0x5000 7)|].
  etransitivity; [by eapply drive_steps|]. eapply rtc_l; [by eapply c_preempt|].
  etransitivity; [by eapply exec_steps|].
  eapply rtc_l; [by eapply c_next|]. eapply rtc_l; [by eapply c_call with (o := Fork PF_KTHREAD 0x6000 8)|].
  etransitivity; [by eapply exec_steps|]. eapply rtc_l; [by eapply c_call with (o := Schedule)|].
  etransitivity; [by eapply exec_steps|].
  eapply rtc_l; [eapply c_next; unfold goes_on, stack_of, push; rewrite H2, H3, lookup_insert_eq; reflexivity|].
  etransitivity; [by eapply exec_steps|]. eapply rtc_l; [by eapply c_next|].
  unfold stack_of. rewrite lookup_empty. cbn [default from_option pop]. rewrite delete_insert_id by done. apply rtc_refl.
Qed.

(** A node that follows itself is never left. *)
Lemma self_loop s a acc fuel :
  nxt (lists s) a = a -> a <> head0 ->
  loop fuel (list_for_each_body lists_lens head0 pick_scan) (a, acc) s = NoFuel.
Proof.
  intros Hs Ha. revert acc. induction fuel as [|fuel IH]; intros acc; [done|]. rewrite loop_unfold.
  unfold mbind, M_bind, list_for_each_body at 1. rewrite (proj2 (Z.eqb_neq _ _) Ha).
  match goal with |- ?x = _ => change x with (loop fuel (list_for_each_body lists_lens head0 pick_scan)
    (nxt (lists s) a, if acc.1 <? goodness (task s (task_of a)) then (goodness (task s (task_of a)), Some (task_of a)) else acc) s) end.
  rewrite Hs. apply IH.
Qed.

Definition raced (s : ks) : bool :=
  bool_decide (g_task s !! 3%nat = Some page) && bool_decide (g_task s !! 4%nat = Some page) &&
  (nxt (lists s) head0 =? run_list page) && (nxt (lists s) (run_list page) =? run_list page).

(** C16: Forking is not safe under preemption. If the timer interrupt called [tick_handle_periodic], as the scheduler
    expects, then from a state that satisfies the invariant a task could be preempted in [get_free_page], between the test and the
    store of [mem_map]; when another task forks before it goes on, both forks use one page: two pids name the
    same task, its node of the run queue follows itself, and the scan of the queue by the scheduler
    never ends. *)
Theorem fork_race :
  inv head0 init0 fork0 return0 race_start [t1; t2] [t2; t1] 0 Run /\
  exists s, rtc (cstep0 (eq (tick_handle_periodic head0 init0)) (fun _ => True)) (Conf race_start (Done None) ∅) (Conf s (Done None) ∅) /\
    g_task s !! 3%nat = Some page /\ g_task s !! 4%nat = Some page /\
    nxt (lists s) (run_list page) = run_list page /\
    forall fuel acc, list_for_each lists_lens head0 pick_scan fuel acc s = NoFuel.
Proof.
  split; [two_tasks|].
  destruct (race_steps raced) as (s & Hs & Hst); [by vm_compute|]. exists s. split; [done|].
  apply andb_prop in Hs as [[[H1%bool_decide_eq_true H2%bool_decide_eq_true]%andb_prop H3%Z.eqb_eq]%andb_prop H4%Z.eqb_eq].
  split_and!; try done. intros fuel acc. unfold list_for_each, mbind, M_bind, gets. cbn [lget lists_lens].
  rewrite H3. by apply self_loop.
Qed.

(** ** Witness *)

(** The timer's interrupt, taken as [do_fork] starts. *)
Lemma interrupts_harmless_witness :
  exists s res s', el1_irq (served Gic.test_gic Gic.test_ready) boot0 = Ret (false, s) /\
    exec (code0 (Fork PF_KTHREAD 0x5000 7)) s = Ret (res, s').
Proof.
  set (c := Gic.GicChipData GIC_V2_DISTRIBUTOR_BASE GIC_V2_CPU_INTERFACE_BASE 256).
  assert (only_prints (served Gic.test_gic Gic.test_ready)) as Hp by (apply (served_prints _ _ c); by vm_compute).
  destruct (el1_irq_prints _ boot0 Hp (boot_quiet _ _ _ _ _) eq_refl) as (s & E & _).
  destruct (interrupts_harmless head0 init0 fork0 return0 layout0 Gic.test_gic c PageAlloc.mem_map_init zero_context true
    s (code0 (Fork PF_KTHREAD 0x5000 7)) ∅) as (_ & _ & res & s' & _ & E' & _).
  - apply PageAlloc.wf_init.
  - by vm_compute.
  - by vm_compute.
  - eapply rtc_l; [by eapply c_call with (o := Fork PF_KTHREAD 0x5000 7)|]. eapply rtc_once.
    eapply (c_irq _ _ _ _ _ _ (served Gic.test_gic Gic.test_ready)); [by exists Gic.test_ready|done|exact E].
  - exists s, res, s'. split; [exact E|exact E'].
Defined.

End Race.

End Irq.
