(* ===== verification/Ticks.v ===== *)
(** * Ticks while the scheduler runs

    [schedule] raises the preemption count before it calls [__schedule]. From there on a timer interrupt that drives the
    scheduler by [tick_handle_periodic] can be taken between any two actions, until IRQs are masked and again after the
    switch. This file shows that the count protects it: no such interrupt preempts, and the ticks act as if they came
    before [schedule] or after it; and the same of [preempt_schedule_irq], from the interrupt that calls it on. *)

From S2P Require Import Prelude Base Printk Sched SchedInv Fork Irq.
Import Sched SchedInv Irq.

Module Ticks.

Section Ticks.
Context (rq_head init_task ret_from_fork switch_return : Z).
Abbreviation tick := (tick_handle_periodic rq_head init_task).
Abbreviation irq_tick := (el1_irq tick).
Abbreviation el1_preempt := (el1_preempt rq_head init_task ret_from_fork switch_return).
Abbreviation inv := (inv rq_head init_task ret_from_fork switch_return).

(** ** Programs under interrupts *)

(** [n] interrupts taken one after the other, none of which preempts. *)
Definition interrupted : nat -> ks -> ks -> Prop :=
  nsteps (fun s s' => irq_on (cpu s) = true /\ irq_tick s = Ret (false, s')).

(** Whatever interrupts come before each action: they return to the program, which runs to its end and satisfies [Q],
    of the number of interrupts, [c] of which were taken before. *)
Fixpoint wpi {A} (p : prog A) (c : nat) (s : ks) (Q : nat -> A -> ks -> Prop) : Prop :=
  match p with
  | Done a => Q c a s
  | Do act k => forall n s1, interrupted n s s1 ->
      (irq_on (cpu s1) = true -> exists s2, irq_tick s1 = Ret (false, s2)) /\
      exists x s2, act s1 = Ret (x, s2) /\ wpi (k x) (n + c) s2 Q
  end.

Lemma wpi_bind {A B} (p : prog A) (f : A -> prog B) c s Q :
  wpi p c s (fun c' a s' => wpi (f a) c' s' Q) -> wpi (p ≫= f) c s Q.
Proof.
  revert c s. induction p as [a|X act k IH]; intros c s H; [done|]. intros n s1 H1.
  destruct (H n s1 H1) as (Hp & x & s2 & E & Hk). split; [done|]. exists x, s2. split; [done|]. by apply IH.
Qed.

Lemma wpi_mono {A} (p : prog A) c s (Q Q' : nat -> A -> ks -> Prop) :
  wpi p c s Q -> (forall n a s', Q n a s' -> Q' n a s') -> wpi p c s Q'.
Proof.
  intros H HQ. revert c s H. induction p as [a|X act k IH]; intros c s H; [by apply HQ|]. intros n s1 H1.
  destruct (H n s1 H1) as (Hp & x & s2 & E & Hk). split; [done|]. exists x, s2. split; [done|]. by apply IH.
Qed.

Lemma wpi_exec {A} (p : prog A) c s Q : wpi p c s Q -> exists a s', exec p s = Ret (a, s') /\ Q c a s'.
Proof.
  revert s. induction p as [a|X act k IH]; intros s H; [by exists a, s|].
  destruct (H 0%nat s (nsteps_O _ _)) as (_ & x & s2 & E & Hk). destruct (IH x s2 Hk) as (a & s' & Ea & HQ).
  exists a, s'. split; [|done]. cbn. unfold mbind, M_bind. by rewrite E.
Qed.

(** The steps of the system until an operation is over or preempted, with the number of interrupts taken. *)
Inductive taken : nat -> conf -> conf -> Prop :=
  | t_refl c : taken 0 c c
  | t_act n X (act : M ks X) k x s s' l c :
      act s = Ret (x, s') -> taken n (Conf s' (k x) l) c -> taken n (Conf s (Do act k) l) c
  | t_irq n X (act : M ks X) k s s' l c :
      irq_on (cpu s) = true -> irq_tick s = Ret (false, s') ->
      taken n (Conf s' (Do act k) l) c -> taken (S n) (Conf s (Do act k) l) c
  | t_preempt X (act : M ks X) k s s' l :
      irq_on (cpu s) = true -> irq_tick s = Ret (true, s') ->
      taken 1 (Conf s (Do act k) l) (Conf s' el1_preempt (push (cur s) (Do act k) l)).

(** These are runs of the system. *)
Lemma taken_csteps ops n c c' :
  taken n c c' -> rtc (cstep rq_head init_task ret_from_fork switch_return (eq tick) ops) c c'.
Proof.
  induction 1 as [c|n X act k x s s' l c Ha _ IH|n X act k s s' l c Hirq Ha _ IH|X act k s s' l Hirq Ha];
    [apply rtc_refl| | |apply rtc_once; by eapply c_preempt].
  - eapply rtc_l; [by apply c_act|done].
  - eapply rtc_l; [by eapply c_irq|done].
Qed.

Lemma wpi_taken Q n c c' : taken n c c' -> forall c0,
  wpi (now c) c0 (st c) Q -> wpi (now c') (n + c0) (st c') Q /\ later c' = later c.
Proof.
  induction 1 as [c|n X act k x s s' l c Ha _ IH|n X act k s s' l c Hirq Ha _ IH|X act k s s' l Hirq Ha]; intros c0 H;
    [done|cbn [now st later] in *..].
  - destruct (H 0%nat s (nsteps_O _ _)) as (_ & y & s2 & E & Hk). rewrite Ha in E. injection E as <- <-. by apply IH.
  - replace (S n + c0)%nat with (n + S c0)%nat by lia. apply IH. intros n1 s1 H1.
    replace (n1 + S c0)%nat with (S n1 + c0)%nat by lia. apply H. by eapply nsteps_l.
  - destruct (H 0%nat s (nsteps_O _ _)) as (Hp & _). destruct (Hp Hirq) as [s2 E]. congruence.
Qed.

(** ** Ticks as a function *)

(** What a tick does to the running task. *)
Definition ticked (t : task_struct) : task_struct :=
  let c := s64 (count t - 1) in
  if c <=? 0 then set_need_resched 1 (set_count 0 t) else set_count c t.

Definition tick1 (s : ks) : ks :=
  let s' := upd s (cur s) ticked in
  if s64 (count (task s (cur s)) - 1) <=? 0
  then with_klog s' (klog s ++ [("pid %d need_resched" +:+ nl, [VNum (pid (task s (cur s)))])])
  else s'.

Lemma upd_ext s p f g : f (task s p) = g (task s p) -> upd s p f = upd s p g.
Proof. intros E. unfold upd. by rewrite E. Qed.

Lemma tick_run s : tick s = Ret (tt, tick1 s).
Proof.
  unfold tick_handle_periodic, task_tick, through. cbn [simple_sched_class sc_task_tick].
  unfold current, task_tick_simple, update, field, printk, gets, modify, mbind, M_bind, mret, M_ret. fold (cur s).
  rewrite task_upd_eq. unfold tick1. cbn [count set_count].
  destruct (s64 (count (task s (cur s)) - 1) <=? 0) eqn:E.
  - rewrite !Fork.upd_upd, task_upd_eq. do 2 f_equal. apply (f_equal (fun x => with_klog x _)). apply upd_ext.
    unfold ticked. by rewrite E.
  - do 2 f_equal. apply upd_ext. unfold ticked. by rewrite E.
Qed.

(** A tick does not touch what the preemption count and the interrupt mask are. *)
Definition counted (v : Z) (s : ks) : ks := upd s (cur s) (set_preempt_count v).
Definition masked_off (s : ks) : ks := with_cpu s (Cpu (regs (cpu s)) (sp_el0 (cpu s)) false).

Lemma tick1_cpu s : cpu (tick1 s) = cpu s.
Proof. unfold tick1. by destruct (_ <=? 0). Qed.

Lemma tick1_cur s : cur (tick1 s) = cur s.
Proof. unfold cur. by rewrite tick1_cpu. Qed.

Lemma tick1_task s : task (tick1 s) (cur s) = ticked (task s (cur s)).
Proof. unfold tick1. destruct (_ <=? 0); apply task_upd_eq. Qed.

Lemma tick1_count s : preempt_count (task (tick1 s) (cur s)) = preempt_count (task s (cur s)).
Proof. rewrite tick1_task. unfold ticked. by destruct (_ <=? 0). Qed.

Lemma tick1_counted v s : tick1 (counted v s) = counted v (tick1 s).
Proof.
  unfold counted at 2. rewrite tick1_cur. unfold tick1. change (cur (counted v s)) with (cur s). unfold counted.
  rewrite task_upd_eq, !Fork.upd_upd. cbn [count pid set_preempt_count].
  assert (upd s (cur s) (fun t => ticked (set_preempt_count v t)) = upd s (cur s) (fun t => set_preempt_count v (ticked t))) as ->.
  { apply upd_ext. unfold ticked. cbn [count set_preempt_count]. by destruct (_ <=? 0). }
  rewrite <-Fork.upd_upd. by destruct (_ <=? 0).
Qed.

Lemma tick1_masked s : tick1 (masked_off s) = masked_off (tick1 s).
Proof. unfold tick1. change (cur (masked_off s)) with (cur s). change (task (masked_off s)) with (task s). by destruct (_ <=? 0). Qed.

(** ** Interrupts while the preemption count is up *)

(** Any number of ticks. *)
Definition ticks (n : nat) (s : ks) : ks := Nat.iter n tick1 s.

Lemma ticks_S n s : ticks (S n) s = tick1 (ticks n s).
Proof. done. Qed.

Lemma ticks_cpu n s : cpu (ticks n s) = cpu s.
Proof. induction n as [|n IH]; [done|]. by rewrite ticks_S, tick1_cpu. Qed.

Lemma ticks_kstack n s : kstack (ticks n s) = kstack s.
Proof. induction n as [|n IH]; [done|]. rewrite ticks_S, <-IH. unfold tick1. by destruct (_ <=? 0). Qed.

Lemma ticks_cur n s : cur (ticks n s) = cur s.
Proof. unfold cur. by rewrite ticks_cpu. Qed.

Lemma ticks_count n s : preempt_count (task (ticks n s) (cur s)) = preempt_count (task s (cur s)).
Proof. induction n as [|n IH]; [done|]. rewrite ticks_S, <-IH, <-(ticks_cur n s). apply tick1_count. Qed.

Lemma ticks_counted n v s : ticks n (counted v s) = counted v (ticks n s).
Proof. induction n as [|n IH]; [done|]. by rewrite !ticks_S, IH, tick1_counted. Qed.

Lemma ticks_masked n s : ticks n (masked_off s) = masked_off (ticks n s).
Proof. induction n as [|n IH]; [done|]. by rewrite !ticks_S, IH, tick1_masked. Qed.

Lemma ticks_add n m s : ticks n (ticks m s) = ticks (n + m) s.
Proof. unfold ticks. by rewrite Nat.iter_add. Qed.

Lemma ticks_inv n s ts q c m : inv s ts q c m -> inv (ticks n s) ts q c m.
Proof.
  intros Hi. induction n as [|n IH]; [done|]. pose proof (tick_inv _ _ _ _ _ _ _ _ _ IH) as H.
  apply wp_elim in H as ([] & s' & E & Hi' & _). rewrite tick_run in E. by injection E as <-.
Qed.

Lemma irq_tick_run s : preempt_count (task s (cur s)) <> 0 -> irq_on (cpu s) = true -> irq_tick s = Ret (false, tick1 s).
Proof.
  intros Hc Hirq. unfold el1_irq. unfold mbind, M_bind. change (raw_local_irq_disable s) with (Ret (tt, masked_off s)).
  cbv beta iota. rewrite tick_run, tick1_masked. cbv beta iota.
  unfold preempt_test, current, field, gets, mbind, M_bind. change (sp_el0 (cpu (masked_off (tick1 s)))) with (cur (tick1 s)).
  change (task (masked_off (tick1 s))) with (task (tick1 s)). rewrite tick1_cur, tick1_count.
  rewrite (proj2 (Z.eqb_neq _ _)) by done. cbn. do 2 f_equal.
  assert (irq_on (cpu (tick1 s)) = true) as H by by rewrite tick1_cpu.
  destruct (tick1 s) as [? ? ? ? ? ? [r p []] ? ?]; [done|discriminate].
Qed.

Lemma interrupted_ticks n s s1 :
  preempt_count (task s (cur s)) <> 0 -> interrupted n s s1 -> s1 = ticks n s.
Proof.
  intros Hc H. induction H as [s|n s s2 s3 [Hirq E] _ IH]; [done|].
  rewrite irq_tick_run in E by done. injection E as <-. rewrite IH by (by rewrite tick1_cur, tick1_count).
  unfold ticks. by rewrite Nat.iter_succ_r.
Qed.

(** One action, with the ticks before it. *)
Lemma wpi_action {A X} (act : M ks X) (k : X -> prog A) c s Q :
  preempt_count (task s (cur s)) <> 0 ->
  (forall n, exists x s2, act (ticks n s) = Ret (x, s2) /\ wpi (k x) (n + c) s2 Q) -> wpi (Do act k) c s Q.
Proof.
  intros Hc H n s1 H1. rewrite (interrupted_ticks n s s1 Hc H1). split; [|apply H].
  intros Hirq. eexists. apply irq_tick_run; [|done]. by rewrite ticks_cur, ticks_count.
Qed.

(** An action that reads the same whatever ticks came before it. *)
Lemma wpi_read {A X} (f : ks -> X) (k : X -> prog A) c s Q :
  preempt_count (task s (cur s)) <> 0 -> (forall n, f (ticks n s) = f s) ->
  (forall n, wpi (k (f s)) (n + c) (ticks n s) Q) -> wpi (Do (gets f) k) c s Q.
Proof. intros Hc Hf H. apply wpi_action; [done|]. intros n. exists (f s), (ticks n s). split; [unfold gets; by rewrite Hf|apply H]. Qed.

(** ** The parts of [schedule] *)

(** The preemption count stays up. *)
Ltac up := rewrite ?ticks_cur, ?ticks_count; lia.

Lemma wpi_add_preempt_count d c s Q :
  preempt_count (task s (cur s)) = 1 -> (forall n, Q (n + c)%nat tt (ticks n (counted (s32 (1 + d)) s))) ->
  wpi (add_preempt_count d) c s Q.
Proof.
  intros Hc HQ. apply wpi_read; [up|by intros n; apply ticks_cur|]. intros n1. fold (cur s).
  apply wpi_read; [up|intros n; by rewrite ticks_add, !ticks_count|]. intros n2. rewrite ticks_count, Hc, !ticks_add.
  apply wpi_action; [up|]. intros n3. rewrite ticks_add. eexists tt, _. split; [reflexivity|].
  specialize (HQ (n3 + (n2 + n1))%nat). rewrite ticks_counted in HQ. unfold counted in HQ. rewrite ticks_cur in HQ.
  by rewrite <-!Nat.add_assoc in *.
Qed.

Lemma wpi_schedule_debug p c s Q :
  preempt_count (task s (cur s)) = 1 -> (forall n, Q (n + c)%nat tt (ticks n s)) -> wpi (schedule_debug p) c s Q.
Proof.
  intros Hc HQ. apply wpi_read; [up|by intros n; apply ticks_cur|]. intros n1. fold (cur s).
  apply wpi_read; [up|intros n; by rewrite ticks_add, !ticks_count|]. intros n2. rewrite ticks_count, Hc, !ticks_add, Nat.add_assoc.
  apply HQ.
Qed.

Lemma wpi_epilogue r c s Q :
  match r with After _ => preempt_count (task s (cur s)) = 1 | _ => True end ->
  (forall n s', Sched.epilogue r s = Ret (r, s') -> Q (n + c)%nat r (ticks n s')) -> wpi (epilogue r) c s Q.
Proof.
  assert (forall t, preempt_count (task t (cur t)) = 1 -> preempt_enable t = Ret (tt, counted 0 t)) as He.
  { intros t Hc. unfold preempt_enable, current, update, gets, modify, mbind, M_bind. do 2 f_equal. apply upd_ext. by rewrite Hc. }
  intros Hc HQ. destruct r as [[]| |]; [| |by apply (HQ 0%nat)|by apply (HQ 0%nat)].
  - apply wpi_bind, wpi_add_preempt_count; [done|]. intros n. apply HQ. cbn. unfold mbind, M_bind. by rewrite He.
  - cbn [epilogue]. apply wpi_bind, wpi_action; [lia|]. intros n. eexists tt, _. split; [reflexivity|]. apply wpi_bind.
    change (with_cpu (ticks n s) _) with (masked_off (ticks n s)). rewrite <-ticks_masked.
    apply wpi_add_preempt_count; [rewrite ticks_cur, ticks_count; exact Hc|]. intros n2.
    rewrite <-ticks_counted, ticks_add, Nat.add_assoc. apply HQ. cbn. unfold mbind, M_bind.
    change (raw_local_irq_disable s) with (Ret (tt, masked_off s)). cbv beta iota. by rewrite He.
Qed.

Lemma __schedule_masked who s :
  preempt_count (task s (cur s)) = 1 ->
  Sched.__schedule rq_head init_task ret_from_fork switch_return who s =
  masked rq_head init_task ret_from_fork switch_return who (cur s) s.
Proof.
  intros Hc. rewrite <-exec___schedule. cbn. unfold mbind, M_bind, current, field, gets. fold (cur s). rewrite Hc. cbn.
  apply exec_atom.
Qed.

(** ** [schedule] from the point where preemption is off *)

(** The calls of [tick_handle_periodic] that [n] timer interrupts make. *)
Fixpoint run_ticks (n : nat) : M ks unit :=
  match n with O => mret tt | S n => tick;; run_ticks n end.

Lemma run_ticks_eq n s : run_ticks n s = Ret (tt, ticks n s).
Proof.
  revert s. induction n as [|n IH]; intros s; [done|]. cbn [run_ticks]. unfold mbind, M_bind. rewrite tick_run, IH.
  unfold ticks. by rewrite Nat.iter_succ_r.
Qed.

Context (Hlay : layout_ok rq_head init_task ret_from_fork switch_return).

(** [__schedule] and what follows it, with the count up. *)
Lemma wpi_tail who s ts q q' m c :
  inv s ts q 1 m -> m <> Blocked -> left_queue s q q' m -> q' <> [] ->
  wpi (r ← __schedule rq_head init_task ret_from_fork switch_return who; epilogue r) c s (fun n r s' =>
    exists n1 n2 s2, (n1 + n2 + c = n)%nat /\ s' = ticks n2 s2 /\
      (r ← Sched.__schedule rq_head init_task ret_from_fork switch_return who; Sched.epilogue r) (ticks n1 s) = Ret (r, s2)).
Proof.
  intros Hi Hm Hq Hne. pose proof (i_count _ _ _ _ _ _ _ _ _ Hi : preempt_count (task s (cur s)) = 1) as Hc.
  apply wpi_bind. apply wpi_read; [up|by intros n; apply ticks_cur|]. intros n1.
  apply wpi_bind, wpi_schedule_debug; [up|]. intros n2. rewrite ticks_add.
  apply wpi_action; [up|]. intros n3. rewrite ticks_add, !Nat.add_assoc.
  set (n := (n3 + n2 + n1)%nat).
  assert (left_queue (ticks n s) q q' m) as Hq1 by (unfold left_queue; by rewrite ticks_cur).
  pose proof (__schedule_spec _ _ _ _ Hlay _ ts q q' m who (ticks_inv n _ _ _ _ _ Hi) Hm Hq1 Hne) as H.
  apply wp_elim in H as (r & s2 & E & Hi2 & Hd). pose proof E as E0. rewrite __schedule_masked, ticks_cur in E by up.
  exists r, s2. split; [exact E|]. apply wpi_epilogue.
  { destruct r; [|done|done]. apply Hi2. }
  intros n4 s' E'. exists n, n4, s'. split; [lia|]. split; [done|]. unfold mbind, M_bind. by rewrite E0.
Qed.

Definition rest : prog (option resumed) :=
  r ← (r ← __schedule rq_head init_task ret_from_fork switch_return FromSchedule; epilogue r);
  mret (Some r).

Lemma code_rest :
  code rq_head init_task ret_from_fork switch_return Schedule = (add_preempt_count 1;; rest).
Proof. reflexivity. Qed.

Lemma wpi_rest s ts q q' m :
  inv s ts q 0 m -> m <> Blocked -> left_queue s q q' m -> q' <> [] ->
  wpi rest 0 (counted 1 s) (fun n r s' => exists r0 n1 n2 s2, (n1 + n2 = n)%nat /\ r = Some r0 /\
    Sched.schedule rq_head init_task ret_from_fork switch_return (ticks n1 s) = Ret (r0, s2) /\ s' = ticks n2 s2).
Proof.
  intros Hi Hm Hq Hne. assert (inv (counted 1 s) ts q 1 m) as Hi1 by (by apply (inv_preempt _ _ _ _ s ts q 0)).
  apply wpi_bind. eapply wpi_mono; [by apply (wpi_tail FromSchedule (counted 1 s) ts q q' m)|].
  intros n r s' (n1 & n2 & s2 & En & -> & E). exists r, n1, n2, s2. split; [lia|]. split; [done|]. split; [|done].
  unfold Sched.schedule. unfold mbind at 1, M_bind at 1.
  pose proof (preempt_disable_spec _ _ _ _ _ ts q m (ticks_inv n1 s ts q 0 m Hi)) as H.
  apply wp_elim in H as ([] & s1 & Ed & _ & E1). rewrite Ed. subst s1. change (upd (ticks n1 s) _ _) with (counted 1 (ticks n1 s)).
  by rewrite <-ticks_counted.
Qed.

(** ** [preempt_schedule_irq] from the interrupt that calls it *)

(** With IRQs masked the next action is the next step. *)
Lemma wpi_off {A X} (act : M ks X) (k : X -> prog A) c s x s2 Q :
  irq_on (cpu s) = false -> act s = Ret (x, s2) -> wpi (k x) c s2 Q -> wpi (Do act k) c s Q.
Proof.
  intros Hoff E H n s1 H1. destruct H1 as [s1|n s1 s3 s4 [Hon _] _]; [|congruence].
  split; [congruence|]. by exists x, s2.
Qed.

Lemma counted_masked v s : counted v (masked_off s) = masked_off (counted v s).
Proof. done. Qed.

Lemma unmasked s : irq_on (cpu s) = true -> raw_local_irq_enable (masked_off s) = Ret (tt, s).
Proof. intros H. destruct s as [? ? ? ? ? ? [r p []] ? ?]; [done|discriminate]. Qed.

Lemma preempt_schedule_irq_eq s :
  preempt_count (task s (cur s)) = 0 -> irq_on (cpu s) = true ->
  Sched.preempt_schedule_irq rq_head init_task ret_from_fork switch_return (masked_off s) =
  (r ← Sched.__schedule rq_head init_task ret_from_fork switch_return FromPreempt; Sched.epilogue r) (counted 1 s).
Proof.
  intros Hc Hon. set (n := preempt_count (task s (cur s))) in *.
  change (Sched.preempt_schedule_irq rq_head init_task ret_from_fork switch_return (masked_off s)) with (((if negb (n =? 0) then
      printk ("BUG: %s incorrect preempt count: 0x%x" +:+ nl) [VStr "preempt_schedule_irq"; VNum n] else mret tt);;
    preempt_disable;; raw_local_irq_enable;;
    r ← Sched.__schedule rq_head init_task ret_from_fork switch_return FromPreempt; Sched.epilogue r) (masked_off s)).
  rewrite Hc. cbn [Z.eqb negb]. subst n.
  assert (preempt_disable (masked_off s) = Ret (tt, masked_off (counted 1 s))) as Ed.
  { unfold preempt_disable, current, update, gets, modify, mbind, M_bind. do 2 f_equal. rewrite <-counted_masked.
    apply upd_ext. change (task (masked_off s) (cur (masked_off s))) with (task s (cur s)). by rewrite Hc. }
  unfold mbind at 1, M_bind at 1, mret, M_ret. unfold mbind at 1, M_bind at 1. rewrite Ed.
  unfold mbind at 1, M_bind at 1. by rewrite unmasked.
Qed.

(** Preemption: called with IRQs masked, it unmasks them only when the count is up, so no interrupt of it preempts again, and the
    ticks act as if they came before the call or after it. *)
Lemma wpi_preempt s ts q :
  inv s ts q 0 Run -> irq_on (cpu s) = true -> q <> [] ->
  wpi el1_preempt 0 (masked_off s) (fun n r s' => exists r0 n1 n2 s2, (n1 + n2 = n)%nat /\ r = Some r0 /\
    Sched.preempt_schedule_irq rq_head init_task ret_from_fork switch_return (masked_off (ticks n1 s)) = Ret (r0, s2) /\
    s' = ticks n2 s2).
Proof.
  intros Hi Hon Hne. pose proof (i_count _ _ _ _ _ _ _ _ _ Hi) as Hc.
  assert (inv (counted 1 s) ts q 1 Run) as Hi1 by (by apply (inv_preempt _ _ _ _ s ts q 0)).
  assert (preempt_count (task s (cur s)) = 0) as Hc0 by exact Hc.
  apply wpi_bind. eapply wpi_off; [done|reflexivity|]. eapply wpi_off; [done|reflexivity|].
  change (preempt_count _) with (preempt_count (task s (cur s))). rewrite Hc0.
  eapply wpi_off; [done|reflexivity|]. eapply wpi_off; [done|reflexivity|]. eapply wpi_off; [done|reflexivity|].
  change (preempt_count _) with (preempt_count (task s (cur s))). rewrite Hc0.
  change (upd (masked_off s) _ _) with (masked_off (counted 1 s)).
  eapply wpi_off; [done|by apply unmasked|].
  eapply wpi_mono; [by apply (wpi_tail FromPreempt (counted 1 s) ts q q Run)|].
  intros n r s' (n1 & n2 & s2 & En & -> & E). exists r, n1, n2, s2. split; [lia|]. split; [done|]. split; [|done].
  rewrite preempt_schedule_irq_eq; [by rewrite <-ticks_counted|by rewrite ticks_cur, ticks_count|by rewrite ticks_cpu].
Qed.

(** C14: The preemption count protects [schedule]. From the store of the count on, let timer interrupts that call
    [tick_handle_periodic] be taken at any point at which IRQs are not masked. At every point reached, an interrupt
    returns to [schedule] and no task is preempted; and the run ends as if the interrupts, none of them lost, had come before [schedule] or
    after it: some [n1] ticks, the whole of [schedule], and the other [n2] ticks give the same result and the same state,
    in which the invariant of the scheduler holds. *)
Theorem ticks_in_schedule s ts q q' m n s' p l l' :
  inv s ts q 0 m -> m <> Blocked -> left_queue s q q' m -> q' <> [] ->
  taken n (Conf (upd s (cur s) (set_preempt_count 1)) rest l) (Conf s' p l') ->
  l' = l /\
  ((forall r, p <> Done r) -> irq_on (cpu s') = true -> exists s1, irq_tick s' = Ret (false, s1)) /\
  exists r s1 n1 n2, exec p s' = Ret (Some r, s1) /\ (n1 + n2 = n)%nat /\
    (run_ticks n1;; r ← Sched.schedule rq_head init_task ret_from_fork switch_return; run_ticks n2;; mret r) s = Ret (r, s1) /\
    inv s1 ts q' 0 Run.
Proof.
  intros Hi Hm Hq Hne Hst. destruct (wpi_taken _ n _ _ Hst 0 (wpi_rest s ts q q' m Hi Hm Hq Hne)) as [H El].
  cbn [now st later] in *. rewrite Nat.add_0_r in H. split; [done|]. split.
  { intros Hd Hirq. destruct p as [r|X act k]; [by destruct (Hd r)|]. by apply (H 0%nat s' (nsteps_O _ _)). }
  apply wpi_exec in H as (a & s1 & E & r & n1 & n2 & s2 & En & -> & Es & ->).
  exists r, (ticks n2 s2), n1, n2. split; [done|]. split; [done|]. split.
  - unfold mbind, M_bind. rewrite run_ticks_eq, Es. by rewrite run_ticks_eq.
  - apply ticks_inv. pose proof (ticks_inv n1 s ts q 0 m Hi) as Hi1.
    assert (left_queue (ticks n1 s) q q' m) as Hq1 by (unfold left_queue; by rewrite ticks_cur).
    pose proof (schedule_inv _ _ _ _ Hlay _ ts q q' m Hi1 Hm Hq1 Hne) as H.
    apply wp_elim in H as (r2 & s3 & E3 & Hi3 & _). rewrite Es in E3. by injection E3 as <- <-.
Qed.

End Ticks.

Section Witness.
Import Fork.

(** The first task calls [schedule] and is interrupted once. *)
Lemma ticks_in_schedule_witness :
  exists s1 r s2 n1 n2, el1_irq (tick_handle_periodic head0 init0) (counted 1 two) = Ret (false, s1) /\
    exec (rest head0 init0 fork0 return0) s1 = Ret (Some r, s2) /\ (n1 + n2 = 1)%nat /\
    (run_ticks head0 init0 n1;; r ← Sched.schedule head0 init0 fork0 return0; run_ticks head0 init0 n2;; mret r) two = Ret (r, s2).
Proof.
  pose proof (irq_tick_run head0 init0 (counted 1 two) ltac:(by vm_compute) eq_refl) as E.
  destruct (ticks_in_schedule head0 init0 fork0 return0 layout0 two [t1; t2] [t2; t1] [t2; t1] Run 1 (tick1 (counted 1 two))
    (rest head0 init0 fork0 return0) ∅ ∅ two_inv) as (_ & _ & r & s2 & n1 & n2 & E1 & En & E2 & _).
  - done.
  - done.
  - done.
  - eapply t_irq; [reflexivity|exact E|apply t_refl].
  - exists (tick1 (counted 1 two)), r, s2, n1, n2. split; [exact E|]. split; [exact E1|]. split; [exact En|exact E2].
Defined.

End Witness.

End Ticks.
