(* ===== verification/Preempt.v ===== *)
(** * Preemptive multitasking

    Tasks that compute and call [schedule], with a timer interrupt that drives the scheduler by
    [tick_handle_periodic]: any number of them can be preempted, each at any action, and be switched to again later, and
    more interrupts are taken while [preempt_schedule_irq] runs. *)

From S2P Require Import Prelude Base Printk Klist Sched SchedInv Fork Devices Stacks Irq Ticks.
Import Klist Sched SchedInv Irq Ticks Devices Stacks.

Module Preempt.

Section Preempt.
Context (rq_head init_task ret_from_fork switch_return : Z).

(** ** The invariant of the interleaved system *)

Context (Hlay : layout_ok rq_head init_task ret_from_fork switch_return) (ts q : list Z) (Hq : q <> []).
Abbreviation tick := (tick_handle_periodic rq_head init_task).
Abbreviation irq_tick := (el1_irq tick).
Abbreviation el1_preempt := (el1_preempt rq_head init_task ret_from_fork switch_return).
Abbreviation left_by := (left_by ret_from_fork switch_return).
Abbreviation inv := (inv rq_head init_task ret_from_fork switch_return).
Abbreviation rest := (rest rq_head init_task ret_from_fork switch_return).
Abbreviation cstep := (cstep rq_head init_task ret_from_fork switch_return).
Abbreviation code := (code rq_head init_task ret_from_fork switch_return).
Abbreviation wpi := (wpi rq_head init_task).

(** A program of the task [t] that can be preempted before any of its actions: whatever the other tasks did meanwhile,
    the action only reads, or raises the preemption count and goes on with [rest]. *)
Fixpoint preemptible (p : prog (option resumed)) (t : Z) : Prop :=
  match p with
  | Done r => r <> Some (After FromPreempt)
  | Do act k => forall s, inv s ts q 0 Run -> cur s = t -> exists x s', act s = Ret (x, s') /\
      ((s' = s /\ preemptible (k x) t) \/ (s' = counted 1 s /\ k x = rest))
  end.

(** Every other task that was preempted has its one program kept, and is to be switched to in the middle of [switch_to];
    the others have none. *)
Definition parked (l : pending) (s : ks) : Prop :=
  forall p, p <> cur s ->
    if decide (kstack s !! p = Some FromPreempt)
    then pc (context (task s p)) = switch_return /\ exists prg, stack_of l p = [prg] /\ preemptible prg p
    else stack_of l p = [].

(** The running task came out of [schedule] or [preempt_schedule_irq]. *)
Definition settled (l : pending) (n : nat) (r : option resumed) (s : ks) : Prop :=
  inv s ts q 0 Run /\ parked l s /\
  if decide (r = Some (After FromPreempt))
  then irq_on (cpu s) = false /\ exists prg, stack_of l (cur s) = [prg] /\ preemptible prg (cur s)
  else stack_of l (cur s) = [].

Definition outside (c : conf) : Prop :=
  inv (st c) ts q 0 Run /\ parked (later c) (st c) /\ stack_of (later c) (cur (st c)) = [] /\
  preemptible (now c) (cur (st c)).

(** No task is preempted a second time before it returned from the first. *)
Definition flat (l : pending) : Prop := forall p, (length (stack_of l p) <= 1)%nat.

Definition good (c : conf) : Prop :=
  flat (later c) /\ (outside c \/ exists n, wpi (now c) n (st c) (settled (later c))).

Lemma settled_outside l n r s : settled l n r s -> irq_on (cpu s) = true -> outside (Conf s (Done r) l).
Proof.
  intros (Hi & Hp & Hr) Hirq. case_decide as E; [by destruct Hr; congruence|]. by split_and!.
Qed.

Lemma preemptible_schedule t : preemptible (code Schedule) t.
Proof.
  intros s Hi <-. exists (cur s), s. split; [done|]. left. split; [done|]. intros s1 Hi1 E1.
  exists 0, s1. split; [unfold field, gets; by rewrite <-E1, (i_count _ _ _ _ _ _ _ _ _ Hi1)|]. left. split; [done|].
  intros s2 Hi2 E2. exists tt, (counted 1 s2). split; [unfold counted; by rewrite E2|]. by right.
Qed.

(** What a scheduling decision on behalf of [who] leaves. *)
Lemma left_settled who r s s2 l l' n :
  parked l s -> inv s2 ts q 0 Run -> left_by (kstack s) (fun p => context (task s p)) (cur s) who r s2 ->
  (cur s2 = cur s -> irq_on (cpu s2) = false) ->
  (cur s2 <> cur s -> irq_on (cpu s2) = bool_decide (r <> After FromPreempt)) ->
  (forall p, p <> cur s -> stack_of l' p = stack_of l p) ->
  (if decide (who = FromPreempt) then exists prg, stack_of l' (cur s) = [prg] /\ preemptible prg (cur s)
   else stack_of l' (cur s) = []) ->
  settled l' n (Some r) s2.
Proof.
  intros Hp Hi HL Hsame Hother Hl Hwho. split; [done|]. destruct HL as [[-> (Ek & Ec & EC)]|(x & Hx & (Ek & _ & EC) & Hne & Hret)].
  - split.
    + intros p Hpc. rewrite Ec in Hpc. rewrite Ek, EC, Hl by done. by apply Hp.
    + rewrite Ec. destruct who; case_decide as E; simplify_eq; [done|]. split; [by apply Hsame|done].
  - split.
    + intros p Hpc. rewrite Ek, EC. unfold saved. destruct (decide (p = cur s)) as [->|Hpn].
      * rewrite lookup_insert_eq. destruct who; case_decide; simplify_eq; [done|]. by split.
      * rewrite lookup_insert_ne, Hl by done. by apply Hp.
    + rewrite Hl by done. pose proof (Hp (cur s2) Hne) as Hcur. destruct (decide (Some r = Some (After FromPreempt))) as [E|E].
      * injection E as ->. cbn [returns] in Hret. rewrite decide_True in Hcur by done.
        split; [rewrite Hother by done; by rewrite bool_decide_eq_false_2 by auto|apply Hcur].
      * destruct (decide (kstack s !! cur s2 = _)) as [Ek2|]; [|done]. destruct Hcur as [Hpc _]. exfalso. apply (l_code _ _ _ _ Hlay).
        destruct r as [w| |]; cbn [returns] in Hret; [congruence|..]; rewrite <-Hpc; symmetry; apply Hret.
Qed.

(** What ticks keep. *)
Lemma ticks_context n s p : context (task (ticks n s) p) = context (task s p).
Proof.
  induction n as [|n IH]; [done|]. rewrite ticks_S, <-IH. set (t := ticks n s).
  assert (context (task (tick1 t) p) = context (task (upd t (cur t) ticked) p)) as ->.
  { unfold tick1. by destruct (_ <=? 0). }
  rewrite task_upd. case_decide as E; [|done]. subst p. unfold ticked. by destruct (_ <=? 0).
Qed.

Lemma ticks_stacks n s : stacks (kstack s) (fun p => context (task s p)) (cur s) (ticks n s).
Proof. split; [apply ticks_kstack|]. split; [apply ticks_cur|]. intros p. apply ticks_context. Qed.

Lemma parked_ticks l n s : parked l s -> parked l (ticks n s).
Proof. intros Hp p. rewrite ticks_cur, ticks_kstack, ticks_context. apply Hp. Qed.

Lemma settled_ticks l k k' n r s : settled l k r s -> settled l k' r (ticks n s).
Proof.
  intros (Hi & Hp & Hr). split; [by apply ticks_inv|]. split; [by apply parked_ticks|]. by rewrite ticks_cpu, ticks_cur.
Qed.

(** [schedule] from the point where it raises the count. *)
Lemma rest_settles s l :
  inv s ts q 0 Run -> parked l s -> stack_of l (cur s) = [] -> wpi rest 0 (counted 1 s) (settled l).
Proof.
  intros Hi Hp Hs. eapply wpi_mono; [by apply (wpi_rest _ _ _ _ Hlay s ts q q Run)|].
  intros n r s' (r0 & n1 & n2 & s2 & _ & -> & E & ->). apply (settled_ticks l n).
  pose proof (schedule_inv _ _ _ _ Hlay _ ts q q Run (ticks_inv _ _ _ _ n1 _ _ _ _ _ Hi) ltac:(done) eq_refl Hq) as H.
  apply wp_elim in H as (r1 & s3 & E1 & Hi2 & _ & Hsame & Hother). rewrite E in E1. injection E1 as <- <-.
  pose proof (triple_use _ _ _ _ _ _ (schedule_stacks _ _ _ _ _ _ _) (ticks_stacks n1 s) E) as HL.
  rewrite ticks_cur in Hsame, Hother.
  apply (left_settled FromSchedule r0 s s2 l l n Hp Hi2 HL); [by apply Hsame|done|done|done].
Qed.

(** Preemption of the program [p]. *)
Lemma preempt_settles s p l :
  inv s ts q 0 Run -> irq_on (cpu s) = true -> parked l s -> stack_of l (cur s) = [] -> preemptible p (cur s) ->
  wpi el1_preempt 0 (masked_off s) (settled (push (cur s) p l)).
Proof.
  intros Hi Hon Hp Hs Hpre. eapply wpi_mono; [by apply (wpi_preempt _ _ _ _ Hlay s ts q)|].
  intros n r s' (r0 & n1 & n2 & s2 & _ & -> & E & ->). apply (settled_ticks _ n).
  set (s1 := masked_off (ticks n1 s)) in *.
  assert (inv s1 ts q 0 Run) as Hi1 by (apply Fork.irq_inv, ticks_inv, Hi).
  pose proof (preempt_schedule_irq_inv _ _ _ _ Hlay s1 ts q Hi1 Hq) as H.
  apply wp_elim in H as (r1 & s3 & E1 & Hi2 & _ & Hsame & Hother & _). rewrite E in E1. injection E1 as <- <-.
  assert (stacks (kstack s) (fun p => context (task s p)) (cur s) s1) as Hs1 by exact (ticks_stacks n1 s).
  pose proof (triple_use _ _ _ _ _ _ (preempt_schedule_irq_stacks _ _ _ _ _ _ _) Hs1 E) as HL.
  assert (cur s1 = cur s) as Ec by apply (ticks_cur n1 s). rewrite Ec in Hsame, Hother.
  apply (left_settled FromPreempt r0 s s2 l (push (cur s) p l) n Hp Hi2 HL); [by apply Hsame|done| |].
  - intros p' Hp'. by rewrite stack_push, decide_False.
  - rewrite decide_True by done. exists p. by rewrite stack_push, decide_True, Hs.
Qed.

(** An interrupt outside [schedule]. *)
Lemma irq_outside s :
  irq_on (cpu s) = true ->
  irq_tick s = Ret (false, tick1 s) \/ irq_tick s = Ret (true, masked_off (tick1 s)).
Proof.
  intros Hirq. unfold el1_irq, mbind, M_bind. change (raw_local_irq_disable s) with (Ret (tt, masked_off s)).
  cbv beta iota. rewrite tick_run, tick1_masked. cbv beta iota.
  unfold preempt_test, current, field, gets, mbind, M_bind, mret, M_ret.
  assert (raw_local_irq_enable (masked_off (tick1 s)) = Ret (tt, tick1 s)) as Eon by (apply unmasked; by rewrite tick1_cpu).
  destruct (negb (preempt_count _ =? 0)); [left; by rewrite Eon|]. destruct (_ =? 0); cbn [negb]; [left; by rewrite Eon|by right].
Qed.

(** ** Every step keeps it *)

Lemma outside_tick s p l : outside (Conf s p l) -> outside (Conf (tick1 s) p l).
Proof.
  intros (Hi & Hp & Hl & Hs). unfold outside. cbn [st now later] in *. rewrite tick1_cur.
  split; [exact (ticks_inv _ _ _ _ 1 s ts q 0 Run Hi)|]. split; [exact (parked_ticks l 1 s Hp)|done].
Qed.

(** An interrupt that is taken finds the running task outside [schedule], or with the count up. *)
Lemma good_irq s p l :
  good (Conf s p l) -> irq_on (cpu s) = true ->
  outside (Conf s p l) \/
  exists X (act : M ks X) k n, p = Do act k /\ wpi p n s (settled l).
Proof.
  intros [_ [H|[n H]]] Hirq; [by left|]. cbn [now st later] in H. destruct p as [r|X act k].
  - left. by apply (settled_outside _ n).
  - right. by exists X, act, k, n.
Qed.

(** Where no program is under way. *)
Lemma good_done s r l : good (Conf s (Done r) l) -> settled l 0 r s.
Proof.
  intros [_ [(Hi & Hp & Hl & Hs)|[n H]]]; [|exact H]. split; [done|]. split; [done|]. by rewrite decide_False.
Qed.

Lemma good_next r s l c : good (Conf s (Done r) l) -> goes_on r s l = Some c -> good c.
Proof.
  intros Hg E. pose proof (proj1 Hg) as Hf. cbn [later] in Hf. destruct (good_done _ _ _ Hg) as (Hi & Hp & Hr). case_decide as Er.
  - subst r. destruct Hr as (_ & prg & El & Hs). cbn [goes_on] in E. rewrite El in E. injection E as <-.
    assert (forall p, stack_of (pop (cur s) [] l) p = if decide (p = cur s) then [] else stack_of l p) as Hpop by (intros; apply stack_pop).
    split; [intros p; cbn [later]; rewrite Hpop; case_decide; [simpl; lia|apply Hf]|].
    left. unfold outside. cbn [st now later]. split; [by apply Fork.irq_inv|]. split; [|split; [by rewrite Hpop, decide_True|done]].
    intros p Hpc. change (p <> cur s) in Hpc. rewrite Hpop, (decide_False (P := p = cur s)) by done. by apply Hp.
  - assert (c = Conf s (Done None) l) as -> by (destruct r as [[[|]| |]|]; cbn [goes_on] in E; congruence).
    split; [done|]. left. by split_and!.
Qed.

Lemma good_step c c' : good c -> cstep (eq tick) (eq Schedule) c c' -> good c'.
Proof.
  intros Hg Hst. pose proof (proj1 Hg) as Hf.
  destruct Hst as [X act k x s s' l Ha|h s s' p l <- Hirq Ha|h s s' p l <- Hirq Ha|r s l c Hg'|o s l <- Ha]; cbn [later] in Hf.
  - split; [done|]. destruct Hg as [_ [(Hi & Hp & Hl & Hs)|[n H]]]; cbn [now st later] in *.
    + destruct (Hs s Hi eq_refl) as (y & s2 & E & Hn). rewrite Ha in E. injection E as <- <-.
      destruct Hn as [[-> Hn]|[-> Hn]]; [by left|]. right. exists 0%nat. cbn [now st later]. rewrite Hn. by apply rest_settles.
    + destruct (H 0%nat s (nsteps_O _ _)) as (_ & y & s2 & E & Hk). rewrite Ha in E. injection E as <- <-. right. by exists n.
  - split; [done|]. destruct (good_irq s p l Hg Hirq) as [Ho|(X & act & k & n & -> & H)].
    + destruct (irq_outside s Hirq) as [E|E]; rewrite Ha in E; [|done]. injection E as ->.
      left. by apply outside_tick.
    + right. exists (S n). intros n1 s1 H1. cbn [now st later] in *. replace (n1 + S n)%nat with (S n1 + n)%nat by lia.
      apply H. by eapply nsteps_l.
  - destruct (good_irq s p l Hg Hirq) as [Ho|(X & act & k & n & -> & H)].
    + destruct (irq_outside s Hirq) as [E|E]; rewrite Ha in E; [done|]. injection E as ->.
      pose proof Ho as (_ & _ & Hl & _). destruct (outside_tick _ _ _ Ho) as (Hi & Hp & Hl1 & Hs). cbn [st now later] in *.
      split; [intros p'; cbn [later]; rewrite stack_push, Hl; case_decide; [simpl; lia|apply Hf]|].
      right. exists 0%nat. cbn [st now later]. rewrite <-(tick1_cur s). apply preempt_settles; (done || by rewrite tick1_cpu).
    + destruct (H 0%nat s (nsteps_O _ _)) as [Hn _]. destruct (Hn Hirq) as [s2 E]. congruence.
  - by eapply good_next.
  - split; [done|]. left. destruct (good_done _ _ _ Hg) as (Hi & Hp & Hl). rewrite decide_False in Hl by done.
    split_and!; [done..|apply preemptible_schedule].
Qed.

(** ** What it gives *)

Lemma preemptible_exec p l : forall s, inv s ts q 0 Run -> parked l s -> stack_of l (cur s) = [] -> preemptible p (cur s) ->
  exists r s', exec p s = Ret (r, s').
Proof.
  induction p as [r|X act k IH]; intros s Hi Hp Hl Hs; [by exists r, s|].
  destruct (Hs s Hi eq_refl) as (x & s2 & E & Hn). cbn. unfold mbind, M_bind. rewrite E.
  destruct Hn as [[-> Hn]|[-> ->]]; [by apply IH|].
  destruct (wpi_exec _ _ _ _ _ _ (rest_settles s l Hi Hp Hl)) as (r & s' & Er & _). by exists r, s'.
Qed.

(** C15: Preemptive multitasking is safe for tasks that compute and call [schedule]. Let the timer interrupt call
    [tick_handle_periodic], and let the tasks of a run queue that is not empty call [schedule] again and again; interrupts
    are taken between any two actions with IRQs unmasked, those of [schedule] and of [preempt_schedule_irq] among them, and preempt
    the running task whenever the test says so, so that any number of tasks are in the middle of a call. At every point
    of every such run: the call that the running task is in would run to its end; an interrupt would be served; no task is
    preempted again before it has returned from its preemption, so each has at most one interrupted program on its stack; a task that is
    switched to after a preemption finds that program to go on with; and whenever no call is under way the
    invariant of the scheduler holds, with the same tasks and the same queue. *)
Theorem preemption_safe s0 c :
  inv s0 ts q 0 Run -> (forall p, p <> cur s0 -> kstack s0 !! p <> Some FromPreempt) ->
  rtc (cstep (eq tick) (eq Schedule)) (Conf s0 (Done None) ∅) c ->
  (exists r s', exec (now c) (st c) = Ret (r, s')) /\
  (irq_on (cpu (st c)) = true -> exists b s', irq_tick (st c) = Ret (b, s')) /\
  (forall p, (length (stack_of (later c) p) <= 1)%nat) /\
  (forall r, now c = Done r -> inv (st c) ts q 0 Run /\ is_Some (goes_on r (st c) (later c))).
Proof.
  intros Hi0 Hk0 Hst. assert (good c) as Hg.
  { assert (good (Conf s0 (Done None) ∅)) as H0.
    { split; [intros p; change (later _) with (∅ : pending); unfold stack_of; rewrite lookup_empty; simpl; lia|]. left. split; [done|]. split; [|done]. intros p Hp. rewrite decide_False by (by apply Hk0). done. }
    clear -Hst H0 Hlay Hq. induction Hst as [|x y z Hxy _ IH]; [done|]. by apply IH, (good_step x). }
  destruct c as [s p l]. cbn [now st later]. split; [|split; [|split]].
  - destruct Hg as [_ [(Hi & Hp & Hl & Hs)|[n H]]]; [by eapply preemptible_exec|].
    destruct (wpi_exec _ _ _ _ _ _ H) as (r & s' & E & _). by exists r, s'.
  - intros Hirq. destruct (irq_outside s Hirq); eauto.
  - apply Hg.
  - intros r ->. destruct (good_done _ _ _ Hg) as (Hi & Hp & Hr). split; [done|]. case_decide as E.
    + subst r. destruct Hr as (_ & prg & El & _). cbn [goes_on]. by rewrite El.
    + by destruct r as [[[|]| |]|].
Qed.

End Preempt.

(** ** Witness *)

Section Witness.
Import Fork.

(** [t1] calls [schedule] and is preempted in the middle of it, when it has read its preemption count; in the middle of that, when
    [preempt_schedule_irq] has unmasked IRQs, another interrupt comes; and [t2] starts. *)
Lemma preemption_safe_witness :
  exists s c prg, irq_on (cpu s) = true /\ now c = Done (Some (Started 0x6000 8)) /\ stack_of (later c) t1 = [prg] /\
    (exists r s', exec (now c) (st c) = Ret (r, s')) /\ is_Some (goes_on (Some (Started 0x6000 8)) (st c) (later c)).
Proof.
  assert (match drive 2 (code head0 init0 fork0 return0 Schedule) race_start with
    | Ret (p, s1) => match el1_irq (tick_handle_periodic head0 init0) s1 with
      | Ret (true, s2) => match drive 6 (el1_preempt head0 init0 fork0 return0) s2 with
        | Ret (p3, s3) => match el1_irq (tick_handle_periodic head0 init0) s3 with
          | Ret (false, s4) => match exec p3 s4 with
            | Ret (Some (Started 0x6000 8), s5) => (cur s1 =? t1) && irq_on (cpu s1) && irq_on (cpu s3) | _ => false end
          | _ => false end
        | _ => false end
      | _ => false end
    | _ => false end = true) as H by (by vm_compute).
  destruct (drive 2 _ race_start) as [[prg s1]| |] eqn:E1; [|done|done].
  destruct (el1_irq _ s1) as [[[|] s2]| |] eqn:E2; try done. destruct (drive 6 _ s2) as [[p3 s3]| |] eqn:E3; try done.
  destruct (el1_irq _ s3) as [[[|] s4]| |] eqn:E4; try done.
  destruct (exec p3 s4) as [[r s5]| |] eqn:E5; try done.
  assert (r = Some (Started 0x6000 8)) as -> by (repeat case_match; congruence).
  apply andb_prop in H as [[H1%Z.eqb_eq H2]%andb_prop H3].
  destruct (preemption_safe head0 init0 fork0 return0 layout0 [t1; t2] [t2; t1] ltac:(done) race_start
    (Conf s5 (Done (Some (Started 0x6000 8))) (push (cur s1) prg ∅))) as (He & _ & _ & Hg).
  - two_tasks.
  - intros p' _ E. change (({[init0 := FromSchedule]} : gmap Z caller) !! p' = Some FromPreempt) in E.
    by apply lookup_singleton_Some in E as [_ ?].
  - eapply rtc_l; [by apply (c_call _ _ _ _ _ _ Schedule)|]. etransitivity; [by eapply drive_steps|].
    eapply rtc_l; [by eapply c_preempt|]. etransitivity; [by eapply drive_steps|].
    eapply rtc_l; [by eapply c_irq|]. by eapply exec_steps.
  - exists s3, (Conf s5 (Done (Some (Started 0x6000 8))) (push (cur s1) prg ∅)), prg. split; [exact H3|]. split; [done|].
    split; [cbn [later]; by rewrite stack_push, decide_True|]. split; [exact He|]. by apply Hg.
Defined.
End Witness.

End Preempt.
