(* ===== verification/Main.v ===== *)
(** * The boot sequence

    [kernel_main] and [print_segment] of [init/main.c], over the state of all components:
    the kernel's data, memory, the system and device registers and one list of
    messages, sent to the serial port as they are printed; and the whole way from reset to the last loop, with the
    boot code of [Boot] before it and the image that the linker script gives. *)

From S2P Require Import Prelude Base Mem Klist Printk Uart PageAlloc Pgtable Mmu PtWalk MmuMap MmuBoot Sched SchedInv Fork Gic Devices Arm Entry Boot Lds.

Module Main.

(** The frames and the messages are those of the scheduler's state. *)
Record kernel : Type := Kernel {
  sched : Sched.ks;
  ram : mem;
  trace : list Mmu.sysev;
  mmfr0 : Z;
  gic_data : list Gic.gic_chip_data;
  cntp_ctl : Z;
  cntp_tval : Z;
  cntfrq : Z;
  hist : list access;
}.

Definition sched_lens : lens kernel Sched.ks :=
  Lens sched (fun x k => Kernel x (ram k) (trace k) (mmfr0 k) (gic_data k) (cntp_ctl k) (cntp_tval k) (cntfrq k) (hist k)).
Definition log_lens : lens kernel (list call) :=
  Lens (fun k => Sched.klog (sched k)) (fun l k => lset sched_lens (Sched.with_klog (sched k) l) k).
Definition hist_lens : lens kernel (list access) :=
  Lens hist (fun h k => Kernel (sched k) (ram k) (trace k) (mmfr0 k) (gic_data k) (cntp_ctl k) (cntp_tval k) (cntfrq k) h).
Definition mach_lens : lens kernel Mmu.mach :=
  Lens (fun k => Mmu.Mach (ram k) (Sched.frames (sched k)) (trace k) (mmfr0 k) (Sched.klog (sched k)))
       (fun m k => Kernel (Sched.with_klog (Sched.with_frames (sched k) (Mmu.frames m)) (Mmu.klog m))
                          (Mmu.ram m) (Mmu.trace m) (Mmu.mmfr0 m)
                          (gic_data k) (cntp_ctl k) (cntp_tval k) (cntfrq k) (hist k)).
Definition gst_lens : lens kernel Gic.gst :=
  Lens (fun k => Gic.Gst (gic_data k) (cntp_ctl k) (cntp_tval k) (cntfrq k) (hist k) (Sched.klog (sched k)))
       (fun g k => Kernel (Sched.with_klog (sched k) (Gic.klog g)) (ram k) (trace k) (mmfr0 k)
                          (Gic.gic_data g) (Gic.cntp_ctl g) (Gic.cntp_tval g) (Gic.cntfrq g) (Gic.hist g)).

(** The symbols of the linker script that [print_segment] prints, beyond those of [image]. *)
Record segments : Type := Segments {
  _etext_boot : Z;
  _text : Z;
  _rodata : Z;
  _erodata : Z;
  _data : Z;
  _edata : Z;
  _bss : Z;
  _ebss : Z;
}.

Definition printk (fmt : string) (a : list varg) : M (list call) unit := modify (fun l => l ++ [(fmt, a)]).

Section Main.
Context (dev : list access -> Z -> Z) (patience : nat) (rq_head init_task ret_from_fork switch_return : Z).
Context (im : Mmu.image) (sg : segments).

Definition print_range (fmt : string) (a b : Z) : M (list call) unit :=
  printk fmt [VNum a; VNum b; VNum (u64 (b - a))].

Definition print_segment : M (list call) unit :=
  printk ("YiOS image layout:" +:+ nl) [];;
  print_range ("  .text.boot: 0x%08lx - 0x%08lx (%6ld B)" +:+ nl) (Mmu._text_boot im) (_etext_boot sg);;
  print_range ("       .text: 0x%08lx - 0x%08lx (%6ld B)" +:+ nl) (_text sg) (Mmu._etext im);;
  print_range ("     .rodata: 0x%08lx - 0x%08lx (%6ld B)" +:+ nl) (_rodata sg) (_erodata sg);;
  print_range ("       .data: 0x%08lx - 0x%08lx (%6ld B)" +:+ nl) (_data sg) (_edata sg);;
  print_range ("        .bss: 0x%08lx - 0x%08lx (%6ld B)" +:+ nl) (_bss sg) (_ebss sg).

Definition timer_freq : M kernel Z := gets cntfrq.

(** Sends the text of a call of [printk] to the serial port. *)
Definition send_call (c : call) : M (list access) unit :=
  Printk.printk (Uart.putchar dev patience) c.1 c.2;; mret tt.

Fixpoint say (cs : list call) : M (list access) unit :=
  match cs with [] => mret tt | c :: cs => send_call c;; say cs end.

(** A component that keeps the calls of [printk] it makes, and accesses no device after the first of
    them: they are sent when it returns. *)
Definition spoken {A} (m : M kernel A) : M kernel A :=
  n ← gets (fun k => length (Sched.klog (sched k)));
  a ← m;
  l ← gets (fun k => drop n (Sched.klog (sched k)));
  zoom hist_lens (say l);;
  mret a.

(** The [printk] of the interrupt controller, which is in the middle of accesses to its registers. *)
Definition gic_printk (fmt : string) (a : list varg) : M Gic.gst unit :=
  Gic.printk fmt a;;
  zoom Gic.gst_hist (send_call (fmt, a)).

(** [kernel_main] up to its last loop. *)
Definition kernel_boot : M kernel unit :=
  zoom hist_lens (Uart.uart_init dev);;
  spoken (zoom log_lens print_segment);;
  spoken (zoom log_lens (PageAlloc.mem_init (_ebss sg) TOTAL_MEMORY));;
  zoom sched_lens (Sched.sched_init rq_head);;
  f ← timer_freq;
  spoken (zoom log_lens (printk ("freq: %llu" +:+ nl) [VNum f]));;
  _ ← zoom gst_lens (Gic.gic_init_with dev gic_printk 0 GIC_V2_DISTRIBUTOR_BASE GIC_V2_CPU_INTERFACE_BASE);
  zoom gst_lens Gic.timer_init;;
  zoom sched_lens Sched.raw_local_irq_enable;;
  spoken (zoom mach_lens (Mmu.paging_init im)).

Definition kernel_main (fuel : nat) : M kernel unit :=
  kernel_boot;;
  loop fuel (fun _ => mret (inl tt)) tt.

(** The machine as the boot code hands it over: [.bss] is zero, [.data] as initialised. *)
Definition power_on (c : Sched.cpu_state) (m : mem) (mmfr freq : Z) (h : list access) : kernel :=
  Kernel (Sched.Ks ∅ {[init_task := Sched.init_task_value init_task]} ∅ (Sched.RunQueue 0 0 0)
            (Sched.g_task_value init_task) PageAlloc.mem_map_init c ∅ [])
         m [] mmfr [Gic.GicChipData 0 0 0] 0 0 freq h.

(** The same from the processor's state when [start.S] calls [kernel_main]. *)
Definition hand_over (s : Arm.machine) : kernel :=
  power_on (Sched.Cpu (Entry.context_list (Entry.context_regs s)) (Arm.sysreg s "sp_el0") (negb (Z.testbit (Arm.pstate s) 7)))
    (Arm.ram s) (Arm.sysreg s "id_aa64mmfr0_el1") (Arm.sysreg s "cntfrq_el0") (Arm.hist s).

End Main.
(** ** Properties *)

Lemma uart_init_runs dev h : exists h', Uart.uart_init dev h = Ret (tt, h').
Proof. eexists. unfold Uart.uart_init, mbind, M_bind, readl, writel, modify. reflexivity. Qed.

Lemma zoom_gst_seq {A B} (a : M Gic.gst A) (f : A -> M Gic.gst B) k (Q : B -> kernel -> Prop) :
  wp (zoom gst_lens (a ≫= f)) k Q -> wp (x ← zoom gst_lens a; zoom gst_lens (f x)) k Q.
Proof.
  unfold wp, zoom, mbind, M_bind. destruct (a (lget gst_lens k)) as [[x g]| |]; [|done|done].
  destruct g. done.
Qed.

Ltac message gs :=
  apply (Printk.printable_segs _ gs []);
  [reflexivity | by apply Printk.seg_okb_ok | apply Nat.ltb_lt; reflexivity].

Lemma range_printable (s : string) a b :
  Forall Printk.seg_ok [Printk.Text (Printk.bytes s)] -> (length (Printk.bytes s) <= 20)%nat ->
  Printk.printable (s +:+ "0x%08lx - 0x%08lx (%6ld B)" +:+ nl, [VNum a; VNum b; VNum (u64 (b - a))]).
Proof.
  intros Hs Hl.
  apply (Printk.printable_segs _ [Printk.Text (Printk.bytes s); Printk.Text (Printk.bytes "0x"); Printk.Num true 8 Printk.Ql Printk.Kx a;
    Printk.Text (Printk.bytes " - 0x"); Printk.Num true 8 Printk.Ql Printk.Kx b; Printk.Text (Printk.bytes " (");
    Printk.Num false 6 Printk.Ql Printk.Kd (u64 (b - a)); Printk.Text (Printk.bytes (" B)" +:+ nl))] []).
  - rewrite Printk.bytes_app. reflexivity.
  - apply Forall_cons in Hs as [Hs _]. apply Forall_cons. split; [done|]. by apply Printk.seg_okb_ok.
  - cbn [sum_list_with Printk.seg_bound].
    replace (length (Printk.bytes "0x")) with 2%nat by done. replace (length (Printk.bytes " - 0x")) with 5%nat by done.
    replace (length (Printk.bytes " (")) with 2%nat by done. replace (length (Printk.bytes (" B)" +:+ nl))) with 4%nat by done.
    lia.
Qed.

(** The messages of the boot. *)
Definition range_message (fmt : string) (a b : Z) : call := (fmt, [VNum a; VNum b; VNum (u64 (b - a))]).

Definition segment_messages (im : Mmu.image) (sg : segments) : list call :=
  [("YiOS image layout:" +:+ nl, []);
   range_message ("  .text.boot: 0x%08lx - 0x%08lx (%6ld B)" +:+ nl) (Mmu._text_boot im) (_etext_boot sg);
   range_message ("       .text: 0x%08lx - 0x%08lx (%6ld B)" +:+ nl) (_text sg) (Mmu._etext im);
   range_message ("     .rodata: 0x%08lx - 0x%08lx (%6ld B)" +:+ nl) (_rodata sg) (_erodata sg);
   range_message ("       .data: 0x%08lx - 0x%08lx (%6ld B)" +:+ nl) (_data sg) (_edata sg);
   range_message ("        .bss: 0x%08lx - 0x%08lx (%6ld B)" +:+ nl) (_bss sg) (_ebss sg)].

Definition free_pages (sg : segments) : Z := (TOTAL_MEMORY / 4096 * 4096 - PAGE_BALIGN (_ebss sg)) / 4096.

Definition memory_message (n : Z) : call := ("Memory: %uKB available, %u free pages" +:+ nl, [VNum (4 * n); VNum n]).
Definition freq_message (f : Z) : call := ("freq: %llu" +:+ nl, [VNum f]).
Definition mmu_message : call := ("enable mmu done" +:+ nl, []).

Definition boot_messages (im : Mmu.image) (sg : segments) (freq irqs : Z) : list call :=
  segment_messages im sg ++ [memory_message (free_pages sg)] ++ [freq_message freq] ++
  [Gic.gic_message GIC_V2_DISTRIBUTOR_BASE GIC_V2_CPU_INTERFACE_BASE irqs] ++ [mmu_message].

(** What reaches the port of them. *)
Definition texts (cs : list call) : list Z :=
  concat ((fun c => Printk.crlf (default [] (Printk.format c.1 c.2))) <$> cs).

Lemma texts_app c1 c2 : texts (c1 ++ c2) = texts c1 ++ texts c2.
Proof. unfold texts. by rewrite fmap_app, concat_app. Qed.

Lemma segment_printable im sg : Forall Printk.printable (segment_messages im sg).
Proof.
  repeat (apply Forall_cons; split); [message [Printk.Text (Printk.bytes ("YiOS image layout:" +:+ nl))]|..|done].
  - apply (range_printable "  .text.boot: "); [by apply Printk.seg_okb_ok|by apply Nat.leb_le].
  - apply (range_printable "       .text: "); [by apply Printk.seg_okb_ok|by apply Nat.leb_le].
  - apply (range_printable "     .rodata: "); [by apply Printk.seg_okb_ok|by apply Nat.leb_le].
  - apply (range_printable "       .data: "); [by apply Printk.seg_okb_ok|by apply Nat.leb_le].
  - apply (range_printable "        .bss: "); [by apply Printk.seg_okb_ok|by apply Nat.leb_le].
Qed.

Lemma memory_printable n : Printk.printable (memory_message n).
Proof.
  message [Printk.Text (Printk.bytes "Memory: "); Printk.Num false 0 Printk.Qint Printk.Ku (4 * n);
    Printk.Text (Printk.bytes "KB available, "); Printk.Num false 0 Printk.Qint Printk.Ku n;
    Printk.Text (Printk.bytes (" free pages" +:+ nl))].
Qed.

Lemma freq_printable n : Printk.printable (freq_message n).
Proof. message [Printk.Text (Printk.bytes "freq: "); Printk.Num false 0 Printk.Qll Printk.Ku n; Printk.Text [10]]. Qed.

Lemma mmu_printable : Printk.printable mmu_message.
Proof. message [Printk.Text (Printk.bytes ("enable mmu done" +:+ nl))]. Qed.

Lemma boot_printable im sg freq irqs : Forall Printk.printable (boot_messages im sg freq irqs).
Proof.
  repeat (apply Forall_app; split); [apply segment_printable|apply Forall_singleton..];
    eauto using memory_printable, freq_printable, Gic.gic_message_printable, mmu_printable.
Qed.

Lemma print_segment_eq im sg l : print_segment im sg l = Ret (tt, l ++ segment_messages im sg).
Proof. unfold print_segment, print_range, printk, modify, mbind, M_bind. rewrite <-!app_assoc. reflexivity. Qed.

(** ** Sending messages *)

Section Say.
Context (dev : list access -> Z -> Z) (patience : nat) (Hport : Uart.clears dev patience 5).
Import Devices.

Lemma send_call_serial c T h (P : list access -> Prop) `{!Heard P} :
  Printk.printable c -> serial T h -> P h ->
  wp (send_call dev patience c) h (fun _ h' => serial (T ++ texts [c]) h' /\ P h').
Proof.
  intros (text & E & Hl) (Hw & Hs & Ht) HP. unfold send_call. wp_step.
  eapply wp_mono; [eapply wp_triple; [apply (printk_keeps dev patience P)|exact HP|eapply wp_triple;
    [apply (printk_keeps dev patience in_window)|exact Hw|
     by apply (Printk.printk_fits _ (C := Uart.uart_console dev patience Hport))]]|].
  intros r h' [[(_ & Hs' & Ht') Hw'] HP']. wp_step. split; [|done]. split; [done|]. split; [done|].
  unfold texts. cbn. rewrite E, app_nil_r. cbn. rewrite <-Ht. exact Ht'.
Qed.

Lemma say_serial cs T h (P : list access -> Prop) `{!Heard P} :
  Forall Printk.printable cs -> serial T h -> P h ->
  wp (say dev patience cs) h (fun _ h' => serial (T ++ texts cs) h' /\ P h').
Proof.
  revert T h. induction cs as [|c cs IH]; intros T h Hc Hh HP; cbn [say].
  - wp_step. unfold texts. cbn. by rewrite app_nil_r.
  - apply Forall_cons in Hc as [Hc Hcs]. wp_step. eapply wp_mono; [by apply (send_call_serial c T h P)|]. intros [] h1 [H1 P1].
    eapply wp_mono; [by apply (IH (T ++ texts [c]))|]. intros [] h2 H2. change (c :: cs) with ([c] ++ cs).
    by rewrite texts_app, app_assoc.
Qed.

(** A component that only prints the messages [new], and what it sends. *)
Lemma wp_spoken {A} (m : M kernel A) k Q T (P : list access -> Prop) `{!Heard P} :
  wp m k (fun a k' => serial T (hist k') /\ P (hist k') /\ exists new, Sched.klog (sched k') = Sched.klog (sched k) ++ new /\
    Forall Printk.printable new /\ forall h, serial (T ++ texts new) h -> P h -> Q a (lset hist_lens h k')) ->
  wp (spoken dev patience m) k Q.
Proof.
  intros H. unfold spoken. do 3 wp_step. eapply wp_mono; [exact H|]. intros a k' (HT & HP & new & El & Hp & HQ).
  do 2 wp_step. rewrite El, drop_app_length. do 2 wp_step.
  eapply wp_mono; [by apply (say_serial new T _ P)|]. intros [] h [Hh Ph]. wp_step. by apply HQ.
Qed.

Lemma gic_printk_says c : Printk.printable c -> forall T d,
  triple (gwindow (serial T) d) (gic_printk dev patience c.1 c.2) (fun _ => gwindow (serial (T ++ texts [c])) d).
Proof.
  intros Hc T d g [Hg Hd]. unfold gic_printk, Gic.printk, modify, mbind, M_bind, zoom. cbn [lget lset Gic.gst_hist Gic.hist].
  pose proof (send_call_serial c T (Gic.hist g) (fun _ => True) Hc Hg I) as H. apply wp_elim in H as ([] & h & E & Hh & _).
  destruct c as [fmt a]. cbn [fst snd] in *. rewrite E. by split.
Qed.
End Say.

Lemma sched_init_boot rq_head tk pr gt fr c st l :
  Sched.sched_init rq_head (Sched.Ks ∅ tk pr (Sched.RunQueue 0 0 0) gt fr c st l) =
  Ret (tt, Sched.Ks {[rq_head := Klist.ListHead rq_head rq_head]} tk pr (Sched.RunQueue 0 0 0) gt fr c st l).
Proof.
  assert (Klist.put_prev (Klist.put_next ∅ rq_head rq_head) rq_head rq_head =
          {[rq_head := Klist.ListHead rq_head rq_head]}) as E.
  { unfold Klist.put_prev, Klist.nxt, Klist.node, Klist.put_next. by rewrite lookup_insert_eq, insert_insert_eq. }
  transitivity (Ret (tt, Sched.Ks (Klist.put_prev (Klist.put_next ∅ rq_head rq_head) rq_head rq_head)
    tk pr (Sched.RunQueue 0 0 0) gt fr c st l)); [reflexivity|]. by rewrite E.
Qed.

#[local] Opaque PageAlloc.mem_map_init.

Section Sequence.
Context (dev : list access -> Z -> Z) (patience : nat) (Hport : Uart.clears dev patience 5) (e0 : Z -> bool) (rq_head init_task ret_from_fork switch_return : Z).
Context (im : Mmu.image) (sg : segments).

(** The state when the scheduler is set up: [l] printed, the accesses [h] made. *)
Definition with_sched (r : Sched.cpu_context) (irq : bool) (fr : list Z) (l : list call) (g : Gic.gst) (m : mem)
    (tr : list Mmu.sysev) (mmfr : Z) : kernel :=
  Kernel (Sched.with_klog (Fork.boot rq_head init_task fr r irq) l) m tr mmfr
    (Gic.gic_data g) (Gic.cntp_ctl g) (Gic.cntp_tval g) (Gic.cntfrq g) (Gic.hist g).

(** Up to the interrupt controller. *)
Lemma first_half r irq m mmfr freq h0 T (Q : unit -> kernel -> Prop) :
  0 <= _ebss sg <= TOTAL_MEMORY -> PAGE_BALIGN (_ebss sg) <= TOTAL_MEMORY ->
  Devices.serial T h0 ->
  let l := segment_messages im sg ++ [memory_message (free_pages sg)] ++ [freq_message freq] in
  (forall h, Devices.serial (T ++ texts l) h ->
     wp (_ ← zoom gst_lens (Gic.gic_init_with dev (gic_printk dev patience) 0 GIC_V2_DISTRIBUTOR_BASE GIC_V2_CPU_INTERFACE_BASE);
         zoom gst_lens Gic.timer_init;;
         zoom sched_lens Sched.raw_local_irq_enable;;
         spoken dev patience (zoom mach_lens (Mmu.paging_init im)))
        (with_sched r irq PageAlloc.mem_map_init l (Gic.Gst [Gic.GicChipData 0 0 0] 0 0 freq h []) m [] mmfr) Q) ->
  wp (kernel_boot dev patience rq_head im sg) (power_on init_task (Sched.Cpu r init_task irq) m mmfr freq h0) Q.
Proof.
  intros Hs Hb Hw l HQ. unfold kernel_boot.
  destruct (uart_init_runs dev h0) as [h1 E1]. do 2 wp_step. eapply wp_intro; [exact E1|].
  pose proof (Devices.keeps_use _ _ _ _ _ (Devices.uart_init_keeps dev (Devices.serial T)) Hw E1) as H1.
  wp_step. apply (wp_spoken dev patience Hport _ _ _ T (fun _ => True)), wp_zoom. eapply wp_intro; [apply print_segment_eq|].
  split; [exact H1|]. split; [done|]. exists (segment_messages im sg). split; [reflexivity|]. split; [apply segment_printable|]. intros h2 H2 _.
  wp_step. apply (wp_spoken dev patience Hport _ _ _ (T ++ texts (segment_messages im sg)) (fun _ => True)), wp_zoom.
  eapply wp_intro; [apply PageAlloc.mem_init_eq; unfold TOTAL_MEMORY in *; (done || lia)|].
  split; [exact H2|]. split; [done|]. exists [memory_message (free_pages sg)]. split; [reflexivity|].
  split; [apply Forall_singleton, memory_printable|]. intros h3 H3 _.
  do 2 wp_step. eapply wp_intro; [apply sched_init_boot|].
  wp_step. unfold timer_freq. wp_step. wp_step. apply (wp_spoken dev patience Hport _ _ _
    ((T ++ texts (segment_messages im sg)) ++ texts [memory_message (free_pages sg)]) (fun _ => True)), wp_zoom. unfold printk. wp_step.
  split; [exact H3|]. split; [done|]. exists [freq_message freq]. split; [reflexivity|]. split; [apply Forall_singleton, freq_printable|].
  intros h4 H4 _. rewrite <-!app_assoc, <-!texts_app in H4. specialize (HQ h4 H4). unfold l in HQ.
  rewrite (app_assoc (segment_messages im sg)) in HQ. exact HQ.
Qed.

(** Of the private interrupts the software interrupts and the timer's are enabled. *)
Definition irqs_on (h : list access) : Prop :=
  forall j, 0 <= j < 32 -> Gic.enabled e0 GIC_V2_DISTRIBUTOR_BASE h j = (j =? 30) || (j <? 16).

#[local] Instance irqs_on_heard : Devices.Heard irqs_on.
Proof. apply Devices.enabled_heard. Qed.

Lemma second_half r irq m mmfr g l T :
  MmuBoot.image_ok im -> Devices.serial T (Gic.hist g) -> irqs_on (Gic.hist g) ->
  wp (zoom sched_lens Sched.raw_local_irq_enable;; spoken dev patience (zoom mach_lens (Mmu.paging_init im)))
     (with_sched r irq PageAlloc.mem_map_init l g m [] mmfr) (fun _ k =>
    exists fr m' tr mm h, PageAlloc.wf fr /\ Devices.serial (T ++ texts [mmu_message]) h /\ irqs_on h /\
    k = lset hist_lens h (with_sched r true fr (l ++ [mmu_message]) g m' tr mm) /\
    (forall va, 0 <= va < 2 ^ 48 -> Walk.translate m' (Mmu.idmap_pg_dir im) va = MmuBoot.boot_map im va) /\
    exists own, Walk.pt_ok own m' (Mmu.idmap_pg_dir im)).
Proof.
  intros Him HT Hon. do 2 wp_step. unfold Sched.raw_local_irq_enable, Sched.set_irq. wp_step.
  apply (wp_spoken dev patience Hport _ _ _ T irqs_on), wp_zoom.
  eapply wp_mono; [apply MmuBoot.paging_init_eq; [done|exact PageAlloc.wf_init|]|].
  { change (1024 <= Z.of_nat (PageAlloc.free_frames PageAlloc.mem_map_init)).
    rewrite PageAlloc.free_frames_init, Z2Nat.id, NR_PAGES_val by (rewrite NR_PAGES_val; lia). lia. }
  intros [] s' ([Hwf Htree] & Hm & Hk & _). destruct s' as [m' fr tr mm lg]. cbn [Mmu.ram Mmu.frames Mmu.klog] in *.
  split; [exact HT|]. split; [exact Hon|]. exists [mmu_message]. split; [exact Hk|]. split; [apply Forall_singleton, mmu_printable|]. intros h Hh Hon'.
  exists fr, m', tr, mm, h. split; [exact Hwf|]. split; [exact Hh|]. split; [exact Hon'|]. split; [rewrite Hk; reflexivity|]. split; [exact Hm|]. destruct Htree as (own & Hpt & _). by exists own.
Qed.

(** What holds of the kernel from the last loop of [kernel_main] on: the scheduler is in the state its
    reachable states start from, with IRQs unmasked, the page tables map exactly text,
    memory and devices, the timer runs and of the private interrupts only the
    software interrupts and the timer's are enabled, every device access was to a
    word that these tables map to itself as device memory, and every character was sent when there was room for it. *)
Record alive (freq : Z) (k : kernel) : Prop := Alive {
  up_sched : Fork.reachable rq_head init_task ret_from_fork switch_return (Sched.with_klog (sched k) []);
  up_idle : exists fr r, Sched.with_klog (sched k) [] = Fork.boot rq_head init_task fr r true;
  up_map : forall va, 0 <= va < 2 ^ 48 -> Walk.translate (ram k) (Mmu.idmap_pg_dir im) va = MmuBoot.boot_map im va;
  up_tree : exists own, Walk.pt_ok own (ram k) (Mmu.idmap_pg_dir im);
  up_timer : cntp_ctl k = 1 /\ cntp_tval k = 62500000 /\ cntfrq k = freq;
  up_chip : exists n, gic_data k = [Devices.chip n];
  up_gic : irqs_on (hist k);
  up_window : Devices.in_window (hist k);
  up_devices : Forall (fun a => Devices.access_reg a mod 4 = 0 /\
    Walk.translate (ram k) (Mmu.idmap_pg_dir im) (Devices.access_reg a) =
    Some (Devices.access_reg a, Walk.attrs PROT_DEVICE_nGnRnE)) (hist k);
  up_sends : Uart.sends_ok (hist k);
}.

(** When the loop is reached: after [T] the serial port was sent the messages of the boot and nothing else. *)
Record up (T : list Z) (freq : Z) (k : kernel) : Prop := Up {
  up_alive : alive freq k;
  up_output : exists irqs, 32 <= irqs <= 1020 /\ Uart.sent (hist k) = T ++ texts (boot_messages im sg freq irqs);
}.

Lemma window_mapped m h :
  MmuBoot.image_ok im -> (forall va, 0 <= va < 2 ^ 48 -> Walk.translate m (Mmu.idmap_pg_dir im) va = MmuBoot.boot_map im va) ->
  Devices.in_window h ->
  Forall (fun a => Devices.access_reg a mod 4 = 0 /\
    Walk.translate m (Mmu.idmap_pg_dir im) (Devices.access_reg a) = Some (Devices.access_reg a, Walk.attrs PROT_DEVICE_nGnRnE)) h.
Proof.
  intros Him Hm Hh. eapply Forall_impl; [exact Hh|]. cbn beta. intros a Ha. unfold Devices.device_word in Ha.
  apply andb_prop in Ha as [[Ha1 Ha2]%andb_prop Ha3]. apply Z.eqb_eq in Ha1. apply Z.leb_le in Ha2. apply Z.ltb_lt in Ha3.
  split; [exact Ha1|]. destruct (MmuBoot.BALIGN_etext im Him) as (Eb & He & _). unfold TOTAL_MEMORY, PBASE, DEVICE_SIZE in *.
  rewrite Hm by lia. unfold MmuBoot.boot_map. rewrite Eb. unfold TOTAL_MEMORY, PBASE, DEVICE_SIZE.
  rewrite decide_False by lia. rewrite decide_False by lia. by rewrite decide_True by lia.
Qed.

Lemma gic_printk_freq f fmt a : Devices.keeps (fun g => Gic.cntfrq g = f) (gic_printk dev patience fmt a).
Proof.
  unfold gic_printk, Gic.printk. apply Devices.keeps_bind; [by apply Devices.keeps_modify|intros _]. apply Devices.gst_hist_freq.
Qed.

(** [gic_init] and [timer_init], with the message in between sent to the port. *)
Lemma gic_half freq h l T g0 (Q : unit -> Gic.gst -> Prop) :
  g0 = Gic.Gst [Gic.GicChipData 0 0 0] 0 0 freq h l -> Devices.serial T h ->
  (forall g irqs, 32 <= irqs <= 1020 -> Gic.cntp_ctl g = 1 -> Gic.cntp_tval g = 62500000 -> Gic.cntfrq g = freq ->
     Gic.gic_data g = [Devices.chip irqs] -> irqs_on (Gic.hist g) ->
     let c := Gic.gic_message GIC_V2_DISTRIBUTOR_BASE GIC_V2_CPU_INTERFACE_BASE irqs in
     Gic.klog g = l ++ [c] -> Devices.serial (T ++ texts [c]) (Gic.hist g) -> Q tt g) ->
  wp (Gic.gic_init_with dev (gic_printk dev patience) 0 GIC_V2_DISTRIBUTOR_BASE GIC_V2_CPU_INTERFACE_BASE;; Gic.timer_init) g0 Q.
Proof.
  intros -> HT HQ. set (g0 := Gic.Gst _ _ _ _ _ _).
  set (msg := Gic.gic_message GIC_V2_DISTRIBUTOR_BASE GIC_V2_CPU_INTERFACE_BASE).
  assert (forall c, Printk.printable c -> Gic.says (gic_printk dev patience) c) as Hsays.
  { intros c (text & Et & Hl) g. unfold gic_printk, Gic.printk. do 3 wp_step. unfold send_call. wp_step. destruct c as [fmt a].
    eapply wp_mono; [by apply (Printk.printk_fits _ (C := Uart.any_console dev patience Hport) fmt a text)|].
    intros r h' _. by wp_step. }
  eapply wp_mono; [eapply Devices.wp_triple; [apply (Devices.gic_timer_freq dev freq); intros fmt a g Hg; apply gic_printk_freq, Hg|reflexivity|];
    eapply Devices.wp_triple;
    [apply (Devices.gic_timer_window dev (Devices.serial T) (fun n => Devices.serial (T ++ texts [msg n])))|split; [exact HT|reflexivity]|
     eapply (Gic.timer_init_run dev e0 (gic_printk dev patience) g0); [reflexivity|apply Hsays, Gic.gic_message_printable]]|].
  { intros n d c. apply (gic_printk_says dev patience Hport c), Gic.gic_message_printable. }
  cbn beta. fold msg. intros [] g [[(C1 & C2 & _ & He & Hk & Hd) (n & Hg & Hd')] Hfr].
  set (n0 := Gic.irqs_of _) in *. rewrite Hd in Hd'. injection Hd' as <-.
  assert (32 <= n0 <= 1020) as Hn.
  { unfold n0, Gic.irqs_of. set (v := u32 _). pose proof (Z.mod_pos_bound v 32). lia. }
  apply (HQ g n0 Hn C1 C2 Hfr Hd); [|exact Hk|exact Hg]. intros j Hj. apply He. lia.
Qed.

(** [kernel_main] runs every initialisation to its end and stays in its last loop, for any
    devices, image and free memory that fit. *)
Lemma kernel_main_boots r irq m mmfr freq h0 T :
  MmuBoot.image_ok im -> 0 <= _ebss sg <= TOTAL_MEMORY -> PAGE_BALIGN (_ebss sg) <= TOTAL_MEMORY ->
  Devices.serial T h0 ->
  let k0 := power_on init_task (Sched.Cpu r init_task irq) m mmfr freq h0 in
  exists k, kernel_boot dev patience rq_head im sg k0 = Ret (tt, k) /\
    (forall fuel, kernel_main dev patience rq_head im sg fuel k0 = NoFuel) /\ up T freq k.
Proof.
  intros Him Hs Hb Hw k0.
  assert (forall k, kernel_boot dev patience rq_head im sg k0 = Ret (tt, k) ->
    forall fuel, kernel_main dev patience rq_head im sg fuel k0 = NoFuel) as Hspin.
  { intros k E fuel. unfold kernel_main, mbind, M_bind. rewrite E. induction fuel as [|fuel IH]; [done|exact IH]. }
  enough (wp (kernel_boot dev patience rq_head im sg) k0 (fun _ => up T freq)) as H.
  { apply wp_elim_unit in H as (k & E & H). exists k. split; [exact E|]. split; [by eapply Hspin|exact H]. }
  apply (first_half r irq m mmfr freq h0 T); [done|done|done|]. intros h Hh.
  eapply wp_run; [apply bind_assoc|]. apply wp_bind, zoom_gst_seq, wp_zoom.
  eapply gic_half; [reflexivity|exact Hh|]. intros g irqs Hn C1 C2 Hfr Hd Hon c Hk Hg.
  eapply wp_mono; [apply (second_half r irq m mmfr g (Gic.klog g) _ Him Hg Hon)|].
  intros [] k (fr & m' & tr & mm & h' & Hwf & (Hw' & Hs' & Ht') & Hon' & -> & Hm & Htree).
  split.
  { constructor; [exists fr, r, true; split; [done|apply rtc_refl]|by exists fr, r|exact Hm|exact Htree|by cbn; rewrite C1, C2, Hfr|by exists irqs|exact Hon'|
      exact Hw'|by apply window_mapped|exact Hs']. }
  exists irqs. split; [exact Hn|]. rewrite <-!app_assoc, <-!texts_app, <-!app_assoc in Ht'. exact Ht'.
Qed.
End Sequence.

(** ** From reset, with the image of the linker script *)

Definition linked_segments (o : Lds.objects) : segments :=
  let m := Lds.SECTIONS o in
  Segments (Lds._etext_boot m) (Lds._text m) (Lds._rodata m) (Lds._erodata m) (Lds._data m) (Lds._edata m)
    (Lds._bss m) (Lds._ebss m).

(** What the boot code sends. *)
Definition early_text : list Z :=
  Printk.bytes "Booting at EL" ++ [0] ++ Printk.bytes "2" ++ [10] ++ Printk.bytes "- Switch to EL1 -" ++ [0; 10].

(** From reset through the boot code and [kernel_main]. *)
Lemma reset_runs dev e0 patience fuel idle ret o f s :
  Uart.clears dev patience 5 -> (20 < fuel)%nat -> Lds.fits o -> Lds.placed o f ->
  length (Arm.x s) = 31%nat -> Boot.hist_ok (Arm.hist s) ->
  Str.cstring_at (Arm.ram s) (Lds.el_string1 o) Boot.el_text -> Str.cstring_at (Arm.ram s) (Lds.boot_string o) Boot.boot_text ->
  Z.land (Arm.sysreg s "mpidr_el1") 0xFF = 0 -> Boot.current_el s = Boot.CurrentEL_EL2 ->
  let init_task := Lds.init_task o f in let rq_head := Lds.rq_head o f in
  let im := Lds.image o in let sg := linked_segments o in
  exists s1 k, Boot._start dev patience fuel idle (Lds.links o f) ret s = Ret (Boot.KernelMain, s1) /\
    kernel_boot dev patience rq_head im sg (hand_over init_task s1) = Ret (tt, k) /\
    (forall n, kernel_main dev patience rq_head im sg n (hand_over init_task s1) = NoFuel) /\
    up e0 rq_head init_task (Lds.ret_from_fork o f) (Lds.switch_return o f) im sg
      (Uart.sent (Arm.hist s) ++ early_text) (Arm.sysreg s "cntfrq_el0") k.
Proof.
  intros Hp Hf Ho Hpl Hl Hh He1 He2 Hm He init_task rq_head im sg.
  pose proof (Lds.links_linked o f Ho Hpl _ He1 He2) as Hok.
  pose proof (Boot.start_runs dev patience fuel idle (Lds.links o f) ret Hp Hf s Hl Hh Hok Hm He) as H.
  apply wp_elim in H as (e & s1 & E & -> & _ & Hps & Hsys & _ & [Hs1 Hw1] & Ht1).
  exists s1. unfold hand_over. rewrite (Hsys "sp_el0"), Hps, decide_True by done.
  replace (Arm.sysreg s "cntfrq_el0") with (Arm.sysreg s1 "cntfrq_el0") by (by rewrite (Hsys "cntfrq_el0")).
  destruct (Lds.SECTIONS_laid_out o Ho) as [Hord _ _].
  assert (0 <= _ebss sg <= LOW_MEMORY) as Hb.
  { cbn [_ebss sg linked_segments]. destruct Ho as [Hi _ _]. repeat (apply Forall_cons in Hi as [?%Lds.input_ok_le Hi]). lia. }
  destruct (kernel_main_boots dev patience Hp e0 rq_head init_task (Lds.ret_from_fork o f) (Lds.switch_return o f) im sg
    (Entry.context_list (Entry.context_regs s1)) false (Arm.ram s1) (Arm.sysreg s1 "id_aa64mmfr0_el1")
    (Arm.sysreg s1 "cntfrq_el0") (Arm.hist s1) (Uart.sent (Arm.hist s) ++ early_text)) as (k & Ek & Hk).
  - by apply Lds.image_linked.
  - unfold LOW_MEMORY, TOTAL_MEMORY in *. lia.
  - unfold LOW_MEMORY, TOTAL_MEMORY in *. rewrite PAGE_BALIGN_small by lia. pose proof (Z.div_mod (_ebss sg + 4095) 4096).
    pose proof (Z.mod_pos_bound (_ebss sg + 4095) 4096). lia.
  - split; [exact Hw1|]. split; [exact Hs1|exact Ht1].
  - exists k. split; [exact E|]. split; [exact Ek|exact Hk].
Qed.

(** C5: From reset to the idle loop. Let the image be linked by the script from objects that fit below the
    memory of the page allocator, and let its texts be in memory. The first core, reset into EL2, runs the boot code to the call of
    [kernel_main]; from the machine as the boot code leaves it, [kernel_main] runs every initialisation to its end
    and stays in its last loop, for any devices whose port drains. Then the scheduler is in the state its
    reachable states start from, IRQs are unmasked, the page tables map exactly text, memory and
    devices, the timer runs, of the private interrupts only the software
    interrupts and the timer's are enabled, every device register accessed since reset is an aligned word that
    the tables map to itself as device memory, and what the serial port was sent since reset is the text of the boot
    code followed by the messages of [kernel_main], each character after a poll that saw room for it. *)
Theorem reset_to_idle dev e0 patience fuel idle ret o f s :
  Uart.clears dev patience 5 -> (20 < fuel)%nat -> Lds.fits o -> Lds.placed o f ->
  length (Arm.x s) = 31%nat -> Boot.hist_ok (Arm.hist s) ->
  Str.cstring_at (Arm.ram s) (Lds.el_string1 o) Boot.el_text -> Str.cstring_at (Arm.ram s) (Lds.boot_string o) Boot.boot_text ->
  Z.land (Arm.sysreg s "mpidr_el1") 0xFF = 0 -> Boot.current_el s = Boot.CurrentEL_EL2 ->
  let init_task := Lds.init_task o f in let rq_head := Lds.rq_head o f in
  let im := Lds.image o in let sg := linked_segments o in
  exists s1 k, Boot._start dev patience fuel idle (Lds.links o f) ret s = Ret (Boot.KernelMain, s1) /\
    kernel_boot dev patience rq_head im sg (hand_over init_task s1) = Ret (tt, k) /\
    (forall n, kernel_main dev patience rq_head im sg n (hand_over init_task s1) = NoFuel) /\
    up e0 rq_head init_task (Lds.ret_from_fork o f) (Lds.switch_return o f) im sg
      (Uart.sent (Arm.hist s) ++ early_text) (Arm.sysreg s "cntfrq_el0") k.
Proof. apply reset_runs. Qed.

(** ** Witness *)

(** The objects of [Lds], a first core in EL2 with their texts in memory, and a
    board with a ready serial port and a controller with 256 interrupts. *)
Definition board (h : list access) (a : Z) : Z := if a =? Uart.U_FR_REG then 0x10 else Gic.test_gic h a.

Lemma board_clears : Uart.clears board 1 5.
Proof. intros h. exists 0%nat. split; [lia|]. done. Qed.

Definition reset1 : Arm.machine :=
  Arm.Mc (replicate 31 0) 0 0x80000 0x3c9 {["cntfrq_el0" := 54000000]}
    (store_bytes (store_bytes ∅ 0x87000 (Boot.el_text ++ [0])) 0x8700e (Boot.boot_text ++ [0])) [].

Lemma reset_to_idle_witness :
  exists s1 k irqs, Boot._start board 1 32 0 (Lds.links Lds.objects0 Lds.offsets0) (fun n => 0x80000 + 4 * Z.of_nat n) reset1 =
      Ret (Boot.KernelMain, s1) /\
    kernel_boot board 1 (Lds.rq_head Lds.objects0 Lds.offsets0) (Lds.image Lds.objects0) (linked_segments Lds.objects0)
      (hand_over (Lds.init_task Lds.objects0 Lds.offsets0) s1) = Ret (tt, k) /\
    Uart.sent (hist k) = early_text ++ texts (boot_messages (Lds.image Lds.objects0) (linked_segments Lds.objects0) 54000000 irqs).
Proof.
  destruct (reset_to_idle board (fun _ => true) 1 32 0 (fun n => 0x80000 + 4 * Z.of_nat n) Lds.objects0 Lds.offsets0 reset1
    board_clears ltac:(lia) Lds.fits0 Lds.placed0 eq_refl Boot.hist_ok_nil) as (s1 & k & E & Ek & _ & Hk).
  - split; [by vm_compute|apply (bool_decide_unpack _); by vm_compute].
  - split; [by vm_compute|apply (bool_decide_unpack _); by vm_compute].
  - reflexivity.
  - reflexivity.
  - destruct (up_output _ _ _ _ _ _ _ _ _ _ Hk) as (irqs & _ & Ht).
    exists s1, k, irqs. split; [exact E|]. split; [exact Ek|exact Ht].
Defined.

End Main.
