(* ===== verification/Run.v ===== *)
(** * The running kernel

    Once [kernel_main] is in its last loop, all that happens is interrupts: [el1_irq] of [core/entry.S] around [do_irq],
    over the state of all components, with the messages of the handler sent through the serial port. *)

From S2P Require Import Prelude Base Mem Printk Uart PageAlloc Mmu PtWalk MmuBoot Dump Sched Fork Irq Gic Devices Esr Traps Arm Entry Boot Lds Main.
Import Main.

Module Run.

Section Interrupt.
Context (dev : list access -> Z -> Z) (patience : nat) (rq_head init_task ret_from_fork switch_return : Z).

(** Exception entry masks IRQs; [None] is the return to the interrupted code, which restores its processor state. *)
Definition kernel_irq : M kernel (option Sched.resumed) :=
  zoom sched_lens Sched.raw_local_irq_disable;;
  zoom gst_lens (Gic.gic_handle_irq_with dev (gic_printk dev patience));;
  r ← zoom sched_lens (Sched.el1_irq_exit rq_head init_task ret_from_fork switch_return);
  match r with
  | None => zoom sched_lens Sched.raw_local_irq_enable;; mret None
  | Some r => mret (Some r)
  end.

(** The last loop of [kernel_main] with [n] interrupts, and how each of them ended. *)
Fixpoint idle (n : nat) : M kernel (list (option Sched.resumed)) :=
  match n with
  | O => mret []
  | S n => r ← kernel_irq; rs ← idle n; mret (r :: rs)
  end.

(** [dump_pgtable], which reads memory and prints. *)
Definition dump_pgtable (root : Z) : M kernel unit := fun k =>
  match Dump.dump_pgtable (ram k) root (Dump.Dst Dump.pg_level_value []) with
  | Ret (_, d) => zoom hist_lens (say dev patience (Dump.klog d)) k
  | Undef => Undef
  | NoFuel => NoFuel
  end.
End Interrupt.

(** ** Interrupts in the history of accesses *)

(** The numbers acknowledged, and those completed. *)
Definition acks (h : list access) : list Z :=
  omap (fun a => match a with
    | Rd r v => if r =? GIC_V2_CPU_INTERFACE_BASE + Gic.GIC_CPU_INTACK then Some (v mod 1024) else None
    | Wr _ _ => None end) h.
Definition eois (h : list access) : list Z :=
  omap (fun a => match a with
    | Wr r v => if r =? GIC_V2_CPU_INTERFACE_BASE + Gic.GIC_CPU_EOI then Some v else None
    | Rd _ _ => None end) h.

(** The timer's interrupts among them, each with its message. *)
Definition ticks (irqs : list Z) : list Z := filter (fun i => i = Gic.GENERIC_TIMER_IRQ) irqs.
Definition tick_messages (freq : Z) (irqs : list Z) : list call := (fun _ => Gic.timer_message freq) <$> ticks irqs.

Lemma tick_messages_app f l1 l2 : tick_messages f (l1 ++ l2) = tick_messages f l1 ++ tick_messages f l2.
Proof. unfold tick_messages, ticks. by rewrite filter_app, fmap_app. Qed.

Lemma tick_messages_hit f i : i = Gic.GENERIC_TIMER_IRQ -> tick_messages f [i] = [Gic.timer_message f].
Proof. intros ->. done. Qed.
Lemma tick_messages_miss f i : i <> Gic.GENERIC_TIMER_IRQ -> texts (tick_messages f [i]) = [].
Proof. intros H. unfold tick_messages, ticks. by rewrite filter_cons_False. Qed.

(** Accesses since [h0] of which none was to these registers. *)
Definition silent (h0 h : list access) : Prop := exists h', h = h0 ++ h' /\ acks h' = [] /\ eois h' = [].

#[global] Instance silent_heard h0 : Devices.Heard (silent h0).
Proof.
  intros h a Ha (h' & -> & E1 & E2). exists (h' ++ [a]). split; [by rewrite app_assoc|].
  unfold acks, eois in *. rewrite !omap_app, E1, E2. by destruct a as [r v|r v]; destruct Ha as [Ha|Ha]; cbn [Devices.access_reg] in Ha; subst r.
Qed.

#[global] Instance and_heard P Q `{HP : !Devices.Heard P, HQ : !Devices.Heard Q} : Devices.Heard (fun h => P h /\ Q h).
Proof. intros h a Ha [H1 H2]. split; [by apply HP|by apply HQ]. Qed.

Section Running.
Context (dev : list access -> Z -> Z) (patience : nat) (Hport : Uart.clears dev patience 5) (e0 : Z -> bool).
Context (rq_head init_task ret_from_fork switch_return : Z) (im : Mmu.image) (Him : MmuBoot.image_ok im).
Abbreviation alive := (alive e0 rq_head init_task ret_from_fork switch_return im).
Abbreviation irqs_on := (irqs_on e0).

(** Accesses to the processor's interface of the controller leave the enabled interrupts alone. *)
Lemma cpu_access h off v (w : bool) :
  0 <= off < 0x1000 -> irqs_on h -> irqs_on (h ++ [if w then Wr (GIC_V2_CPU_INTERFACE_BASE + off) v else Rd (GIC_V2_CPU_INTERFACE_BASE + off) v]).
Proof.
  intros Ho Hh j Hj. rewrite Gic.enabled_snoc, Hh by done. destruct w; [|done]. apply Gic.enable_step_other; [lia|].
  change GIC_V2_CPU_INTERFACE_BASE with 0xff842000. change GIC_V2_DISTRIBUTOR_BASE with 0xff841000. lia.
Qed.

Lemma cpu_serial T h a :
  Devices.access_reg a = GIC_V2_CPU_INTERFACE_BASE + 0xc \/ Devices.access_reg a = GIC_V2_CPU_INTERFACE_BASE + 0x10 ->
  Devices.serial T h -> Devices.serial T (h ++ [a]).
Proof. intros Ha. apply Devices.unheard. by destruct Ha as [-> | ->]. Qed.

(** What one interrupt does to the controller, the timer and the port. *)
Lemma do_irq_runs g n T freq :
  Gic.gic_data g = [Devices.chip n] -> Gic.cntp_tval g = 62500000 -> Gic.cntfrq g = freq ->
  Devices.serial T (Gic.hist g) -> irqs_on (Gic.hist g) ->
  wp (Gic.gic_handle_irq_with dev (gic_printk dev patience)) g (fun _ g' =>
    Gic.gic_data g' = Gic.gic_data g /\ Gic.cntp_ctl g' = Gic.cntp_ctl g /\ Gic.cntp_tval g' = 62500000 /\ Gic.cntfrq g' = freq /\
    irqs_on (Gic.hist g') /\ exists h i, Gic.hist g' = Gic.hist g ++ h /\ acks h = [i] /\ eois h = [i] /\
      Devices.serial (T ++ texts (tick_messages freq [i])) (Gic.hist g')).
Proof.
  intros Hd Ht Hf HT Hon. apply (Gic.gic_handle_irq_with_run dev (gic_printk dev patience) g (Devices.chip n)); [done|done|done|].
  change (Gic.raw_cpu_base (Devices.chip n)) with GIC_V2_CPU_INTERFACE_BASE.
  set (stat := u32 _). set (i := stat mod 1024). set (a := Rd _ stat). set (e := Wr _ i). set (g1 := Gic.accessed [a] g).
  assert (Devices.serial T (Gic.hist g1)) as HT1 by (apply cpu_serial; [by left|done]).
  assert (irqs_on (Gic.hist g1)) as Hon1 by (by apply (cpu_access _ 0xc stat false)).
  case_decide as Ei.
  - unfold gic_printk, Gic.printk. do 3 wp_step. rewrite Hf.
    set (P := fun h => irqs_on h /\ silent (Gic.hist g1) h).
    eapply wp_mono; [apply (send_call_serial dev patience Hport (Gic.timer_message freq) T (Gic.hist g1) P)|].
    + apply Gic.timer_message_printable.
    + exact HT1.
    + split; [done|]. exists []. by rewrite app_nil_r.
    + intros [] h [Hs [Ho (h' & -> & E1 & E2)]]. split; [exact Hd|]. cbn -[texts tick_messages].
      split; [done|]. split; [done|]. split; [done|]. split; [exact Hf|]. split; [by apply (cpu_access _ 0x10 i true)|].
      exists ([a] ++ h' ++ [e]), i. split; [by rewrite <-!app_assoc|]. unfold acks, eois in *. rewrite !omap_app, E1, E2.
      split; [done|]. split; [done|]. rewrite tick_messages_hit by done. apply cpu_serial; [by right|exact Hs].
  - cbn -[texts tick_messages]. split; [done|]. split; [done|]. split; [done|]. split; [done|]. split; [by apply (cpu_access _ 0x10 i true)|].
    exists [a; e], i. split; [by rewrite <-app_assoc|]. split; [done|]. split; [done|].
    rewrite tick_messages_miss, app_nil_r by done. apply cpu_serial; [by right|done].
Qed.

(** The first task is not preempted. *)
Lemma idle_exit fr r b l :
  let s := Sched.with_klog (Fork.boot rq_head init_task fr r b) l in
  Sched.el1_irq_exit rq_head init_task ret_from_fork switch_return s = Ret (None, s).
Proof.
  intros s. unfold Sched.el1_irq_exit, Sched.current, Sched.field, gets, mbind, M_bind, mret, M_ret. destruct (negb _); [done|].
  change (Sched.task s) with (Sched.task (Fork.boot rq_head init_task fr r b)). by rewrite Irq.boot_quiet.
Qed.

Lemma kernel_irq_runs k T freq :
  alive freq k -> Uart.sent (hist k) = T ->
  wp (kernel_irq dev patience rq_head init_task ret_from_fork switch_return) k (fun r k' => r = None /\ alive freq k' /\
    ram k' = ram k /\ exists h i, hist k' = hist k ++ h /\ acks h = [i] /\ eois h = [i] /\
      Uart.sent (hist k') = T ++ texts (tick_messages freq [i])).
Proof.
  intros [Hr (fr & r & Ei) Hm Htr (C1 & C2 & C3) (n & Hd) Hon Hw _ Hs] HT.
  assert (Devices.serial T (hist k)) as HS by done.
  destruct k as [s m tr mm gd ct tv fq h0]. cbn [sched ram cntp_ctl cntp_tval cntfrq gic_data hist] in *.
  rewrite Ei in Hr. assert (s = Sched.with_klog (Fork.boot rq_head init_task fr r true) (Sched.klog s)) as Es by (rewrite <-Ei; by destruct s).
  unfold kernel_irq, Sched.raw_local_irq_disable, Sched.raw_local_irq_enable, Sched.set_irq. do 5 wp_step.
  eapply wp_mono; [by apply (do_irq_runs _ n T freq)|]. cbn [lget gst_lens Gic.gic_data Gic.cntp_ctl Gic.hist hist].
  intros [] g' (D1 & D2 & D3 & D4 & Hon' & h & i & Eh & Ea & Ee & Hs').
  do 2 wp_step. cbn [lget sched_lens lset gst_lens sched]. rewrite Es. eapply wp_intro; [apply (idle_exit fr r false)|].
  wp_steps. split; [done|]. cbn [sched ram hist lset sched_lens].
  destruct Hs' as (Hw' & Hs' & Ht'). split; [|split; [done|by exists h, i]]. cbn in D1, D2.
  constructor; cbn [sched ram gic_data cntp_ctl cntp_tval cntfrq hist lset lget sched_lens gst_lens]; [exact Hr| |exact Hm|exact Htr| | |exact Hon'|exact Hw'|by apply window_mapped|exact Hs'].
  - by exists fr, r.
  - by rewrite D2, D3, D4.
  - exists n. by rewrite D1.
Qed.

Lemma idle_runs n k T freq :
  alive freq k -> Uart.sent (hist k) = T ->
  wp (idle dev patience rq_head init_task ret_from_fork switch_return n) k (fun rs k' => rs = replicate n None /\ alive freq k' /\
    ram k' = ram k /\ exists h, hist k' = hist k ++ h /\ length (acks h) = n /\ eois h = acks h /\
      Uart.sent (hist k') = T ++ texts (tick_messages freq (acks h))).
Proof.
  revert k T. induction n as [|n IH]; intros k T Ha HT; cbn [idle].
  { wp_step. split; [done|]. split; [done|]. split; [done|]. exists []. rewrite !app_nil_r. done. }
  wp_step. eapply wp_mono; [by apply (kernel_irq_runs k T freq)|].
  intros r k1 (-> & Ha1 & Em1 & h1 & i & Eh1 & Ea1 & Ee1 & Ht1). wp_step. eapply wp_mono; [by apply IH|].
  intros rs k2 (-> & Ha2 & Em2 & h2 & Eh2 & El2 & Ee2 & Ht2). wp_step. split; [done|]. split; [done|].
  split; [by rewrite Em2|]. exists (h1 ++ h2). split; [by rewrite Eh2, Eh1, app_assoc|].
  unfold acks, eois in *. rewrite !omap_app, Ea1, Ee1, Ee2. split; [cbn; by rewrite El2|]. split; [done|].
  rewrite Ht2, tick_messages_app, texts_app, app_assoc. done.
Qed.

(** Messages sent while the kernel runs. *)
Lemma say_alive cs k freq :
  alive freq k -> Forall Printk.printable cs ->
  wp (zoom hist_lens (say dev patience cs)) k (fun _ k' => alive freq k' /\ ram k' = ram k /\
    Uart.sent (hist k') = Uart.sent (hist k) ++ texts cs).
Proof.
  intros [Hr Hi Hm Htr Ht Hc Hon Hw _ Hs] Hcs. wp_step.
  eapply wp_mono; [by apply (say_serial dev patience Hport cs (Uart.sent (hist k)) (hist k) irqs_on)|].
  intros [] h [(Hw' & Hs' & Ht') Hon']. split; [|done].
  constructor; cbn [sched ram gic_data cntp_ctl cntp_tval cntfrq hist lset hist_lens]; try done. by apply window_mapped.
Qed.

(** C25: The dump of the page tables tells the truth. Called at any time once the kernel is up, [dump_pgtable] returns, the kernel goes
    on as before, and the serial port was sent the lines of entries that follow each other without a gap from address 0 to
    the end of memory; and each entry shows the page or block descriptor, never a table, at which the walk of its range ends, which
    by itself maps every address of the range as the boot mapping of text and memory says. *)
Theorem dump_sent k freq :
  alive freq k ->
  exists es k', dump_pgtable dev patience (Mmu.idmap_pg_dir im) k = Ret (tt, k') /\ alive freq k' /\
    Uart.sent (hist k') = Uart.sent (hist k) ++ texts (concat (Dump.lines <$> es)) /\
    Dump.chain 0 es TOTAL_MEMORY /\
    forall start end_ level v va, (start, end_, level, v) ∈ es -> start <= va < end_ ->
      (level < 4 -> v mod 4 <> 3) /\
      (let block := 2 ^ Walk.shift (Z.to_nat (4 - level)) in (end_ - 1) / block = start / block) /\
      Dump.leaf level v va = MmuBoot.boot_map im va.
Proof.
  intros Ha. destruct (up_tree _ _ _ _ _ _ _ _ Ha) as [own Hpt].
  destruct (Dump.dump_pgtable_run (ram k) (Mmu.idmap_pg_dir im) own Hpt []) as (es & E & C & F & P).
  pose proof (say_alive _ k freq Ha P) as H. apply wp_elim in H as ([] & k' & Es & Ha' & _ & Ht).
  exists es, k'. split; [unfold dump_pgtable; by rewrite E|]. split; [done|]. split; [done|]. split; [done|].
  intros start end_ level v va Hin Hva. rewrite Forall_forall in F. destruct (F _ Hin) as (_ & Hnt & Hb & Hw).
  split; [exact Hnt|]. split; [exact Hb|]. rewrite <-Hw by done. apply (up_map _ _ _ _ _ _ _ _ Ha).
  destruct (Dump.chain_bounds _ _ _ C) as [_ Hc]. apply Hc in Hin. change TOTAL_MEMORY with 0x20000000 in *. lia.
Qed.

End Running.

(** C6: The life of the kernel. From reset as in the run to the idle loop, let [n] interrupts be taken in the last loop of
    [kernel_main]. Each of them returns to the loop and preempts nothing; all of what held when the loop was reached holds
    again: the scheduler's state, the page tables, the timer, which is armed, the enabled interrupts, the device accesses.
    The controller was asked for a number once per interrupt, and each number was given back as completed, in
    the same order. And the serial port was sent, since reset, the text of the boot code, the messages of
    [kernel_main] and one message for every interrupt of the timer, no character of it into a full FIFO. *)
Theorem runs_forever dev e0 patience fuel spin ret o f s n :
  Uart.clears dev patience 5 -> (20 < fuel)%nat -> Lds.fits o -> Lds.placed o f ->
  length (Arm.x s) = 31%nat -> Boot.hist_ok (Arm.hist s) ->
  Str.cstring_at (Arm.ram s) (Lds.el_string1 o) Boot.el_text -> Str.cstring_at (Arm.ram s) (Lds.boot_string o) Boot.boot_text ->
  Z.land (Arm.sysreg s "mpidr_el1") 0xFF = 0 -> Boot.current_el s = Boot.CurrentEL_EL2 ->
  let init_task := Lds.init_task o f in let rq_head := Lds.rq_head o f in
  let ret_from_fork := Lds.ret_from_fork o f in let switch_return := Lds.switch_return o f in
  let im := Lds.image o in let sg := linked_segments o in let freq := Arm.sysreg s "cntfrq_el0" in
  exists s1 k k' irqs h, Boot._start dev patience fuel spin (Lds.links o f) ret s = Ret (Boot.KernelMain, s1) /\
    kernel_boot dev patience rq_head im sg (hand_over init_task s1) = Ret (tt, k) /\
    idle dev patience rq_head init_task ret_from_fork switch_return n k = Ret (replicate n None, k') /\
    alive e0 rq_head init_task ret_from_fork switch_return im freq k' /\
    hist k' = hist k ++ h /\ length (acks h) = n /\ eois h = acks h /\
    Uart.sent (hist k') = Uart.sent (Arm.hist s) ++ early_text ++ texts (boot_messages im sg freq irqs) ++
      texts (tick_messages freq (acks h)).
Proof.
  intros Hp Hf Ho Hpl Hl Hh He1 He2 Hm He init_task rq_head ret_from_fork switch_return im sg freq.
  destruct (reset_runs dev e0 patience fuel spin ret o f s Hp Hf Ho Hpl Hl Hh He1 He2 Hm He)
    as (s1 & k & E & Ek & _ & Hk & irqs & _ & Ht).
  pose proof (idle_runs dev patience Hp e0 rq_head init_task ret_from_fork switch_return im
    ltac:(by apply Lds.image_linked) n k _ freq Hk eq_refl) as H.
  apply wp_elim in H as (rs & k' & Er & -> & Ha & _ & h & Eh & El & Ee & Ht').
  exists s1, k, k', irqs, h. split; [exact E|]. split; [exact Ek|]. split; [exact Er|]. split; [exact Ha|].
  split; [exact Eh|]. split; [exact El|]. split; [exact Ee|]. by rewrite Ht', Ht, <-!app_assoc.
Qed.

(** ** An exception that is not handled *)

Section Crash.
Context (dev : list access -> Z -> Z) (patience : nat).

(** [do_bad_mode], called by the stubs of [entry.S] with its arguments in x1 and x2, up to [panic]. Its effect is on the
    device accesses: the memory of [Arm] does not hold the frames of the C functions on the stack nor the
    buffer [print_buf], which they write too, so nothing is said of memory after it. *)
Definition bad_mode_report : M Arm.machine unit := fun s =>
  match Traps.report (Arm.sysreg s "far_el1") (s32 (Arm.xreg s 1)) (u32 (Arm.xreg s 2)) [] with
  | Ret (_, calls) => zoom Arm.hist_lens (say dev patience calls) s
  | Undef => Undef
  | NoFuel => NoFuel
  end.

Definition do_bad_mode (fuel : nat) : M Arm.machine unit :=
  bad_mode_report;;
  loop fuel (fun _ => mret (inl tt)) tt.

(** C24: A crash is reported. Every exception without a handler, taken at any instruction, ends in [do_bad_mode]; unless the
    fault code is past the table, the report, which names the kind of the exception, the address and the fields of the
    syndrome, is sent to the serial port in full, each character when there is room for it, and only then the machine
    stops, with interrupts masked. The code of the vectors up to the call of [do_bad_mode] writes no memory. *)
Theorem crash_reported do_sync do_irq preempt_schedule_irq here e k s T :
  Uart.clears dev patience 5 -> Entry.handled e k = false -> Arm.wf s -> Devices.serial T (Arm.hist s) ->
  let esr := u32 (Arm.sysreg s "esr_el1") in
  Traps.overrun esr = false ->
  exists s1 s2 calls, Entry.exception do_sync do_irq preempt_schedule_irq here e k s = Ret (Entry.BadMode, s1) /\
    Traps.report (Arm.sysreg s "far_el1") (Entry.kind_no k) esr [] = Ret (tt, calls) /\
    Arm.ram s1 = Arm.ram s /\
    bad_mode_report s1 = Ret (tt, s2) /\ Devices.serial (T ++ texts calls) (Arm.hist s2) /\
    Arm.pstate s2 = Entry.MASKED_EL1h /\ forall fuel, do_bad_mode fuel s1 = NoFuel.
Proof.
  intros Hp Hk Hw HT esr Ho.
  destruct (Entry.bad_exception_run do_sync do_irq preempt_schedule_irq here e k s Hk Hw)
    as (s1 & E & _ & R1 & R2 & Em & _ & Eps & _ & Eh & Ef).
  assert (0 <= Entry.kind_no k < 4) as Hr by (destruct k; cbn; lia).
  destruct (Traps.report_says (Arm.sysreg s "far_el1") (Entry.kind_no k) esr (u32_range _) Hr Ho []) as (calls & Ec & Fc).
  assert (bad_mode_report s1 = zoom Arm.hist_lens (say dev patience calls) s1) as Eb.
  { unfold bad_mode_report. rewrite R1, R2, Ef, s32_small by lia. fold esr. by rewrite Ec. }
  pose proof (say_serial dev patience Hp calls T (Arm.hist s1) (fun _ => True) Fc ltac:(by rewrite Eh) I) as H.
  apply wp_elim in H as ([] & h & Es & Hh & _).
  assert (zoom Arm.hist_lens (say dev patience calls) s1 = Ret (tt, lset Arm.hist_lens h s1)) as Ez.
  { unfold zoom. change (lget Arm.hist_lens s1) with (Arm.hist s1). by rewrite Es. }
  exists s1, (lset Arm.hist_lens h s1), calls. split; [exact E|]. split; [exact Ec|]. split; [exact Em|]. rewrite Eb. split; [exact Ez|].
  split; [exact Hh|]. split; [exact Eps|]. intros fuel.
  unfold do_bad_mode, mbind, M_bind. rewrite Eb, Ez. induction fuel as [|fuel IH]; [done|exact IH].
Qed.
End Crash.

(** ** Witnesses *)

Lemma runs_forever_witness :
  exists s1 k k' irqs h, Boot._start board 1 32 0 (Lds.links Lds.objects0 Lds.offsets0) (fun n => 0x80000 + 4 * Z.of_nat n) reset1 =
      Ret (Boot.KernelMain, s1) /\
    idle board 1 (Lds.rq_head Lds.objects0 Lds.offsets0) (Lds.init_task Lds.objects0 Lds.offsets0)
      (Lds.ret_from_fork Lds.objects0 Lds.offsets0) (Lds.switch_return Lds.objects0 Lds.offsets0) 3 k = Ret ([None; None; None], k') /\
    length (acks h) = 3%nat /\ Uart.sent (hist k') = Uart.sent (Arm.hist reset1) ++ early_text ++
      texts (boot_messages (Lds.image Lds.objects0) (linked_segments Lds.objects0) (Arm.sysreg reset1 "cntfrq_el0") irqs) ++
      texts (tick_messages (Arm.sysreg reset1 "cntfrq_el0") (acks h)).
Proof.
  destruct (runs_forever board (fun _ => true) 1 32 0 (fun n => 0x80000 + 4 * Z.of_nat n) Lds.objects0 Lds.offsets0 reset1 3
    board_clears ltac:(lia) Lds.fits0 Lds.placed0 eq_refl Boot.hist_ok_nil) as (s1 & k & k' & irqs & h & E & _ & Ei & _ & _ & El & _ & Ht).
  - split; [by vm_compute|apply (bool_decide_unpack _); by vm_compute].
  - split; [by vm_compute|apply (bool_decide_unpack _); by vm_compute].
  - reflexivity.
  - reflexivity.
  - exists s1, k, k', irqs, h. split; [exact E|]. split; [exact Ei|]. split; [exact El|exact Ht].
Defined.

Lemma dump_sent_witness :
  exists k es k', dump_pgtable board 1 (Mmu.idmap_pg_dir (Lds.image Lds.objects0)) k = Ret (tt, k') /\
    Uart.sent (hist k') = Uart.sent (hist k) ++ texts (concat (Dump.lines <$> es)) /\ Dump.chain 0 es TOTAL_MEMORY.
Proof.
  destruct (reset_runs board (fun _ => true) 1 32 0 (fun n => 0x80000 + 4 * Z.of_nat n) Lds.objects0 Lds.offsets0 reset1
    board_clears ltac:(lia) Lds.fits0 Lds.placed0 eq_refl Boot.hist_ok_nil) as (s1 & k & _ & _ & _ & Hk & _).
  - split; [by vm_compute|apply (bool_decide_unpack _); by vm_compute].
  - split; [by vm_compute|apply (bool_decide_unpack _); by vm_compute].
  - reflexivity.
  - reflexivity.
  - destruct (dump_sent board 1 board_clears (fun _ => true) (Lds.rq_head Lds.objects0 Lds.offsets0) (Lds.init_task Lds.objects0 Lds.offsets0)
      (Lds.ret_from_fork Lds.objects0 Lds.offsets0) (Lds.switch_return Lds.objects0 Lds.offsets0) (Lds.image Lds.objects0)
      (Lds.image_linked _ Lds.fits0) k _ Hk) as (es & k' & E & _ & Ht & C & _).
    exists k, es, k'. split; [exact E|]. split; [exact Ht|exact C].
Defined.

Lemma crash_reported_witness :
  exists s1 s2 calls, Entry.exception Entry.clobber Entry.clobber Entry.clobber (fun _ => 0) Entry.CurrentSPx Entry.Synchronous Entry.running =
      Ret (Entry.BadMode, s1) /\
    bad_mode_report board 1 s1 = Ret (tt, s2) /\ Uart.sent (Arm.hist s2) = texts calls /\ length calls = 9%nat.
Proof.
  destruct (crash_reported board 1 Entry.clobber Entry.clobber Entry.clobber (fun _ => 0) Entry.CurrentSPx Entry.Synchronous Entry.running []
    board_clears eq_refl Entry.running_wf) as (s1 & s2 & calls & E & Ec & _ & Eb & (_ & _ & Ht) & _).
  - split; [constructor|]. split; [apply Boot.hist_ok_nil|done].
  - by vm_compute.
  - exists s1, s2, calls. split; [exact E|]. split; [exact Eb|]. split; [exact Ht|].
    vm_compute in Ec. injection Ec as <-. reflexivity.
Defined.

End Run.
